(** * PyGit (pygit.js): a shallow embedding of the object model and the
      repository commands, with the properties of its specification.

    Conventions of the embedding.
    - A Node [Buffer] is a [list byte].
    - A JavaScript string is a Rocq [string] holding the UTF-8 encoding of
      the text, so [Buffer.from(s)] and [buf.toString()] are the two
      conversions between [string] and [list byte] (texts are assumed to be
      well-formed Unicode, on which the two are inverse).
    - [crypto.createHash('sha1')] is the SHA-1 function of FIPS 180-4,
      written out below on 32-bit words kept in [Z].
    - [zlib.deflateSync] / [zlib.inflateSync] are library functions; they are
      Section variables, and only the law [inflate (deflate x) = x] is used.
    - The file system is a finite map from normalised absolute paths to
      nodes; commands are functions on a world (file system, console). *)

From Stdlib Require Import ZArith NArith Strings.String Strings.Ascii Strings.Byte List Lia Bool.
From Stdlib Require Import Sorting.Sorted Sorting.Permutation.
From stdpp Require Import base option list strings gmap.

Import ListNotations.
Local Open Scope Z_scope.

(** ** Buffers and strings *)

Module Buf.

Definition Buffer := list byte.

(** [Buffer.from(s)] for a string [s] (UTF-8). *)
Definition from (s : string) : Buffer := list_byte_of_string s.

(** [buf.toString()] (UTF-8). *)
Definition toString (b : Buffer) : string := string_of_list_byte b.

Definition byteZ (b : byte) : Z := Z.of_N (Byte.to_N b).

Definition byte_of_Z (z : Z) : byte :=
  match Byte.of_N (Z.to_N (z mod 256)) with
  | Some b => b
  | None => x00
  end.

(** [buf.indexOf(0, from)], as an offset from the start of [b]
    ([None] is JavaScript's -1). *)
Fixpoint indexOf0_from (b : Buffer) (i : nat) : option nat :=
  match b with
  | [] => None
  | c :: rest =>
      if Byte.eqb c x00 then Some i else indexOf0_from rest (S i)
  end.

Definition indexOf0 (b : Buffer) (from : nat) : option nat :=
  indexOf0_from (drop from b) from.

(** [buf.slice(i, j)] for [0 <= i], [0 <= j]. *)
Definition slice (b : Buffer) (i j : nat) : Buffer :=
  take (j - i)%nat (drop i b).

(** [a.compare(b)]: -1, 0 or 1, bytes compared as unsigned numbers. *)
Fixpoint compare (a b : Buffer) : comparison :=
  match a, b with
  | [], [] => Eq
  | [], _ :: _ => Lt
  | _ :: _, [] => Gt
  | x :: a', y :: b' =>
      match N.compare (Byte.to_N x) (Byte.to_N y) with
      | Eq => compare a' b'
      | c => c
      end
  end.

End Buf.

Abbreviation Buffer := Buf.Buffer.

(** ** Hexadecimal text *)

Module Hex.

Definition digit (n : Z) : ascii :=
  if n <? 10 then ascii_of_N (Z.to_N (48 + n))
  else ascii_of_N (Z.to_N (87 + n)).

(** Value of a hexadecimal digit, either case. *)
Definition value (c : ascii) : option Z :=
  let n := Z.of_N (N_of_ascii c) in
  if (48 <=? n) && (n <=? 57) then Some (n - 48)
  else if (97 <=? n) && (n <=? 102) then Some (n - 87)
  else if (65 <=? n) && (n <=? 70) then Some (n - 55)
  else None.

(** [buf.toString('hex')]: two lower-case digits per byte. *)
Fixpoint encode (b : Buffer) : string :=
  match b with
  | [] => EmptyString
  | x :: rest =>
      String (digit (Buf.byteZ x / 16))
        (String (digit (Buf.byteZ x mod 16)) (encode rest))
  end.

(** [Buffer.from(s, 'hex')]: pairs of digits are decoded until the first
    pair that is not hexadecimal; an odd last character is dropped. *)
Fixpoint decode (s : string) : Buffer :=
  match s with
  | String c1 (String c2 rest) =>
      match value c1, value c2 with
      | Some h, Some l => Buf.byte_of_Z (16 * h + l) :: decode rest
      | _, _ => []
      end
  | _ => []
  end.

End Hex.

(** ** Decimal text of numbers *)

Module Num.

Definition digit_char (n : N) : ascii := ascii_of_N (48 + n).

Fixpoint digits (fuel : nat) (n : N) (acc : string) : string :=
  match fuel with
  | O => acc
  | S f =>
      let acc' := String (digit_char (n mod 10)) acc in
      if (n / 10 =? 0)%N then acc' else digits f (n / 10)%N acc'
  end.

(** Decimal digits of a natural number, no leading zero. *)
Definition N_toString (n : N) : string :=
  digits (S (N.to_nat (N.log2 n))) n EmptyString.

(** [`${z}`] for a number whose value is the integer [z]. The numbers of
    the program are doubles: [z] stands for one of them when its magnitude
    is at most 2^53 - 1 (a safe integer), and for these JavaScript prints
    every digit (exponent form starts at 10^21). *)
Definition toString (z : Z) : string :=
  match z with
  | Zneg p => String "-" (N_toString (Npos p))
  | _ => N_toString (Z.to_N z)
  end.

(** [Number.isSafeInteger]: the integers that a double holds exactly,
    with their neighbours. *)
Definition isSafeInteger (z : Z) : bool := Z.abs z <=? 9007199254740991.

End Num.

(** ** SHA-1 (FIPS 180-4) on 32-bit words *)

Module SHA1.

Definition w32 (x : Z) : Z := Z.land x 4294967295.

Definition add32 (x y : Z) : Z := w32 (x + y).

Definition rotl (n x : Z) : Z :=
  w32 (Z.lor (Z.shiftl x n) (Z.shiftr x (32 - n))).

Definition not32 (x : Z) : Z := Z.lxor x 4294967295.

(** Big-endian bytes of the low [n] bytes of [x]. *)
Fixpoint be_bytes (n : nat) (x : Z) : list byte :=
  match n with
  | O => []
  | S m => Buf.byte_of_Z (Z.shiftr x (8 * Z.of_nat m)) :: be_bytes m x
  end.

(** Message padding: 0x80, zeros up to 56 mod 64, the bit length on 8
    bytes. *)
Definition pad (msg : list byte) : list byte :=
  let len := Z.of_nat (length msg) in
  let zeros := Z.to_nat ((55 - len) mod 64) in
  msg ++ [x80] ++ repeat x00 zeros ++ be_bytes 8 (8 * len).

Fixpoint be_word (bs : list byte) (acc : Z) : Z :=
  match bs with
  | [] => acc
  | b :: rest => be_word rest (Z.lor (Z.shiftl acc 8) (Buf.byteZ b))
  end.

(** The big-endian 32-bit words of a block. *)
Fixpoint words (n : nat) (bs : list byte) : list Z :=
  match n with
  | O => []
  | S m => be_word (take 4 bs) 0 :: words m (drop 4 bs)
  end.

Definition nthZ (l : list Z) (i : nat) : Z := nth i l 0.

(** Message schedule, kept newest first: [rev_w] holds W(t-1) .. W(0). *)
Fixpoint schedule (n : nat) (rev_w : list Z) : list Z :=
  match n with
  | O => rev_w
  | S m =>
      let w := rotl 1 (Z.lxor (Z.lxor (nthZ rev_w 2) (nthZ rev_w 7))
                         (Z.lxor (nthZ rev_w 13) (nthZ rev_w 15))) in
      schedule m (w :: rev_w)
  end.

Record state := State { ha : Z; hb : Z; hc : Z; hd : Z; he : Z }.

Definition f (t : nat) (b c d : Z) : Z :=
  if (t <? 20)%nat then Z.lor (Z.land b c) (Z.land (not32 b) d)
  else if (t <? 40)%nat then Z.lxor (Z.lxor b c) d
  else if (t <? 60)%nat then
    Z.lor (Z.lor (Z.land b c) (Z.land b d)) (Z.land c d)
  else Z.lxor (Z.lxor b c) d.

Definition k (t : nat) : Z :=
  if (t <? 20)%nat then 1518500249
  else if (t <? 40)%nat then 1859775393
  else if (t <? 60)%nat then 2400959708
  else 3395469782.

Definition round (s : state) (tw : nat * Z) : state :=
  let '(t, w) := tw in
  let temp :=
    add32 (add32 (add32 (add32 (rotl 5 (ha s)) (f t (hb s) (hc s) (hd s)))
                    (he s)) w) (k t) in
  State temp (ha s) (rotl 30 (hb s)) (hc s) (hd s).

Definition number {A} (l : list A) : list (nat * A) :=
  combine (seq 0 (length l)) l.

Definition block (s : state) (bs : list byte) : state :=
  let w := rev (schedule 64 (rev (words 16 bs))) in
  let r := fold_left round (number w) s in
  State (add32 (ha s) (ha r)) (add32 (hb s) (hb r)) (add32 (hc s) (hc r))
        (add32 (hd s) (hd r)) (add32 (he s) (he r)).

Fixpoint blocks (n : nat) (s : state) (bs : list byte) : state :=
  match n with
  | O => s
  | S m => blocks m (block s (take 64 bs)) (drop 64 bs)
  end.

Definition init : state :=
  State 1732584193 4023233417 2562383102 271733878 3285377520.

(** The 20 bytes of the digest. *)
Definition digest (msg : list byte) : list byte :=
  let p := pad msg in
  let s := blocks (length p / 64) init p in
  be_bytes 4 (ha s) ++ be_bytes 4 (hb s) ++ be_bytes 4 (hc s)
    ++ be_bytes 4 (hd s) ++ be_bytes 4 (he s).

(** [crypto.createHash('sha1').update(msg).digest('hex')]. *)
Definition hexdigest (msg : list byte) : string := Hex.encode (digest msg).

End SHA1.

(** ** JavaScript string operations *)

Module Str.

Definition NUL : ascii := "000"%char.
Definition LF : ascii := "010"%char.
Definition SP : ascii := " "%char.

Definition nul : string := String NUL EmptyString.
Definition lf : string := String LF EmptyString.

(** [s.split(sep)] for a one-character separator: never empty. *)
Fixpoint split (sep : ascii) (s : string) : list string :=
  match s with
  | EmptyString => [EmptyString]
  | String c rest =>
      let r := split sep rest in
      if Ascii.eqb c sep then EmptyString :: r
      else match r with
           | x :: xs => String c x :: xs
           | [] => [String c EmptyString]
           end
  end.

(** [s.split(sep, limit)]: the first [limit] pieces of the full split. *)
Definition split_limit (sep : ascii) (limit : nat) (s : string)
  : list string :=
  take limit (split sep s).

(** [l.join(sep)]. *)
Fixpoint join (sep : string) (l : list string) : string :=
  match l with
  | [] => EmptyString
  | [x] => x
  | x :: rest => x +:+ sep +:+ join sep rest
  end.

(** [s.startsWith(p)]. *)
Definition startsWith (p s : string) : bool := String.prefix p s.

(** [s.slice(n)] for [0 <= n]. *)
Fixpoint slice_from (n : nat) (s : string) : string :=
  match n, s with
  | O, _ => s
  | S m, String _ rest => slice_from m rest
  | S _, EmptyString => EmptyString
  end.

(** [s.slice(0, n)] for [0 <= n]. *)
Fixpoint slice_to (n : nat) (s : string) : string :=
  match n, s with
  | S m, String c rest => String c (slice_to m rest)
  | _, _ => EmptyString
  end.

(** The UTF-8 encodings of the characters that [trim] and [parseInt]
    skip: WhiteSpace and LineTerminator of ECMAScript. *)
Definition whitespace : list string :=
  map Buf.toString
    [ [x09]; [x0a]; [x0b]; [x0c]; [x0d]; [x20];
      [xc2; xa0]; [xe1; x9a; x80];
      [xe2; x80; x80]; [xe2; x80; x81]; [xe2; x80; x82]; [xe2; x80; x83];
      [xe2; x80; x84]; [xe2; x80; x85]; [xe2; x80; x86]; [xe2; x80; x87];
      [xe2; x80; x88]; [xe2; x80; x89]; [xe2; x80; x8a];
      [xe2; x80; xa8]; [xe2; x80; xa9]; [xe2; x80; xaf];
      [xe2; x81; x9f]; [xe3; x80; x80]; [xef; xbb; xbf] ].

(** The rest of [s] after one leading white-space character, if any. *)
Definition skip_ws1 (s : string) : option string :=
  match filter (fun w => startsWith w s = true) whitespace with
  | w :: _ => Some (slice_from (String.length w) s)
  | [] => None
  end.

Fixpoint trimStart_fuel (fuel : nat) (s : string) : string :=
  match fuel with
  | O => s
  | S f => match skip_ws1 s with
           | Some s' => trimStart_fuel f s'
           | None => s
           end
  end.

(** [s.trimStart()]. *)
Definition trimStart (s : string) : string :=
  trimStart_fuel (String.length s) s.

(** [s] without one trailing white-space character, if any. *)
Definition drop_ws1_end (s : string) : option string :=
  match filter (fun w => startsWith (String.rev w) (String.rev s) = true)
          whitespace with
  | w :: _ => Some (slice_to (String.length s - String.length w) s)
  | [] => None
  end.

Fixpoint trimEnd_fuel (fuel : nat) (s : string) : string :=
  match fuel with
  | O => s
  | S f => match drop_ws1_end s with
           | Some s' => trimEnd_fuel f s'
           | None => s
           end
  end.

(** [s.trim()]. *)
Definition trim (s : string) : string :=
  let t := trimStart s in trimEnd_fuel (String.length t) t.

Definition digit_value (c : ascii) : option N :=
  let n := N_of_ascii c in
  if ((48 <=? n) && (n <=? 57))%N then Some (n - 48)%N else None.

(** The number read from the longest prefix of decimal digits, and
    whether there was any digit. *)
Fixpoint digits_prefix (s : string) (acc : N) (seen : bool) : N * bool :=
  match s with
  | EmptyString => (acc, seen)
  | String c rest =>
      match digit_value c with
      | Some d => digits_prefix rest (acc * 10 + d)%N true
      | None => (acc, seen)
      end
  end.

(** [parseInt(s, 10)]; [None] is NaN. The result of the program is a
    double: it is the integer read when that is a safe integer (magnitude
    at most 2^53 - 1), and is rounded beyond. *)
Definition parseInt (s : string) : option Z :=
  let t := trimStart s in
  let '(neg, body) :=
    match t with
    | String "-" rest => (true, rest)
    | String "+" rest => (false, rest)
    | _ => (false, t)
    end in
  match digits_prefix body 0%N false with
  | (n, true) => Some (if neg then - Z.of_N n else Z.of_N n)
  | (_, false) => None
  end.

End Str.

(** ** zlib, as an interface *)

Class Zlib := {
  deflateSync : Buffer -> Buffer;
  (** [None]: the data is not a zlib stream and [inflateSync] throws. *)
  inflateSync : Buffer -> option Buffer
}.

Class ZlibLaws (Z : Zlib) : Prop :=
  inflate_deflate : forall b : Buffer, inflateSync (deflateSync b) = Some b.

(** ** class GitObject *)

Module GitObject.

Record t := Build { type : string; content : Buffer }.

(** The header [`${type} ${content.length}\0`]. *)
Definition header (o : t) : Buffer :=
  Buf.from (type o +:+ " " +:+ Num.toString (Z.of_nat (length (content o)))
              +:+ Str.nul).

Definition store (o : t) : Buffer := header o ++ content o.

Definition hash (o : t) : string := SHA1.hexdigest (store o).

Section WithZlib.
Context `{Zlib}.

Definition serialize (o : t) : Buffer := deflateSync (store o).

(** [None]: [inflateSync] threw. With no zero byte, [indexOf] is -1:
    the header is all but the last byte and the content is the whole
    buffer. *)
Definition deserialize (data : Buffer) : option t :=
  match inflateSync data with
  | None => None
  | Some decompressed =>
      let '(header, content) :=
        match Buf.indexOf0 decompressed 0 with
        | Some nullIdx =>
            (Buf.toString (Buf.slice decompressed 0 nullIdx),
             drop (S nullIdx) decompressed)
        | None =>
            (Buf.toString
               (Buf.slice decompressed 0 (length decompressed - 1)),
             decompressed)
        end in
      Some (Build (hd EmptyString (Str.split " " header)) content)
  end.
End WithZlib.

End GitObject.

(** ** class Blob *)

Module Blob.
Definition new (content : Buffer) : GitObject.t :=
  GitObject.Build "blob" content.
End Blob.

(** ** class Tree *)

Module Tree.

(** An entry [{mode, name, hashHex}]. *)
Record entry := Entry { mode : string; name : string; hashHex : string }.

(** An entry read back by [fromContent]: [name] is [undefined] when the
    text before the zero byte has no space. *)
Record parsed := Parsed {
  p_mode : string; p_name : option string; p_hashHex : string }.

Definition name_compare (a b : entry) : comparison :=
  Buf.compare (Buf.from (name a)) (Buf.from (name b)).

(** [Array.prototype.sort] is stable: an element goes before the first
    one it does not exceed. *)
Fixpoint insert (e : entry) (l : list entry) : list entry :=
  match l with
  | [] => [e]
  | x :: rest =>
      match name_compare e x with
      | Gt => x :: insert e rest
      | _ => e :: x :: rest
      end
  end.

Definition sort (l : list entry) : list entry := foldr insert [] l.

Definition entry_bytes (e : entry) : Buffer :=
  Buf.from (mode e +:+ " " +:+ name e +:+ Str.nul) ++ Hex.decode (hashHex e).

Definition _serializeEntries (entries : list entry) : Buffer :=
  concat (map entry_bytes (sort entries)).

Record t := Build { entries : list entry; content : Buffer }.

(** [new Tree(entries)]. *)
Definition new (entries : list entry) : t :=
  Build entries (_serializeEntries entries).

Definition addEntry (tr : t) (mode name hashHex : string) : t :=
  let es := entries tr ++ [Entry mode name hashHex] in
  Build es (_serializeEntries es).

Definition object (tr : t) : GitObject.t :=
  GitObject.Build "tree" (content tr).

(** The [while] loop of [fromContent]; every turn moves [i] forward by at
    least 21, so [length content] turns are enough. *)
Fixpoint fromContent_loop (fuel : nat) (content : Buffer) (i : nat)
    (acc : list parsed) : list parsed :=
  match fuel with
  | O => acc
  | S fuel' =>
      if (i <? length content)%nat then
        match Buf.indexOf0 content i with
        | None => acc
        | Some nullIdx =>
            let modeName := Buf.toString (Buf.slice content i nullIdx) in
            let parts := Str.split_limit " " 2 modeName in
            let objHash :=
              Hex.encode (Buf.slice content (nullIdx + 1) (nullIdx + 21)) in
            fromContent_loop fuel' content (nullIdx + 21)
              (acc ++ [Parsed (hd EmptyString parts) (parts !! 1%nat)
                         objHash])
        end
      else acc
  end.

(** The entries of [Tree.fromContent(content)] (its [content] field is
    the argument itself). *)
Definition fromContent (content : Buffer) : list parsed :=
  fromContent_loop (length content) content 0 [].

End Tree.

(** ** class Commit *)

Module Commit.

Record t := Build {
  treeHash : option string;
  parentHashes : list string;
  author : option string;
  committer : option string;
  message : string;
  timestamp : Z;
  content : Buffer
}.

(** A template literal prints [null] as the text "null". *)
Definition tpl (v : option string) : string := default "null"%string v.

(** [timestamp || Math.floor(Date.now() / 1000)]: [None] stands for
    [null] and NaN; 0 is falsy too. [now] is the clock reading. *)
Definition ts_or_now (timestamp : option Z) (now : Z) : Z :=
  match timestamp with
  | Some ts => if ts =? 0 then now else ts
  | None => now
  end.

(** [new Commit(treeHash, parentHashes, author, committer, message,
    timestamp)]. *)
Definition new (treeHash : option string) (parentHashes : list string)
    (author committer : option string) (message : string)
    (timestamp : option Z) (now : Z) : t :=
  let ts := ts_or_now timestamp now in
  let lines :=
    [("tree " +:+ tpl treeHash)%string]
      ++ map (fun p => "parent " +:+ p) parentHashes
      ++ [ "author " +:+ tpl author +:+ " " +:+ Num.toString ts +:+ " +0000";
           "committer " +:+ tpl committer +:+ " " +:+ Num.toString ts
             +:+ " +0000";
           EmptyString;
           message ] in
  Build treeHash parentHashes author committer message ts
    (Buf.from (Str.join Str.lf lines)).

Definition object (c : t) : GitObject.t :=
  GitObject.Build "commit" (content c).

(** The variables of the header loop of [fromContent]. *)
Record header := Header {
  h_treeHash : option string;
  h_parentHashes : list string;
  h_author : option string;
  h_committer : option string;
  h_messageStart : nat;
  h_timestamp : option Z
}.

(** [parts.slice(0, parts.length - 2).join(' ')]. *)
Definition identity (parts : list string) : string :=
  Str.join " " (take (length parts - 2) parts).

(** [parseInt(parts[parts.length - 2], 10)]; index -1 is [undefined]. *)
Definition stamp (parts : list string) : option Z :=
  if (2 <=? length parts)%nat
  then parts !! (length parts - 2)%nat ≫= Str.parseInt
  else None.

Fixpoint scan (lines : list string) (i : nat) (h : header) : header :=
  match lines with
  | [] => h
  | line :: rest =>
      if Str.startsWith "tree " line then
        scan rest (S i)
          (Header (Some (Str.slice_from 5 line)) (h_parentHashes h)
             (h_author h) (h_committer h) (h_messageStart h)
             (h_timestamp h))
      else if Str.startsWith "parent " line then
        scan rest (S i)
          (Header (h_treeHash h)
             (h_parentHashes h ++ [Str.slice_from 7 line])
             (h_author h) (h_committer h) (h_messageStart h)
             (h_timestamp h))
      else if Str.startsWith "author " line then
        let parts := Str.split " " (Str.slice_from 7 line) in
        scan rest (S i)
          (Header (h_treeHash h) (h_parentHashes h)
             (Some (identity parts)) (h_committer h) (h_messageStart h)
             (stamp parts))
      else if Str.startsWith "committer " line then
        let parts := Str.split " " (Str.slice_from 10 line) in
        scan rest (S i)
          (Header (h_treeHash h) (h_parentHashes h) (h_author h)
             (Some (identity parts)) (h_messageStart h) (h_timestamp h))
      else if String.eqb line EmptyString then
        Header (h_treeHash h) (h_parentHashes h) (h_author h)
          (h_committer h) (S i) (h_timestamp h)
      else scan rest (S i) h
  end.

(** [Commit.fromContent(content)], at clock reading [now]. *)
Definition fromContent (content : Buffer) (now : Z) : t :=
  let lines := Str.split Str.LF (Buf.toString content) in
  let h := scan lines 0 (Header None [] None None 0 None) in
  let message := Str.join Str.lf (drop (h_messageStart h) lines) in
  new (h_treeHash h) (h_parentHashes h) (h_author h) (h_committer h)
    message (h_timestamp h) now.

End Commit.

(** ** JavaScript objects used as dictionaries, and JSON *)

Module JS.

(** An object is the list of its own properties in property order:
    array-index keys first, ascending, then the other keys in insertion
    order. Properties inherited from [Object.prototype] and
    [String.prototype] are not modelled. *)
Definition object (V : Type) := list (string * V).

(** A value of the dictionaries that [createTreeFromIndex] builds: a blob
    id or a nested dictionary. *)
#[warnings="-register-all"]
Inductive value := Str (s : string) | Obj (props : list (string * value)).

Fixpoint all_digits (s : string) : bool :=
  match s with
  | EmptyString => true
  | String c rest => bool_decide (is_Some (Str.digit_value c)) && all_digits rest
  end.

(** The number [n] when [k] is the canonical text of an array index
    (0 .. 2^32 - 2). *)
Definition array_index (k : string) : option N :=
  match k with
  | EmptyString => None
  | String c rest =>
      if all_digits k
         && (negb (Ascii.eqb c "0") || String.eqb rest EmptyString)
         && (String.length k <=? 10)%nat
      then
        let n := fst (Str.digits_prefix k 0%N false) in
        if (n <=? 4294967294)%N then Some n else None
      else None
  end.

Section Props.
Context {V : Type}.

Fixpoint get (k : string) (o : object V) : option V :=
  match o with
  | [] => None
  | (k', v) :: rest => if String.eqb k k' then Some v else get k rest
  end.

Fixpoint replace (k : string) (v : V) (o : object V) : object V :=
  match o with
  | [] => []
  | (k', v') :: rest =>
      if String.eqb k k' then (k', v) :: rest
      else (k', v') :: replace k v rest
  end.

(** A new array-index key goes before the first key that is not an
    array index or is a larger one. *)
Fixpoint insert_index (n : N) (k : string) (v : V) (o : object V)
  : object V :=
  match o with
  | [] => [(k, v)]
  | (k', v') :: rest =>
      match array_index k' with
      | Some n' =>
          if (n' <? n)%N then (k', v') :: insert_index n k v rest
          else (k, v) :: o
      | None => (k, v) :: o
      end
  end.

(** [o[k] = v]. *)
Definition set (k : string) (v : V) (o : object V) : object V :=
  match get k o with
  | Some _ => replace k v o
  | None =>
      match array_index k with
      | Some n => insert_index n k v o
      | None => o ++ [(k, v)]
      end
  end.

Definition keys (o : object V) : list string := map fst o.

(** [o[k] = v] for a primitive value [v] (a string): on an object that has
    no own property [__proto__], assigning a primitive to [__proto__] is
    answered by the setter of [Object.prototype], which changes nothing. *)
Definition set_prim (k : string) (v : V) (o : object V) : object V :=
  if String.eqb k "__proto__" && negb (bool_decide (is_Some (get k o)))
  then o
  else set k v o.
End Props.

(** The names that every object created with [{}] inherits from
    [Object.prototype]. *)
Definition inherited : list string :=
  [ "constructor"; "__defineGetter__"; "__defineSetter__"; "hasOwnProperty";
    "__lookupGetter__"; "__lookupSetter__"; "isPrototypeOf";
    "propertyIsEnumerable"; "toString"; "valueOf"; "__proto__";
    "toLocaleString" ]%string.

Definition is_inherited (k : string) : bool :=
  existsb (String.eqb k) inherited.

End JS.

(** The staging index: path to blob id. *)
Abbreviation Index := (JS.object string).

Module JSON.

Definition QUOTE : ascii := "034"%char.
Definition BACKSLASH : ascii := "\"%char.

Definition hex4 (n : N) : string :=
  let z := Z.of_N n in
  String (Hex.digit (z / 4096 mod 16))
    (String (Hex.digit (z / 256 mod 16))
       (String (Hex.digit (z / 16 mod 16))
          (String (Hex.digit (z mod 16)) EmptyString))).

(** QuoteJSONString, character by character. *)
Definition escape_char (c : ascii) : string :=
  let n := N_of_ascii c in
  if Ascii.eqb c QUOTE then String BACKSLASH (String QUOTE EmptyString)
  else if Ascii.eqb c BACKSLASH
  then String BACKSLASH (String BACKSLASH EmptyString)
  else if (n =? 8)%N then String BACKSLASH "b"
  else if (n =? 12)%N then String BACKSLASH "f"
  else if (n =? 10)%N then String BACKSLASH "n"
  else if (n =? 13)%N then String BACKSLASH "r"
  else if (n =? 9)%N then String BACKSLASH "t"
  else if (n <? 32)%N then String BACKSLASH (String "u" (hex4 n))
  else String c EmptyString.

Fixpoint escape (s : string) : string :=
  match s with
  | EmptyString => EmptyString
  | String c rest => escape_char c +:+ escape rest
  end.

Definition quote (s : string) : string :=
  String QUOTE (escape s +:+ String QUOTE EmptyString).

Definition member (kv : string * string) : string :=
  "  " +:+ quote kv.1 +:+ ": " +:+ quote kv.2.

(** [JSON.stringify(idx, null, 2)] for a dictionary of strings:
    properties in property order, one per line, indented by two. *)
Definition stringify (idx : Index) : string :=
  match idx with
  | [] => "{}"
  | _ => "{" +:+ Str.lf +:+ Str.join ("," +:+ Str.lf) (map member idx)
           +:+ Str.lf +:+ "}"
  end.

Definition is_ws (c : ascii) : bool :=
  let n := N_of_ascii c in
  (n =? 32)%N || (n =? 9)%N || (n =? 10)%N || (n =? 13)%N.

Fixpoint skip_ws (s : string) : string :=
  match s with
  | String c rest => if is_ws c then skip_ws rest else s
  | EmptyString => s
  end.

(** UTF-8 of a code point. *)
Definition utf8 (cp : Z) : string :=
  let b (z : Z) := ascii_of_N (Z.to_N z) in
  if cp <? 128 then String (b cp) EmptyString
  else if cp <? 2048 then
    String (b (192 + cp / 64)) (String (b (128 + cp mod 64)) EmptyString)
  else if cp <? 65536 then
    String (b (224 + cp / 4096))
      (String (b (128 + cp / 64 mod 64))
         (String (b (128 + cp mod 64)) EmptyString))
  else
    String (b (240 + cp / 262144))
      (String (b (128 + cp / 4096 mod 64))
         (String (b (128 + cp / 64 mod 64))
            (String (b (128 + cp mod 64)) EmptyString))).

Definition unit4 (a b c d : ascii) : option Z :=
  h3 ← Hex.value a; h2 ← Hex.value b; h1 ← Hex.value c; h0 ← Hex.value d;
  Some (4096 * h3 + 256 * h2 + 16 * h1 + h0).

Definition is_high (u : Z) : bool := (55296 <=? u) && (u <=? 56319).
Definition is_low (u : Z) : bool := (56320 <=? u) && (u <=? 57343).

(** The characters of a string literal after its opening quote: the
    decoded text and what follows the closing quote. A escaped surrogate
    pair is one code point; a lone surrogate reads as U+FFFD, which is
    what it becomes when the text is written out. *)
Fixpoint chars (s : string) (acc : string) : option (string * string) :=
  match s with
  | EmptyString => None
  | String c rest =>
      if Ascii.eqb c QUOTE then Some (acc, rest)
      else if Ascii.eqb c BACKSLASH then
        match rest with
        | String e rest1 =>
            let simple (x : ascii) := chars rest1 (acc +:+ String x EmptyString) in
            if Ascii.eqb e QUOTE then simple QUOTE
            else if Ascii.eqb e BACKSLASH then simple BACKSLASH
            else if Ascii.eqb e "/" then simple "/"%char
            else if Ascii.eqb e "b" then simple "008"%char
            else if Ascii.eqb e "f" then simple "012"%char
            else if Ascii.eqb e "n" then simple "010"%char
            else if Ascii.eqb e "r" then simple "013"%char
            else if Ascii.eqb e "t" then simple "009"%char
            else if Ascii.eqb e "u" then
              match rest1 with
              | String a (String b (String c' (String d rest2))) =>
                  match unit4 a b c' d with
                  | None => None
                  | Some u =>
                      if is_high u then
                        match rest2 with
                        | String b1 (String u1 (String a' (String b'
                             (String c'' (String d' rest3))))) =>
                            match
                              (if Ascii.eqb b1 BACKSLASH && Ascii.eqb u1 "u"
                               then unit4 a' b' c'' d' else None)
                            with
                            | Some lo =>
                                if is_low lo then
                                  chars rest3
                                    (acc +:+ utf8 (65536 + (u - 55296) * 1024
                                                   + (lo - 56320)))
                                else chars rest2 (acc +:+ utf8 65533)
                            | None => chars rest2 (acc +:+ utf8 65533)
                            end
                        | _ => chars rest2 (acc +:+ utf8 65533)
                        end
                      else if is_low u then chars rest2 (acc +:+ utf8 65533)
                      else chars rest2 (acc +:+ utf8 u)
                  end
              | _ => None
              end
            else None
        | EmptyString => None
        end
      else if (N_of_ascii c <? 32)%N then None
      else chars rest (acc +:+ String c EmptyString)
  end.

(** A string literal at the head of [s], after white space. *)
Definition literal (s : string) : option (string * string) :=
  match skip_ws s with
  | String c rest => if Ascii.eqb c QUOTE then chars rest EmptyString else None
  | EmptyString => None
  end.

(** The members of an object, [s] standing after "{" or ",". *)
Fixpoint members (fuel : nat) (s : string) (acc : Index)
  : option (Index * string) :=
  match fuel with
  | O => None
  | S fuel' =>
      '(k, s1) ← literal s;
      match skip_ws s1 with
      | String ":" s2 =>
          '(v, s3) ← literal s2;
          match skip_ws s3 with
          | String "," s4 => members fuel' s4 (JS.set k v acc)
          | String "}" s4 => Some (JS.set k v acc, s4)
          | _ => None
          end
      | _ => None
      end
  end.

(** [JSON.parse(text)] for the texts that [saveIndex] writes: an object
    whose values are strings. [None] is a SyntaxError, or a JSON text of
    another shape (numbers, arrays, literals, nested objects), which is
    outside this model; [no_value] tells some of the SyntaxErrors. *)
Definition parse (text : string) : option Index :=
  match skip_ws text with
  | String "{" s1 =>
      '(idx, rest) ←
        match skip_ws s1 with
        | String "}" s2 => Some ([], s2)
        | _ => members (String.length s1) s1 []
        end;
      match skip_ws rest with
      | EmptyString => Some idx
      | _ => None
      end
  | _ => None
  end.

(** A text that is no JSON text whatever follows: it is empty but for
    white space, or its first character starts no JSON value. *)
Definition no_value (text : string) : bool :=
  match skip_ws text with
  | EmptyString => true
  | String c _ =>
      negb (existsb (Ascii.eqb c)
              (list_ascii_of_string "{[-0123456789tfn"
                 ++ [ascii_of_nat 34]))
  end.

End JSON.

(** ** The file system *)

Module FS.

(** A normalised absolute path: its components from the root. *)
Definition path := list string.

Inductive node := File (data : Buffer) | Dir.

(** One component of [path.join]'s normalisation (POSIX). *)
Definition norm_step (acc : path) (c : string) : path :=
  if String.eqb c "" || String.eqb c "." then acc
  else if String.eqb c ".." then removelast acc
  else acc ++ [c].

(** [path.join(base, rel)] for a normalised absolute [base]. *)
Definition join (base : path) (rel : string) : path :=
  fold_left norm_step (Str.split "/" rel) base.

(** [path.dirname(p)]. *)
Definition dirname (p : path) : path := removelast p.

(** The node at [p]; the root is a directory. *)
Definition lookup (fs : gmap path node) (p : path) : option node :=
  match p with
  | [] => Some Dir
  | _ => fs !! p
  end.

(** [mkdirSync(p, {recursive: true})]: [None] when a prefix of the path
    is a regular file. [done] is the part of the path already known to be
    a directory. *)
Fixpoint mkdirs (fs : gmap path node) (done todo : path)
  : option (gmap path node) :=
  match todo with
  | [] => Some fs
  | c :: rest =>
      let p := done ++ [c] in
      match fs !! p with
      | Some (File _) => None
      | Some Dir => mkdirs fs p rest
      | None => mkdirs (<[p := Dir]> fs) p rest
      end
  end.

End FS.

(** ** Commands: state, exceptions, console *)

Inductive exn :=
| Error (message : string)
| TypeError (message : string)
| SystemError (code : string).

(** [`${e}`], up to the wording of system errors. *)
Definition exn_text (e : exn) : string :=
  match e with
  | Error m => "Error: " +:+ m
  | TypeError m => "TypeError: " +:+ m
  | SystemError c => "Error: " +:+ c
  end.

(** The outcome of a call: a value, an exception, or [Timeout] when the
    model has no answer: its recursion budget ran out, or the run leaves
    the part of JavaScript that the model covers. *)
Inductive result (A : Type) :=
| Ok (a : A)
| Throw (e : exn)
| Timeout.
Arguments Ok {A} a.
Arguments Throw {A} e.
Arguments Timeout {A}.

Record world := World {
  files : gmap FS.path FS.node;
  console : list string
}.

Definition M (A : Type) : Type := world -> result A * world.

Definition ret {A} (a : A) : M A := fun w => (Ok a, w).

Definition bind {A B} (m : M A) (k : A -> M B) : M B :=
  fun w =>
    match m w with
    | (Ok a, w') => k a w'
    | (Throw e, w') => (Throw e, w')
    | (Timeout, w') => (Timeout, w')
    end.

Definition throw {A} (e : exn) : M A := fun w => (Throw e, w).

Definition timeout {A} : M A := fun w => (Timeout, w).

(** [try { m } catch (e) { handler e }]. *)
Definition try_catch {A} (m : M A) (handler : exn -> M A) : M A :=
  fun w =>
    match m w with
    | (Throw e, w') => handler e w'
    | r => r
    end.

Declare Scope cmd_scope.
Delimit Scope cmd_scope with cmd.
Notation "'let*' x := m 'in' k" := (bind m (fun x => k))
  (at level 10, x pattern, m at level 100, k at level 200) : cmd_scope.
Notation "m >> k" := (bind m (fun _ => k))
  (at level 100, k at level 200, right associativity) : cmd_scope.
Local Open Scope cmd_scope.

(** [console.log], [console.warn]. *)
Definition log (line : string) : M unit :=
  fun w => (Ok tt, World (files w) (console w ++ [line])).

Definition existsSync (p : FS.path) : M bool :=
  fun w => (Ok (bool_decide (is_Some (FS.lookup (files w) p))), w).

Definition readFileSync (p : FS.path) : M Buffer :=
  fun w =>
    match FS.lookup (files w) p with
    | Some (FS.File data) => (Ok data, w)
    | Some FS.Dir => (Throw (SystemError "EISDIR"), w)
    | None => (Throw (SystemError "ENOENT"), w)
    end.

(** [writeFileSync(p, data)]: the parent must be a directory and [p] must
    not be one. *)
Definition writeFileSync (p : FS.path) (data : Buffer) : M unit :=
  fun w =>
    match FS.lookup (files w) p with
    | Some FS.Dir => (Throw (SystemError "EISDIR"), w)
    | _ =>
        match FS.lookup (files w) (FS.dirname p) with
        | Some FS.Dir =>
            (Ok tt, World (<[p := FS.File data]> (files w)) (console w))
        | Some (FS.File _) => (Throw (SystemError "ENOTDIR"), w)
        | None => (Throw (SystemError "ENOENT"), w)
        end
    end.

Definition unlinkSync (p : FS.path) : M unit :=
  fun w =>
    match FS.lookup (files w) p with
    | Some (FS.File _) => (Ok tt, World (delete p (files w)) (console w))
    | Some FS.Dir => (Throw (SystemError "EISDIR"), w)
    | None => (Throw (SystemError "ENOENT"), w)
    end.

(** [statSync(p).isFile()]. *)
Definition isFile (p : FS.path) : M bool :=
  fun w =>
    match FS.lookup (files w) p with
    | Some (FS.File _) => (Ok true, w)
    | Some FS.Dir => (Ok false, w)
    | None => (Throw (SystemError "ENOENT"), w)
    end.

Definition mkdirSync (p : FS.path) : M unit :=
  fun w =>
    match FS.mkdirs (files w) [] p with
    | Some fs => (Ok tt, World fs (console w))
    | None => (Throw (SystemError "ENOTDIR"), w)
    end.

Definition ensureDirSync (p : FS.path) : M unit :=
  let* ex := existsSync p in
  if ex then ret tt else mkdirSync p.

(** ** More of the file system: listing a directory *)

(** The names in the directory [p]: the last components of the paths
    directly below [p]. *)
Definition children (fs : gmap FS.path FS.node) (p : FS.path) : list string :=
  omap (fun kv : FS.path * FS.node =>
          match reverse kv.1 with
          | c :: r => if bool_decide (reverse r = p) then Some c else None
          | [] => None
          end)
       (map_to_list fs).

(** [readdirSync] returns the names in an order that Node does not
    specify: [arrange] stands for that order. *)
Class Readdir := { arrange : list string -> list string }.

Class ReaddirLaws (R : Readdir) : Prop :=
  arrange_perm : forall l : list string, arrange l ≡ₚ l.

Definition readdirSync `{Readdir} (p : FS.path) : M (list string) :=
  fun w =>
    match FS.lookup (files w) p with
    | Some FS.Dir => (Ok (arrange (children (files w) p)), w)
    | Some (FS.File _) => (Throw (SystemError "ENOTDIR"), w)
    | None => (Throw (SystemError "ENOENT"), w)
    end.

(** [new Date(seconds * 1000).toString()]: the text depends on the time
    zone of the machine. *)
Class DateFormat := { dateString : Z -> string }.

(** ** More of the file system: stat and relative paths *)

(** [fs.statSync(p)]: the node itself stands for its [Stats]. *)
Definition statSync (p : FS.path) : M FS.node :=
  fun w =>
    match FS.lookup (files w) p with
    | Some n => (Ok n, w)
    | None => (Throw (SystemError "ENOENT"), w)
    end.

(** [st.isFile()], [st.isDirectory()]. *)
Definition is_file (st : FS.node) : bool :=
  match st with FS.File _ => true | FS.Dir => false end.

Definition is_directory (st : FS.node) : bool :=
  match st with FS.File _ => false | FS.Dir => true end.

(** What two normalised absolute paths have after their common start. *)
Fixpoint strip_common (a b : FS.path) : FS.path * FS.path :=
  match a, b with
  | x :: a', y :: b' =>
      if String.eqb x y then strip_common a' b' else (a, b)
  | _, _ => (a, b)
  end.

(** [path.relative(from, to)] (POSIX) for normalised absolute paths: one
    [..] for each component left of [from], then what is left of [to]. *)
Definition relative (from to : FS.path) : string :=
  let '(f, t) := strip_common from to in
  Str.join "/" (repeat ".."%string (length f) ++ t).

(** A text of ASCII characters. *)
Fixpoint ascii_text (s : string) : bool :=
  match s with
  | EmptyString => true
  | String c rest => (N_of_ascii c <? 128)%N && ascii_text rest
  end.

(** ** class Repository *)

Module Repository.

(** Truthiness of a string-or-null value: [null] and "" are falsy. *)
Definition truthy (v : option string) : bool :=
  match v with
  | Some s => negb (String.eqb s "")
  | None => false
  end.

(** A [Set] of strings, in insertion order. *)
Definition set_add (x : string) (l : list string) : list string :=
  if bool_decide (x ∈ l) then l else l ++ [x].

Fixpoint insert_string (x : string) (l : list string) : list string :=
  match l with
  | [] => [x]
  | y :: rest =>
      match Buf.compare (Buf.from x) (Buf.from y) with
      | Gt => y :: insert_string x rest
      | _ => x :: l
      end
  end.

(** Sorting by the bytes of the UTF-8 text. This is the order of
    [sort()], which compares UTF-16 code units, for texts of ASCII
    characters; in [restoreWorkingDirectory] the order of the elements
    decides only the order of the deletions. *)
Definition sort_strings (l : list string) : list string :=
  foldr insert_string [] l.

(** [current[last] = blobHash] after walking (and creating) the
    dictionaries named by [dirs]. A name that is not an own property is
    looked up in [Object.prototype]: for an inherited name the walk goes
    on in a built-in object, where the model does not follow it
    ([Timeout]). A blob id that sits where a dictionary is needed is left
    alone by an empty id (falsy: a dictionary replaces it); otherwise the
    assignment to a property of a string throws a TypeError (the methods
    of a class are strict code), except to [__proto__], whose setter
    answers; a walk that goes on through a string is not followed. *)
Fixpoint put_in (dirs : list string) (last blobHash : string)
    (current : JS.object JS.value) : result (JS.object JS.value) :=
  match dirs with
  | [] => Ok (JS.set_prim last (JS.Str blobHash) current)
  | part :: rest =>
      let into (sub : JS.object JS.value) :=
        match put_in rest last blobHash sub with
        | Ok sub' => Ok (JS.set part (JS.Obj sub') current)
        | Throw e => Throw e
        | Timeout => Timeout
        end in
      match JS.get part current with
      | Some (JS.Obj sub) => into sub
      | Some (JS.Str s) =>
          if String.eqb s "" then into []
          else
            match rest with
            | [] =>
                if String.eqb last "__proto__" then Ok current
                else Throw (TypeError "Cannot create property on string")
            | _ :: _ => Timeout
            end
      | None => if JS.is_inherited part then Timeout else into []
      end
  end.

(** The first loop of [createTreeFromIndex]: the dictionaries [dirs] and
    [files]. *)
Fixpoint group (entries : Index) (dirs : JS.object JS.value)
    (files : JS.object string)
  : result (JS.object JS.value * JS.object string) :=
  match entries with
  | [] => Ok (dirs, files)
  | (filePath, blobHash) :: rest =>
      let parts := Str.split "/" filePath in
      match parts with
      | [only] => group rest dirs (JS.set_prim only blobHash files)
      | _ =>
          match put_in (removelast parts) (List.last parts "") blobHash
                  dirs with
          | Ok dirs' => group rest dirs' files
          | Throw e => Throw e
          | Timeout => Timeout
          end
      end
  end.

(** [rootEntries]: a copy of [files], then every entry of [dirs]. *)
Definition rootEntries (dirs : JS.object JS.value)
    (files : JS.object string) : JS.object JS.value :=
  fold_left (fun acc kv => JS.set kv.1 kv.2 acc) dirs
    (map (fun kv => (kv.1, JS.Str kv.2)) files).

Section WithZlib.
Context `{Zlib}.

(** [this.path], the resolved repository directory. *)
Variable path : FS.path.

Definition gitDir : FS.path := FS.join path ".git".
Definition objectsDir : FS.path := FS.join gitDir "objects".
Definition refDir : FS.path := FS.join gitDir "refs".
Definition headsDir : FS.path := FS.join refDir "heads".
Definition headFile : FS.path := FS.join gitDir "HEAD".
Definition indexFile : FS.path := FS.join gitDir "index".

Definition saveIndex (idx : Index) : M unit :=
  writeFileSync indexFile (Buf.from (JSON.stringify idx)).

Definition init : M bool :=
  let* ex := existsSync gitDir in
  if ex then ret false
  else
    ensureDirSync gitDir >>
    ensureDirSync objectsDir >>
    ensureDirSync refDir >>
    ensureDirSync headsDir >>
    writeFileSync headFile
      (Buf.from ("ref: refs/heads/master" +:+ Str.lf)) >>
    saveIndex [] >>
    log ("Initialized empty Git repository in /"
           +:+ Str.join "/" gitDir) >>
    ret true.

Definition objectFile (objHash : string) : FS.path :=
  FS.join (FS.join objectsDir (Str.slice_to 2 objHash))
    (Str.slice_from 2 objHash).

Definition storeObject (obj : GitObject.t) : M string :=
  let objHash := GitObject.hash obj in
  let dir := FS.join objectsDir (Str.slice_to 2 objHash) in
  let file := FS.join dir (Str.slice_from 2 objHash) in
  let* ex := existsSync file in
  (if ex then ret tt
   else ensureDirSync dir >> writeFileSync file (GitObject.serialize obj))
  >> ret objHash.

(** [loadIndex()]. The model has no answer ([Timeout]) for an index file
    that holds a JSON text of another shape than an object of strings, or
    a text that it cannot tell from one. *)
Definition loadIndex : M Index :=
  let* ex := existsSync indexFile in
  if ex then
    try_catch
      (let* data := readFileSync indexFile in
       match JSON.parse (Buf.toString data) with
       | Some idx => ret idx
       | None =>
           if JSON.no_value (Buf.toString data)
           then throw (Error "SyntaxError")
           else timeout
       end)
      (fun _ => ret [])
  else ret [].

Definition addFile (relPath : string) : M unit :=
  let full := FS.join path relPath in
  let* ex := existsSync full in
  if ex then
    let* content := readFileSync full in
    let* blobHash := storeObject (Blob.new content) in
    let* index := loadIndex in
    saveIndex (JS.set_prim relPath blobHash index) >>
    log ("Added " +:+ relPath)
  else throw (Error ("Path " +:+ relPath +:+ " not found")).

Definition loadObject (objHash : string) : M GitObject.t :=
  let file := objectFile objHash in
  let* ex := existsSync file in
  if ex then
    let* data := readFileSync file in
    match GitObject.deserialize data with
    | Some obj => ret obj
    | None => throw (Error "incorrect header check")
    end
  else throw (Error ("Object " +:+ objHash +:+ " not found")).

(** The [for] loop of [createTreeRecursive] over the entries of a
    dictionary, [recur] being the function itself on a nested dictionary;
    [typeof v] tells a blob id from a nested dictionary. *)
Fixpoint createTree_loop (recur : JS.value -> M string)
    (entries : list (string * JS.value)) (tree : Tree.t) : M Tree.t :=
  match entries with
  | [] => ret tree
  | (name, JS.Str h) :: rest =>
      createTree_loop recur rest (Tree.addEntry tree "100644" name h)
  | (name, (JS.Obj _) as sub) :: rest =>
      let* subtreeHash := recur sub in
      createTree_loop recur rest (Tree.addEntry tree "40000" name subtreeHash)
  end.

(** The body of [createTreeRecursive], by recursion on the nested
    dictionary. It is only applied to dictionaries. *)
Fixpoint createTree (v : JS.value) : M string :=
  match v with
  | JS.Str _ => throw (TypeError "not a dictionary")
  | JS.Obj entriesDict =>
      let* tree := createTree_loop createTree entriesDict (Tree.new []) in
      storeObject (Tree.object tree)
  end.

Definition createTreeRecursive (entriesDict : JS.object JS.value)
  : M string :=
  createTree (JS.Obj entriesDict).

Definition createTreeFromIndex : M string :=
  let* index := loadIndex in
  match index with
  | [] => storeObject (Tree.object (Tree.new []))
  | _ =>
      match group index [] [] with
      | Ok (dirs, files) => createTreeRecursive (rootEntries dirs files)
      | Throw e => throw e
      | Timeout => timeout
      end
  end.

Definition getCurrentBranch : M string :=
  let* ex := existsSync headFile in
  if ex then
    let* data := readFileSync headFile in
    let content := Str.trim (Buf.toString data) in
    if Str.startsWith "ref: refs/heads/" content
    then ret (Str.slice_from (String.length "ref: refs/heads/") content)
    else ret "HEAD"
  else ret "master".

(** [None] is [null]. *)
Definition getBranchCommit (branch : string) : M (option string) :=
  let file := FS.join headsDir branch in
  let* ex := existsSync file in
  if ex then
    let* data := readFileSync file in
    ret (Some (Str.trim (Buf.toString data)))
  else ret None.

Definition setBranchCommit (branch commitHash : string) : M unit :=
  let file := FS.join headsDir branch in
  ensureDirSync (FS.dirname file) >>
  writeFileSync file (Buf.from (commitHash +:+ Str.lf)).

Definition nothing_to_commit : string :=
  "nothing to commit, working tree clean".

(** [commit(message, author)] at clock reading [now]; [None] is
    [null]. *)
Definition commit (message author : string) (now : Z)
  : M (option string) :=
  let* treeHash := createTreeFromIndex in
  let* currentBranch := getCurrentBranch in
  let* parentCommit := getBranchCommit currentBranch in
  let parentHashes :=
    if truthy parentCommit then [default "" parentCommit] else [] in
  let* index := loadIndex in
  match index with
  | [] => log nothing_to_commit >> ret None
  | _ =>
      let* same :=
        if truthy parentCommit then
          try_catch
            (let* parentGitObj := loadObject (default "" parentCommit) in
             let parentCommitData :=
               Commit.fromContent (GitObject.content parentGitObj) now in
             ret (bool_decide
                    (Commit.treeHash parentCommitData = Some treeHash)))
            (fun _ => ret false)
        else ret false in
      if same then log nothing_to_commit >> ret None
      else
        let commitObj :=
          Commit.new (Some treeHash) parentHashes (Some author)
            (Some author) message None now in
        let* commitHash := storeObject (Commit.object commitObj) in
        setBranchCommit currentBranch commitHash >>
        saveIndex [] >>
        log ("Created commit " +:+ commitHash +:+ " on branch "
               +:+ currentBranch) >>
        ret (Some commitHash)
  end.

(** The [for] loop of [getFilesFromTreeRecursive] over the entries of a
    tree, [recur] being the function itself with a smaller budget; [files]
    is the [Set] of names so far, in insertion order. *)
Fixpoint getFiles_loop (recur : string -> string -> M (list string))
    (prefix : string) (entries : list Tree.parsed) (files : list string)
  : M (list string) :=
  match entries with
  | [] => ret files
  | e :: rest =>
      let fullName := prefix +:+ default "undefined" (Tree.p_name e) in
      if Str.startsWith "100" (Tree.p_mode e) then
        getFiles_loop recur prefix rest (set_add fullName files)
      else if Str.startsWith "400" (Tree.p_mode e) then
        let* subtreeFiles := recur (Tree.p_hashHex e) (fullName +:+ "/") in
        getFiles_loop recur prefix rest
          (fold_left (fun fs f => set_add f fs) subtreeFiles files)
      else getFiles_loop recur prefix rest files
  end.

(** [getFilesFromTreeRecursive(treeHash, prefix)]. [fuel] bounds the depth
    of the recursion. An exception of [loadObject] is caught: a warning,
    and the empty set. *)
Fixpoint getFilesFromTreeRecursive (fuel : nat) (treeHash prefix : string)
  : M (list string) :=
  match fuel with
  | O => timeout
  | S fuel' =>
      try_catch
        (let* treeObj := loadObject treeHash in
         let tree := Tree.fromContent (GitObject.content treeObj) in
         getFiles_loop (getFilesFromTreeRecursive fuel') prefix tree [])
        (fun e =>
           log ("Warning: Could not read tree " +:+ treeHash +:+ ": "
                  +:+ exn_text e) >>
           ret [])
  end.

(** The [for] loop of [restoreTree] over the entries of a tree, [recur]
    being the function itself with a smaller budget; [path.join] throws a
    TypeError on an [undefined] name. *)
Fixpoint restoreTree_loop (recur : string -> FS.path -> M unit)
    (dirPath : FS.path) (entries : list Tree.parsed) : M unit :=
  match entries with
  | [] => ret tt
  | e :: rest =>
      match Tree.p_name e with
      | None => throw (TypeError "The path argument must be of type string")
      | Some name =>
          let filePath := FS.join dirPath name in
          (if Str.startsWith "100" (Tree.p_mode e) then
             let* blobObj := loadObject (Tree.p_hashHex e) in
             writeFileSync filePath (GitObject.content blobObj)
           else if Str.startsWith "400" (Tree.p_mode e) then
             ensureDirSync filePath >>
             recur (Tree.p_hashHex e) filePath
           else ret tt) >>
          restoreTree_loop recur dirPath rest
      end
  end.

(** [restoreTree(treeHash, dirPath)]. *)
Fixpoint restoreTree (fuel : nat) (treeHash : string) (dirPath : FS.path)
  : M unit :=
  match fuel with
  | O => timeout
  | S fuel' =>
      let* treeObj := loadObject treeHash in
      let tree := Tree.fromContent (GitObject.content treeObj) in
      restoreTree_loop (restoreTree fuel') dirPath tree
  end.

(** The deletion loop of [restoreWorkingDirectory]: every exception is
    swallowed. *)
Fixpoint clearFiles (l : list string) : M unit :=
  match l with
  | [] => ret tt
  | relPath :: rest =>
      let filePath := FS.join path relPath in
      try_catch
        (let* ex := existsSync filePath in
         if ex then
           let* isf := isFile filePath in
           if isf then unlinkSync filePath else ret tt
         else ret tt)
        (fun _ => ret tt) >>
      clearFiles rest
  end.

Definition restoreWorkingDirectory (fuel : nat) (branch : string)
    (filesToClear : list string) (now : Z) : M unit :=
  let* targetCommitHash := getBranchCommit branch in
  if truthy targetCommitHash then
    clearFiles (sort_strings filesToClear) >>
    let* targetCommitObj := loadObject (default "" targetCommitHash) in
    let targetCommit :=
      Commit.fromContent (GitObject.content targetCommitObj) now in
    (if truthy (Commit.treeHash targetCommit)
     then restoreTree fuel (default "" (Commit.treeHash targetCommit)) path
     else ret tt) >>
    saveIndex []
  else ret tt.

(** The [try] block at the head of [checkout]: the files to clear and
    the commit of the previous branch, as far as they were assigned
    when an exception stopped the block. *)
Definition previousFiles (fuel : nat) (previousBranch : string) (now : Z)
  : M (list string * option string) :=
  try_catch
    (let* previousCommitHash := getBranchCommit previousBranch in
     if truthy previousCommitHash then
       try_catch
         (let* prevCommitObj :=
            loadObject (default "" previousCommitHash) in
          let prevCommit :=
            Commit.fromContent (GitObject.content prevCommitObj) now in
          if truthy (Commit.treeHash prevCommit) then
            let* fs :=
              getFilesFromTreeRecursive fuel
                (default "" (Commit.treeHash prevCommit)) "" in
            ret (fs, previousCommitHash)
          else ret ([], previousCommitHash))
         (fun _ => ret ([], previousCommitHash))
     else ret ([], previousCommitHash))
    (fun _ => ret ([], None)).

(** [checkout(branch, createBranch)] at clock reading [now]. *)
Definition checkout (fuel : nat) (branch : string) (createBranch : bool)
    (now : Z) : M unit :=
  let* previousBranch := getCurrentBranch in
  let* (filesToClear, previousCommitHash) :=
    previousFiles fuel previousBranch now in
  let branchFile := FS.join headsDir branch in
  let switch :=
    writeFileSync headFile
      (Buf.from ("ref: refs/heads/" +:+ branch +:+ Str.lf)) >>
    restoreWorkingDirectory fuel branch filesToClear now >>
    log ("Switched to branch " +:+ branch) in
  let* ex := existsSync branchFile in
  if ex then switch
  else if createBranch then
    if truthy previousCommitHash then
      setBranchCommit branch (default "" previousCommitHash) >>
      log ("Created new branch " +:+ branch) >>
      switch
    else log "No commits yet, cannot create a branch"
  else
    log ("Branch '" +:+ branch +:+ "' not found.") >>
    log ("Use 'node pygit.js checkout -b {branch}' to create and "
           +:+ "switch to a new branch.").

(** [index[k] = v] for a string [v]. *)
Definition set_own (k v : string) (o : Index) : Index := JS.set_prim k v o.

(** [Object.assign(index, sub)]. *)
Definition assign (index sub : Index) : Index :=
  fold_left (fun acc kv => set_own kv.1 kv.2 acc) sub index.

(** The [for] loop of [buildIndexFromTree] over the entries of a tree,
    [recur] being the function itself with a smaller budget. *)
Fixpoint buildIndex_loop (recur : string -> string -> M Index)
    (prefix : string) (entries : list Tree.parsed) (index : Index)
  : M Index :=
  match entries with
  | [] => ret index
  | e :: rest =>
      let fullName := prefix +:+ default "undefined" (Tree.p_name e) in
      if Str.startsWith "100" (Tree.p_mode e) then
        buildIndex_loop recur prefix rest
          (set_own fullName (Tree.p_hashHex e) index)
      else if Str.startsWith "400" (Tree.p_mode e) then
        let* sub := recur (Tree.p_hashHex e) (fullName +:+ "/") in
        buildIndex_loop recur prefix rest (assign index sub)
      else buildIndex_loop recur prefix rest index
  end.

(** [buildIndexFromTree(treeHash, prefix)]. [fuel] bounds the depth of
    the recursion. An exception of [loadObject] is caught: a warning, and
    the empty index. *)
Fixpoint buildIndexFromTree (fuel : nat) (treeHash prefix : string)
  : M Index :=
  match fuel with
  | O => timeout
  | S fuel' =>
      try_catch
        (let* treeObj := loadObject treeHash in
         let tree := Tree.fromContent (GitObject.content treeObj) in
         buildIndex_loop (buildIndexFromTree fuel') prefix tree [])
        (fun e =>
           log ("Warning: Could not read tree " +:+ treeHash +:+ ": "
                  +:+ exn_text e) >>
           ret [])
  end.

(** [path.relative(this.path, fullPath).split(path.sep).join('/')]. *)
Definition relName (fullPath : FS.path) : string :=
  Str.join "/" (Str.split "/" (relative path fullPath)).

(** [rel.split('/').includes('.git')]. *)
Definition inGit (rel : string) : bool :=
  existsb (String.eqb ".git") (Str.split "/" rel).

(** The [for] loop of [walk] in [addDirectory] over the names in the
    directory [d], [recur] being [walk] itself with a smaller budget. The
    state is the index of the call and its counter [added]. *)
Fixpoint addDirectory_items (recur : FS.path -> Index * Z -> M (Index * Z))
    (d : FS.path) (items : list string) (st : Index * Z)
  : M (Index * Z) :=
  match items with
  | [] => ret st
  | item :: rest =>
      let fullPath := FS.join d item in
      let rel := relName fullPath in
      if inGit rel then addDirectory_items recur d rest st
      else
        let* stat := statSync fullPath in
        if is_file stat then
          let* content := readFileSync fullPath in
          let* blobHash := storeObject (Blob.new content) in
          addDirectory_items recur d rest
            (set_own rel blobHash st.1, (st.2 + 1)%Z)
        else if is_directory stat then
          let* st' := recur fullPath st in
          addDirectory_items recur d rest st'
        else addDirectory_items recur d rest st
  end.

(** [walk(d)] in [addDirectory]; [fuel] bounds the depth of the
    recursion. *)
Fixpoint addDirectory_walk `{Readdir} (fuel : nat) (d : FS.path)
    (st : Index * Z) : M (Index * Z) :=
  match fuel with
  | O => timeout
  | S fuel' =>
      let* items := readdirSync d in
      addDirectory_items (addDirectory_walk fuel') d items st
  end.

Definition addDirectory `{Readdir} (fuel : nat) (relDir : string) : M unit :=
  let fullDir := FS.join path relDir in
  let* ex := existsSync fullDir in
  if ex then
    let* stat := statSync fullDir in
    if is_directory stat then
      let* index := loadIndex in
      let* st := addDirectory_walk fuel fullDir (index, 0%Z) in
      saveIndex st.1 >>
      if (0 <? st.2)%Z then
        log ("Added " +:+ Num.toString st.2 +:+ " files from directory "
               +:+ relDir)
      else log ("Directory " +:+ relDir +:+ " already up to date")
    else throw (Error (relDir +:+ " is not a directory"))
  else throw (Error ("Directory " +:+ relDir +:+ " not found")).

Definition addPath `{Readdir} (fuel : nat) (p : string) : M unit :=
  let full := FS.join path p in
  let* ex := existsSync full in
  if ex then
    let* stat := statSync full in
    if is_file stat then addFile p
    else
      let* stat' := statSync full in
      if is_directory stat' then addDirectory fuel p
      else throw (Error (p +:+ " is neither a file nor a directory"))
  else throw (Error ("Path " +:+ p +:+ " not found")).

(** The [for] loop of [walk] in [getAllFiles]; [files] is the array so
    far. *)
Fixpoint getAllFiles_items
    (recur : FS.path -> list FS.path -> M (list FS.path))
    (p : FS.path) (items : list string) (files : list FS.path)
  : M (list FS.path) :=
  match items with
  | [] => ret files
  | item :: rest =>
      let full := FS.join p item in
      if inGit (relName full) then getAllFiles_items recur p rest files
      else
        let* stat := statSync full in
        if is_file stat then getAllFiles_items recur p rest (files ++ [full])
        else if is_directory stat then
          let* files' := recur full files in
          getAllFiles_items recur p rest files'
        else getAllFiles_items recur p rest files
  end.

Fixpoint getAllFiles_walk `{Readdir} (fuel : nat) (p : FS.path)
    (files : list FS.path) : M (list FS.path) :=
  match fuel with
  | O => timeout
  | S fuel' =>
      let* items := readdirSync p in
      getAllFiles_items (getAllFiles_walk fuel') p items files
  end.

(** [getAllFiles()]: the full paths of the regular files of the working
    directory. *)
Definition getAllFiles `{Readdir} (fuel : nat) : M (list FS.path) :=
  getAllFiles_walk fuel path [].

(** [branch(branchName, del)]; [None] is [null]. [branches.sort()]
    compares UTF-16 code units: for names of ASCII characters this is
    the order of [sort_strings]; the model has no answer ([Timeout]) for
    other names. *)
Definition branch `{Readdir} (branchName : option string) (del : bool)
  : M unit :=
  if del && truthy branchName then
    let bfile := FS.join headsDir (default "" branchName) in
    let* ex := existsSync bfile in
    if ex then
      unlinkSync bfile >>
      log ("Deleted branch " +:+ default "" branchName)
    else log ("Branch " +:+ default "" branchName +:+ " not found")
  else
    let* currentBranch := getCurrentBranch in
    if truthy branchName then
      let* currentCommit := getBranchCommit currentBranch in
      if truthy currentCommit then
        setBranchCommit (default "" branchName) (default "" currentCommit) >>
        log ("Created branch " +:+ default "" branchName)
      else log "No commits yet, cannot create a new branch"
    else
      let* ex := existsSync headsDir in
      let* branches :=
        if ex then
          let* names := readdirSync headsDir in
          ret (List.filter (fun f => negb (Str.startsWith "." f)) names)
        else ret [] in
      if forallb ascii_text branches then
        fold_right
          (fun br rest =>
             let marker :=
               if String.eqb br currentBranch then "* " else "  " in
             log (marker +:+ br) >> rest)
          (ret tt) (sort_strings branches)
      else timeout.

(** The [while] loop of [log]: [fuel] is what is left of [maxCount]. *)
Fixpoint log_loop `{DateFormat} (fuel : nat) (commitHash : option string)
    (now : Z) : M unit :=
  match fuel with
  | O => ret tt
  | S fuel' =>
      if truthy commitHash then
        let* commitObj := loadObject (default "" commitHash) in
        let commit := Commit.fromContent (GitObject.content commitObj) now in
        log ("commit " +:+ default "" commitHash) >>
        log ("Author: " +:+ Commit.tpl (Commit.author commit)) >>
        log ("Date: " +:+ dateString (Commit.timestamp commit)) >>
        log (Str.lf +:+ "    " +:+ Commit.message commit +:+ Str.lf) >>
        log_loop fuel' (head (Commit.parentHashes commit)) now
      else ret tt
  end.

(** [log(maxCount)] for an integer [maxCount], at clock reading [now]
    (the clock is read where a commit has no timestamp). *)
Definition log `{DateFormat} (maxCount : Z) (now : Z) : M unit :=
  let* currentBranch := getCurrentBranch in
  let* commitHash := getBranchCommit currentBranch in
  if truthy commitHash then log_loop (Z.to_nat maxCount) commitHash now
  else log "No commits yet!".

End WithZlib.

End Repository.

(** ** class mygit (mygit.mjs) *)

Module mygit.

(** [fs.writeFile(p, data, {flag: 'wx'})]: the file is created, and the
    call fails when [p] exists. *)
Definition writeFileExcl (p : FS.path) (data : Buffer) : M unit :=
  fun w =>
    match FS.lookup (files w) p with
    | Some _ => (Throw (SystemError "EEXIST"), w)
    | None =>
        match FS.lookup (files w) (FS.dirname p) with
        | Some FS.Dir =>
            (Ok tt, World (<[p := FS.File data]> (files w)) (console w))
        | Some (FS.File _) => (Throw (SystemError "ENOTDIR"), w)
        | None => (Throw (SystemError "ENOENT"), w)
        end
    end.

Section WithPath.

(** The directory that [repopath] names, resolved. *)
Variable dir : FS.path.

Definition repopath : FS.path := FS.join dir ".mygit".
Definition objectpath : FS.path := FS.join repopath "objects".
Definition headpath : FS.path := FS.join repopath "HEAD".
Definition indexpath : FS.path := FS.join repopath "index".

(** [init()], which the constructor starts; its steps run one after the
    other. The text of [JSON.stringify([])] is "[]". *)
Definition init : M unit :=
  mkdirSync objectpath >>
  try_catch
    (writeFileExcl headpath (Buf.from "") >>
     writeFileExcl indexpath (Buf.from "[]") >>
     log "Initialized empty mygit repository.")
    (fun _ => log "Repository already initialized.").

End WithPath.

End mygit.

(** * Definitions used by the statements *)

(** The storage image of the specification: the kind, a space, the decimal
    byte length of the payload, a zero byte, the payload. *)
Definition storage_image (kind : string) (payload : Buffer) : Buffer :=
  Buf.from kind ++ Buf.from " " ++
  Buf.from (Num.toString (Z.of_nat (length payload))) ++ [x00] ++ payload.

Definition is_lower_hex (c : ascii) : bool :=
  let n := N_of_ascii c in
  ((48 <=? n) && (n <=? 57) || (97 <=? n) && (n <=? 102))%N.

Fixpoint all_chars (P : ascii -> bool) (s : string) : bool :=
  match s with
  | EmptyString => true
  | String c rest => P c && all_chars P rest
  end.

(** A 40-character lower-case hexadecimal text. *)
Definition is_hex40 (s : string) : Prop :=
  String.length s = 40%nat /\ all_chars is_lower_hex s = true.

(** The three bytes "hi\n". *)
Definition hi_lf : Buffer := [x68; x69; x0a].

(** Byte-lexicographic order on raw bytes: a proper prefix comes first,
    otherwise the first differing byte decides, as an unsigned number. *)
Inductive bytes_lt : Buffer -> Buffer -> Prop :=
| bytes_lt_nil (y : byte) (b : Buffer) : bytes_lt [] (y :: b)
| bytes_lt_head (x y : byte) (a b : Buffer) :
    (Byte.to_N x < Byte.to_N y)%N -> bytes_lt (x :: a) (y :: b)
| bytes_lt_tail (x : byte) (a b : Buffer) :
    bytes_lt a b -> bytes_lt (x :: a) (x :: b).

Definition bytes_le (a b : Buffer) : Prop := a = b \/ bytes_lt a b.

Definition name_le (e1 e2 : Tree.entry) : Prop :=
  bytes_le (Buf.from (Tree.name e1)) (Buf.from (Tree.name e2)).

(** A tree built by inserting the entries one after the other. *)
Definition insert_all (es : list Tree.entry) : Tree.t :=
  fold_left
    (fun t e => Tree.addEntry t (Tree.mode e) (Tree.name e) (Tree.hashHex e))
    es (Tree.new []).

(** What the specification asks of one entry of a payload: the text
    "<mode> <name>\0", then the raw bytes [raw] of the child id. *)
Definition entry_image (e : Tree.entry) (raw : Buffer) : Buffer :=
  Buf.from (Tree.mode e) ++ [x20] ++ Buf.from (Tree.name e) ++ [x00] ++ raw.

Definition id1 : string := "45b983be36b73c0788dc9cbcb76cbb80fc7bb057".
Definition id2 : string := "8c7e5a667f1b771847fe88c01c3de34413a1b220".
Definition id3 : string := "4b825dc642cb6eb9a060e54bf8d69288fbee4904".

Definition sample_entries : list Tree.entry :=
  [ Tree.Entry "100644" "readme" id1;
    Tree.Entry "40000" "src" id3;
    Tree.Entry "100644" "Makefile" id2 ].

(** The text [s] holds the character [c]. *)
Fixpoint contains (c : ascii) (s : string) : bool :=
  match s with
  | EmptyString => false
  | String x rest => Ascii.eqb x c || contains c rest
  end.

Definition no_newline (s : string) : Prop := contains Str.LF s = false.

(** The characters that can start the decimal text of a number. *)
Definition starts_number (c : ascii) : bool :=
  bool_decide (is_Some (Str.digit_value c)) || Ascii.eqb c "-".

(** A stand-in for zlib, to run examples: the data behind a marker byte.
    It satisfies the law of [ZlibLaws]. *)
Definition sample_zlib : Zlib := {|
  deflateSync := fun b => x78 :: b;
  inflateSync := fun b => match b with x78 :: rest => Some rest | _ => None end
|}.

(** The repository of the examples lives in /repo. *)
Definition sample_path : FS.path := ["repo"].

Definition empty_disk : world := World ∅ [].

(** /repo after [init]. *)
Definition fresh_repo : world :=
  snd (bind (mkdirSync sample_path) (fun _ => Repository.init sample_path)
         empty_disk).

(** The entry that [fromContent] should read back for [e]. *)
Definition parsed_of (e : Tree.entry) : Tree.parsed :=
  Tree.Parsed (Tree.mode e) (Some (Tree.name e)) (Tree.hashHex e).

(** A tree entry that [Tree.fromContent] reads back as it was written:
    no space and no zero byte in the mode and the name, and a 40-hex id. *)
Definition well_formed (e : Tree.entry) : Prop :=
  contains Str.SP (Tree.mode e) = false
  /\ contains Str.NUL (Tree.mode e) = false
  /\ contains Str.SP (Tree.name e) = false
  /\ contains Str.NUL (Tree.name e) = false
  /\ is_hex40 (Tree.hashHex e).

(** One entry whose name holds a space. *)
Definition spaced_entry : Tree.entry := Tree.Entry "100644" "a b" id1.

(** An index in which "a" is a file and a directory at the root. *)
Definition conflict_index : Index :=
  JS.set "a/b" id2 (JS.set "a" id1 []).

(** /repo after [init], with [conflict_index] staged. *)
Definition conflict_repo : world :=
  snd (Repository.saveIndex sample_path conflict_index fresh_repo).

(** The entries of the root tree that [createTreeFromIndex] builds, read
    back from the object store; [None] when building or reading fails. *)
Definition built_tree `{Zlib} (path : FS.path) (w : world)
    : option (list Tree.parsed) :=
  let r := Repository.createTreeFromIndex path w in
  match r.1 with
  | Ok rootHash =>
      match (Repository.loadObject path rootHash r.2).1 with
      | Ok root => Some (Tree.fromContent (GitObject.content root))
      | _ => None
      end
  | _ => None
  end.

(** The tree that holds the one file "b" of [conflict_index]. *)
Definition id_sub_b : string := "7267a98ac19cdb06f5aedce6cc0a748e86e1d003".

(** A dictionary as JavaScript holds it: its entries are in property order
    and no key occurs twice, so that setting its entries one by one on an
    empty object gives it back. *)
Definition canonical (idx : Index) : Prop :=
  fold_left (fun acc kv => JS.set kv.1 kv.2 acc) idx [] = idx.

(** Two indexes with the same two entries, staged in opposite orders. *)
Definition index_ab : Index := JS.set "b" id2 (JS.set "a" id1 []).
Definition index_ba : Index := JS.set "a" id1 (JS.set "b" id2 []).

(** The index as a finite map, forgetting the order of its entries. *)
Definition as_mapping (idx : Index) : gmap string string := list_to_map idx.

(** What [loadObject] yields on a file system. *)
Definition object_at `{Zlib} (path : FS.path) (fs : gmap FS.path FS.node)
    (objHash : string) : result GitObject.t :=
  (Repository.loadObject path objHash (World fs [])).1.

(** The mode of a subdirectory entry, as the tree walks see it. *)
Definition is_subtree (e : Tree.parsed) : Prop :=
  Str.startsWith "100" (Tree.p_mode e) = false
  /\ Str.startsWith "400" (Tree.p_mode e) = true.

(** The tree [h] and the trees below it nest less than [n] deep (a tree
    that cannot be read has no subtrees). *)
Inductive nests `{Zlib} (path : FS.path) (fs : gmap FS.path FS.node)
  : nat -> string -> Prop :=
| nests_unreadable (n : nat) (h : string) (e : exn) :
    object_at path fs h = Throw e -> nests path fs (S n) h
| nests_tree (n : nat) (h : string) (o : GitObject.t) :
    object_at path fs h = Ok o ->
    (forall e, e ∈ Tree.fromContent (GitObject.content o) -> is_subtree e ->
               nests path fs n (Tree.p_hashHex e)) ->
    nests path fs (S n) h.

(** The world [w'] differs from [w] by console lines only. *)
Definition quiet_step (w w' : world) : Prop :=
  files w' = files w /\ exists lines, console w' = console w ++ lines.

(** A command that only reads the file system and writes to the console. *)
Definition quiet {A} (m : M A) : Prop :=
  forall w, quiet_step w (m w).2.

(** The root tree of the commit of the branch that HEAD names. *)
Definition previous_tree `{Zlib} (path : FS.path) (now : Z)
    (fs : gmap FS.path FS.node) : option string :=
  match Repository.getCurrentBranch path (World fs []) with
  | (Ok branch, _) =>
      match Repository.getBranchCommit path branch (World fs []) with
      | (Ok (Some commitHash), _) =>
          match object_at path fs commitHash with
          | Ok o => Commit.treeHash (Commit.fromContent (GitObject.content o) now)
          | _ => None
          end
      | _ => None
      end
  | _ => None
  end.


(** A command whose outcome depends on the file system only and that
    leaves the world as it is. *)
Definition reads {A} (m : M A) : Prop :=
  forall w, m w = ((m (World (files w) [])).1, w).

(** /repo after staging and committing the file "a" on master. *)
Definition one_commit_repo : world :=
  (bind (writeFileSync (sample_path ++ ["a"%string]) (Buf.from "A"))
     (fun _ =>
        bind (@Repository.addFile sample_zlib sample_path "a")
          (fun _ =>
             @Repository.commit sample_zlib sample_path "one"
               "PyGit user <user@pygit.com>" 1700000000))
     fresh_repo).2.

(** [p] lies strictly below the directory [base]. *)
Definition below (base p : FS.path) : Prop :=
  exists q, q <> [] /\ p = base ++ q.

(** The directory [p] and all the directories above it exist. *)
Definition dirs_exist (fs : gmap FS.path FS.node) (p : FS.path) : Prop :=
  forall q, q <> [] -> q `prefix_of` p -> fs !! q = Some FS.Dir.

(** A path component that [path.join] appends as it is. *)
Definition plain (s : string) : Prop :=
  contains "/" s = false /\ s <> ""%string /\ s <> "."%string
  /\ s <> ".."%string.

(** The root tree of the parent commit, when the branch has a commit that
    can be read. *)
Definition parent_tree `{Zlib} (path : FS.path) (now : Z)
    (fs : gmap FS.path FS.node) (parent : option string) : option string :=
  if Repository.truthy parent then
    match object_at path fs (default "" parent) with
    | Ok o => Commit.treeHash (Commit.fromContent (GitObject.content o) now)
    | _ => None
    end
  else None.

(** A command that, in a repository whose directories exist, changes
    nothing outside the object store. *)
Definition stores_only {A} (path : FS.path) (m : M A) : Prop :=
  forall w, dirs_exist (files w) (Repository.objectsDir path) ->
    dirs_exist (files (m w).2) (Repository.objectsDir path)
    /\ forall p, ~ below (Repository.objectsDir path) p ->
                 files (m w).2 !! p = files w !! p.

(** The commit object that [commit] stores. *)
Definition commit_object (message author : string) (now : Z)
    (treeHash : string) (parent : option string) : GitObject.t :=
  Commit.object
    (Commit.new (Some treeHash)
       (if Repository.truthy parent then [default "" parent] else [])
       (Some author) (Some author) message None now).

(** /repo after one commit, with a new file "b" staged. *)
Definition staged_b_repo : world :=
  (bind (writeFileSync (sample_path ++ ["b"%string]) (Buf.from "B"))
     (fun _ => @Repository.addFile sample_zlib sample_path "b")
     one_commit_repo).2.

Definition id_tree_b : string := "3e47f6cdfa3aef910e255f6dd9d71f518c3da455".
Definition id_blob_b : string := "7371f47a6f8bd23a8fa1a8b2a9479cdd76380e54".
Definition id_commit_one : string := "a763aa31ca2fc38295b3fc53ca1f98dc7dd69621".

(** The file paths that the walk from the tree [h] reaches, each with
    [prefix] in front: the names of the entries that are files, and the
    paths reached from the entries that are directories. The entries of a
    tree are those that [Tree.fromContent] reads from its payload. *)
Inductive reachable `{Zlib} (path : FS.path) (fs : gmap FS.path FS.node)
  : string -> string -> string -> Prop :=
| reachable_file (h prefix : string) (o : GitObject.t) (e : Tree.parsed) :
    object_at path fs h = Ok o ->
    e ∈ Tree.fromContent (GitObject.content o) ->
    Str.startsWith "100" (Tree.p_mode e) = true ->
    reachable path fs h prefix
      (prefix +:+ default "undefined" (Tree.p_name e))
| reachable_below (h prefix f : string) (o : GitObject.t) (e : Tree.parsed) :
    object_at path fs h = Ok o ->
    e ∈ Tree.fromContent (GitObject.content o) ->
    is_subtree e ->
    reachable path fs (Tree.p_hashHex e)
      ((prefix +:+ default "undefined" (Tree.p_name e)) +:+ "/") f ->
    reachable path fs h prefix f.

(** The file paths reachable from the tree of the commit of the branch
    that HEAD names; none when that branch has no commit. *)
Definition tracked_by_previous `{Zlib} (path : FS.path) (now : Z)
    (fs : gmap FS.path FS.node) (f : string) : Prop :=
  exists (branch commitHash treeHash : string) (o : GitObject.t),
    (Repository.getCurrentBranch path (World fs [])).1 = Ok branch
    /\ (Repository.getBranchCommit path branch (World fs [])).1
       = Ok (Some commitHash)
    /\ commitHash <> ""%string
    /\ object_at path fs commitHash = Ok o
    /\ Commit.treeHash (Commit.fromContent (GitObject.content o) now)
       = Some treeHash
    /\ treeHash <> ""%string
    /\ reachable path fs treeHash "" f.

(** A regular file. *)
Definition is_regular (n : option FS.node) : bool :=
  match n with
  | Some (FS.File _) => true
  | _ => false
  end.

(** The file system after the regular files among the paths [l], taken
    from the directory [path], are deleted. *)
Definition cleared (path : FS.path) (l : list string)
    (fs : gmap FS.path FS.node) (p : FS.path) : option FS.node :=
  if bool_decide (p ∈ FS.join path <$> l) && is_regular (FS.lookup fs p)
  then None
  else fs !! p.

(** Scenario S5 before its last step: from [one_commit_repo] (master
    tracks the file "a" only), [checkout -b feat], a new file "b" is added
    and committed. *)
Definition feat_repo : world :=
  (bind (@Repository.checkout sample_zlib sample_path 8 "feat" true 1700000100)
     (fun _ =>
        bind (writeFileSync (sample_path ++ ["b"%string]) (Buf.from "B"))
          (fun _ =>
             bind (@Repository.addFile sample_zlib sample_path "b")
               (fun _ =>
                  @Repository.commit sample_zlib sample_path "two"
                    "PyGit user <user@pygit.com>" 1700000200)))
     one_commit_repo).2.

(** /repo after staging and committing the file "a b" on master, with a
    file "a" that was never staged. *)
Definition spaced_repo : world :=
  (bind (writeFileSync (sample_path ++ ["a b"%string]) (Buf.from "X"))
     (fun _ =>
        bind (@Repository.addFile sample_zlib sample_path "a b")
          (fun _ =>
             bind (@Repository.commit sample_zlib sample_path "one"
                     "PyGit user <user@pygit.com>" 1700000000)
               (fun _ =>
                  writeFileSync (sample_path ++ ["a"%string])
                    (Buf.from "mine"))))
     fresh_repo).2.

(** The blob of the bytes "X". *)
Definition blob_X : GitObject.t := Blob.new (Buf.from "X").

(** A text that does not begin or end with white space, and is not
    empty: [trim] leaves it as it is. *)
Definition solid (s : string) : Prop :=
  Str.skip_ws1 s = None /\ Str.drop_ws1_end s = None /\ s <> ""%string.

(** The place of the object [o] in the store is free, or holds [o]
    already. *)
Definition storable `{Zlib} (path : FS.path) (fs : gmap FS.path FS.node)
    (o : GitObject.t) : Prop :=
  (fs !! Repository.objectFile path (GitObject.hash o) = None
   /\ forall d, fs !! (Repository.objectsDir path
                         ++ [Str.slice_to 2 (GitObject.hash o)])
                <> Some (FS.File d))
  \/ fs !! Repository.objectFile path (GitObject.hash o)
     = Some (FS.File (GitObject.serialize o)).

(** /repo after [init], with a file "a" that holds the byte "A". *)
Definition file_a_repo : world :=
  (writeFileSync (sample_path ++ ["a"%string]) (Buf.from "A") fresh_repo).2.

(** The tree entry of a staged file. *)
Definition file_entry (kv : string * string) : Tree.entry :=
  Tree.Entry "100644" kv.1 kv.2.

(** [file_a_repo] after [add a]. *)
Definition staged_a_repo : world :=
  (@Repository.addFile sample_zlib sample_path "a" file_a_repo).2.

(** The order of the bytes of the UTF-8 texts. *)
Definition string_le (a b : string) : Prop :=
  bytes_le (Buf.from a) (Buf.from b).

(** The line of [branch] for the branch [br]. *)
Definition branch_line (currentBranch br : string) : string :=
  ((if String.eqb br currentBranch then "* " else "  ") +:+ br)%string.

(** The order in which the examples list a directory. *)
Definition sample_readdir : Readdir := {| arrange := reverse |}.

(** The commit of the branch feat in [feat_repo]. *)
Definition id_commit_two : string := "bf8592f537fe17f0665c060fedbae26745c2798b".

(** The commits that [log] visits from [commitHash] when it may show [n]
    of them: each one read from the store, then its first parent, until
    there is none or [n] are shown. *)
Inductive history `{Zlib} (path : FS.path) (now : Z)
    (fs : gmap FS.path FS.node)
  : nat -> option string -> list (string * Commit.t) -> Prop :=
| history_full (commitHash : option string) :
    history path now fs 0 commitHash []
| history_end (n : nat) (commitHash : option string) :
    Repository.truthy commitHash = false ->
    history path now fs n commitHash []
| history_step (n : nat) (h : string) (o : GitObject.t) (c : Commit.t)
    (next : option string) (rest : list (string * Commit.t)) :
    Repository.truthy (Some h) = true ->
    object_at path fs h = Ok o ->
    c = Commit.fromContent (GitObject.content o) now ->
    next = head (Commit.parentHashes c) ->
    history path now fs n next rest ->
    history path now fs (S n) (Some h) ((h, c) :: rest).

(** The four lines that [log] prints for a commit. *)
Definition log_lines `{DateFormat} (hc : string * Commit.t) : list string :=
  [ "commit " +:+ hc.1;
    "Author: " +:+ Commit.tpl (Commit.author hc.2);
    "Date: " +:+ dateString (Commit.timestamp hc.2);
    Str.lf +:+ "    " +:+ Commit.message hc.2 +:+ Str.lf ].

(** A date format for the examples: the seconds, in decimal. *)
Definition sample_date : DateFormat := {| dateString := Num.toString |}.

(** A command that, in a repository whose directories exist, changes
    nothing outside the repository directory [.git]. *)
Definition git_only {A} (path : FS.path) (m : M A) : Prop :=
  forall w, dirs_exist (files w) (Repository.objectsDir path) ->
    dirs_exist (files (m w).2) (Repository.objectsDir path)
    /\ forall p, ~ below (Repository.gitDir path) p ->
                 files (m w).2 !! p = files w !! p.

(** The tree entry of a regular file: its name and the id of the blob of
    its bytes. *)
Definition blob_entry (nc : string * Buffer) : Tree.entry :=
  Tree.Entry "100644" nc.1 (GitObject.hash (Blob.new nc.2)).

(** The object [o] is in the store. *)
Definition stored `{Zlib} (path : FS.path) (fs : gmap FS.path FS.node)
    (o : GitObject.t) : Prop :=
  fs !! Repository.objectFile path (GitObject.hash o)
  = Some (FS.File (GitObject.serialize o)).

(** The keys of an index are the names of a set of files, but for
    [__proto__]. *)
Definition names_of (index : Index) (files : list string) : Prop :=
  forall f, f ∈ JS.keys index <-> f ∈ files /\ f <> "__proto__"%string.

(** Every path of [fs] is still there in [fs'], a directory as a
    directory and a regular file as a regular file. *)
Definition keeps_paths (fs fs' : gmap FS.path FS.node) : Prop :=
  forall p : FS.path,
    (fs !! p = Some FS.Dir -> fs' !! p = Some FS.Dir)
    /\ (forall d, fs !! p = Some (FS.File d) ->
                  exists d', fs' !! p = Some (FS.File d')).

(** A command that removes no path and changes the kind of none. *)
Definition growing {A} (m : M A) : Prop :=
  forall w, keeps_paths (files w) (files (m w).2).

(** The key under which [addDirectory] stages the file [c] of the
    directory [q] of the working tree. *)
Definition rel_key (q : list string) (c : string) : string :=
  Str.join "/" (q ++ [c]).

(** The id of the blob of the regular file at [p]. *)
Definition blob_id (fs : gmap FS.path FS.node) (p : FS.path) : string :=
  match fs !! p with
  | Some (FS.File data) => GitObject.hash (Blob.new data)
  | _ => ""
  end.

(** What [addDirectory] does to its index and its counter for the name
    [c] in a directory [path ++ q] of regular files. *)
Definition stage_step (fs : gmap FS.path FS.node) (path : FS.path)
    (q : list string) (st : Index * Z) (c : string) : Index * Z :=
  if String.eqb c ".git" then st
  else (Repository.set_own (rel_key q c) (blob_id fs (path ++ q ++ [c])) st.1,
        (st.2 + 1)%Z).

(** The names in a directory that [addDirectory] does not skip. *)
Definition staged_names (fs : gmap FS.path FS.node) (d : FS.path)
  : list string :=
  List.filter (fun c => negb (String.eqb c ".git")) (children fs d).

(** No regular file lies directly in the directory [objects]. *)
Definition fanout_free (path : FS.path) (fs : gmap FS.path FS.node) : Prop :=
  forall c data, fs !! (Repository.objectsDir path ++ [c]) <> Some (FS.File data).

(** [walked fs path q comps]: the walk of the working tree, arrived in
    the directory [path ++ q], finds a regular file at
    [path ++ q ++ comps]: it goes down through directories that exist,
    and through no name [.git]. *)
Inductive walked (fs : gmap FS.path FS.node) (path : FS.path)
  : list string -> list string -> Prop :=
| walked_file (q : list string) (c : string) (data : Buffer) :
    c <> ".git"%string ->
    fs !! (path ++ q ++ [c]) = Some (FS.File data) ->
    walked fs path q [c]
| walked_dir (q : list string) (c : string) (comps : list string) :
    c <> ".git"%string ->
    fs !! (path ++ q ++ [c]) = Some FS.Dir ->
    walked fs path (q ++ [c]) comps ->
    walked fs path q (c :: comps).

(** Every name in a directory is a plain file name. *)
Definition names_plain (fs : gmap FS.path FS.node) : Prop :=
  forall (d : FS.path) (c : string), is_Some (fs !! (d ++ [c])) -> plain c.

(** What the walk of [addDirectory] keeps true of the world, [w0] being
    the world in which it started. *)
Definition store_kept (path : FS.path) (w0 w : world) : Prop :=
  dirs_exist (files w) (Repository.objectsDir path)
  /\ fanout_free path (files w)
  /\ console w = console w0
  /\ forall p, ~ below (Repository.objectsDir path) p ->
               files w !! p = files w0 !! p.

(** What a walk of [getAllFiles] that started in [path ++ q] with the
    array [acc] returned. *)
Definition walk_spec (path : FS.path) (w : world) (q : list string)
    (acc : list FS.path) (r : result (list FS.path)) (w' : world) : Prop :=
  w' = w
  /\ forall fs, r = Ok fs ->
       forall f, f ∈ fs
                 <-> f ∈ acc
                     \/ exists comps, f = path ++ q ++ comps
                                      /\ walked (files w) path q comps.

(** The entry that the loop of [createTreeRecursive] adds to the tree for
    an entry of the dictionary: a blob id gives a file of mode 100644, a
    nested dictionary a directory of mode 40000 under the id of a tree. *)
Definition entry_built (kv : string * JS.value) (e : Tree.entry) : Prop :=
  Tree.name e = kv.1
  /\ match kv.2 with
     | JS.Str h => Tree.mode e = "100644"%string /\ Tree.hashHex e = h
     | JS.Obj _ =>
         Tree.mode e = "40000"%string
         /\ exists sub, Tree.hashHex e
                        = GitObject.hash (Tree.object (Tree.new sub))
     end.

(** [shallow fs path n q]: the directory [path ++ q] exists, and the
    directories below it, those behind a name [.git] left out, are less
    than [n] levels deep. *)
Inductive shallow (fs : gmap FS.path FS.node) (path : FS.path)
  : nat -> list string -> Prop :=
| shallow_dir (n : nat) (q : list string) :
    FS.lookup fs (path ++ q) = Some FS.Dir ->
    (forall c, c <> ".git"%string ->
               fs !! (path ++ q ++ [c]) = Some FS.Dir ->
               shallow fs path n (q ++ [c])) ->
    shallow fs path (S n) q.

(** * Properties *)

#[local] Arguments String.append !s1 s2 : simpl nomatch.

(** ** SHA-1 on the test vectors of FIPS 180 *)

Example sha1_abc :
  SHA1.hexdigest (Buf.from "abc") = "a9993e364706816aba3e25717850c26c9cd0d89d"%string.
Proof. vm_compute. reflexivity. Qed.

Example sha1_empty :
  SHA1.hexdigest [] = "da39a3ee5e6b4b0d3255bfef95601890afd80709"%string.
Proof. vm_compute. reflexivity. Qed.

Example sha1_two_blocks :
  SHA1.hexdigest
    (Buf.from "abcdbcdecdefdefgefghfghighijhijkijkljklmklmnlmnomnopnopq")
  = "84983e441c3bd26ebaae4aa1f95129e5e54670f1"%string.
Proof. vm_compute. reflexivity. Qed.

(** ** Buffers and strings *)

Lemma from_app (a b : string) : Buf.from (a +:+ b) = Buf.from a ++ Buf.from b.
Proof.
  unfold Buf.from, list_byte_of_string.
  induction a as [|c a IH]; simpl; [done|]. by f_equal.
Qed.

Lemma from_toString (b : Buffer) : Buf.from (Buf.toString b) = b.
Proof. apply list_byte_of_string_of_list_byte. Qed.

Lemma toString_from (s : string) : Buf.toString (Buf.from s) = s.
Proof. apply string_of_list_byte_of_string. Qed.

Lemma encode_length (b : Buffer) :
  String.length (Hex.encode b) = (2 * length b)%nat.
Proof. induction b as [|x b IH]; simpl; [done|]. rewrite IH. lia. Qed.

Lemma digit_lower_hex (n : Z) : 0 <= n < 16 -> is_lower_hex (Hex.digit n) = true.
Proof.
  intros Hn. rewrite <- (Z2Nat.id n) by lia.
  assert (Hk : (Z.to_nat n < 16)%nat) by lia. revert Hk.
  generalize (Z.to_nat n) as k.
  do 16 (intros [|k]; [reflexivity|]; revert k). intros k ?. lia.
Qed.

Lemma byteZ_range (x : byte) : 0 <= Buf.byteZ x < 256.
Proof.
  unfold Buf.byteZ. pose proof (Byte.to_N_bounded x). lia.
Qed.

Lemma encode_lower_hex (b : Buffer) : all_chars is_lower_hex (Hex.encode b) = true.
Proof.
  induction b as [|x b IH]; simpl; [done|].
  pose proof (byteZ_range x) as Hx.
  rewrite !digit_lower_hex, IH; [done| |].
  - apply Z.mod_pos_bound. lia.
  - split; [apply Z.div_pos; lia | apply Z.div_lt_upper_bound; lia].
Qed.

Lemma be_bytes_length (n : nat) (x : Z) : length (SHA1.be_bytes n x) = n.
Proof. induction n as [|n IH]; simpl; [done|]. by rewrite IH. Qed.

Lemma digest_length (msg : list byte) : length (SHA1.digest msg) = 20%nat.
Proof.
  unfold SHA1.digest. cbv zeta. rewrite !length_app, !be_bytes_length. done.
Qed.

Lemma hexdigest_hex40 (msg : list byte) : is_hex40 (SHA1.hexdigest msg).
Proof.
  split.
  - unfold SHA1.hexdigest. by rewrite encode_length, digest_length.
  - apply encode_lower_hex.
Qed.

(** ** C1: identity and on-disk image of an object *)

Lemma store_storage_image (o : GitObject.t) :
  GitObject.store o = storage_image (GitObject.type o) (GitObject.content o).
Proof.
  unfold GitObject.store, GitObject.header, storage_image.
  rewrite !from_app, <- !app_assoc. reflexivity.
Qed.

(** C1 (as stated, refuted): the identity of the blob "hi\n" is not the
    constant that the specification gives. *)
Lemma C1_blob_hi_counterexample :
  GitObject.hash (Blob.new hi_lf) <> "32f95c3cf70b7aa19ca88912c84d0cbf7d9e62ae"%string.
Proof. vm_compute. discriminate. Qed.

(** C1 (amended): for every object of kind k with payload p, [hash] is the
    40-hex SHA-1 of the storage image "<k> <decimal length of p>\0" followed
    by p, and [serialize] is the zlib deflate of that storage image; the
    blob whose payload is the three bytes "hi\n" has identity
    45b983be36b73c0788dc9cbcb76cbb80fc7bb057. *)
Theorem C1_hash_and_serialize `{Zlib} (k : string) (p : Buffer) :
  let o := GitObject.Build k p in
  GitObject.hash o = Hex.encode (SHA1.digest (storage_image k p))
  /\ is_hex40 (GitObject.hash o)
  /\ GitObject.serialize o = deflateSync (storage_image k p)
  /\ GitObject.hash (Blob.new hi_lf) = "45b983be36b73c0788dc9cbcb76cbb80fc7bb057"%string.
Proof.
  intros o. split; [|split; [|split]].
  - unfold GitObject.hash. by rewrite store_storage_image.
  - apply hexdigest_hex40.
  - unfold GitObject.serialize. by rewrite store_storage_image.
  - vm_compute. reflexivity.
Qed.

(** ** C2: the payload of a tree *)

Lemma to_N_inj (x y : byte) : Byte.to_N x = Byte.to_N y -> x = y.
Proof.
  intros E. pose proof (Byte.of_to_N x) as Hx. pose proof (Byte.of_to_N y) as Hy.
  rewrite E in Hx. congruence.
Qed.

Lemma compare_Eq (a b : Buffer) : Buf.compare a b = Eq <-> a = b.
Proof.
  revert b. induction a as [|x a IH]; intros [|y b]; simpl; try (split; congruence).
  destruct (N.compare_spec (Byte.to_N x) (Byte.to_N y)) as [E|E|E].
  - apply to_N_inj in E as ->. rewrite IH. split; congruence.
  - split; [discriminate|]. intros [= -> _]. lia.
  - split; [discriminate|]. intros [= -> _]. lia.
Qed.

Lemma compare_Lt (a b : Buffer) : Buf.compare a b = Lt <-> bytes_lt a b.
Proof.
  revert b. induction a as [|x a IH]; intros [|y b]; simpl.
  - split; [discriminate|inversion 1].
  - split; [constructor|done].
  - split; [discriminate|inversion 1].
  - destruct (N.compare_spec (Byte.to_N x) (Byte.to_N y)) as [E|E|E].
    + apply to_N_inj in E as ->. rewrite IH. split; [by constructor|].
      inversion 1; subst; [lia|done].
    + split; [by constructor|done].
    + split; [discriminate|]. inversion 1; subst; lia.
Qed.

Lemma compare_Gt (a b : Buffer) : Buf.compare a b = Gt <-> bytes_lt b a.
Proof.
  revert b. induction a as [|x a IH]; intros [|y b]; simpl.
  - split; [discriminate|inversion 1].
  - split; [discriminate|inversion 1].
  - split; [constructor|done].
  - destruct (N.compare_spec (Byte.to_N x) (Byte.to_N y)) as [E|E|E].
    + apply to_N_inj in E as ->. rewrite IH. split; [by constructor|].
      inversion 1; subst; [lia|done].
    + split; [discriminate|]. inversion 1; subst; lia.
    + split; [by constructor|done].
Qed.

Lemma bytes_lt_trans (a b c : Buffer) : bytes_lt a b -> bytes_lt b c -> bytes_lt a c.
Proof.
  intros Hab. revert c. induction Hab; intros c Hbc; inversion Hbc; subst;
    try (constructor; done); try (constructor; lia).
  apply bytes_lt_tail; auto.
Qed.

Lemma bytes_le_trans (a b c : Buffer) : bytes_le a b -> bytes_le b c -> bytes_le a c.
Proof.
  intros [->|Hab] [->|Hbc]; [by left|by right|by right|].
  right. eapply bytes_lt_trans; eauto.
Qed.

Lemma insert_perm (e : Tree.entry) (l : list Tree.entry) :
  Permutation (e :: l) (Tree.insert e l).
Proof.
  induction l as [|x l IH]; simpl; [done|].
  destruct (Tree.name_compare e x); try done.
  rewrite perm_swap. by constructor.
Qed.

Lemma sort_perm (l : list Tree.entry) : Permutation l (Tree.sort l).
Proof.
  induction l as [|e l IH]; simpl; [done|].
  rewrite <- insert_perm. by constructor.
Qed.

Lemma insert_sorted (e : Tree.entry) (l : list Tree.entry) :
  StronglySorted name_le l -> StronglySorted name_le (Tree.insert e l).
Proof.
  induction 1 as [|x l Hs IH Hx]; simpl.
  - repeat constructor.
  - unfold Tree.name_compare.
    destruct (Buf.compare (Buf.from (Tree.name e)) (Buf.from (Tree.name x))) eqn:E.
    + apply compare_Eq in E.
      constructor; [by constructor|]. constructor; [by left|].
      eapply Forall_impl; [exact Hx|]. intros y Hy. unfold name_le in *. by rewrite E.
    + apply compare_Lt in E.
      constructor; [by constructor|]. constructor; [by right|].
      eapply Forall_impl; [exact Hx|]. intros y Hy.
      eapply bytes_le_trans; [right; exact E|exact Hy].
    + apply compare_Gt in E. constructor; [done|].
      rewrite <- insert_perm. constructor; [by right|done].
Qed.

Lemma sort_sorted (l : list Tree.entry) : StronglySorted name_le (Tree.sort l).
Proof.
  induction l as [|e l IH]; simpl; [constructor|]. by apply insert_sorted.
Qed.
Lemma lower_hex_value (c : ascii) :
  is_lower_hex c = true ->
  exists h, Hex.value c = Some h /\ 0 <= h < 16 /\ Hex.digit h = c.
Proof.
  destruct c as [[] [] [] [] [] [] [] []]; intros H; vm_compute in H;
    try discriminate; eexists; (split; [vm_compute; reflexivity|]);
    (split; [lia|reflexivity]).
Qed.

Lemma byteZ_of_Z (z : Z) : 0 <= z < 256 -> Buf.byteZ (Buf.byte_of_Z z) = z.
Proof.
  intros Hz. unfold Buf.byteZ, Buf.byte_of_Z.
  rewrite Z.mod_small by lia.
  destruct (Byte.of_N (Z.to_N z)) as [b|] eqn:E.
  - apply Byte.to_of_N in E. rewrite E. lia.
  - apply Byte.of_N_None_iff in E. lia.
Qed.

Lemma encode_decode (s : string) :
  all_chars is_lower_hex s = true -> Nat.Even (String.length s) ->
  Hex.encode (Hex.decode s) = s /\ (2 * length (Hex.decode s))%nat = String.length s.
Proof.
  revert s. fix IH 1. intros [|c1 [|c2 s]] Hs Hev.
  - done.
  - destruct Hev as [k Hk]. simpl in Hk. lia.
  - simpl in Hs. apply andb_prop in Hs as [H1 Hs]. apply andb_prop in Hs as [H2 Hs].
    destruct (lower_hex_value _ H1) as (h & Eh & Hh & Dh).
    destruct (lower_hex_value _ H2) as (l & El & Hl & Dl).
    assert (Hev' : Nat.Even (String.length s)).
    { destruct Hev as [k Hk]. simpl in Hk. exists (k - 1)%nat. lia. }
    destruct (IH s Hs Hev') as [IH1 IH2].
    cbn [Hex.decode]. rewrite Eh, El. cbn [Hex.encode length String.length].
    rewrite byteZ_of_Z by lia.
    replace ((16 * h + l) / 16) with h by (apply Z.div_unique with l; lia).
    replace ((16 * h + l) mod 16) with l by (apply Z.mod_unique with h; lia).
    rewrite Dh, Dl, IH1. split; [done|lia].
Qed.

Lemma hex40_decode (s : string) :
  is_hex40 s -> length (Hex.decode s) = 20%nat /\ Hex.encode (Hex.decode s) = s.
Proof.
  intros [Hl Hc]. destruct (encode_decode s Hc) as [E L].
  - exists 20%nat. lia.
  - split; [lia|done].
Qed.

Lemma insert_all_spec (es : list Tree.entry) :
  Tree.entries (insert_all es) = es
  /\ Tree.content (insert_all es) = Tree._serializeEntries es.
Proof.
  unfold insert_all.
  assert (G : forall t,
             Tree.content t = Tree._serializeEntries (Tree.entries t) ->
             let t' := fold_left
                         (fun t e => Tree.addEntry t (Tree.mode e) (Tree.name e)
                                       (Tree.hashHex e)) es t in
             Tree.entries t' = Tree.entries t ++ es
             /\ Tree.content t' = Tree._serializeEntries (Tree.entries t ++ es)).
  { induction es as [|[m n h] es IH]; intros t Ht; simpl.
    - by rewrite app_nil_r.
    - destruct (IH (Tree.addEntry t m n h) eq_refl) as [E1 E2].
      simpl in E1, E2. rewrite <- app_assoc in E1, E2. done. }
  apply (G (Tree.new [])). reflexivity.
Qed.

Lemma entry_bytes_image (e : Tree.entry) :
  Tree.entry_bytes e = entry_image e (Hex.decode (Tree.hashHex e)).
Proof.
  unfold Tree.entry_bytes, entry_image. rewrite !from_app, <- !app_assoc.
  reflexivity.
Qed.

(** C2: whatever the order in which the entries were inserted, the payload
    of the tree lists them sorted ascending by name under the
    byte-lexicographic order of the raw name bytes, and gives for each
    entry the text "<mode> <name>\0" followed by the 20 raw bytes of the
    child id. *)
Theorem C2_tree_payload_sorted (es : list Tree.entry) :
  Forall (fun e => is_hex40 (Tree.hashHex e)) es ->
  exists sorted : list (Tree.entry * Buffer),
    Permutation es (map fst sorted)
    /\ StronglySorted name_le (map fst sorted)
    /\ Forall (fun er => length er.2 = 20%nat
                         /\ Hex.encode er.2 = Tree.hashHex er.1) sorted
    /\ Tree.content (insert_all es)
       = concat (map (fun er => entry_image er.1 er.2) sorted).
Proof.
  intros Hhex.
  exists (map (fun e => (e, Hex.decode (Tree.hashHex e))) (Tree.sort es)).
  rewrite map_map. simpl. rewrite map_id.
  split; [apply sort_perm|]. split; [apply sort_sorted|]. split.
  - apply Forall_map. simpl.
    rewrite <- (sort_perm es). eapply Forall_impl; [exact Hhex|].
    intros e He. by apply hex40_decode.
  - destruct (insert_all_spec es) as [_ ->].
    unfold Tree._serializeEntries. rewrite map_map. f_equal.
    apply map_ext. intros e. apply entry_bytes_image.
Qed.

Lemma C2_witness :
  exists sorted : list (Tree.entry * Buffer),
    Permutation sample_entries (map fst sorted)
    /\ StronglySorted name_le (map fst sorted)
    /\ Forall (fun er => length er.2 = 20%nat
                         /\ Hex.encode er.2 = Tree.hashHex er.1) sorted
    /\ Tree.content (insert_all sample_entries)
       = concat (map (fun er => entry_image er.1 er.2) sorted).
Proof.
  apply (C2_tree_payload_sorted sample_entries).
  repeat constructor.
Defined.

(** ** Splitting and joining *)

Lemma split_nonempty (sep : ascii) (s : string) : Str.split sep s <> [].
Proof.
  destruct s as [|c s]; simpl; [done|].
  destruct (Ascii.eqb c sep); [done|]. by destruct (Str.split sep s).
Qed.

Lemma split_none (sep : ascii) (s : string) :
  contains sep s = false -> Str.split sep s = [s].
Proof.
  induction s as [|c s IH]; simpl; [done|].
  intros H. apply orb_false_elim in H as [Hc Hs].
  rewrite Hc, (IH Hs). done.
Qed.

Lemma split_app (sep : ascii) (x y : string) :
  contains sep x = false ->
  Str.split sep (x +:+ String sep y) = x :: Str.split sep y.
Proof.
  induction x as [|c x IH]; simpl.
  - intros _. by rewrite Ascii.eqb_refl.
  - intros H. apply orb_false_elim in H as [Hc Hx].
    rewrite Hc, (IH Hx). done.
Qed.

Lemma join_cons (sep x : string) (l : list string) :
  l <> [] -> Str.join sep (x :: l) = x +:+ sep +:+ Str.join sep l.
Proof. by destruct l. Qed.

Lemma join_split (sep : ascii) (s : string) :
  Str.join (String sep EmptyString) (Str.split sep s) = s.
Proof.
  induction s as [|c s IH]; simpl; [done|].
  destruct (Ascii.eqb_spec c sep) as [->|Hne].
  - rewrite join_cons by apply split_nonempty. simpl. by rewrite IH.
  - pose proof (split_nonempty sep s) as Hn.
    destruct (Str.split sep s) as [|p ps]; [done|].
    destruct ps as [|q ps]; simpl in *; by rewrite <- IH.
Qed.

Lemma app_assoc_s (a b c : string) : (a +:+ b) +:+ c = a +:+ b +:+ c.
Proof. induction a as [|x a IH]; simpl; [done|]. by f_equal. Qed.

(** Splitting a joined list whose last element may hold the separator. *)
Lemma split_join_last (sep : ascii) (l : list string) (m : string) :
  Forall (fun s => contains sep s = false) l ->
  Str.split sep (Str.join (String sep EmptyString) (l ++ [m]))
  = l ++ Str.split sep m.
Proof.
  induction 1 as [|x l Hx Hl IH]; [done|].
  rewrite <- app_comm_cons, join_cons by (by destruct l).
  change (x +:+ String sep EmptyString +:+ ?r) with (x +:+ String sep r).
  rewrite split_app by done. by rewrite IH.
Qed.

Lemma split_join (sep : ascii) (l : list string) :
  l <> [] -> Forall (fun s => contains sep s = false) l ->
  Str.split sep (Str.join (String sep EmptyString) l) = l.
Proof.
  intros Hne Hl. destruct (exists_last Hne) as (l' & m & ->).
  apply Forall_app in Hl as [Hl' Hm]. apply Forall_inv in Hm.
  rewrite split_join_last by done. by rewrite split_none.
Qed.

(** ** Decimal text and [parseInt] *)

Lemma digit_value_char (m : N) :
  (m < 10)%N -> Str.digit_value (Num.digit_char m) = Some m.
Proof.
  intros Hm. rewrite <- (N2Nat.id m).
  assert (Hk : (N.to_nat m < 10)%nat) by lia. revert Hk.
  generalize (N.to_nat m) as k.
  do 10 (intros [|k]; [reflexivity|]; revert k). intros k ?. lia.
Qed.

Lemma skip_ws1_number (c : ascii) (s : string) :
  starts_number c = true -> Str.skip_ws1 (String c s) = None.
Proof.
  destruct c as [[] [] [] [] [] [] [] []]; intros H; vm_compute in H;
    try discriminate; reflexivity.
Qed.

Lemma trimStart_number (c : ascii) (s : string) :
  starts_number c = true -> Str.trimStart (String c s) = String c s.
Proof.
  intros H. unfold Str.trimStart. simpl. by rewrite skip_ws1_number.
Qed.

Lemma digits_spec (fuel : nat) :
  forall (n : N) (acc : string), (n < 2 ^ N.of_nat fuel)%N ->
    n <> 0%N \/ fuel <> O ->
    (exists m rest, (m < 10)%N /\ Num.digits fuel n acc = String (Num.digit_char m) rest)
    /\ exists k : N, forall (a : N) (seen : bool),
        Str.digits_prefix (Num.digits fuel n acc) a seen
        = Str.digits_prefix acc (a * 10 ^ k + n)%N true.
Proof.
  induction fuel as [|fuel IH]; intros n acc Hn H0.
  - simpl in Hn. lia.
  - cbn [Num.digits]. cbv zeta.
    assert (Hm : (n mod 10 < 10)%N) by (apply N.mod_lt; lia).
    destruct (N.eqb_spec (n / 10) 0) as [E|E].
    + split; [by eauto|]. exists 1%N. intros a seen. cbn [Str.digits_prefix].
      rewrite digit_value_char by done. f_equal.
      pose proof (N.div_mod n 10). lia.
    + assert (Hd : (n / 10 < 2 ^ N.of_nat fuel)%N).
      { apply N.Div0.div_lt_upper_bound.
        rewrite Nat2N.inj_succ, N.pow_succ_r' in Hn. lia. }
      destruct (IH (n / 10)%N (String (Num.digit_char (n mod 10)) acc) Hd)
        as [Hfirst [k Hk]]; [by left|].
      split; [done|]. exists (k + 1)%N. intros a seen. rewrite Hk.
      cbn [Str.digits_prefix]. rewrite digit_value_char by done. f_equal.
      rewrite N.pow_add_r. pose proof (N.div_mod n 10). lia.
Qed.

Lemma log2_fuel (n : N) : (n < 2 ^ N.of_nat (S (N.to_nat (N.log2 n))))%N.
Proof.
  rewrite Nat2N.inj_succ, N2Nat.id.
  destruct n as [|p]; [done|]. apply N.log2_spec. lia.
Qed.

Lemma N_toString_first (n : N) :
  exists m rest, (m < 10)%N /\ Num.N_toString n = String (Num.digit_char m) rest.
Proof. apply digits_spec; [apply log2_fuel|by right]. Qed.

Lemma N_toString_value (n : N) :
  Str.digits_prefix (Num.N_toString n) 0 false = (n, true).
Proof.
  destruct (digits_spec _ n EmptyString (log2_fuel n)) as [_ [k Hk]];
    [by right|].
  unfold Num.N_toString. rewrite Hk. by cbn [Str.digits_prefix N.mul N.add].
Qed.

Lemma digit_char_starts (m : N) : (m < 10)%N ->
  starts_number (Num.digit_char m) = true
  /\ Ascii.eqb (Num.digit_char m) "-" = false
  /\ Ascii.eqb (Num.digit_char m) "+" = false.
Proof.
  intros Hm. rewrite <- (N2Nat.id m).
  assert (Hk : (N.to_nat m < 10)%nat) by lia. revert Hk.
  generalize (N.to_nat m) as k.
  do 10 (intros [|k]; [by vm_compute|]; revert k). intros k ?. lia.
Qed.

Lemma parseInt_N (n : N) : Str.parseInt (Num.N_toString n) = Some (Z.of_N n).
Proof.
  destruct (N_toString_first n) as (m & rest & Hm & E).
  destruct (digit_char_starts m Hm) as (H1 & H2 & H3).
  unfold Str.parseInt. rewrite E, trimStart_number by done.
  assert (Hbody :
    (let '(neg, body) :=
       match String (Num.digit_char m) rest with
       | String "-" r => (true, r)
       | String "+" r => (false, r)
       | _ => (false, String (Num.digit_char m) rest)
       end in
     match Str.digits_prefix body 0 false with
     | (n0, true) => Some (if (neg : bool) then - Z.of_N n0 else Z.of_N n0)
     | (_, false) => None
     end)
    = match Str.digits_prefix (String (Num.digit_char m) rest) 0 false with
      | (n0, true) => Some (Z.of_N n0)
      | (_, false) => None
      end).
  { destruct (Num.digit_char m) as [[] [] [] [] [] [] [] []];
      try discriminate; reflexivity. }
  rewrite Hbody, <- E, N_toString_value. done.
Qed.

Lemma parseInt_toString (z : Z) : Str.parseInt (Num.toString z) = Some z.
Proof.
  destruct z as [|p|p]; try apply parseInt_N.
  unfold Num.toString, Str.parseInt.
  rewrite trimStart_number by reflexivity.
  rewrite N_toString_value. done.
Qed.

Lemma digits_no_char (c : ascii) (fuel : nat) (n : N) (acc : string) :
  Str.digit_value c = None -> contains c acc = false ->
  contains c (Num.digits fuel n acc) = false.
Proof.
  intros Hc. revert n acc. induction fuel as [|fuel IH]; intros n acc Hacc; [done|].
  cbn [Num.digits]. cbv zeta.
  assert (Hm : (n mod 10 < 10)%N) by (apply N.mod_lt; lia).
  assert (Hne : Ascii.eqb (Num.digit_char (n mod 10)) c = false).
  { apply Ascii.eqb_neq. intros <-. rewrite digit_value_char in Hc; done. }
  destruct (n / 10 =? 0)%N; [|apply IH]; cbn [contains]; by rewrite Hne.
Qed.

Lemma toString_no_char (c : ascii) (z : Z) :
  Str.digit_value c = None -> Ascii.eqb "-" c = false ->
  contains c (Num.toString z) = false.
Proof.
  intros Hc Hm. destruct z as [|p|p]; unfold Num.toString.
  - by apply digits_no_char.
  - by apply digits_no_char.
  - cbn [contains]. rewrite Hm. by apply digits_no_char.
Qed.

(** ** C6: a commit and its payload *)

Lemma split_app_gen (sep : ascii) (x y : string) :
  Str.split sep (x +:+ String sep y) = Str.split sep x ++ Str.split sep y.
Proof.
  induction x as [|c x IH]; simpl.
  - by rewrite Ascii.eqb_refl.
  - rewrite IH. destruct (Ascii.eqb c sep); [done|].
    pose proof (split_nonempty sep x) as Hn.
    by destruct (Str.split sep x).
Qed.

Lemma contains_app (c : ascii) (a b : string) :
  contains c (a +:+ b) = contains c a || contains c b.
Proof.
  induction a as [|x a IH]; simpl; [done|]. by rewrite IH, orb_assoc.
Qed.

Lemma identity_stamp (a : string) (ts : Z) :
  let parts := Str.split " " (a +:+ " " +:+ Num.toString ts +:+ " +0000") in
  Commit.identity parts = a /\ Commit.stamp parts = Some ts.
Proof.
  intros parts. subst parts.
  change (a +:+ " " +:+ ?r) with (a +:+ String " " r).
  rewrite split_app_gen.
  change (Num.toString ts +:+ " +0000")
    with (Num.toString ts +:+ String " " "+0000").
  rewrite split_app by (by apply toString_no_char).
  change (Str.split " " "+0000") with ["+0000"%string].
  unfold Commit.identity, Commit.stamp.
  rewrite length_app. cbn [length].
  replace (length (Str.split " " a) + 2 - 2)%nat
    with (length (Str.split " " a) + 0)%nat by lia.
  split.
  - rewrite take_app_add by done. cbn [take]. rewrite app_nil_r.
    apply (join_split " ").
  - destruct (Nat.leb_spec 2 (length (Str.split " " a) + 2)) as [_|?]; [|lia].
    rewrite lookup_app_r by lia.
    replace (length (Str.split " " a) + 0 - length (Str.split " " a))%nat
      with 0%nat by lia.
    simpl. apply parseInt_toString.
Qed.

Lemma startsWith_app (p s : string) : Str.startsWith p (p +:+ s) = true.
Proof. induction p as [|c p IH]; simpl; [by destruct s|]. by destruct (ascii_dec c c). Qed.

Lemma scan_parents (ps rest : list string) (i : nat) (h : Commit.header) :
  Commit.scan (map (fun p => "parent " +:+ p) ps ++ rest) i h
  = Commit.scan rest (i + length ps)
      (Commit.Header (Commit.h_treeHash h) (Commit.h_parentHashes h ++ ps)
         (Commit.h_author h) (Commit.h_committer h) (Commit.h_messageStart h)
         (Commit.h_timestamp h)).
Proof.
  revert i h. induction ps as [|p ps IH]; intros i h.
  - simpl. rewrite app_nil_r, Nat.add_0_r. by destruct h.
  - cbn [map app Commit.scan]. 
    change (Str.startsWith "tree " ("parent " +:+ p)) with false.
    rewrite (startsWith_app "parent " p). rewrite IH. cbn [Commit.h_treeHash Commit.h_parentHashes
      Commit.h_author Commit.h_committer Commit.h_messageStart
      Commit.h_timestamp length].
    change (Str.slice_from 7 ("parent " +:+ p)) with p.
    rewrite <- app_assoc. f_equal. lia.
Qed.

Lemma no_newline_app (a b : string) :
  no_newline a -> no_newline b -> no_newline (a +:+ b).
Proof. unfold no_newline. intros Ha Hb. by rewrite contains_app, Ha, Hb. Qed.

Lemma no_newline_stamp (ts : Z) : no_newline (Num.toString ts).
Proof. by apply toString_no_char. Qed.

(** C6 (as stated, refuted): an author text with a newline is not read
    back. *)
Lemma C6_author_newline_counterexample :
  let c := Commit.new (Some id3) [] (Some ("A" +:+ Str.lf +:+ "B"))
             (Some "C <c@x>") "message" None 1700000000 in
  Commit.author (Commit.fromContent (Commit.content c) 1700000000)
  <> Commit.author c.
Proof. vm_compute. discriminate. Qed.

(** C6 (amended): for every commit built by the constructor from a tree id,
    parent ids, an author and a committer that hold no newline, and with a
    timestamp other than 0 that is a safe integer (at most 2^53 - 1 in
    magnitude, so that it is printed with all its digits and read back
    exactly), parsing the payload back gives the same tree id, parent list
    in order, author, committer, timestamp and message; the message may
    hold newlines and blank lines. *)
Theorem C6_commit_roundtrip (treeHash : string) (parentHashes : list string)
    (author committer message : string) (timestamp : option Z)
    (now now' : Z) :
  no_newline treeHash -> Forall no_newline parentHashes ->
  no_newline author -> no_newline committer ->
  Commit.ts_or_now timestamp now <> 0 ->
  Num.isSafeInteger (Commit.ts_or_now timestamp now) = true ->
  let c := Commit.new (Some treeHash) parentHashes (Some author)
             (Some committer) message timestamp now in
  let c' := Commit.fromContent (Commit.content c) now' in
  Commit.treeHash c' = Commit.treeHash c
  /\ Commit.parentHashes c' = Commit.parentHashes c
  /\ Commit.author c' = Commit.author c
  /\ Commit.committer c' = Commit.committer c
  /\ Commit.timestamp c' = Commit.timestamp c
  /\ Commit.message c' = Commit.message c.
Proof.
  intros Hth Hps Ha Hcm Hts _ c c'.
  set (ts := Commit.ts_or_now timestamp now) in *.
  set (aline := "author " +:+ author +:+ " " +:+ Num.toString ts +:+ " +0000").
  set (cline := "committer " +:+ committer +:+ " " +:+ Num.toString ts
                  +:+ " +0000").
  set (hdr := ["tree " +:+ treeHash]
                ++ map (fun p => "parent " +:+ p) parentHashes
                ++ [aline; cline; EmptyString]).
  assert (Hlines :
    Str.split Str.LF (Buf.toString (Commit.content c)) = hdr ++ Str.split Str.LF message).
  { subst c. cbn [Commit.content Commit.new]. rewrite toString_from.
    change (Commit.tpl (Some ?x)) with x.
    fold ts. fold aline. fold cline.
    replace (["tree " +:+ treeHash]
               ++ map (fun p => "parent " +:+ p) parentHashes
               ++ [aline; cline; EmptyString; message])
      with (hdr ++ [message])
      by (subst hdr; by rewrite <- !app_assoc).
    apply (split_join_last Str.LF). subst hdr.
    apply Forall_app. split; [|apply Forall_app; split].
    - constructor; [|done]. by apply no_newline_app.
    - apply Forall_map. eapply Forall_impl; [exact Hps|].
      intros p Hp. by apply no_newline_app.
    - repeat constructor; subst aline cline;
        repeat (apply no_newline_app; try done); apply no_newline_stamp. }
  assert (Hscan :
    Commit.scan (hdr ++ Str.split Str.LF message) 0
      (Commit.Header None [] None None 0 None)
    = Commit.Header (Some treeHash) parentHashes (Some author)
        (Some committer) (length hdr) (Some ts)).
  { subst hdr. rewrite <- !app_assoc. cbn [app Commit.scan].
    rewrite (startsWith_app "tree " treeHash).
    change (Str.slice_from 5 ("tree " +:+ treeHash)) with treeHash.
    rewrite scan_parents.
    cbn [app Commit.scan Commit.h_treeHash Commit.h_parentHashes
           Commit.h_author Commit.h_committer Commit.h_messageStart
           Commit.h_timestamp].
    change (Str.startsWith "tree " aline) with false.
    change (Str.startsWith "parent " aline) with false.
    subst aline. rewrite (startsWith_app "author ").
    change (Str.slice_from 7 ("author " +:+ ?r)) with r.
    destruct (identity_stamp author ts) as [-> ->].
    change (Str.startsWith "tree " cline) with false.
    change (Str.startsWith "parent " cline) with false.
    change (Str.startsWith "author " cline) with false.
    subst cline. rewrite (startsWith_app "committer ").
    change (Str.slice_from 10 ("committer " +:+ ?r)) with r.
    destruct (identity_stamp committer ts) as [-> _].
    cbn. rewrite !length_app, length_map. cbn [length]. do 2 f_equal. lia. }
  subst c'. unfold Commit.fromContent. rewrite Hlines, Hscan.
  cbn [Commit.h_treeHash Commit.h_parentHashes Commit.h_author
         Commit.h_committer Commit.h_messageStart Commit.h_timestamp].
  rewrite drop_app_length, (join_split Str.LF).
  subst c. cbn [Commit.new Commit.treeHash Commit.parentHashes Commit.author
                  Commit.committer Commit.timestamp Commit.message].
  fold ts. repeat split.
  unfold Commit.ts_or_now at 1. by destruct (Z.eqb_spec ts 0).
Qed.

Lemma C6_witness :
  let c := Commit.new (Some id3) [id1; id2] (Some "A U Thor <a@x>")
             (Some "C <c@x>") ("subject" +:+ Str.lf +:+ Str.lf +:+ "body")
             None 1700000000 in
  let c' := Commit.fromContent (Commit.content c) 1700000123 in
  Commit.treeHash c' = Commit.treeHash c
  /\ Commit.parentHashes c' = Commit.parentHashes c
  /\ Commit.author c' = Commit.author c
  /\ Commit.committer c' = Commit.committer c
  /\ Commit.timestamp c' = Commit.timestamp c
  /\ Commit.message c' = Commit.message c.
Proof.
  apply (C6_commit_roundtrip id3 [id1; id2] "A U Thor <a@x>" "C <c@x>"
           ("subject" +:+ Str.lf +:+ Str.lf +:+ "body") None
           1700000000 1700000123).
  - reflexivity.
  - repeat constructor.
  - reflexivity.
  - reflexivity.
  - discriminate.
  - reflexivity.
Defined.

(** ** C5: reading a tree payload back *)

(** C5 (the code departs from the claim): a name with a space is cut at the
    space when the payload is read back, because [split(' ', 2)] drops what
    follows the second piece. *)
Theorem C5_name_with_space_is_cut :
  Tree.fromContent (Tree._serializeEntries [spaced_entry])
  = [Tree.Parsed "100644" (Some "a") id1]
  /\ Tree.fromContent (Tree._serializeEntries [spaced_entry])
     <> map parsed_of (Tree.sort [spaced_entry]).
Proof. split; [by vm_compute|]. vm_compute. discriminate. Qed.
(** ** Reading back a tree whose names have no space *)

Lemma from_cons (c : ascii) (s : string) :
  Buf.from (String c s) = byte_of_ascii c :: Buf.from s.
Proof. reflexivity. Qed.

Lemma byte_is_zero (c : ascii) :
  Byte.eqb (byte_of_ascii c) x00 = Ascii.eqb c Str.NUL.
Proof. by destruct c as [[] [] [] [] [] [] [] []]. Qed.

Lemma indexOf0_from_app (s : string) (rest : Buffer) (i : nat) :
  contains Str.NUL s = false ->
  Buf.indexOf0_from (Buf.from s ++ x00 :: rest) i
  = Some (i + String.length s)%nat.
Proof.
  revert i. induction s as [|c s IH]; intros i Hs.
  - simpl. f_equal. lia.
  - simpl in Hs. apply orb_false_elim in Hs as [Hc Hs].
    rewrite from_cons. simpl. rewrite byte_is_zero, Hc, (IH _ Hs).
    f_equal. lia.
Qed.

Lemma length_from (s : string) : length (Buf.from s) = String.length s.
Proof. induction s as [|c s IH]; [done|]. rewrite from_cons. simpl. by rewrite IH. Qed.

(** The loop of [fromContent] over the bytes of well-formed entries. *)
Lemma fromContent_loop_entries (es : list Tree.entry) :
  Forall well_formed es ->
  forall (fuel : nat) (pre : Buffer) (acc : list Tree.parsed),
    (length es <= fuel)%nat ->
    Tree.fromContent_loop fuel (pre ++ concat (map Tree.entry_bytes es))
      (length pre) acc
    = acc ++ map parsed_of es.
Proof.
  induction 1 as [|e es (Hm1 & Hm0 & Hn1 & Hn0 & Hlen & Hhex) Hes IH];
    intros fuel pre acc Hfuel.
  - simpl. rewrite !app_nil_r. destruct fuel; [done|]. simpl.
    by rewrite Nat.ltb_irrefl.
  - destruct fuel as [|fuel]; [simpl in Hfuel; lia|].
    destruct (hex40_decode (Tree.hashHex e)) as [Hraw Henc]; [done|].
    set (text := (Tree.mode e +:+ String " " (Tree.name e))%string).
    assert (Hbytes : Tree.entry_bytes e
                     = Buf.from text ++ x00 :: Hex.decode (Tree.hashHex e)).
    { rewrite entry_bytes_image. unfold entry_image, text.
      rewrite from_app, from_cons. by rewrite <- !app_assoc. }
    assert (Htext : contains Str.NUL text = false).
    { unfold text. rewrite contains_app. simpl. by rewrite Hm0, Hn0. }
    cbn [map concat Tree.fromContent_loop]. rewrite Hbytes.
    set (raw := Hex.decode (Tree.hashHex e)) in *.
    set (rest := concat (map Tree.entry_bytes es)).
    assert (Hlt : (length pre
                   <? length (pre ++ (Buf.from text ++ x00 :: raw) ++ rest))%nat
                  = true).
    { apply Nat.ltb_lt. rewrite !length_app. simpl. lia. }
    rewrite Hlt.
    assert (Hdrop : drop (length pre)
                      (pre ++ (Buf.from text ++ x00 :: raw) ++ rest)
                    = Buf.from text ++ x00 :: (raw ++ rest)).
    { rewrite drop_app_length. by rewrite <- app_assoc. }
    unfold Buf.indexOf0. rewrite Hdrop, (indexOf0_from_app _ _ _ Htext).
    cbv zeta. unfold Buf.slice. rewrite Hdrop.
    replace (length pre + String.length text - length pre)%nat
      with (length (Buf.from text)) by (rewrite length_from; lia).
    rewrite take_app_length, toString_from.
    assert (Hparts : Str.split_limit " " 2 text
                     = [Tree.mode e; Tree.name e]).
    { unfold Str.split_limit, text. rewrite split_app by done.
      by rewrite split_none. }
    rewrite Hparts. cbn [hd lookup list_lookup].
    assert (Hobj : take (length pre + String.length text + 21
                         - (length pre + String.length text + 1))
                     (drop (length pre + String.length text + 1)
                        (pre ++ (Buf.from text ++ x00 :: raw) ++ rest))
                   = raw).
    { replace (pre ++ (Buf.from text ++ x00 :: raw) ++ rest)
        with ((pre ++ Buf.from text ++ [x00]) ++ raw ++ rest)
        by (by rewrite <- !app_assoc).
      replace (length pre + String.length text + 1)%nat
        with (length (pre ++ Buf.from text ++ [x00]))
        by (rewrite !length_app, length_from; simpl; lia).
      rewrite drop_app_length.
      replace (length (pre ++ Buf.from text ++ [x00]) + 20
               - length (pre ++ Buf.from text ++ [x00]))%nat
        with (length raw) by lia.
      (* the id takes the next twenty bytes *)
      replace (length pre + String.length text + 21
               - length (pre ++ Buf.from text ++ [x00]))%nat
        with (length raw)
        by (rewrite !length_app, length_from; simpl; lia).
      apply take_app_length. }
    rewrite Hobj, Henc.
    replace (pre ++ (Buf.from text ++ x00 :: raw) ++ rest)
      with ((pre ++ Buf.from text ++ x00 :: raw) ++ rest)
      by (by rewrite <- !app_assoc).
    replace (length pre + String.length text + 21)%nat
      with (length (pre ++ Buf.from text ++ x00 :: raw))
      by (rewrite !length_app, length_from; simpl; lia).
    unfold rest. rewrite IH by (simpl in Hfuel; lia).
    rewrite <- app_assoc. done.
Qed.

Lemma sort_well_formed (es : list Tree.entry) :
  Forall well_formed es -> Forall well_formed (Tree.sort es).
Proof.
  intros Hes. by rewrite <- sort_perm.
Qed.

(** The round trip of a tree whose entries are well formed: the entries
    come back as written, in the sorted order of the payload. *)
Lemma fromContent_new (es : list Tree.entry) :
  Forall well_formed es ->
  Tree.fromContent (Tree.content (Tree.new es))
  = map parsed_of (Tree.sort es).
Proof.
  intros Hes. unfold Tree.fromContent. cbn [Tree.new Tree.content].
  unfold Tree._serializeEntries.
  apply (fromContent_loop_entries _ (sort_well_formed _ Hes) _ [] []).
  induction (Tree.sort es) as [|e l IH]; [done|].
  cbn [map concat]. rewrite length_app, entry_bytes_image.
  unfold entry_image. rewrite !length_app. simpl. lia.
Qed.

(** ** Running commands *)

Lemma bind_ok {A B} (m : M A) (k : A -> M B) (w w' : world) (a : A) :
  m w = (Ok a, w') -> bind m k w = k a w'.
Proof. unfold bind. by intros ->. Qed.

Lemma bind_throw {A B} (m : M A) (k : A -> M B) (w w' : world) (e : exn) :
  m w = (Throw e, w') -> bind m k w = (Throw e, w').
Proof. unfold bind. by intros ->. Qed.

Lemma try_ok {A} (m : M A) (h : exn -> M A) (w w' : world) (a : A) :
  m w = (Ok a, w') -> try_catch m h w = (Ok a, w').
Proof. unfold try_catch. by intros ->. Qed.

Lemma try_throw {A} (m : M A) (h : exn -> M A) (w w' : world) (e : exn) :
  m w = (Throw e, w') -> try_catch m h w = h e w'.
Proof. unfold try_catch. by intros ->. Qed.

Lemma existsSync_true (p : FS.path) (w : world) (n : FS.node) :
  FS.lookup (files w) p = Some n -> existsSync p w = (Ok true, w).
Proof.
  intros E. unfold existsSync. by rewrite E, bool_decide_eq_true_2 by eauto.
Qed.

Lemma existsSync_false (p : FS.path) (w : world) :
  FS.lookup (files w) p = None -> existsSync p w = (Ok false, w).
Proof.
  intros E. unfold existsSync. rewrite E, bool_decide_eq_false_2; [done|].
  by intros [? ?].
Qed.

Lemma readFileSync_file (p : FS.path) (w : world) (data : Buffer) :
  FS.lookup (files w) p = Some (FS.File data) -> readFileSync p w = (Ok data, w).
Proof. intros E. unfold readFileSync. by rewrite E. Qed.

Lemma pair_fst {A B} (p : A * B) (a : A) : p.1 = a -> p = (a, p.2).
Proof. intros <-. by destruct p. Qed.

(** The stand-in for zlib obeys the law. *)
Lemma sample_zlib_laws : ZlibLaws sample_zlib.
Proof. intros b. reflexivity. Qed.

(** ** Paths of the repository *)

Lemma gitDir_eq (path : FS.path) : Repository.gitDir path = path ++ [".git"%string].
Proof. reflexivity. Qed.

Lemma indexFile_eq (path : FS.path) :
  Repository.indexFile path = Repository.gitDir path ++ ["index"%string].
Proof. reflexivity. Qed.

Lemma lookup_snoc (fs : gmap FS.path FS.node) (p : FS.path) (c : string) :
  FS.lookup fs (p ++ [c]) = fs !! (p ++ [c]).
Proof. by destruct p. Qed.

Lemma dirname_snoc (p : FS.path) (c : string) : FS.dirname (p ++ [c]) = p.
Proof. apply removelast_last. Qed.

Lemma join_plain (base : FS.path) (s : string) :
  plain s -> FS.join base s = base ++ [s].
Proof.
  intros (Hs & H0 & H1 & H2). unfold FS.join. rewrite split_none by done.
  simpl. unfold FS.norm_step.
  apply String.eqb_neq in H0, H1, H2. by rewrite H0, H1, H2.
Qed.

Lemma lower_hex_plain (s : string) :
  all_chars is_lower_hex s = true -> s <> ""%string -> plain s.
Proof.
  intros Hs Hne. destruct s as [|c s]; [done|].
  simpl in Hs. apply andb_prop in Hs as [Hc Hs].
  assert (Hno : forall t, all_chars is_lower_hex t = true -> contains "/" t = false).
  { induction t as [|x t IH]; [done|]. simpl. intros Ht.
    apply andb_prop in Ht as [Hx Ht]. rewrite (IH Ht), orb_false_r.
    destruct x as [[] [] [] [] [] [] [] []]; vm_compute in Hx; try done;
      reflexivity. }
  split; [|split; [done|split]].
  - apply (Hno (String c s)). simpl. by rewrite Hc, Hs.
  - intros [= -> _]. vm_compute in Hc. done.
  - intros [= -> _]. vm_compute in Hc. done.
Qed.

Lemma all_chars_slice_to (P : ascii -> bool) (n : nat) (s : string) :
  all_chars P s = true -> all_chars P (Str.slice_to n s) = true.
Proof.
  revert s. induction n as [|n IH]; intros [|c s]; simpl; try done.
  intros H. apply andb_prop in H as [Hc Hs]. by rewrite Hc, IH.
Qed.

Lemma all_chars_slice_from (P : ascii -> bool) (n : nat) (s : string) :
  all_chars P s = true -> all_chars P (Str.slice_from n s) = true.
Proof.
  revert s. induction n as [|n IH]; intros [|c s]; simpl; try done.
  intros H. apply andb_prop in H as [Hc Hs]. by apply IH.
Qed.

Lemma hex40_slices (h : string) :
  is_hex40 h -> plain (Str.slice_to 2 h) /\ plain (Str.slice_from 2 h).
Proof.
  intros [Hl Hc]. split; apply lower_hex_plain.
  - by apply all_chars_slice_to.
  - destruct h as [|a [|b h]]; simpl in *; done.
  - by apply all_chars_slice_from.
  - destruct h as [|a [|b [|c h]]]; simpl in *; try done; lia.
Qed.

Lemma objectsDir_eq (path : FS.path) :
  Repository.objectsDir path = Repository.gitDir path ++ ["objects"%string].
Proof. reflexivity. Qed.

Lemma headsDir_eq (path : FS.path) :
  Repository.headsDir path = Repository.gitDir path ++ ["refs"%string; "heads"%string].
Proof. unfold Repository.headsDir, Repository.refDir. cbn. by rewrite <- app_assoc. Qed.

Lemma headFile_eq (path : FS.path) :
  Repository.headFile path = Repository.gitDir path ++ ["HEAD"%string].
Proof. reflexivity. Qed.

Lemma objectFile_eq (path : FS.path) (h : string) :
  is_hex40 h ->
  Repository.objectFile path h
  = Repository.objectsDir path ++ [Str.slice_to 2 h; Str.slice_from 2 h].
Proof.
  intros Hh. destruct (hex40_slices h Hh) as [H2 H38].
  unfold Repository.objectFile. rewrite !join_plain by done.
  by rewrite <- app_assoc.
Qed.

(** ** Directories *)

Lemma mkdirs_exist (fs : gmap FS.path FS.node) (todo pre : FS.path) :
  dirs_exist fs (pre ++ todo) -> FS.mkdirs fs pre todo = Some fs.
Proof.
  revert pre. induction todo as [|c todo IH]; intros pre Hd; simpl; [done|].
  rewrite (Hd (pre ++ [c])).
  - apply IH. by rewrite <- app_assoc.
  - by destruct pre.
  - exists todo. by rewrite <- app_assoc.
Qed.

Lemma mkdirs_last (fs : gmap FS.path FS.node) (todo pre : FS.path) (c : string) :
  dirs_exist fs (pre ++ todo) -> fs !! (pre ++ todo ++ [c]) = None ->
  FS.mkdirs fs pre (todo ++ [c])
  = Some (<[pre ++ todo ++ [c] := FS.Dir]> fs).
Proof.
  revert pre. induction todo as [|x todo IH]; intros pre Hd Hc; simpl.
  - simpl in Hc. by rewrite Hc.
  - rewrite (Hd (pre ++ [x])).
    + rewrite IH; rewrite <- ?app_assoc; done.
    + by destruct pre.
    + exists todo. by rewrite <- app_assoc.
Qed.

Lemma writeFileSync_ok (p : FS.path) (c : string) (data : Buffer) (w : world) :
  files w !! (p ++ [c]) <> Some FS.Dir ->
  FS.lookup (files w) p = Some FS.Dir ->
  writeFileSync (p ++ [c]) data w
  = (Ok tt, World (<[p ++ [c] := FS.File data]> (files w)) (console w)).
Proof.
  intros Hf Hp. unfold writeFileSync. rewrite lookup_snoc, dirname_snoc, Hp.
  by destruct (files w !! (p ++ [c])) as [[d|]|].
Qed.

Lemma lookup_headsDir (fs : gmap FS.path FS.node) (path : FS.path) :
  FS.lookup fs (Repository.headsDir path) = fs !! Repository.headsDir path.
Proof. rewrite headsDir_eq, gitDir_eq. by destruct path. Qed.

Lemma lookup_gitDir (fs : gmap FS.path FS.node) (path : FS.path) :
  FS.lookup fs (Repository.gitDir path) = fs !! Repository.gitDir path.
Proof. rewrite gitDir_eq. by destruct path. Qed.

Lemma not_below_objects (path : FS.path) (s : list string) :
  (forall q, s <> "objects"%string :: q) ->
  ~ below (Repository.objectsDir path) (Repository.gitDir path ++ s).
Proof.
  intros Hs (q & Hq & E). rewrite objectsDir_eq, <- app_assoc in E.
  apply app_inv_head in E. by apply (Hs q).
Qed.

(** ** Commands that only read *)

Lemma quiet_step_refl (w : world) : quiet_step w w.
Proof. split; [done|]. exists []. by rewrite app_nil_r. Qed.

Lemma quiet_step_trans (w1 w2 w3 : world) :
  quiet_step w1 w2 -> quiet_step w2 w3 -> quiet_step w1 w3.
Proof.
  intros [F1 [l1 C1]] [F2 [l2 C2]]. split; [congruence|].
  exists (l1 ++ l2). by rewrite C2, C1, app_assoc.
Qed.

Lemma quiet_ret {A} (a : A) : quiet (ret a).
Proof. intros w. apply quiet_step_refl. Qed.

Lemma quiet_throw {A} (e : exn) : quiet (@throw A e).
Proof. intros w. apply quiet_step_refl. Qed.

Lemma quiet_timeout {A} : quiet (@timeout A).
Proof. intros w. apply quiet_step_refl. Qed.

Lemma quiet_log (line : string) : quiet (log line).
Proof. intros w. split; [done|]. by exists [line]. Qed.

Lemma quiet_bind {A B} (m : M A) (k : A -> M B) :
  quiet m -> (forall a, quiet (k a)) -> quiet (bind m k).
Proof.
  intros Hm Hk w. unfold bind. specialize (Hm w).
  destruct (m w) as [[a|e|] w1]; simpl in *; [|done..].
  eapply quiet_step_trans; [exact Hm|apply Hk].
Qed.

Lemma quiet_try {A} (m : M A) (h : exn -> M A) :
  quiet m -> (forall e, quiet (h e)) -> quiet (try_catch m h).
Proof.
  intros Hm Hh w. unfold try_catch. specialize (Hm w).
  destruct (m w) as [[a|e|] w1]; simpl in *; [done| |done].
  eapply quiet_step_trans; [exact Hm|apply Hh].
Qed.

Lemma quiet_existsSync (p : FS.path) : quiet (existsSync p).
Proof. intros w. apply quiet_step_refl. Qed.

Lemma quiet_readFileSync (p : FS.path) : quiet (readFileSync p).
Proof.
  intros w. unfold readFileSync.
  destruct (FS.lookup (files w) p) as [[d|]|]; apply quiet_step_refl.
Qed.

Lemma quiet_if {A} (b : bool) (m1 m2 : M A) :
  quiet m1 -> quiet m2 -> quiet (if b then m1 else m2).
Proof. by destruct b. Qed.

Create HintDb quiet.
#[local] Hint Resolve quiet_ret quiet_throw quiet_timeout quiet_log
  quiet_existsSync quiet_readFileSync : quiet.
#[local] Hint Extern 2 (quiet (bind _ _)) => apply quiet_bind; [|intros ?] : quiet.
#[local] Hint Extern 2 (quiet (try_catch _ _)) => apply quiet_try; [|intros ?] : quiet.
#[local] Hint Extern 2 (quiet (if _ then _ else _)) => apply quiet_if : quiet.
#[local] Hint Extern 3 (quiet (match ?x with _ => _ end)) => destruct x : quiet.

Section ReadOnly.
Context `{Zlib} (path : FS.path).

Lemma quiet_loadObject (h : string) : quiet (Repository.loadObject path h).
Proof. unfold Repository.loadObject. auto 10 with quiet. Qed.

Lemma quiet_getCurrentBranch : quiet (Repository.getCurrentBranch path).
Proof. unfold Repository.getCurrentBranch. auto 10 with quiet. Qed.

Lemma quiet_getBranchCommit (b : string) :
  quiet (Repository.getBranchCommit path b).
Proof. unfold Repository.getBranchCommit. auto 10 with quiet. Qed.

Lemma quiet_getFiles_loop (recur : string -> string -> M (list string))
    (prefix : string) (entries : list Tree.parsed) :
  (forall h p, quiet (recur h p)) ->
  forall acc, quiet (Repository.getFiles_loop recur prefix entries acc).
Proof.
  intros Hrec. induction entries as [|e entries IH]; intros acc; simpl;
    [auto with quiet|].
  destruct (Str.startsWith "100" (Tree.p_mode e)); [apply IH|].
  destruct (Str.startsWith "400" (Tree.p_mode e)); [|apply IH].
  apply quiet_bind; [apply Hrec|]. intros sub. apply IH.
Qed.

Lemma quiet_getFiles (fuel : nat) :
  forall treeHash prefix,
    quiet (Repository.getFilesFromTreeRecursive path fuel treeHash prefix).
Proof.
  induction fuel as [|fuel IH]; intros treeHash prefix; simpl;
    [auto with quiet|].
  apply quiet_try; [|intros e; auto 10 with quiet].
  apply quiet_bind; [apply quiet_loadObject|]. intros treeObj.
  by apply quiet_getFiles_loop.
Qed.

Lemma quiet_previousFiles (fuel : nat) (b : string) (now : Z) :
  quiet (Repository.previousFiles path fuel b now).
Proof.
  unfold Repository.previousFiles.
  apply quiet_try; [|auto with quiet].
  apply quiet_bind; [apply quiet_getBranchCommit|]. intros c.
  apply quiet_if; [|auto with quiet].
  apply quiet_try; [|auto with quiet].
  apply quiet_bind; [apply quiet_loadObject|]. intros o.
  apply quiet_if; [|auto with quiet].
  apply quiet_bind; [apply quiet_getFiles|]. auto with quiet.
Qed.

End ReadOnly.

Lemma reads_ret {A} (a : A) : reads (ret a).
Proof. by intros w. Qed.

Lemma reads_throw {A} (e : exn) : reads (@throw A e).
Proof. by intros w. Qed.

Lemma reads_bind {A B} (m : M A) (k : A -> M B) :
  reads m -> (forall a, reads (k a)) -> reads (bind m k).
Proof.
  intros Hm Hk w. unfold bind. rewrite (Hm w), (Hm (World (files w) [])).
  simpl. destruct (m (World (files w) [])).1 as [a|e|]; [|done..].
  rewrite (Hk a w), (Hk a (World (files w) [])). done.
Qed.

Lemma reads_try {A} (m : M A) (h : exn -> M A) :
  reads m -> (forall e, reads (h e)) -> reads (try_catch m h).
Proof.
  intros Hm Hh w. unfold try_catch. rewrite (Hm w), (Hm (World (files w) [])).
  simpl. destruct (m (World (files w) [])).1 as [a|e|]; [done| |done].
  rewrite (Hh e w), (Hh e (World (files w) [])). done.
Qed.

Lemma reads_existsSync (p : FS.path) : reads (existsSync p).
Proof. by intros w. Qed.

Lemma reads_readFileSync (p : FS.path) : reads (readFileSync p).
Proof.
  intros w. unfold readFileSync. simpl.
  by destruct (FS.lookup (files w) p) as [[d|]|].
Qed.

Lemma reads_if {A} (b : bool) (m1 m2 : M A) :
  reads m1 -> reads m2 -> reads (if b then m1 else m2).
Proof. by destruct b. Qed.

Create HintDb reads.
#[local] Hint Resolve reads_ret reads_throw reads_existsSync
  reads_readFileSync : reads.
#[local] Hint Extern 2 (reads (bind _ _)) => apply reads_bind; [|intros ?] : reads.
#[local] Hint Extern 2 (reads (try_catch _ _)) => apply reads_try; [|intros ?] : reads.
#[local] Hint Extern 2 (reads (if _ then _ else _)) => apply reads_if : reads.
#[local] Hint Extern 3 (reads (match ?x with _ => _ end)) => destruct x : reads.

(** A command that reads: its outcome from the outcome on the bare file
    system. *)
Lemma reads_run {A} (m : M A) (w : world) (r : result A) :
  reads m -> (m w).1 = r -> m w = (r, w).
Proof. intros Hm <-. by rewrite (Hm w). Qed.

Section Reads.
Context `{Zlib} (path : FS.path).

Lemma reads_loadObject (h : string) : reads (Repository.loadObject path h).
Proof. unfold Repository.loadObject. auto 10 with reads. Qed.

Lemma reads_getCurrentBranch : reads (Repository.getCurrentBranch path).
Proof. unfold Repository.getCurrentBranch. auto 10 with reads. Qed.

Lemma reads_getBranchCommit (b : string) :
  reads (Repository.getBranchCommit path b).
Proof. unfold Repository.getBranchCommit. auto 10 with reads. Qed.

Lemma reads_loadIndex : reads (Repository.loadIndex path).
Proof.
  unfold Repository.loadIndex. apply reads_bind; [apply reads_existsSync|].
  intros [|]; [|apply reads_ret]. apply reads_try; [|intros; apply reads_ret].
  apply reads_bind; [apply reads_readFileSync|]. intros d.
  destruct (JSON.parse _); [apply reads_ret|].
  destruct (JSON.no_value _); [apply reads_throw|by intros w].
Qed.

Lemma loadObject_object_at (h : string) (w : world) :
  Repository.loadObject path h w = (object_at path (files w) h, w).
Proof. apply reads_loadObject. Qed.

Lemma loadObject_no_timeout (h : string) (fs : gmap FS.path FS.node) :
  object_at path fs h <> Timeout.
Proof.
  unfold object_at, Repository.loadObject, bind, existsSync, readFileSync,
    ret, throw.
  simpl. repeat case_match; simplify_eq/=; done.
Qed.




End Reads.

(** ** C10: a missing HEAD *)

(** C10: when the HEAD file does not exist, [getCurrentBranch] returns
    "master" and leaves the world alone, so whatever a command does with the
    branch it resolved, it does with "master". *)
Theorem C10_missing_HEAD_is_master (path : FS.path) (w : world) :
  FS.lookup (files w) (Repository.headFile path) = None ->
  Repository.getCurrentBranch path w = (Ok "master"%string, w)
  /\ forall (A : Type) (k : string -> M A),
       bind (Repository.getCurrentBranch path) k w = k "master"%string w.
Proof.
  intros Hhead.
  assert (E : Repository.getCurrentBranch path w = (Ok "master"%string, w)).
  { unfold Repository.getCurrentBranch, bind, existsSync. rewrite Hhead.
    rewrite bool_decide_eq_false_2; [done|]. by intros [? ?]. }
  split; [exact E|]. intros A k. unfold bind at 1. by rewrite E.
Qed.

Lemma C10_witness :
  Repository.getCurrentBranch sample_path empty_disk = (Ok "master"%string, empty_disk)
  /\ forall (A : Type) (k : string -> M A),
       bind (Repository.getCurrentBranch sample_path) k empty_disk
       = k "master"%string empty_disk.
Proof. apply (C10_missing_HEAD_is_master sample_path empty_disk). reflexivity. Defined.

(** ** JavaScript dictionaries *)

Section JSProps.
Context {V : Type}.
Implicit Types (o : JS.object V) (k : string) (v : V).

Lemma get_None k o : JS.get k o = None <-> k ∉ JS.keys o.
Proof.
  induction o as [|[k' v'] o IH]; simpl.
  - split; [intros _; apply not_elem_of_nil|done].
  - rewrite not_elem_of_cons. destruct (String.eqb_spec k k') as [->|Hne].
    + split; [done|]. intros [? _]. done.
    + rewrite IH. tauto.
Qed.

Lemma get_replace k v o k' :
  JS.get k' (JS.replace k v o)
  = if String.eqb k' k
    then match JS.get k o with Some _ => Some v | None => None end
    else JS.get k' o.
Proof.
  induction o as [|[k1 v1] o IH]; simpl.
  - by destruct (String.eqb k' k).
  - destruct (String.eqb_spec k k1) as [->|Hne]; simpl.
    + by destruct (String.eqb_spec k' k1).
    + rewrite IH. destruct (String.eqb_spec k' k1) as [->|Hne'].
      * by destruct (String.eqb_spec k1 k) as [->|].
      * done.
Qed.

Lemma keys_replace k v o : JS.keys (JS.replace k v o) = JS.keys o.
Proof.
  induction o as [|[k1 v1] o IH]; simpl; [done|].
  destruct (String.eqb k k1); simpl; [done|]. by rewrite <- IH.
Qed.

Lemma get_insert_index n k v o k' :
  JS.get k o = None ->
  JS.get k' (JS.insert_index n k v o)
  = if String.eqb k' k then Some v else JS.get k' o.
Proof.
  induction o as [|[k1 v1] o IH]; simpl; intros Hk.
  - done.
  - destruct (String.eqb_spec k k1) as [->|Hne]; [done|].
    destruct (JS.array_index k1) as [n1|]; [destruct (n1 <? n)%N|]; simpl;
      try done.
    rewrite IH by done.
    destruct (String.eqb_spec k' k1) as [->|]; [|done].
    by destruct (String.eqb_spec k1 k) as [->|].
Qed.

Lemma keys_insert_index n k v o :
  JS.keys (JS.insert_index n k v o) ≡ₚ k :: JS.keys o.
Proof.
  induction o as [|[k1 v1] o IH]; simpl; [done|].
  destruct (JS.array_index k1) as [n1|]; [destruct (n1 <? n)%N|]; simpl;
    try done.
  unfold JS.keys in IH. rewrite IH. apply perm_swap.
Qed.

Lemma get_app_one k v o k' :
  JS.get k o = None ->
  JS.get k' (o ++ [(k, v)]) = if String.eqb k' k then Some v else JS.get k' o.
Proof.
  induction o as [|[k1 v1] o IH]; simpl; intros Hk; [done|].
  destruct (String.eqb_spec k k1) as [->|Hne]; [done|].
  rewrite IH by done.
  destruct (String.eqb_spec k' k1) as [->|]; [|done].
  by destruct (String.eqb_spec k1 k) as [->|].
Qed.

(** Reading after [o[k] = v]. *)
Lemma get_set k v o k' :
  JS.get k' (JS.set k v o) = if String.eqb k' k then Some v else JS.get k' o.
Proof.
  unfold JS.set. destruct (JS.get k o) as [x|] eqn:E.
  - rewrite get_replace, E. done.
  - destruct (JS.array_index k);
      [by apply get_insert_index | by apply get_app_one].
Qed.

Lemma set_NoDup k v o : NoDup (JS.keys o) -> NoDup (JS.keys (JS.set k v o)).
Proof.
  intros Hnd. unfold JS.set. destruct (JS.get k o) as [x|] eqn:E.
  - by rewrite keys_replace.
  - apply get_None in E. destruct (JS.array_index k).
    + rewrite keys_insert_index. by constructor.
    + unfold JS.keys in *. rewrite map_app. simpl.
      apply NoDup_app. split; [done|]. split; [|apply NoDup_singleton].
      intros x Hx Hx'. apply list_elem_of_singleton in Hx'. by subst.
Qed.

Lemma fold_set_other (l : list (string * V)) o k :
  k ∉ JS.keys l ->
  JS.get k (fold_left (fun acc kv => JS.set kv.1 kv.2 acc) l o) = JS.get k o.
Proof.
  revert o. induction l as [|[k1 v1] l IH]; intros o Hk; simpl; [done|].
  simpl in Hk. apply not_elem_of_cons in Hk as [Hne Hk].
  rewrite IH, get_set by done. by destruct (String.eqb_spec k k1).
Qed.

Lemma fold_set_last (l : list (string * V)) o k v :
  NoDup (JS.keys l) -> JS.get k l = Some v ->
  JS.get k (fold_left (fun acc kv => JS.set kv.1 kv.2 acc) l o) = Some v.
Proof.
  revert o. induction l as [|[k1 v1] l IH]; intros o Hnd Hk; simpl in *; [done|].
  apply NoDup_cons in Hnd as [Hk1 Hnd].
  destruct (String.eqb_spec k k1) as [->|Hne].
  - injection Hk as ->. rewrite fold_set_other, get_set by done.
    by rewrite String.eqb_refl.
  - by apply IH.
Qed.

End JSProps.

Lemma elem_of_keys_get {V} (f : string) (o : JS.object V) :
  f ∈ JS.keys o <-> JS.get f o <> None.
Proof.
  rewrite get_None. split; [tauto|]. intros Hn.
  by destruct (decide (f ∈ JS.keys o)).
Qed.

Lemma elem_of_keys_set {V} (k f : string) (v : V) (o : JS.object V) :
  f ∈ JS.keys (JS.set k v o) <-> f = k \/ f ∈ JS.keys o.
Proof.
  rewrite !elem_of_keys_get, get_set.
  destruct (String.eqb_spec f k) as [->|Hne]; [|tauto].
  split; [by left|done].
Qed.

Lemma set_prim_proto {V} (v : V) (o : JS.object V) :
  "__proto__"%string ∉ JS.keys o -> JS.set_prim "__proto__" v o = o.
Proof.
  intros Hk. apply get_None in Hk. unfold JS.set_prim.
  rewrite Hk, bool_decide_eq_false_2; [done|]. by intros [? ?].
Qed.

Lemma set_prim_other {V} (k : string) (v : V) (o : JS.object V) :
  k <> "__proto__"%string -> JS.set_prim k v o = JS.set k v o.
Proof.
  intros Hk. unfold JS.set_prim.
  by destruct (String.eqb_spec k "__proto__").
Qed.

(** ** C4: a name that is both a file and a directory *)

(** What the first loop makes of [dirs] and [files] where it goes
    through: [dirs] holds dictionaries only, no key twice. *)
Lemma put_in_top (name : string) (middle : list string) (last h : string)
    (cur cur' : JS.object JS.value) :
  (forall k s, JS.get k cur <> Some (JS.Str s)) ->
  Repository.put_in (name :: middle) last h cur = Ok cur' ->
  (exists sub, JS.get name cur' = Some (JS.Obj sub))
  /\ (forall k s, JS.get k cur' <> Some (JS.Str s))
  /\ (forall n, (exists s, JS.get n cur = Some (JS.Obj s)) ->
                exists s', JS.get n cur' = Some (JS.Obj s'))
  /\ (NoDup (JS.keys cur) -> NoDup (JS.keys cur')).
Proof.
  intros Hobj E. cbn [Repository.put_in] in E. cbv zeta in E.
  assert (G : forall sub',
             Ok (JS.set name (JS.Obj sub') cur) = Ok cur' ->
             (exists sub, JS.get name cur' = Some (JS.Obj sub))
             /\ (forall k s, JS.get k cur' <> Some (JS.Str s))
             /\ (forall n, (exists s, JS.get n cur = Some (JS.Obj s)) ->
                           exists s', JS.get n cur' = Some (JS.Obj s'))
             /\ (NoDup (JS.keys cur) -> NoDup (JS.keys cur'))).
  { intros sub' [= <-]. split; [|split; [|split]].
    - exists sub'. by rewrite get_set, String.eqb_refl.
    - intros k s. rewrite get_set.
      destruct (String.eqb k name); [done|apply Hobj].
    - intros n [s Hs]. rewrite get_set.
      destruct (String.eqb n name); by eauto.
    - apply set_NoDup. }
  destruct (JS.get name cur) as [[s|sub]|] eqn:Eg.
  - by destruct (Hobj name s).
  - destruct (Repository.put_in middle last h sub) as [sub'|e|];
      [by apply (G sub')|done..].
  - destruct (JS.is_inherited name); [done|].
    destruct (Repository.put_in middle last h []) as [sub'|e|];
      [by apply (G sub')|done..].
Qed.

Lemma set_prim_NoDup {V} (k : string) (v : V) (o : JS.object V) :
  NoDup (JS.keys o) -> NoDup (JS.keys (JS.set_prim k v o)).
Proof.
  intros Hnd. unfold JS.set_prim. destruct (_ && _); [done|].
  by apply set_NoDup.
Qed.

(** What [group] does with one entry of the index. *)
Lemma group_step (filePath blobHash : string) (rest : Index)
    (dirs : JS.object JS.value) (files : JS.object string) :
  (exists only, Str.split "/" filePath = [only]
     /\ Repository.group ((filePath, blobHash) :: rest) dirs files
        = Repository.group rest dirs (JS.set_prim only blobHash files))
  \/ (exists name tail, Str.split "/" filePath = name :: tail /\ tail <> []
        /\ Repository.group ((filePath, blobHash) :: rest) dirs files
           = match Repository.put_in (name :: removelast tail)
                     (List.last (name :: tail) "") blobHash dirs with
             | Ok dirs' => Repository.group rest dirs' files
             | Throw e => Throw e
             | Timeout => Timeout
             end).
Proof.
  pose proof (split_nonempty "/" filePath) as Hne. simpl.
  destruct (Str.split "/" filePath) as [|name [|p2 tail]]; [done|..].
  - left. by exists name.
  - right. exists name, (p2 :: tail). done.
Qed.

Lemma group_inv (entries : Index) :
  forall (dirs dirs' : JS.object JS.value) (files files' : JS.object string),
    Repository.group entries dirs files = Ok (dirs', files') ->
    (forall k s, JS.get k dirs <> Some (JS.Str s)) ->
    (forall k s, JS.get k dirs' <> Some (JS.Str s))
    /\ (NoDup (JS.keys dirs) -> NoDup (JS.keys dirs'))
    /\ (NoDup (JS.keys files) -> NoDup (JS.keys files'))
    /\ forall name, (exists s, JS.get name dirs = Some (JS.Obj s)) ->
                    exists s', JS.get name dirs' = Some (JS.Obj s').
Proof.
  induction entries as [|[fp bh] rest IH];
    intros dirs dirs' files files' E Hobj.
  - simpl in E. by injection E as <- <-.
  - destruct (group_step fp bh rest dirs files)
      as [(only & _ & Eg)|(name & tail & _ & _ & Eg)]; rewrite Eg in E.
    + apply IH in E as (E0 & E1 & E2 & E3); [|done].
      split; [done|]. split; [done|]. split; [|done].
      intros Hnd. apply E2. by apply set_prim_NoDup.
    + destruct (Repository.put_in _ _ _ _) as [d1|e|] eqn:Ep; [|done..].
      destruct (put_in_top _ _ _ _ _ _ Hobj Ep) as (_ & P1 & P2 & P3).
      apply IH in E as (E0 & E1 & E2 & E3); [|done].
      split; [done|]. split; [by intros ?%P3%E1|]. split; [done|].
      intros n Hn. by apply E3, P2.
Qed.

Lemma group_dir (entries : Index) (key h name : string) (tail : list string) :
  forall (dirs dirs' : JS.object JS.value) (files files' : JS.object string),
    Repository.group entries dirs files = Ok (dirs', files') ->
    (forall k s, JS.get k dirs <> Some (JS.Str s)) ->
    (key, h) ∈ entries -> Str.split "/" key = name :: tail -> tail <> [] ->
    exists s, JS.get name dirs' = Some (JS.Obj s).
Proof.
  induction entries as [|[fp bh] rest IH];
    intros dirs dirs' files files' E Hobj Hin Hsplit Htail.
  - by apply elem_of_nil in Hin.
  - apply elem_of_cons in Hin as [[= <- <-]|Hin].
    + destruct (group_step key h rest dirs files)
        as [(only & Hs & _)|(name' & tail' & Hs & _ & Eg)].
      { rewrite Hsplit in Hs. injection Hs as <- ->. done. }
      rewrite Hsplit in Hs. injection Hs as <- <-. rewrite Eg in E.
      destruct (Repository.put_in _ _ _ _) as [d1|e|] eqn:Ep; [|done..].
      destruct (put_in_top _ _ _ _ _ _ Hobj Ep) as (P0 & P1 & _).
      by apply (group_inv _ _ _ _ _ E P1).
    + destruct (group_step fp bh rest dirs files)
        as [(only & _ & Eg)|(name' & tail' & _ & _ & Eg)]; rewrite Eg in E.
      * by eapply IH.
      * destruct (Repository.put_in _ _ _ _) as [d1|e|] eqn:Ep; [|done..].
        destruct (put_in_top _ _ _ _ _ _ Hobj Ep) as (_ & P1 & _).
        by eapply (IH d1).
Qed.

(** C4 (as stated, refuted): with "a" and "a/b" staged, building the tree
    reports no error; the root tree holds the directory "a" alone and the
    file "a" is gone. *)
Lemma C4_conflict_counterexample :
  (Repository.loadIndex sample_path conflict_repo).1 = Ok conflict_index
  /\ @built_tree sample_zlib sample_path conflict_repo
     = Some [Tree.Parsed "40000" (Some "a") id_sub_b].
Proof. split; by vm_compute. Qed.

(** ** C7: the bytes of the index file *)

Lemma chars_escape_char (c : ascii) (t acc : string) :
  JSON.chars (JSON.escape_char c +:+ t) acc
  = JSON.chars t (acc +:+ String c EmptyString).
Proof. destruct c as [[] [] [] [] [] [] [] []]; reflexivity. Qed.

Lemma app_one_assoc (acc : string) (c : ascii) (s : string) :
  (acc +:+ String c EmptyString) +:+ s = acc +:+ String c s.
Proof. induction acc as [|x acc IH]; simpl; [done|]. by f_equal. Qed.

Lemma app_empty_r (s : string) : s +:+ EmptyString = s.
Proof. induction s as [|x s IH]; simpl; [done|]. by f_equal. Qed.

Lemma chars_escape (s rest acc : string) :
  JSON.chars (JSON.escape s +:+ String JSON.QUOTE rest) acc
  = Some (acc +:+ s, rest).
Proof.
  revert acc. induction s as [|c s IH]; intros acc.
  - simpl. by rewrite app_empty_r.
  - cbn [JSON.escape]. rewrite app_assoc_s, chars_escape_char, IH.
    by rewrite app_one_assoc.
Qed.

Lemma literal_quote (s rest : string) :
  JSON.literal (JSON.quote s +:+ rest) = Some (s, rest).
Proof.
  unfold JSON.quote. cbn [String.append].
  unfold JSON.literal. cbn [JSON.skip_ws].
  change (JSON.is_ws JSON.QUOTE) with false. cbv iota.
  rewrite Ascii.eqb_refl, app_assoc_s. cbn [String.append].
  by rewrite chars_escape.
Qed.

(** Reading one member back, in front of what follows it. *)
Lemma literal_member (kv : string * string) (rest : string) :
  JSON.literal (Str.lf +:+ JSON.member kv +:+ rest)
  = Some (kv.1, ": " +:+ JSON.quote kv.2 +:+ rest).
Proof.
  unfold JSON.member. rewrite !app_assoc_s. cbn [String.append Str.lf].
  unfold JSON.literal. cbn [JSON.skip_ws].
  change (JSON.is_ws Str.LF) with true. change (JSON.is_ws " ") with true.
  cbv iota. apply (literal_quote kv.1).
Qed.

Lemma members_join (l : list (string * string)) :
  forall (fuel : nat) (acc : Index) (kv : string * string),
    (length l < fuel)%nat ->
    JSON.members fuel
      (Str.lf +:+ Str.join ("," +:+ Str.lf) (map JSON.member (kv :: l))
         +:+ Str.lf +:+ "}") acc
    = Some (fold_left (fun a e => JS.set e.1 e.2 a) (kv :: l) acc, EmptyString).
Proof.
  induction l as [|kv' l IH]; intros fuel acc kv Hfuel;
    (destruct fuel as [|fuel]; [simpl in Hfuel; lia|]).
  - cbn [map Str.join JSON.members].
    rewrite literal_member. cbn [mbind option_bind].
    cbn [String.append JSON.skip_ws].
    change (JSON.is_ws ":") with false. cbv iota.
    change (String " " (JSON.quote kv.2 +:+ ?r))
      with (String " " (JSON.quote kv.2) +:+ r) at 1.
    unfold JSON.literal at 1. cbn [JSON.skip_ws String.append].
    change (JSON.is_ws " ") with true. cbv iota.
    fold (JSON.literal (JSON.quote kv.2 +:+ Str.lf +:+ "}")).
    rewrite literal_quote. cbn [mbind option_bind].
    reflexivity.
  - cbn [map]. rewrite join_cons by done. cbn [JSON.members].
    rewrite !app_assoc_s, literal_member. cbn [mbind option_bind].
    cbn [String.append JSON.skip_ws].
    change (JSON.is_ws ":") with false. cbv iota.
    unfold JSON.literal at 1. cbn [JSON.skip_ws String.append].
    change (JSON.is_ws " ") with true. cbv iota.
    match goal with
    | |- context [JSON.skip_ws (JSON.quote ?v +:+ ?r)] =>
        fold (JSON.literal (JSON.quote v +:+ r))
    end.
    rewrite literal_quote. cbn [mbind option_bind].
    cbn [String.append JSON.skip_ws].
    change (JSON.is_ws ",") with false. cbv iota.
    apply IH. simpl in Hfuel. lia.
Qed.

Lemma length_app_s (a b : string) :
  String.length (a +:+ b) = (String.length a + String.length b)%nat.
Proof. induction a as [|x a IH]; simpl; [done|]. by rewrite IH. Qed.

Lemma length_join_members (sep : string) (l : list (string * string)) :
  (length l <= String.length (Str.join sep (map JSON.member l)))%nat.
Proof.
  induction l as [|kv l IH]; [done|].
  destruct l as [|kv' l].
  - cbn [map Str.join]. unfold JSON.member. rewrite length_app_s. simpl. lia.
  - cbn [map] in *. rewrite join_cons by done. rewrite !length_app_s.
    unfold JSON.member at 1. rewrite length_app_s. simpl in *. lia.
Qed.

(** Reading back what [JSON.stringify] wrote: the entries, set one by one
    in the order of the text. *)
Lemma parse_stringify (idx : Index) :
  JSON.parse (JSON.stringify idx)
  = Some (fold_left (fun a e => JS.set e.1 e.2 a) idx []).
Proof.
  destruct idx as [|kv l]; [reflexivity|].
  set (body := Str.lf +:+ Str.join ("," +:+ Str.lf) (map JSON.member (kv :: l))
                 +:+ Str.lf +:+ "}").
  change (JSON.stringify (kv :: l)) with (String "{" body).
  unfold JSON.parse. cbn [JSON.skip_ws].
  change (JSON.is_ws "{") with false. cbv iota.
  assert (Hskip : exists c r, JSON.skip_ws body = String c r /\ c <> "}"%char).
  { subst body. cbn [map]. destruct l as [|kv' l].
    - cbn [Str.join]. unfold JSON.member. rewrite !app_assoc_s.
      cbn [String.append Str.lf JSON.skip_ws JSON.quote].
      change (JSON.is_ws Str.LF) with true. change (JSON.is_ws " ") with true.
      change (JSON.is_ws JSON.QUOTE) with false. cbv iota. by eauto.
    - rewrite join_cons by done. unfold JSON.member at 1. rewrite !app_assoc_s.
      cbn [String.append Str.lf JSON.skip_ws JSON.quote].
      change (JSON.is_ws Str.LF) with true. change (JSON.is_ws " ") with true.
      change (JSON.is_ws JSON.QUOTE) with false. cbv iota. by eauto. }
  destruct Hskip as (c & r & Hc & Hne). rewrite Hc.
  assert (Hm : JSON.members (String.length body) body []
               = Some (fold_left (fun a e => JS.set e.1 e.2 a) (kv :: l) [],
                       EmptyString)).
  { apply members_join. subst body. rewrite !length_app_s.
    pose proof (length_join_members ("," +:+ Str.lf) (kv :: l)) as Hl.
    simpl in *. lia. }
  assert (Hsel :
    match String c r with
    | String "}" s2 => Some ([], s2)
    | _ => JSON.members (String.length body) body []
    end = JSON.members (String.length body) body []).
  { destruct c as [[] [] [] [] [] [] [] []]; try reflexivity. done. }
  rewrite Hsel, Hm. reflexivity.
Qed.

Lemma stringify_inj (i1 i2 : Index) :
  canonical i1 -> canonical i2 ->
  JSON.stringify i1 = JSON.stringify i2 -> i1 = i2.
Proof.
  intros H1 H2 E. apply (f_equal JSON.parse) in E.
  rewrite !parse_stringify in E. injection E as E.
  by rewrite H1, H2 in E.
Qed.

(** C7 (as stated, refuted): the same mapping staged in two orders is saved
    as two different files; the second one lists "b" before "a". *)
Lemma C7_insertion_order_counterexample :
  as_mapping index_ab = as_mapping index_ba
  /\ files (Repository.saveIndex sample_path index_ab fresh_repo).2
       !! Repository.indexFile sample_path
     <> files (Repository.saveIndex sample_path index_ba fresh_repo).2
          !! Repository.indexFile sample_path
  /\ files (Repository.saveIndex sample_path index_ba fresh_repo).2
       !! Repository.indexFile sample_path
     = Some (FS.File (Buf.from (JSON.stringify [("b"%string, id2); ("a"%string, id1)]))).
Proof. split; [by vm_compute|]. split; [|by vm_compute]. vm_compute. discriminate. Qed.

(** C7 (amended): saving the index writes the JSON text of the mapping
    with its keys in the property order of the index object (no sorting):
    reading the file back gives the same entries in the same order, and two
    indexes are saved as the same bytes only if they have the same entries
    in the same order. *)
Theorem C7_saveIndex_property_order (path : FS.path) (w : world) (idx : Index) :
  FS.lookup (files w) (Repository.gitDir path) = Some FS.Dir ->
  FS.lookup (files w) (Repository.indexFile path) <> Some FS.Dir ->
  canonical idx ->
  let w' := World (<[Repository.indexFile path :=
                       FS.File (Buf.from (JSON.stringify idx))]> (files w))
              (console w) in
  Repository.saveIndex path idx w = (Ok tt, w')
  /\ Repository.loadIndex path w' = (Ok idx, w')
  /\ forall idx2 : Index,
       canonical idx2 -> JSON.stringify idx2 = JSON.stringify idx -> idx2 = idx.
Proof.
  intros Hgit Hidx Hcan w'. split; [|split].
  - unfold Repository.saveIndex, writeFileSync.
    rewrite indexFile_eq, dirname_snoc, Hgit. rewrite <- indexFile_eq.
    destruct (FS.lookup (files w) (Repository.indexFile path)) as [[d|]|]; done.
  - assert (E : FS.lookup (files w') (Repository.indexFile path)
                = Some (FS.File (Buf.from (JSON.stringify idx)))).
    { rewrite indexFile_eq, lookup_snoc. subst w'. cbn [files].
      rewrite <- indexFile_eq. apply lookup_insert_eq. }
    unfold Repository.loadIndex.
    rewrite (bind_ok _ _ _ _ _ (existsSync_true _ _ _ E)).
    apply try_ok. rewrite (bind_ok _ _ _ _ _ (readFileSync_file _ _ _ E)).
    by rewrite toString_from, parse_stringify, Hcan.
  - intros idx2 H2 E. by apply stringify_inj.
Qed.

Lemma C7_witness :
  let w' := World (<[Repository.indexFile sample_path :=
                       FS.File (Buf.from (JSON.stringify index_ba))]>
                     (files fresh_repo))
              (console fresh_repo) in
  Repository.saveIndex sample_path index_ba fresh_repo = (Ok tt, w')
  /\ Repository.loadIndex sample_path w' = (Ok index_ba, w')
  /\ forall idx2 : Index,
       canonical idx2 -> JSON.stringify idx2 = JSON.stringify index_ba ->
       idx2 = index_ba.
Proof.
  apply (C7_saveIndex_property_order sample_path fresh_repo index_ba).
  - by vm_compute.
  - vm_compute. discriminate.
  - by vm_compute.
Defined.

(** ** C9: checkout of a missing branch *)

Section Checkout.
Context `{Zlib} (path : FS.path).

Lemma getBranchCommit_no_timeout (b : string) (w : world) :
  (Repository.getBranchCommit path b w).1 <> Timeout.
Proof.
  unfold Repository.getBranchCommit, bind, existsSync, readFileSync, ret.
  simpl. repeat case_match; simplify_eq/=; done.
Qed.

Lemma reads_at {A} (m : M A) (w : world) (r : result A) :
  reads m -> m w = (r, w) -> m (World (files w) []) = (r, World (files w) []).
Proof.
  intros Hm E. rewrite (Hm (World (files w) [])). rewrite (Hm w) in E.
  simpl. by injection E as ->.
Qed.



End Checkout.


(** ** The object store *)

Section Store.
Context `{Zlib} (path : FS.path).

Lemma storeObject_run (o : GitObject.t) (w : world) :
  dirs_exist (files w) (Repository.objectsDir path) ->
  let h := GitObject.hash o in
  let dir := Repository.objectsDir path ++ [Str.slice_to 2 h] in
  let file := dir ++ [Str.slice_from 2 h] in
  Repository.storeObject path o w
  = match files w !! file with
    | Some _ => (Ok h, w)
    | None =>
        match files w !! dir with
        | Some FS.Dir =>
            (Ok h, World (<[file := FS.File (GitObject.serialize o)]> (files w))
                     (console w))
        | Some (FS.File _) => (Throw (SystemError "ENOTDIR"), w)
        | None =>
            (Ok h, World (<[file := FS.File (GitObject.serialize o)]>
                            (<[dir := FS.Dir]> (files w)))
                     (console w))
        end
    end.
Proof.
  intros Hdirs h dir file.
  destruct (hex40_slices h (hexdigest_hex40 _)) as [H2 H38].
  unfold Repository.storeObject. fold h. cbv zeta.
  rewrite !join_plain by done. fold dir. fold file.
  assert (Hne : file <> dir).
  { subst file. intros E. apply (f_equal length) in E.
    rewrite length_app in E. simpl in E. lia. }
  destruct (files w !! file) as [n|] eqn:Efile.
  { rewrite (bind_ok _ _ w w true); [done|].
    apply (existsSync_true _ _ n). subst file. by rewrite lookup_snoc. }
  rewrite (bind_ok _ _ w w false)
    by (apply existsSync_false; subst file; by rewrite lookup_snoc).
  cbv iota.
  assert (Hw : forall w1 fs1,
             ensureDirSync dir w = (Ok tt, w1) -> files w1 = fs1 ->
             console w1 = console w ->
             fs1 !! file = None -> fs1 !! dir = Some FS.Dir ->
             bind (bind (ensureDirSync dir)
                     (fun _ => writeFileSync file (GitObject.serialize o)))
               (fun _ => ret h) w
             = (Ok h, World (<[file := FS.File (GitObject.serialize o)]> fs1)
                        (console w))).
  { intros w1 fs1 E1 <- Hc Ef Ed. unfold bind. rewrite E1.
    unfold writeFileSync. subst file. rewrite lookup_snoc, Ef, dirname_snoc.
    subst dir. rewrite lookup_snoc, Ed. by rewrite Hc. }
  destruct (files w !! dir) as [[d|]|] eqn:Edir.
  - unfold bind, ensureDirSync, bind.
    rewrite (existsSync_true dir w (FS.File d))
      by (subst dir; by rewrite lookup_snoc).
    unfold ret, writeFileSync. subst file.
    rewrite lookup_snoc, Efile, dirname_snoc.
    subst dir. by rewrite lookup_snoc, Edir.
  - apply (Hw w); try done.
    unfold ensureDirSync.
    rewrite (bind_ok _ _ w w true); [done|].
    apply (existsSync_true _ _ FS.Dir). subst dir. by rewrite lookup_snoc.
  - apply (Hw (World (<[dir := FS.Dir]> (files w)) (console w))); try done.
    + unfold ensureDirSync.
      rewrite (bind_ok _ _ w w false)
        by (apply existsSync_false; subst dir; by rewrite lookup_snoc).
      unfold mkdirSync. subst dir.
      rewrite (mkdirs_last (files w) (Repository.objectsDir path) []); done.
    + by rewrite lookup_insert_ne.
    + apply lookup_insert_eq.
Qed.

Lemma dirs_exist_insert (fs : gmap FS.path FS.node) (base p : FS.path)
    (n : FS.node) :
  below base p -> dirs_exist fs base -> dirs_exist (<[p := n]> fs) base.
Proof.
  intros (q & Hq & ->) Hd x Hx Hpre. rewrite lookup_insert_ne; [by apply Hd|].
  intros <-. destruct Hpre as [k Hk].
  apply (f_equal length) in Hk. rewrite !length_app in Hk.
  destruct q; [done|]. simpl in Hk. lia.
Qed.

Lemma stores_only_storeObject (o : GitObject.t) :
  stores_only path (Repository.storeObject path o).
Proof.
  intros w Hdirs. rewrite storeObject_run by done. cbv zeta.
  set (dir := Repository.objectsDir path
                ++ [Str.slice_to 2 (GitObject.hash o)]).
  set (file := dir ++ [Str.slice_from 2 (GitObject.hash o)]).
  assert (Bd : below (Repository.objectsDir path) dir) by (by eexists [_]).
  assert (Bf : below (Repository.objectsDir path) file).
  { subst file dir. rewrite <- app_assoc. by eexists [_; _]. }
  destruct (files w !! file) as [n|]; [done|].
  destruct (files w !! dir) as [[d|]|]; [done| |]; cbn [snd files].
  - split; [exact (dirs_exist_insert _ _ _ _ Bf Hdirs)|].
    intros p Hp. apply lookup_insert_ne. by intros <-.
  - split.
    + exact (dirs_exist_insert _ _ _ _ Bf (dirs_exist_insert _ _ _ _ Bd Hdirs)).
    + intros p Hp. rewrite !lookup_insert_ne; [done|by intros <-..].
Qed.

Lemma stores_only_ret {A} (a : A) : stores_only path (ret a).
Proof. by intros w Hd. Qed.

Lemma stores_only_throw {A} (e : exn) : stores_only path (@throw A e).
Proof. by intros w Hd. Qed.

Lemma stores_only_bind {A B} (m : M A) (k : A -> M B) :
  stores_only path m -> (forall a, stores_only path (k a)) ->
  stores_only path (bind m k).
Proof.
  intros Hm Hk w Hd. unfold bind. destruct (Hm w Hd) as [Hd1 Hf1].
  destruct (m w) as [[a|e|] w1]; simpl in *; try done.
  destruct (Hk a w1 Hd1) as [Hd2 Hf2]. split; [done|].
  intros p Hp. by rewrite Hf2, Hf1.
Qed.

Lemma stores_only_reads {A} (m : M A) : reads m -> stores_only path m.
Proof. intros Hm w Hd. by rewrite (Hm w). Qed.

Lemma stores_only_loop (recur : JS.value -> M string)
    (entries : list (string * JS.value)) :
  Forall (fun kv => stores_only path (recur kv.2)) entries ->
  forall tree,
    stores_only path (Repository.createTree_loop recur entries tree).
Proof.
  induction 1 as [|[name v] entries Hv Hrest IH]; intros tree; simpl.
  - apply stores_only_ret.
  - destruct v as [h|props]; [apply IH|].
    apply stores_only_bind; [exact Hv|]. intros sub. apply IH.
Qed.

Lemma stores_only_createTree (v : JS.value) :
  stores_only path (Repository.createTree path v).
Proof.
  revert v. fix IH 1. intros [s|props]; simpl.
  - apply stores_only_throw.
  - apply stores_only_bind; [|intros t; apply stores_only_storeObject].
    apply stores_only_loop.
    induction props as [|[k v] props IHp]; constructor; [apply IH|exact IHp].
Qed.

Lemma stores_only_createTreeFromIndex :
  stores_only path (Repository.createTreeFromIndex path).
Proof.
  unfold Repository.createTreeFromIndex.
  apply stores_only_bind; [apply stores_only_reads, reads_loadIndex|].
  intros [|e index]; [apply stores_only_storeObject|].
  destruct (Repository.group _ _ _) as [[dirs files]|ex|];
    [apply stores_only_createTree|apply stores_only_throw|by intros w Hd].
Qed.

End Store.

(** ** C3: when [commit] commits *)


Section CommitCases.
Context `{Zlib} (path : FS.path) (message author : string) (now : Z).

(** The comparison of the new root tree with the parent's. *)
Lemma same_tree_check (treeHash : string) (parent : option string)
    (w1 : world) :
  (if Repository.truthy parent
   then try_catch
          (bind (Repository.loadObject path (default "" parent))
             (fun parentGitObj =>
                ret (bool_decide
                       (Commit.treeHash
                          (Commit.fromContent (GitObject.content parentGitObj)
                             now)
                        = Some treeHash))))
          (fun _ => ret false)
   else ret false) w1
  = (Ok (bool_decide (parent_tree path now (files w1) parent = Some treeHash)),
     w1).
Proof.
  unfold parent_tree. destruct (Repository.truthy parent); [|done].
  pose proof (loadObject_object_at path (default "" parent) w1) as Ho.
  pose proof (loadObject_no_timeout path (default "" parent) (files w1)) as Hn.
  destruct (object_at path (files w1) (default "" parent)) as [o|e|]; [| |done].
  - apply try_ok. by rewrite (bind_ok _ _ _ _ _ Ho).
  - rewrite (try_throw _ _ w1 w1 e); [done|]. by apply bind_throw.
Qed.

(** [commit] after its four reads, in the three cases. *)
Lemma commit_cases (w w1 : world) (treeHash br : string)
    (parent : option string) (index : Index) :
  Repository.createTreeFromIndex path w = (Ok treeHash, w1) ->
  Repository.getCurrentBranch path w1 = (Ok br, w1) ->
  Repository.getBranchCommit path br w1 = (Ok parent, w1) ->
  Repository.loadIndex path w1 = (Ok index, w1) ->
  Repository.commit path message author now w
  = if bool_decide (index = [])
       || bool_decide (parent_tree path now (files w1) parent = Some treeHash)
    then (Ok None,
          World (files w1) (console w1 ++ [Repository.nothing_to_commit]))
    else
      bind (Repository.storeObject path (commit_object message author now treeHash parent))
        (fun commitHash =>
           bind (Repository.setBranchCommit path br commitHash)
             (fun _ =>
                bind (Repository.saveIndex path [])
                  (fun _ =>
                     bind (log ("Created commit " +:+ commitHash
                                  +:+ " on branch " +:+ br))
                       (fun _ => ret (Some commitHash))))) w1.
Proof.
  intros H1 H2 H3 H4. unfold Repository.commit.
  rewrite (bind_ok _ _ _ _ _ H1), (bind_ok _ _ _ _ _ H2),
    (bind_ok _ _ _ _ _ H3). cbv zeta. rewrite (bind_ok _ _ _ _ _ H4).
  destruct index as [|e index]; [reflexivity|].
  rewrite (bind_ok _ _ _ _ _ (same_tree_check treeHash parent w1)).
  rewrite (bool_decide_eq_false_2 (e :: index = [])) by done. cbn [orb].
  destruct (bool_decide _); reflexivity.
Qed.

End CommitCases.

Section CommitWrites.
Context `{Zlib} (path : FS.path) (message author : string) (now : Z).

(** The writes of a commit: the object, the branch ref, the index. *)
Lemma commit_writes (w1 : world) (o : GitObject.t) (br : string) :
  let commitHash := GitObject.hash o in
  let ref := Repository.headsDir path ++ [br] in
  dirs_exist (files w1) (Repository.objectsDir path) ->
  plain br ->
  files w1 !! Repository.objectFile path commitHash = None ->
  (forall d, files w1 !! (Repository.objectsDir path
                            ++ [Str.slice_to 2 commitHash])
             <> Some (FS.File d)) ->
  files w1 !! Repository.headsDir path = Some FS.Dir ->
  files w1 !! ref <> Some FS.Dir ->
  files w1 !! Repository.indexFile path <> Some FS.Dir ->
  exists w',
    bind (Repository.storeObject path o)
      (fun commitHash =>
         bind (Repository.setBranchCommit path br commitHash)
           (fun _ =>
              bind (Repository.saveIndex path [])
                (fun _ =>
                   bind (log ("Created commit " +:+ commitHash
                                +:+ " on branch " +:+ br))
                     (fun _ => ret (Some commitHash))))) w1
    = (Ok (Some commitHash), w')
    /\ files w' !! Repository.objectFile path commitHash
       = Some (FS.File (GitObject.serialize o))
    /\ files w' !! ref = Some (FS.File (Buf.from (commitHash +:+ Str.lf)))
    /\ files w' !! Repository.indexFile path
       = Some (FS.File (Buf.from "{}")).
Proof.
  intros commitHash ref Hdirs Hbr Hobj Hdir Hheads Href Hidx.
  pose proof (hexdigest_hex40 (GitObject.store o)) as Hhex.
  fold (GitObject.hash o) in Hhex. fold commitHash in Hhex.
  rewrite (objectFile_eq path commitHash Hhex) in *.
  set (dir := Repository.objectsDir path ++ [Str.slice_to 2 commitHash]) in *.
  set (file := Repository.objectsDir path
                 ++ [Str.slice_to 2 commitHash; Str.slice_from 2 commitHash]) in *.
  assert (Hfile : file = dir ++ [Str.slice_from 2 commitHash])
    by (subst file dir; by rewrite <- app_assoc).
  (* the object *)
  pose proof (storeObject_run path o w1 Hdirs) as Hstore. cbv zeta in Hstore.
  fold commitHash in Hstore. fold dir in Hstore.
  assert (Hobj' : files w1 !! (dir ++ [Str.slice_from 2 commitHash]) = None)
    by (rewrite <- Hfile; exact Hobj).
  rewrite Hobj' in Hstore. rewrite <- Hfile in Hstore.
  pose proof (stores_only_storeObject path o w1 Hdirs) as [Hdirs2 Hframe].
  assert (Hs : exists w2, Repository.storeObject path o w1 = (Ok commitHash, w2)
                          /\ files w2 !! file
                             = Some (FS.File (GitObject.serialize o))).
  { destruct (files w1 !! dir) as [[d|]|] eqn:Ed.
    - by destruct (Hdir d).
    - eexists. split; [exact Hstore|]. apply lookup_insert_eq.
    - eexists. split; [exact Hstore|]. apply lookup_insert_eq. }
  destruct Hs as (w2 & Es & Hfile2). rewrite Es in Hframe. cbn [snd] in Hframe.
  rewrite Es in Hdirs2. cbn [snd] in Hdirs2.
  (* the paths *)
  assert (Nheads : ~ below (Repository.objectsDir path) (Repository.headsDir path)).
  { rewrite headsDir_eq. apply not_below_objects. by intros q [=]. }
  assert (Eref : ref = Repository.gitDir path ++ ["refs"%string; "heads"%string; br]).
  { subst ref. by rewrite headsDir_eq, <- app_assoc. }
  assert (Nref : ~ below (Repository.objectsDir path) ref).
  { rewrite Eref. apply not_below_objects. by intros q [=]. }
  assert (Nidx : ~ below (Repository.objectsDir path) (Repository.indexFile path)).
  { rewrite indexFile_eq. apply not_below_objects. by intros q [=]. }
  assert (Ngit : ~ below (Repository.objectsDir path) (Repository.gitDir path)).
  { intros (q & Hq & E). rewrite objectsDir_eq in E.
    apply (f_equal length) in E. rewrite !length_app in E. simpl in E. lia. }
  assert (Hgit2 : files w2 !! Repository.gitDir path = Some FS.Dir).
  { apply Hdirs2; [by rewrite gitDir_eq; destruct path|].
    exists ["objects"%string]. apply objectsDir_eq. }
  assert (Href_idx : ref <> Repository.indexFile path).
  { rewrite Eref, indexFile_eq. intros E. apply app_inv_head in E. done. }
  assert (Href_file : ref <> file).
  { rewrite Eref. subst file. rewrite objectsDir_eq, <- app_assoc.
    intros E. apply app_inv_head in E. done. }
  assert (Hidx_file : Repository.indexFile path <> file).
  { subst file. rewrite indexFile_eq, objectsDir_eq, <- app_assoc.
    intros E. apply app_inv_head in E. done. }
  assert (Hgit_ref : ref <> Repository.gitDir path).
  { rewrite Eref. intros E. apply (f_equal length) in E.
    rewrite length_app in E. simpl in E. lia. }
  (* the ref *)
  assert (Er : Repository.setBranchCommit path br commitHash w2
               = (Ok tt, World (<[ref := FS.File (Buf.from (commitHash +:+ Str.lf))]>
                                  (files w2)) (console w2))).
  { unfold Repository.setBranchCommit. rewrite (join_plain _ br Hbr).
    fold ref. subst ref. rewrite dirname_snoc.
    rewrite (bind_ok _ _ w2 w2 tt).
    - apply writeFileSync_ok; rewrite ?Hframe by done; [done|].
      by rewrite lookup_headsDir, Hframe.
    - unfold ensureDirSync. rewrite (bind_ok _ _ w2 w2 true); [done|].
      apply (existsSync_true _ _ FS.Dir).
      by rewrite lookup_headsDir, Hframe. }
  (* the index *)
  set (w3 := World (<[ref := FS.File (Buf.from (commitHash +:+ Str.lf))]>
                      (files w2)) (console w2)) in *.
  assert (Ei : Repository.saveIndex path [] w3
               = (Ok tt, World (<[Repository.indexFile path
                                    := FS.File (Buf.from "{}")]> (files w3))
                           (console w3))).
  { unfold Repository.saveIndex. rewrite indexFile_eq.
    apply writeFileSync_ok; rewrite <- ?indexFile_eq.
    - subst w3. cbn [files]. rewrite lookup_insert_ne by done.
      by rewrite Hframe.
    - subst w3. cbn [files]. rewrite lookup_gitDir.
      by rewrite lookup_insert_ne. }
  eexists. split; [|split; [|split]].
  - rewrite (bind_ok _ _ _ _ _ Es), (bind_ok _ _ _ _ _ Er),
      (bind_ok _ _ _ _ _ Ei). reflexivity.
  - cbn [files]. rewrite lookup_insert_ne by done.
    subst w3. cbn [files]. by rewrite lookup_insert_ne.
  - cbn [files]. rewrite lookup_insert_ne by done.
    subst w3. cbn [files]. apply lookup_insert_eq.
  - cbn [files]. apply lookup_insert_eq.
Qed.

End CommitWrites.




(** ** C8: the files that [checkout] clears *)

Lemma elem_of_set_add (x y : string) (l : list string) :
  y ∈ Repository.set_add x l <-> y = x \/ y ∈ l.
Proof.
  unfold Repository.set_add. case_bool_decide as Hx.
  - split; [by right|]. by intros [->|].
  - rewrite elem_of_app, list_elem_of_singleton. tauto.
Qed.

Lemma elem_of_fold_set_add (y : string) (sub : list string) :
  forall acc,
    y ∈ fold_left (fun fs f => Repository.set_add f fs) sub acc
    <-> y ∈ sub \/ y ∈ acc.
Proof.
  induction sub as [|x sub IH]; intros acc; simpl.
  - rewrite elem_of_nil. tauto.
  - rewrite IH, elem_of_set_add, elem_of_cons. tauto.
Qed.

Lemma elem_of_insert_string (x y : string) (l : list string) :
  y ∈ Repository.insert_string x l <-> y = x \/ y ∈ l.
Proof.
  induction l as [|z l IH]; simpl.
  - rewrite list_elem_of_singleton, elem_of_nil. tauto.
  - destruct (Buf.compare _ _); rewrite ?elem_of_cons, ?IH, ?elem_of_cons; tauto.
Qed.

Lemma elem_of_sort_strings (y : string) (l : list string) :
  y ∈ Repository.sort_strings l <-> y ∈ l.
Proof.
  induction l as [|x l IH]; [done|].
  unfold Repository.sort_strings in *. simpl.
  by rewrite elem_of_insert_string, IH, elem_of_cons.
Qed.

Section Walk.
Context `{Zlib} (path : FS.path).

(** The loop over the entries of one tree: what it adds to the set. *)
Lemma getFiles_loop_spec (recur : string -> string -> M (list string))
    (prefix : string) (fs : gmap FS.path FS.node)
    (R : string -> string -> string -> Prop) (entries : list Tree.parsed) :
  (forall h p w, quiet_step w (recur h p w).2) ->
  (forall e p w, e ∈ entries -> is_subtree e -> files w = fs ->
     exists l w', recur (Tree.p_hashHex e) p w = (Ok l, w')
                  /\ forall f, f ∈ l <-> R (Tree.p_hashHex e) p f) ->
  forall acc w, files w = fs ->
    exists l w',
      Repository.getFiles_loop recur prefix entries acc w = (Ok l, w')
      /\ forall f, f ∈ l <->
           f ∈ acc
           \/ exists e, e ∈ entries
                /\ let name := prefix +:+ default "undefined" (Tree.p_name e) in
                   (Str.startsWith "100" (Tree.p_mode e) = true /\ f = name
                    \/ is_subtree e
                       /\ R (Tree.p_hashHex e) (name +:+ "/") f).
Proof.
  intros Hq. induction entries as [|e entries IH]; intros Hrec acc w Hw.
  - simpl. unfold ret. eexists _, _. split; [done|]. intros f. split.
    + by left.
    + intros [?|(e & He & _)]; [done|]. by apply elem_of_nil in He.
  - cbn [Repository.getFiles_loop]. cbv zeta.
    assert (Hrest : forall e' p w', e' ∈ entries -> is_subtree e' ->
              files w' = fs ->
              exists l w2, recur (Tree.p_hashHex e') p w' = (Ok l, w2)
                           /\ forall f, f ∈ l <-> R (Tree.p_hashHex e') p f).
    { intros e' p w' Hin. apply Hrec. by right. }
    set (name := prefix +:+ default "undefined" (Tree.p_name e)).
    destruct (Str.startsWith "100" (Tree.p_mode e)) eqn:E1.
    { destruct (IH Hrest (Repository.set_add name acc) w Hw)
        as (l & w' & El & Hl).
      exists l, w'. split; [done|]. intros f. rewrite Hl, elem_of_set_add.
      split.
      - intros [[->|?]|(e' & He' & Hc)]; [right|by left|right].
        + exists e. split; [by left|]. left. done.
        + exists e'. split; [by right|done].
      - intros [?|(e' & He' & Hc)]; [by left; right|].
        apply elem_of_cons in He' as [->|He'].
        + destruct Hc as [[_ ->]|[[E _] _]]; [by left; left|congruence].
        + right. by exists e'. }
    destruct (Str.startsWith "400" (Tree.p_mode e)) eqn:E4.
    { destruct (Hrec e (name +:+ "/") w) as (sub & w2 & Esub & Hsub);
        [by left|done|done|].
      cbv iota. rewrite (bind_ok _ _ _ _ _ Esub).
      assert (Hw2 : files w2 = fs).
      { pose proof (Hq (Tree.p_hashHex e) (name +:+ "/") w) as [Hf _].
        rewrite Esub in Hf. simpl in Hf. congruence. }
      destruct (IH Hrest
                  (fold_left (fun fs f => Repository.set_add f fs) sub acc)
                  w2 Hw2) as (l & w' & El & Hl).
      exists l, w'. split; [done|]. intros f.
      rewrite Hl, elem_of_fold_set_add, Hsub. split.
      - intros [[?|?]|(e' & He' & Hc)]; [right|by left|right].
        + exists e. split; [by left|]. right. done.
        + exists e'. split; [by right|done].
      - intros [?|(e' & He' & Hc)]; [by left; right|].
        apply elem_of_cons in He' as [->|He'].
        + destruct Hc as [[E _]|[_ ?]]; [congruence|by left; left].
        + right. by exists e'. }
    destruct (IH Hrest acc w Hw) as (l & w' & El & Hl).
    exists l, w'. split; [done|]. intros f. rewrite Hl. split.
    + intros [?|(e' & He' & Hc)]; [by left|right].
      exists e'. split; [by right|done].
    + intros [?|(e' & He' & Hc)]; [by left|].
      apply elem_of_cons in He' as [->|He'].
      * destruct Hc as [[E _]|[[_ E] _]]; congruence.
      * right. by exists e'.
Qed.

(** With enough budget for the nesting of the trees, the walk returns the
    reachable file paths. *)
Lemma getFiles_spec (fuel : nat) :
  forall (n : nat) (h prefix : string) (w : world),
    nests path (files w) n h -> (n <= fuel)%nat ->
    exists l w',
      Repository.getFilesFromTreeRecursive path fuel h prefix w = (Ok l, w')
      /\ forall f, f ∈ l <-> reachable path (files w) h prefix f.
Proof.
  induction fuel as [|fuel IH]; intros n h prefix w Hn Hle.
  - inversion Hn; lia.
  - cbn [Repository.getFilesFromTreeRecursive].
    inversion Hn as [n' h' e He|n' h' o Ho Hsub]; subst.
    + rewrite (try_throw _ _ w w e).
      * unfold bind, log, ret. eexists _, _. split; [done|].
        intros f. split; [by intros ?%elem_of_nil|].
        intros Hr. inversion Hr; congruence.
      * apply bind_throw. by rewrite loadObject_object_at, He.
    + destruct (getFiles_loop_spec
                  (Repository.getFilesFromTreeRecursive path fuel) prefix
                  (files w) (reachable path (files w))
                  (Tree.fromContent (GitObject.content o)))
        with (acc := @nil string) (w := w) as (l & w' & E & Hl).
      * intros h0 p w0. apply quiet_getFiles.
      * intros e p w0 Hin Hsubtree Hw0.
        destruct (IH n' (Tree.p_hashHex e) p w0) as (l & w' & El & Hl);
          [rewrite Hw0; by apply Hsub|lia|].
        exists l, w'. split; [done|]. by rewrite <- Hw0.
      * done.
      * exists l, w'. split.
        { apply try_ok. rewrite (bind_ok _ _ w w o); [done|].
          by rewrite loadObject_object_at, Ho. }
        intros f. rewrite Hl. split.
        -- intros [?%elem_of_nil|(e & He & [[E1 ->]|[Hs Hr]])]; [done|..].
           ++ by eapply reachable_file.
           ++ by eapply reachable_below.
        -- intros Hr. right.
           inversion Hr as [? ? o' e Ho' He E1|? ? ? o' e Ho' He Hs Hr'];
             subst; rewrite Ho in Ho'; injection Ho' as <-;
             exists e; (split; [done|]); [by left|by right].
Qed.

End Walk.
Section Clear.
Context `{Zlib} (path : FS.path).

(** The first block of [checkout]: the files to clear are the files
    reachable from the tree of the previous commit. *)
Lemma previousFiles_spec (fuel : nat) (b : string) (now : Z) (w : world) :
  (forall t, previous_tree path now (files w) = Some t ->
             nests path (files w) fuel t) ->
  Repository.getCurrentBranch path w = (Ok b, w) ->
  exists l c w2,
    Repository.previousFiles path fuel b now w = (Ok (l, c), w2)
    /\ quiet_step w w2
    /\ forall f, f ∈ l <-> tracked_by_previous path now (files w) f.
Proof.
  intros Hnest Hb.
  pose proof (quiet_previousFiles path fuel b now w) as Hquiet.
  pose proof (reads_at _ _ _ (reads_getCurrentBranch path) Hb) as Hb0.
  pose proof (reads_getBranchCommit path b w) as Hc.
  pose proof (getBranchCommit_no_timeout path b (World (files w) [])) as Hcn.
  assert (Hnone : forall c w2,
            Repository.previousFiles path fuel b now w = (Ok ([], c), w2) ->
            (forall f, ~ tracked_by_previous path now (files w) f) ->
            exists l c w2,
              Repository.previousFiles path fuel b now w = (Ok (l, c), w2)
              /\ quiet_step w w2
              /\ forall f, f ∈ l <-> tracked_by_previous path now (files w) f).
  { intros c w2 E Hno. exists [], c, w2. split; [done|]. split.
    - by rewrite E in Hquiet.
    - intros f. split; [by intros ?%elem_of_nil|]. intros Hf. by apply Hno in Hf. }
  destruct (Repository.getBranchCommit path b (World (files w) [])).1
    as [c|e|] eqn:Ec; [| |done].
  2:{ apply (Hnone None w).
      - unfold Repository.previousFiles.
        rewrite (try_throw _ _ w w e); [done|]. by apply bind_throw.
      - intros f (b' & c' & t' & o' & H1 & H2 & _).
        rewrite Hb0 in H1. injection H1 as <-. congruence. }
  pose proof (reads_at _ _ _ (reads_getBranchCommit path b) Hc) as Hc0.
  unfold Repository.previousFiles in *.
  destruct (Repository.truthy c) eqn:Etr.
  2:{ apply (Hnone c w).
      - apply try_ok. rewrite (bind_ok _ _ _ _ _ Hc). by rewrite Etr.
      - intros f (b' & c' & t' & o' & H1 & H2 & H3 & _).
        rewrite Hb0 in H1. injection H1 as <-.
        rewrite Ec in H2. injection H2 as ->.
        simpl in Etr. apply negb_false_iff, String.eqb_eq in Etr. done. }
  destruct c as [s|]; [|done]. cbn [default] in *.
  pose proof (loadObject_object_at path s w) as Ho.
  pose proof (loadObject_no_timeout path s (files w)) as Hon.
  destruct (object_at path (files w) s) as [o|e|] eqn:Eo; [| |done].
  2:{ apply (Hnone (Some s) w).
      - apply try_ok. rewrite (bind_ok _ _ _ _ _ Hc).
        rewrite Etr. rewrite (try_throw _ _ w w e); [done|].
        by apply bind_throw.
      - intros f (b' & c' & t' & o' & H1 & H2 & H3 & H4 & _).
        rewrite Hb0 in H1. injection H1 as <-.
        rewrite Ec in H2. injection H2 as <-. congruence. }
  destruct (Repository.truthy
              (Commit.treeHash (Commit.fromContent (GitObject.content o) now)))
    eqn:Et.
  2:{ apply (Hnone (Some s) w).
      - apply try_ok. rewrite (bind_ok _ _ _ _ _ Hc).
        rewrite Etr. apply try_ok. rewrite (bind_ok _ _ _ _ _ Ho).
        by rewrite Et.
      - intros f (b' & c' & t' & o' & H1 & H2 & H3 & H4 & H5 & H6 & _).
        rewrite Hb0 in H1. injection H1 as <-.
        rewrite Ec in H2. injection H2 as <-.
        rewrite Eo in H4. injection H4 as <-.
        rewrite H5 in Et. simpl in Et.
        apply negb_false_iff, String.eqb_eq in Et. done. }
  destruct (Commit.treeHash (Commit.fromContent (GitObject.content o) now))
    as [t|] eqn:Etree; [|done].
  assert (Hprev : previous_tree path now (files w) = Some t).
  { unfold previous_tree. by rewrite Hb0, Hc0, Eo. }
  destruct (getFiles_spec path fuel fuel t "" w (Hnest t Hprev))
    as (l & w2 & El & Hl); [done|].
  assert (E : try_catch
      (bind (Repository.getBranchCommit path b)
         (fun previousCommitHash =>
            if Repository.truthy previousCommitHash
            then try_catch
                   (bind (Repository.loadObject path
                            (default "" previousCommitHash))
                      (fun prevCommitObj =>
                         if Repository.truthy
                              (Commit.treeHash
                                 (Commit.fromContent
                                    (GitObject.content prevCommitObj) now))
                         then bind
                                (Repository.getFilesFromTreeRecursive path
                                   fuel
                                   (default ""
                                      (Commit.treeHash
                                         (Commit.fromContent
                                            (GitObject.content prevCommitObj)
                                            now))) "")
                                (fun fs => ret (fs, previousCommitHash))
                         else ret ([], previousCommitHash)))
                   (fun _ => ret ([], previousCommitHash))
            else ret ([], previousCommitHash)))
      (fun _ => ret ([], None)) w = (Ok (l, Some s), w2)).
  { apply try_ok. rewrite (bind_ok _ _ _ _ _ Hc).
    rewrite Etr. apply try_ok. rewrite (bind_ok _ _ _ _ _ Ho).
    rewrite Etree, Et. cbn [default]. by rewrite (bind_ok _ _ _ _ _ El). }
  exists l, (Some s), w2. split; [exact E|]. split.
  { by rewrite E in Hquiet. }
  intros f. rewrite Hl. split.
  - intros Hr. exists b, s, t, o. rewrite Hb0, Ec.
    simpl in Etr, Et. apply negb_true_iff, String.eqb_neq in Etr, Et.
    done.
  - intros (b' & c' & t' & o' & H1 & H2 & H3 & H4 & H5 & H6 & Hr).
    rewrite Hb0 in H1. injection H1 as <-.
    rewrite Ec in H2. injection H2 as <-.
    rewrite Eo in H4. injection H4 as <-.
    rewrite Etree in H5. by injection H5 as <-.
Qed.

Lemma lookup_delete_file (fs : gmap FS.path FS.node) (p q : FS.path) :
  p <> [] ->
  FS.lookup (delete p fs) q
  = if bool_decide (q = p) then None else FS.lookup fs q.
Proof.
  intros Hp. case_bool_decide as E.
  - subst q. destruct p; [done|]. apply lookup_delete_eq.
  - destruct q; [done|]. simpl. by rewrite lookup_delete_ne.
Qed.

(** One round of the deletion loop. *)
Lemma clear_one (filePath : FS.path) (w : world) :
  try_catch
    (bind (existsSync filePath)
       (fun ex =>
          if ex then
            bind (isFile filePath)
              (fun isf => if isf then unlinkSync filePath else ret tt)
          else ret tt))
    (fun _ => ret tt) w
  = (Ok tt,
     World (if is_regular (FS.lookup (files w) filePath)
            then delete filePath (files w) else files w)
       (console w)).
Proof.
  unfold try_catch, bind, existsSync, isFile, unlinkSync, ret.
  destruct w as [fs c]. simpl.
  destruct (FS.lookup fs filePath) as [[d|]|] eqn:E; simpl;
    rewrite ?E; simpl; rewrite ?E; done.
Qed.

(** The deletion loop removes the regular files among the paths and
    nothing else. *)
Lemma clearFiles_spec (l : list string) :
  forall w, exists w',
    Repository.clearFiles path l w = (Ok tt, w')
    /\ console w' = console w
    /\ forall p, files w' !! p = cleared path l (files w) p.
Proof.
  induction l as [|f l IH]; intros w.
  - exists w. split; [done|]. split; [done|]. intros p. unfold cleared.
    rewrite fmap_nil, bool_decide_eq_false_2; [done|]. apply not_elem_of_nil.
  - cbn [Repository.clearFiles]. cbv zeta.
    rewrite (bind_ok _ _ _ _ _ (clear_one (FS.join path f) w)).
    set (w1 := World _ _).
    destruct (IH w1) as (w' & E & Hc & Hf).
    exists w'. split; [done|]. split; [done|]. intros p. rewrite Hf.
    unfold cleared, w1. cbn [files]. rewrite fmap_cons.
    destruct (is_regular (FS.lookup (files w) (FS.join path f))) eqn:Er.
    + assert (Hne : FS.join path f <> []).
      { intros E0. rewrite E0 in Er. done. }
      rewrite (lookup_delete_file _ _ _ Hne).
      destruct (decide (p = FS.join path f)) as [->|Hp].
      * rewrite (bool_decide_eq_true_2 (_ = _)) by done.
        rewrite andb_false_r.
        rewrite lookup_delete_eq.
        rewrite (bool_decide_eq_true_2 (_ ∈ _ :: _)) by (by left).
        by rewrite Er.
      * rewrite (bool_decide_eq_false_2 (_ = _)) by done.
        rewrite lookup_delete_ne by done.
        rewrite (bool_decide_ext (p ∈ FS.join path f :: (FS.join path <$> l))
                   (p ∈ FS.join path <$> l)); [done|].
        rewrite elem_of_cons. tauto.
    + destruct (decide (p = FS.join path f)) as [->|Hp].
      * by rewrite Er, !andb_false_r.
      * rewrite (bool_decide_ext (p ∈ FS.join path f :: (FS.join path <$> l))
                   (p ∈ FS.join path <$> l)); [done|].
        rewrite elem_of_cons. tauto.
Qed.

End Clear.
Lemma cleared_sorted (path : FS.path) (l : list string)
    (fs : gmap FS.path FS.node) (p : FS.path) :
  cleared path (Repository.sort_strings l) fs p = cleared path l fs p.
Proof.
  unfold cleared.
  rewrite (bool_decide_ext (p ∈ FS.join path <$> Repository.sort_strings l)
             (p ∈ FS.join path <$> l)); [done|].
  rewrite !list_elem_of_fmap. by setoid_rewrite elem_of_sort_strings.
Qed.

(** [checkout] of a branch that has a commit: the files to clear are the
    files reachable from the tree of the previous commit; after HEAD is
    written, those of them that are regular files are deleted and nothing
    else is touched; then the tree of the target commit is written out,
    the index is emptied and the switch is reported. The budget of the
    model covers the nesting of the previous tree. *)
Theorem checkout_clears_then_restores `{Zlib} (path : FS.path) (fuel : nat)
    (branch : string) (createBranch : bool) (now : Z) (w : world)
    (previousBranch target : string) (data : Buffer) :
  Repository.getCurrentBranch path w = (Ok previousBranch, w) ->
  (forall t, previous_tree path now (files w) = Some t ->
             nests path (files w) fuel t) ->
  plain branch ->
  files w !! (Repository.headsDir path ++ [branch]) = Some (FS.File data) ->
  Str.trim (Buf.toString data) = target -> target <> ""%string ->
  files w !! Repository.gitDir path = Some FS.Dir ->
  files w !! Repository.headFile path <> Some FS.Dir ->
  exists (filesToClear : list string) (w1 w2 : world),
    (forall f, f ∈ filesToClear <-> tracked_by_previous path now (files w) f)
    /\ files w1
       = <[Repository.headFile path :=
             FS.File (Buf.from ("ref: refs/heads/" +:+ branch +:+ Str.lf))]>
           (files w)
    /\ (forall p, files w2 !! p = cleared path filesToClear (files w1) p)
    /\ Repository.checkout path fuel branch createBranch now w
       = ((let* targetCommitObj := Repository.loadObject path target in
           let targetCommit :=
             Commit.fromContent (GitObject.content targetCommitObj) now in
           (if Repository.truthy (Commit.treeHash targetCommit)
            then Repository.restoreTree path fuel
                   (default "" (Commit.treeHash targetCommit)) path
            else ret tt) >>
           Repository.saveIndex path []) >>
          log ("Switched to branch " +:+ branch)) w2.
Proof.
  intros Hprev Hnest Hplain Hbranch Htarget Hne Hgit Hhead.
  destruct (previousFiles_spec path fuel previousBranch now w Hnest Hprev)
    as (l & c & wq & Epf & [Hf [ls Hc]] & Hl).
  set (content := Buf.from ("ref: refs/heads/" +:+ branch +:+ Str.lf)).
  set (w1 := World (<[Repository.headFile path := FS.File content]> (files wq))
               (console wq)).
  destruct (clearFiles_spec path (Repository.sort_strings l) w1)
    as (w2 & Eclear & _ & Hcleared).
  exists l, w1, w2. split; [exact Hl|]. split; [by rewrite <- Hf|].
  split; [intros p; by rewrite Hcleared, cleared_sorted|].
  assert (Hother : Repository.headFile path
                   <> Repository.headsDir path ++ [branch]).
  { rewrite headFile_eq, headsDir_eq, <- app_assoc.
    intros E%app_inv_head. discriminate. }
  unfold Repository.checkout.
  rewrite (bind_ok _ _ _ _ _ Hprev), (bind_ok _ _ _ _ _ Epf). cbv zeta.
  rewrite (join_plain _ _ Hplain).
  rewrite (bind_ok _ _ wq wq true).
  2:{ apply (existsSync_true _ _ (FS.File data)).
      by rewrite lookup_snoc, Hf. }
  cbv iota.
  assert (Ewrite : writeFileSync (Repository.headFile path) content wq
                   = (Ok tt, w1)).
  { rewrite headFile_eq. apply writeFileSync_ok.
    - rewrite <- headFile_eq, Hf. done.
    - by rewrite lookup_gitDir, Hf. }
  rewrite (bind_ok _ _ _ _ _ Ewrite).
  assert (Eref : Repository.getBranchCommit path branch w1
                 = (Ok (Some target), w1)).
  { unfold Repository.getBranchCommit. cbv zeta.
    rewrite (join_plain _ _ Hplain).
    assert (Hlk : FS.lookup (files w1) (Repository.headsDir path ++ [branch])
                  = Some (FS.File data)).
    { rewrite lookup_snoc. unfold w1. cbn [files].
      rewrite lookup_insert_ne by done. by rewrite Hf. }
    rewrite (bind_ok _ _ _ _ _ (existsSync_true _ _ _ Hlk)).
    rewrite (bind_ok _ _ _ _ _ (readFileSync_file _ _ _ Hlk)).
    by rewrite Htarget. }
  unfold Repository.restoreWorkingDirectory.
  assert (Etr : Repository.truthy (Some target) = true).
  { simpl. by apply negb_true_iff, String.eqb_neq. }
  unfold bind at 1. unfold bind at 1. rewrite Eref, Etr.
  unfold bind at 1. rewrite Eclear. cbn [default]. reflexivity.
Qed.
(** The hypotheses of [checkout_clears_then_restores] hold before the
    last step of scenario S5: the files to clear are the one file "b". *)
Lemma checkout_master_after_feat :
  exists (filesToClear : list string) (w1 w2 : world),
    (forall f, f ∈ filesToClear
               <-> @tracked_by_previous sample_zlib sample_path 1700000300
                     (files feat_repo) f)
    /\ files w1
       = <[Repository.headFile sample_path :=
             FS.File (Buf.from ("ref: refs/heads/" +:+ "master" +:+ Str.lf))]>
           (files feat_repo)
    /\ (forall p, files w2 !! p = cleared sample_path filesToClear (files w1) p)
    /\ @Repository.checkout sample_zlib sample_path 8 "master" false
         1700000300 feat_repo
       = ((let* targetCommitObj :=
             @Repository.loadObject sample_zlib sample_path id_commit_one in
           let targetCommit :=
             Commit.fromContent (GitObject.content targetCommitObj)
               1700000300 in
           (if Repository.truthy (Commit.treeHash targetCommit)
            then @Repository.restoreTree sample_zlib sample_path 8
                   (default "" (Commit.treeHash targetCommit)) sample_path
            else ret tt) >>
           Repository.saveIndex sample_path []) >>
          log ("Switched to branch " +:+ "master")) w2.
Proof.
  apply (checkout_clears_then_restores (H := sample_zlib) sample_path 8
           "master" false 1700000300 feat_repo "feat" id_commit_one
           (Buf.from (id_commit_one +:+ Str.lf))).
  - apply reads_run; [apply reads_getCurrentBranch|]. by vm_compute.
  - intros t Ht. vm_compute in Ht. injection Ht as <-.
    eapply nests_tree; [by vm_compute|].
    intros e He [H100 _]. vm_compute in He.
    apply list_elem_of_In in He. destruct He as [<-|[]].
    vm_compute in H100. discriminate.
  - by vm_compute.
  - by vm_compute.
  - by vm_compute.
  - discriminate.
  - by vm_compute.
  - vm_compute. discriminate.
Qed.

(** Scenario S5: master tracks only "a"; after [checkout -b feat], adding
    and committing "b", and [checkout master], the file "b" is gone and
    "a" is as it was. *)
Lemma S5_deletion_on_checkout :
  let after :=
    @Repository.checkout sample_zlib sample_path 8 "master" false 1700000300
      feat_repo in
  (Repository.getCurrentBranch sample_path feat_repo).1 = Ok "feat"%string
  /\ files feat_repo !! (sample_path ++ ["b"%string])
     = Some (FS.File (Buf.from "B"))
  /\ after.1 = Ok tt
  /\ (Repository.getCurrentBranch sample_path after.2).1 = Ok "master"%string
  /\ files after.2 !! (sample_path ++ ["b"%string]) = None
  /\ files after.2 !! (sample_path ++ ["a"%string])
     = files one_commit_repo !! (sample_path ++ ["a"%string])
  /\ files after.2 !! (sample_path ++ ["a"%string])
     = Some (FS.File (Buf.from "A")).
Proof. cbv zeta. do 6 (split; [by vm_compute|]). by vm_compute. Qed.

(** C8 (the code departs from it): the commit of master tracks the one
    file "a b", and a file "a" was never staged. [checkout] computes the
    files to clear as the one path "a": the name is read back cut at its
    space. After [checkout -b feat] the file "a b" was not cleared, and
    the file "a" holds the bytes of "a b". *)
Theorem C8_tracked_name_with_space_is_not_cleared :
  let tree := Tree.new [Tree.Entry "100644" "a b" (GitObject.hash blob_X)] in
  let treeHash := GitObject.hash (Tree.object tree) in
  let after :=
    @Repository.checkout sample_zlib sample_path 8 "feat" true 1700000100
      spaced_repo in
  @previous_tree sample_zlib sample_path 1700000100 (files spaced_repo)
  = Some treeHash
  /\ @object_at sample_zlib sample_path (files spaced_repo) treeHash
     = Ok (Tree.object tree)
  /\ (exists c,
        (@Repository.previousFiles sample_zlib sample_path 8 "master"
           1700000100 spaced_repo).1 = Ok (["a"%string], c))
  /\ files spaced_repo !! (sample_path ++ ["a"%string])
     = Some (FS.File (Buf.from "mine"))
  /\ after.1 = Ok tt
  /\ files after.2 !! (sample_path ++ ["a b"%string])
     = Some (FS.File (Buf.from "X"))
  /\ files after.2 !! (sample_path ++ ["a"%string])
     = Some (FS.File (Buf.from "X")).
Proof.
  cbv zeta. split; [by vm_compute|]. split; [by vm_compute|].
  split; [eexists; by vm_compute|]. do 3 (split; [by vm_compute|]).
  by vm_compute.
Qed.

(** ** Objects: framing and the object store *)

Lemma deserialize_serialize `{Zlib} `{!ZlibLaws H} (o : GitObject.t) :
  contains " " (GitObject.type o) = false ->
  contains Str.NUL (GitObject.type o) = false ->
  GitObject.deserialize (GitObject.serialize o) = Some o.
Proof.
  intros Hsp Hnul. unfold GitObject.deserialize, GitObject.serialize.
  rewrite inflate_deflate.
  set (size := Num.toString (Z.of_nat (length (GitObject.content o)))).
  set (text := (GitObject.type o +:+ String " " size)%string).
  assert (Hstore : GitObject.store o
                   = Buf.from text ++ x00 :: GitObject.content o).
  { unfold GitObject.store, GitObject.header, text. fold size.
    change (" " +:+ size +:+ Str.nul)%string
      with (String " " (size +:+ Str.nul)).
    rewrite !from_app, !from_cons, from_app. unfold Str.nul.
    rewrite from_cons. change (Buf.from "") with (@nil byte).
    rewrite <- !app_assoc. simpl. rewrite <- !app_assoc. done. }
  assert (Htext : contains Str.NUL text = false).
  { unfold text. rewrite contains_app. simpl. rewrite Hnul. simpl.
    by apply toString_no_char. }
  rewrite Hstore. unfold Buf.indexOf0. rewrite drop_0.
  rewrite (indexOf0_from_app _ _ _ Htext). cbn [Nat.add].
  unfold Buf.slice. rewrite drop_0, Nat.sub_0_r.
  rewrite <- (length_from text), take_app_length, toString_from.
  unfold text at 1. rewrite split_app by done. cbn [hd].
  replace (S (length (Buf.from text)))
    with (length (Buf.from text ++ [x00]))
    by (rewrite length_app; simpl; lia).
  replace (Buf.from text ++ x00 :: GitObject.content o)
    with ((Buf.from text ++ [x00]) ++ GitObject.content o)
    by (by rewrite <- app_assoc).
  rewrite drop_app_length.
  by destruct o.
Qed.

Section ObjectStore.
Context `{Zlib} (path : FS.path).

Lemma objectFile_exists (h : string) (w : world) (n : FS.node) :
  FS.lookup (files w) (Repository.objectFile path h) = Some n ->
  existsSync (Repository.objectFile path h) w = (Ok true, w).
Proof. apply existsSync_true. Qed.

(** An object file that is there is never written again, whatever it
    holds. *)
Lemma storeObject_present (o : GitObject.t) (w : world) (n : FS.node) :
  FS.lookup (files w) (Repository.objectFile path (GitObject.hash o)) = Some n ->
  Repository.storeObject path o w = (Ok (GitObject.hash o), w).
Proof.
  intros Hn. unfold Repository.storeObject. cbv zeta.
  rewrite (bind_ok _ _ w w true); [done|].
  by apply (existsSync_true _ _ n).
Qed.

Lemma loadObject_absent (h : string) (w : world) :
  FS.lookup (files w) (Repository.objectFile path h) = None ->
  Repository.loadObject path h w
  = (Throw (Error ("Object " +:+ h +:+ " not found")), w).
Proof.
  intros Hn. unfold Repository.loadObject. cbv zeta.
  by rewrite (bind_ok _ _ w w false) by (by apply existsSync_false).
Qed.

Lemma loadObject_stored `{!ZlibLaws H} (o : GitObject.t) (h : string)
    (w : world) :
  contains " " (GitObject.type o) = false ->
  contains Str.NUL (GitObject.type o) = false ->
  FS.lookup (files w) (Repository.objectFile path h)
  = Some (FS.File (GitObject.serialize o)) ->
  Repository.loadObject path h w = (Ok o, w).
Proof.
  intros Hsp Hnul Hf. unfold Repository.loadObject. cbv zeta.
  rewrite (bind_ok _ _ _ _ _ (existsSync_true _ _ _ Hf)).
  rewrite (bind_ok _ _ _ _ _ (readFileSync_file _ _ _ Hf)).
  by rewrite deserialize_serialize.
Qed.

(** What [storeObject] leaves at the place of the object, in a
    repository whose directories exist. *)
Lemma storeObject_stores (o : GitObject.t) (w : world) :
  dirs_exist (files w) (Repository.objectsDir path) ->
  files w !! Repository.objectFile path (GitObject.hash o) = None ->
  (forall d, files w !! (Repository.objectsDir path
                           ++ [Str.slice_to 2 (GitObject.hash o)])
             <> Some (FS.File d)) ->
  exists w',
    Repository.storeObject path o w = (Ok (GitObject.hash o), w')
    /\ console w' = console w
    /\ files w' !! Repository.objectFile path (GitObject.hash o)
       = Some (FS.File (GitObject.serialize o))
    /\ forall p, ~ below (Repository.objectsDir path) p ->
                 files w' !! p = files w !! p.
Proof.
  intros Hdirs Hnone Hdir.
  pose proof (storeObject_run path o w Hdirs) as Hrun. cbv zeta in Hrun.
  pose proof (hexdigest_hex40 (GitObject.store o)) as Hhex.
  fold (GitObject.hash o) in Hhex.
  rewrite (objectFile_eq path _ Hhex) in *.
  change (Repository.objectsDir path
          ++ [Str.slice_to 2 (GitObject.hash o);
              Str.slice_from 2 (GitObject.hash o)])
    with (Repository.objectsDir path
          ++ [Str.slice_to 2 (GitObject.hash o)]
          ++ [Str.slice_from 2 (GitObject.hash o)]) in *.
  rewrite app_assoc in *.
  match type of Hrun with
  | _ = match ?x with _ => _ end =>
      replace x with (@None FS.node) in Hrun by (symmetry; exact Hnone)
  end.
  set (dir := Repository.objectsDir path
              ++ [Str.slice_to 2 (GitObject.hash o)]) in *.
  set (file := dir ++ [Str.slice_from 2 (GitObject.hash o)]) in *.
  assert (Hbelow_file : below (Repository.objectsDir path) file).
  { exists [Str.slice_to 2 (GitObject.hash o);
            Str.slice_from 2 (GitObject.hash o)].
    split; [done|]. unfold file, dir. by rewrite <- app_assoc. }
  assert (Hbelow_dir : below (Repository.objectsDir path) dir).
  { by exists [Str.slice_to 2 (GitObject.hash o)]. }
  destruct (files w !! dir) as [[d|]|] eqn:Ed.
  - by destruct (Hdir d).
  - eexists. split; [exact Hrun|]. split; [done|]. cbn [files]. split.
    + apply lookup_insert_eq.
    + intros p Hp. apply lookup_insert_ne. by intros <-.
  - eexists. split; [exact Hrun|]. split; [done|]. cbn [files]. split.
    + apply lookup_insert_eq.
    + intros p Hp. rewrite !lookup_insert_ne; [done|by intros <-..].
Qed.

End ObjectStore.

(** X1: an object read back from its on-disk image is the object that was
    written, for a kind without space and zero byte (the three kinds of
    the program are such). *)
Theorem X1_deserialize_serialize_roundtrip `{Zlib} `{!ZlibLaws H}
    (o : GitObject.t) :
  contains " " (GitObject.type o) = false ->
  contains Str.NUL (GitObject.type o) = false ->
  GitObject.deserialize (GitObject.serialize o) = Some o.
Proof. apply deserialize_serialize. Qed.

Lemma X1_witness :
  @GitObject.deserialize sample_zlib
    (@GitObject.serialize sample_zlib (Blob.new hi_lf))
  = Some (Blob.new hi_lf).
Proof.
  apply (X1_deserialize_serialize_roundtrip (H := sample_zlib)
           (ZlibLaws0 := sample_zlib_laws)); reflexivity.
Defined.
Lemma writeFileSync_written (p : FS.path) (data : Buffer) (w w' : world) :
  writeFileSync p data w = (Ok tt, w') ->
  FS.lookup (files w') p = Some (FS.File data).
Proof.
  unfold writeFileSync. intros E.
  destruct p as [|c p]; [by simpl in E|].
  destruct (FS.lookup (files w) (c :: p)) as [[d|]|];
    destruct (FS.lookup (files w) (FS.dirname (c :: p))) as [[d'|]|];
    simplify_eq/=; apply lookup_insert_eq.
Qed.

(** X2: an object that [storeObject] writes is the object that
    [loadObject] returns for its id, and nothing outside the object store
    changes. The repository directories exist and the place of the
    object is free. *)
Theorem X2_loadObject_after_storeObject `{Zlib} `{!ZlibLaws H}
    (path : FS.path) (o : GitObject.t) (w : world) :
  contains " " (GitObject.type o) = false ->
  contains Str.NUL (GitObject.type o) = false ->
  dirs_exist (files w) (Repository.objectsDir path) ->
  files w !! Repository.objectFile path (GitObject.hash o) = None ->
  (forall d, files w !! (Repository.objectsDir path
                           ++ [Str.slice_to 2 (GitObject.hash o)])
             <> Some (FS.File d)) ->
  exists w',
    Repository.storeObject path o w = (Ok (GitObject.hash o), w')
    /\ Repository.loadObject path (GitObject.hash o) w' = (Ok o, w')
    /\ forall p, ~ below (Repository.objectsDir path) p ->
                 files w' !! p = files w !! p.
Proof.
  intros Hsp Hnul Hdirs Hnone Hdir.
  destruct (storeObject_stores path o w Hdirs Hnone Hdir)
    as (w' & Es & _ & Hf & Hframe).
  exists w'. split; [done|]. split; [|done].
  apply loadObject_stored; [done..|].
  pose proof (hexdigest_hex40 (GitObject.store o)) as Hhex.
  fold (GitObject.hash o) in Hhex.
  rewrite (objectFile_eq path _ Hhex) in *.
  change (Repository.objectsDir path
          ++ [Str.slice_to 2 (GitObject.hash o);
              Str.slice_from 2 (GitObject.hash o)])
    with (Repository.objectsDir path
          ++ [Str.slice_to 2 (GitObject.hash o)]
          ++ [Str.slice_from 2 (GitObject.hash o)]) in *.
  rewrite app_assoc in *. rewrite lookup_snoc. exact Hf.
Qed.

Lemma X2_witness :
  exists w',
    @Repository.storeObject sample_zlib sample_path (Blob.new hi_lf) fresh_repo
    = (Ok (GitObject.hash (Blob.new hi_lf)), w')
    /\ @Repository.loadObject sample_zlib sample_path
         (GitObject.hash (Blob.new hi_lf)) w'
       = (Ok (Blob.new hi_lf), w')
    /\ forall p, ~ below (Repository.objectsDir sample_path) p ->
                 files w' !! p = files fresh_repo !! p.
Proof.
  apply (X2_loadObject_after_storeObject (H := sample_zlib)
           (ZlibLaws0 := sample_zlib_laws) sample_path (Blob.new hi_lf)
           fresh_repo).
  - reflexivity.
  - reflexivity.
  - intros q Hq [k Hk].
    destruct q as [|a [|b [|c [|d q]]]]; vm_compute in Hk; simplify_eq/=;
      by vm_compute.
  - by vm_compute.
  - intros d. vm_compute. discriminate.
Defined.

(** X3: storing an object a second time changes nothing: the second call
    finds the file of the object, writes nothing and returns the same id
    (and if the first call fails, so does the pair). *)
Theorem X3_storeObject_twice `{Zlib} (path : FS.path) (o : GitObject.t)
    (w : world) :
  (Repository.storeObject path o >> Repository.storeObject path o)%cmd w
  = Repository.storeObject path o w.
Proof.
  unfold bind at 1.
  destruct (Repository.storeObject path o w) as [[h| |] w'] eqn:E; [|done..].
  assert (Hh : h = GitObject.hash o /\
               exists n, FS.lookup (files w')
                           (Repository.objectFile path (GitObject.hash o))
                         = Some n).
  { unfold Repository.storeObject in E. cbv zeta in E.
    fold (Repository.objectFile path (GitObject.hash o)) in E.
    unfold bind at 1 2 in E. unfold existsSync at 1 in E.
    case_bool_decide as Hex.
    - simpl in E. injection E as <- <-. split; [done|].
      destruct Hex as [n Hn]. by exists n.
    - unfold bind at 1 in E.
      destruct (ensureDirSync _ w) as [[[]| |] w1]; [|done..].
      destruct (writeFileSync _ _ w1) as [[[]| |] w2] eqn:Ew; [|done..].
      simpl in E. injection E as <- <-. split; [done|].
      eexists. by apply (writeFileSync_written _ _ _ _ Ew). }
  destruct Hh as [-> [n Hn]]. by apply (storeObject_present path o w' n).
Qed.

(** ** Trees: the payload does not depend on the order of insertion *)

Lemma bytes_lt_irrefl (a : Buffer) : ~ bytes_lt a a.
Proof.
  induction a as [|x a IH]; intros Hlt; inversion Hlt; subst; [lia|done].
Qed.

Lemma bytes_le_antisym (a b : Buffer) : bytes_le a b -> bytes_le b a -> a = b.
Proof.
  intros [E|Hab] [E'|Hba]; [done..|].
  destruct (bytes_lt_irrefl a). by eapply bytes_lt_trans.
Qed.

Lemma from_inj (s t : string) : Buf.from s = Buf.from t -> s = t.
Proof. intros E. by rewrite <- (toString_from s), <- (toString_from t), E. Qed.

(** Two sorted lists with the same entries, no name twice, are equal. *)
Lemma sorted_unique (l1 : list Tree.entry) :
  forall l2,
    StronglySorted name_le l1 -> StronglySorted name_le l2 ->
    l1 ≡ₚ l2 -> NoDup (map Tree.name l1) -> l1 = l2.
Proof.
  induction l1 as [|a l1 IH]; intros l2 H1 H2 Hp Hnd.
  - by apply Permutation_nil_l in Hp.
  - destruct l2 as [|b l2]; [by apply Permutation_nil_r in Hp|].
    apply StronglySorted_inv in H1 as [H1 Ha].
    apply StronglySorted_inv in H2 as [H2 Hb].
    rewrite map_cons in Hnd. apply NoDup_cons in Hnd as [Hna Hnd].
    assert (Hx : a ∈ b :: l2) by (rewrite <- Hp; by left).
    assert (Hy : b ∈ a :: l1) by (rewrite Hp; by left).
    assert (a = b) as <-.
    { apply elem_of_cons in Hx as [?|Hin_a]; [done|].
      apply elem_of_cons in Hy as [?|Hin_b]; [done|]. exfalso.
      rewrite Forall_forall in Ha, Hb.
      pose proof (bytes_le_antisym _ _ (Ha b Hin_b) (Hb a Hin_a)) as E.
      apply from_inj in E. apply Hna. rewrite E.
      apply list_elem_of_In, in_map. by apply list_elem_of_In. }
    f_equal. apply IH; [done..| |done]. by apply Permutation_cons_inv in Hp.
Qed.

(** X4: the payload and the id of a tree do not depend on the order in
    which its entries were given, when no name occurs twice. *)
Theorem X4_tree_ignores_insertion_order (es es' : list Tree.entry) :
  es ≡ₚ es' -> NoDup (map Tree.name es) ->
  Tree.content (Tree.new es) = Tree.content (Tree.new es')
  /\ GitObject.hash (Tree.object (Tree.new es))
     = GitObject.hash (Tree.object (Tree.new es')).
Proof.
  intros Hp Hnd.
  assert (E : Tree.sort es = Tree.sort es').
  { apply sorted_unique; [apply sort_sorted..| |].
    - by rewrite <- !sort_perm.
    - by rewrite <- sort_perm. }
  assert (Ec : Tree.content (Tree.new es) = Tree.content (Tree.new es')).
  { cbn [Tree.new Tree.content]. unfold Tree._serializeEntries. by rewrite E. }
  split; [done|]. unfold Tree.object. by rewrite Ec.
Qed.

Lemma X4_witness :
  Tree.content
    (Tree.new [Tree.Entry "100644" "b" id2; Tree.Entry "100644" "a" id1])
  = Tree.content
      (Tree.new [Tree.Entry "100644" "a" id1; Tree.Entry "100644" "b" id2])
  /\ GitObject.hash
       (Tree.object
          (Tree.new [Tree.Entry "100644" "b" id2; Tree.Entry "100644" "a" id1]))
     = GitObject.hash
         (Tree.object
            (Tree.new [Tree.Entry "100644" "a" id1;
                       Tree.Entry "100644" "b" id2])).
Proof.
  apply X4_tree_ignores_insertion_order.
  - apply perm_swap.
  - apply NoDup_cons. split; [|apply NoDup_singleton].
    intros Hin. apply list_elem_of_singleton in Hin. discriminate.
Defined.

(** X5: a tree whose modes and names hold no space and no zero byte, with
    40-hex ids, is read back from its payload as it was written: the
    same entries, in the sorted order of the payload. *)
Theorem X5_tree_roundtrip (es : list Tree.entry) :
  Forall well_formed es ->
  Tree.fromContent (Tree.content (Tree.new es))
  = map parsed_of (Tree.sort es)
  /\ map parsed_of (Tree.sort es) ≡ₚ map parsed_of es.
Proof.
  intros Hes. split; [by apply fromContent_new|].
  by rewrite <- sort_perm.
Qed.

Lemma X5_witness :
  Tree.fromContent
    (Tree.content
       (Tree.new [Tree.Entry "40000" "src" id2; Tree.Entry "100644" "a" id1]))
  = map parsed_of
      (Tree.sort [Tree.Entry "40000" "src" id2; Tree.Entry "100644" "a" id1])
  /\ map parsed_of
       (Tree.sort [Tree.Entry "40000" "src" id2; Tree.Entry "100644" "a" id1])
     ≡ₚ map parsed_of
          [Tree.Entry "40000" "src" id2; Tree.Entry "100644" "a" id1].
Proof.
  apply X5_tree_roundtrip.
  assert (Hwf : forall m n h, contains Str.SP m = false ->
            contains Str.NUL m = false -> contains Str.SP n = false ->
            contains Str.NUL n = false -> is_hex40 h ->
            well_formed (Tree.Entry m n h)) by (by intros).
  repeat (apply Forall_cons; split;
            [apply Hwf; vm_compute; (reflexivity || by split)|]).
  by apply Forall_nil.
Defined.

(** ** White space at the ends of a line *)

Lemma rev_app_append (s t : string) :
  forall acc, String.rev_app (s +:+ t) acc
              = String.rev_app t (String.rev_app s acc).
Proof. induction s as [|c s IH]; intros acc; simpl; [done|]. apply IH. Qed.

Lemma rev_line (s : string) :
  String.rev (s +:+ Str.lf) = String Str.LF (String.rev s).
Proof. unfold String.rev. by rewrite rev_app_append. Qed.

Lemma prefix_app_char (x : ascii) (u w : string) :
  contains x w = false ->
  forall s, Str.startsWith w (s +:+ String x u) = Str.startsWith w s.
Proof.
  unfold Str.startsWith.
  induction w as [|a w IH]; intros Hw s; [destruct s; reflexivity|].
  simpl in Hw. apply orb_false_elim in Hw as [Ha Hw].
  destruct s as [|c s]; simpl.
  - destruct (ascii_dec a x) as [->|Hne]; [|done].
    by rewrite Ascii.eqb_refl in Ha.
  - destruct (ascii_dec a c); [by apply IH|done].
Qed.

Lemma prefix_app_lf (w : string) :
  contains Str.LF w = false ->
  forall s, Str.startsWith w (s +:+ Str.lf) = Str.startsWith w s.
Proof. apply prefix_app_char. Qed.

Lemma filter_agree {A} (P Q : A -> Prop) `{!forall x, Decision (P x)}
    `{!forall x, Decision (Q x)} (l : list A) :
  Forall (fun x => P x <-> Q x) l -> filter P l = filter Q l.
Proof.
  induction 1 as [|x l Hx Hl IH]; [done|].
  rewrite !filter_cons, IH. destruct (decide (P x)), (decide (Q x)); tauto.
Qed.

Lemma skip_ws1_line (s : string) :
  s <> ""%string -> Str.skip_ws1 s = None ->
  Str.skip_ws1 (s +:+ Str.lf) = None.
Proof.
  intros Hne. unfold Str.skip_ws1.
  assert (E : filter (fun w => Str.startsWith w (s +:+ Str.lf) = true)
                Str.whitespace
              = filter (fun w => Str.startsWith w s = true) Str.whitespace).
  { apply filter_agree.
    assert (Hall : Forall (fun w => contains Str.LF (Str.slice_from 1 w) = false)
                     Str.whitespace).
    { by repeat constructor. }
    eapply Forall_impl; [exact Hall|]. intros w Hw. simpl.
    destruct s as [|c s]; [done|]. unfold Str.startsWith.
    destruct w as [|a w]; [done|]. simpl in Hw. simpl.
    destruct (ascii_dec a c); [|done].
    pose proof (prefix_app_lf w Hw s) as E. unfold Str.startsWith in E.
    by rewrite E. }
  rewrite E. clear E.
  destruct (filter _ Str.whitespace); [done|discriminate].
Qed.

Lemma drop_ws1_end_line (s : string) :
  Str.drop_ws1_end (s +:+ Str.lf) = Some s.
Proof.
  unfold Str.drop_ws1_end. rewrite rev_line.
  assert (E : exists rest,
            filter (fun w => Str.startsWith (String.rev w)
                               (String Str.LF (String.rev s)) = true)
              Str.whitespace = Str.lf :: rest).
  { assert (Hws : Str.whitespace
                   = Buf.toString [x09] :: Str.lf :: drop 2 Str.whitespace)
      by reflexivity.
    rewrite Hws, filter_cons.
    destruct (decide _) as [E|_]; [by cbv in E|].
    rewrite filter_cons.
    destruct (decide _) as [_|E]; [by eexists|]. destruct E.
    unfold Str.startsWith. change (String.rev Str.lf) with Str.lf. simpl.
    by destruct (String.rev s). }
  destruct E as [rest ->]. f_equal.
  rewrite length_app_s. simpl. rewrite Nat.add_sub.
  induction s as [|c s IH]; [done|]. simpl. by rewrite IH.
Qed.

Lemma trimStart_solid (s : string) :
  Str.skip_ws1 s = None -> Str.trimStart s = s.
Proof.
  intros E. unfold Str.trimStart. destruct (String.length s); [done|].
  simpl. by rewrite E.
Qed.

Lemma trimEnd_solid (s : string) (fuel : nat) :
  Str.drop_ws1_end s = None -> Str.trimEnd_fuel fuel s = s.
Proof. intros E. destruct fuel; [done|]. simpl. by rewrite E. Qed.

(** [trim] takes the newline off a line that has no other white space at
    its ends. *)
Lemma trim_line (s : string) : solid s -> Str.trim (s +:+ Str.lf) = s.
Proof.
  intros (Hstart & Hend & Hne). unfold Str.trim. cbv zeta.
  rewrite (trimStart_solid _ (skip_ws1_line _ Hne Hstart)).
  rewrite length_app_s, Nat.add_comm. simpl.
  rewrite drop_ws1_end_line. by apply trimEnd_solid.
Qed.

Lemma trim_solid (s : string) : solid s -> Str.trim s = s.
Proof.
  intros (Hstart & Hend & Hne). unfold Str.trim. cbv zeta.
  rewrite (trimStart_solid _ Hstart). by apply trimEnd_solid.
Qed.

Lemma rev_app_acc (s : string) :
  forall acc, String.rev_app s acc = (String.rev s +:+ acc)%string.
Proof.
  unfold String.rev. induction s as [|x s IH]; intros acc; [done|]. simpl.
  rewrite (IH (String x acc)), (IH (String x "")).
  by rewrite app_assoc_s.
Qed.

Lemma rev_append (s t : string) :
  String.rev (s +:+ t) = (String.rev t +:+ String.rev s)%string.
Proof.
  unfold String.rev at 1. rewrite rev_app_append.
  by rewrite rev_app_acc.
Qed.

(** White space at the end of a text is not seen through a character
    [x] that occurs in no white-space character. *)
Lemma drop_ws1_end_after (pre : string) (x : ascii) (b : string) :
  Forall (fun w => contains x (String.rev w) = false) Str.whitespace ->
  Str.drop_ws1_end b = None ->
  Str.drop_ws1_end ((pre +:+ String x "") +:+ b) = None.
Proof.
  intros Hx. unfold Str.drop_ws1_end.
  rewrite !rev_append. simpl (String.rev (String x "")).
  change (String.rev (String x "")) with (String x "").
  assert (E : filter (fun w => Str.startsWith (String.rev w)
                                 (String.rev b
                                    +:+ String x "" +:+ String.rev pre)
                               = true) Str.whitespace
              = filter (fun w => Str.startsWith (String.rev w) (String.rev b)
                                 = true) Str.whitespace).
  { apply filter_agree. eapply Forall_impl; [exact Hx|].
    intros w Hw. simpl. by rewrite (prefix_app_char x _ _ Hw). }
  rewrite E. clear E.
  destruct (filter _ Str.whitespace); [done|discriminate].
Qed.

Lemma head_of_rev (P : ascii -> bool) (s : string) :
  forall acc,
    all_chars P s = true ->
    (exists c r, acc = String c r /\ P c = true)
    \/ (acc = ""%string /\ s <> ""%string) ->
    exists c r, String.rev_app s acc = String c r /\ P c = true.
Proof.
  induction s as [|x s IH]; intros acc Hs Hacc; simpl.
  - destruct Hacc as [?|[_ ?]]; done.
  - simpl in Hs. apply andb_prop in Hs as [Hx Hs].
    apply IH; [done|]. left. by eexists _, _.
Qed.

(** A text of hexadecimal digits has no white space at its ends. *)
Lemma lower_hex_solid (s : string) :
  all_chars is_lower_hex s = true -> s <> ""%string -> solid s.
Proof.
  intros Hs Hne. split; [|split; [|done]].
  - destruct s as [|c r]; [done|]. simpl in Hs.
    apply andb_prop in Hs as [Hc _].
    destruct c as [[] [] [] [] [] [] [] []]; try discriminate Hc;
      reflexivity.
  - unfold Str.drop_ws1_end, String.rev.
    destruct (head_of_rev is_lower_hex s "" Hs) as (c & r & -> & Hc);
      [by right|].
    destruct c as [[] [] [] [] [] [] [] []]; try discriminate Hc;
      reflexivity.
Qed.

Lemma hex40_solid (h : string) : is_hex40 h -> solid h.
Proof.
  intros [Hlen Hs]. apply lower_hex_solid; [done|]. by intros ->.
Qed.

(** ** Refs and HEAD *)

Lemma refDir_eq (path : FS.path) :
  Repository.refDir path = Repository.gitDir path ++ ["refs"%string].
Proof. reflexivity. Qed.

Lemma ensureDirSync_present (p : FS.path) (w : world) (n : FS.node) :
  FS.lookup (files w) p = Some n -> ensureDirSync p w = (Ok tt, w).
Proof.
  intros E. unfold ensureDirSync.
  by rewrite (bind_ok _ _ _ _ _ (existsSync_true _ _ _ E)).
Qed.

Section Refs.
Context `{Zlib} (path : FS.path).

Lemma setBranchCommit_run (b h : string) (w : world) :
  plain b ->
  FS.lookup (files w) (Repository.headsDir path) = Some FS.Dir ->
  files w !! (Repository.headsDir path ++ [b]) <> Some FS.Dir ->
  Repository.setBranchCommit path b h w
  = (Ok tt,
     World (<[Repository.headsDir path ++ [b] :=
                FS.File (Buf.from (h +:+ Str.lf))]> (files w))
       (console w)).
Proof.
  intros Hb Hheads Href. unfold Repository.setBranchCommit. cbv zeta.
  rewrite (join_plain _ _ Hb), dirname_snoc.
  rewrite (bind_ok _ _ _ _ _ (ensureDirSync_present _ _ _ Hheads)).
  by apply writeFileSync_ok.
Qed.

Lemma getBranchCommit_line (b h : string) (w : world) :
  plain b -> solid h ->
  files w !! (Repository.headsDir path ++ [b])
  = Some (FS.File (Buf.from (h +:+ Str.lf))) ->
  Repository.getBranchCommit path b w = (Ok (Some h), w).
Proof.
  intros Hb Hh Href. unfold Repository.getBranchCommit. cbv zeta.
  rewrite (join_plain _ _ Hb).
  assert (Hlk : FS.lookup (files w) (Repository.headsDir path ++ [b])
                = Some (FS.File (Buf.from (h +:+ Str.lf))))
    by (by rewrite lookup_snoc).
  rewrite (bind_ok _ _ _ _ _ (existsSync_true _ _ _ Hlk)).
  rewrite (bind_ok _ _ _ _ _ (readFileSync_file _ _ _ Hlk)).
  by rewrite toString_from, trim_line.
Qed.

Lemma getBranchCommit_absent (b : string) (w : world) :
  plain b ->
  files w !! (Repository.headsDir path ++ [b]) = None ->
  Repository.getBranchCommit path b w = (Ok None, w).
Proof.
  intros Hb Href. unfold Repository.getBranchCommit. cbv zeta.
  rewrite (join_plain _ _ Hb).
  by rewrite (bind_ok _ _ w w false)
    by (apply existsSync_false; by rewrite lookup_snoc).
Qed.

Lemma ref_line_solid (b : string) :
  solid b -> solid ("ref: refs/heads/" +:+ b).
Proof.
  intros (Hs & He & Hne). split; [reflexivity|]. split; [|done].
  by apply (drop_ws1_end_after "ref: refs/heads" "/" b);
    [repeat constructor|].
Qed.

Lemma getCurrentBranch_ref (b : string) (w : world) :
  solid b ->
  files w !! Repository.headFile path
  = Some (FS.File (Buf.from ("ref: refs/heads/" +:+ b +:+ Str.lf))) ->
  Repository.getCurrentBranch path w = (Ok b, w).
Proof.
  intros Hb Hhead. unfold Repository.getCurrentBranch.
  assert (Hlk : FS.lookup (files w) (Repository.headFile path)
                = Some (FS.File (Buf.from ("ref: refs/heads/" +:+ b
                                             +:+ Str.lf))))
    by (by rewrite headFile_eq, lookup_snoc, <- headFile_eq).
  rewrite (bind_ok _ _ _ _ _ (existsSync_true _ _ _ Hlk)).
  rewrite (bind_ok _ _ _ _ _ (readFileSync_file _ _ _ Hlk)).
  cbv zeta. rewrite toString_from, <- app_assoc_s.
  rewrite (trim_line _ (ref_line_solid b Hb)).
  rewrite startsWith_app. done.
Qed.

End Refs.

(** X6: the commit id that [setBranchCommit] writes for a branch is the
    one that [getBranchCommit] reads back, and no other file changes.
    The branch name is one path component, the id has no white space at
    its ends (a 40-hex id is such), and refs/heads exists. *)
Theorem X6_getBranchCommit_after_setBranchCommit (path : FS.path)
    (branch commitHash : string) (w : world) :
  plain branch -> solid commitHash ->
  FS.lookup (files w) (Repository.headsDir path) = Some FS.Dir ->
  files w !! (Repository.headsDir path ++ [branch]) <> Some FS.Dir ->
  exists w',
    Repository.setBranchCommit path branch commitHash w = (Ok tt, w')
    /\ Repository.getBranchCommit path branch w' = (Ok (Some commitHash), w')
    /\ forall p, p <> Repository.headsDir path ++ [branch] ->
                 files w' !! p = files w !! p.
Proof.
  intros Hb Hh Hheads Href. eexists. split; [by apply setBranchCommit_run|].
  split.
  - apply getBranchCommit_line; [done..|]. cbn [files].
    apply lookup_insert_eq.
  - intros p Hp. cbn [files]. by apply lookup_insert_ne.
Qed.

Lemma X6_witness :
  exists w',
    @Repository.setBranchCommit sample_path "topic" id1 fresh_repo
    = (Ok tt, w')
    /\ @Repository.getBranchCommit sample_path "topic" w' = (Ok (Some id1), w')
    /\ forall p, p <> Repository.headsDir sample_path ++ ["topic"%string] ->
                 files w' !! p = files fresh_repo !! p.
Proof.
  apply (X6_getBranchCommit_after_setBranchCommit sample_path "topic" id1 fresh_repo).
  - by vm_compute.
  - apply hex40_solid. by vm_compute.
  - by vm_compute.
  - vm_compute. discriminate.
Defined.

(** ** [init] *)

Lemma ensureDirSync_new (d p : FS.path) (c : string) (w : world) :
  d = p ++ [c] -> dirs_exist (files w) p -> files w !! d = None ->
  ensureDirSync d w
  = (Ok tt, World (<[d := FS.Dir]> (files w)) (console w)).
Proof.
  intros -> Hd Hc. unfold ensureDirSync.
  rewrite (bind_ok _ _ w w false)
    by (apply existsSync_false; by rewrite lookup_snoc).
  unfold mkdirSync. by rewrite (mkdirs_last _ p [] c).
Qed.

Lemma writeFileSync_at (f p : FS.path) (c : string) (data : Buffer)
    (w : world) :
  f = p ++ [c] -> files w !! f <> Some FS.Dir ->
  FS.lookup (files w) p = Some FS.Dir ->
  writeFileSync f data w
  = (Ok tt, World (<[f := FS.File data]> (files w)) (console w)).
Proof. intros ->. apply writeFileSync_ok. Qed.

Lemma dirs_exist_snoc (fs : gmap FS.path FS.node) (p : FS.path) (c : string) :
  dirs_exist fs p -> dirs_exist (<[p ++ [c] := FS.Dir]> fs) (p ++ [c]).
Proof.
  intros Hd q Hq Hpre.
  destruct (decide (q = p ++ [c])) as [->|Hne]; [apply lookup_insert_eq|].
  rewrite lookup_insert_ne by done. apply Hd; [done|].
  destruct Hpre as [k Hk]. destruct (decide (k = [])) as [->|Hk'].
  - rewrite app_nil_r in Hk. by subst.
  - apply exists_last in Hk' as (k' & x & ->).
    rewrite app_assoc in Hk. apply app_inj_tail in Hk as [-> _].
    by exists k'.
Qed.

Lemma dirs_exist_other (fs : gmap FS.path FS.node) (p q : FS.path)
    (n : FS.node) :
  dirs_exist fs p -> ~ q `prefix_of` p -> dirs_exist (<[q := n]> fs) p.
Proof.
  intros Hd Hq r Hr Hpre. rewrite lookup_insert_ne; [by apply Hd|].
  by intros <-.
Qed.

Lemma gitDir_ne (path : FS.path) (s : list string) :
  s <> [] -> Repository.gitDir path <> Repository.gitDir path ++ s.
Proof.
  intros Hs E. rewrite <- (app_nil_r (Repository.gitDir path)) in E at 1.
  apply app_inv_head in E. by subst.
Qed.

(** Two different places below .git. *)
Ltac path_ne :=
  let E := fresh in
  intros E;
  first [ by apply gitDir_ne in E
        | symmetry in E; by apply gitDir_ne in E
        | apply app_inv_head in E; discriminate ].

Section Init.
Context (path : FS.path).

(** The file system that [init] leaves. *)
Lemma init_run (w : world) :
  dirs_exist (files w) path ->
  (forall p, Repository.gitDir path `prefix_of` p -> files w !! p = None) ->
  Repository.init path w
  = (Ok true,
     World
       (<[Repository.indexFile path := FS.File (Buf.from "{}")]>
          (<[Repository.headFile path :=
               FS.File (Buf.from ("ref: refs/heads/master" +:+ Str.lf))]>
             (<[Repository.headsDir path := FS.Dir]>
                (<[Repository.refDir path := FS.Dir]>
                   (<[Repository.objectsDir path := FS.Dir]>
                      (<[Repository.gitDir path := FS.Dir]> (files w)))))))
       (console w ++ ["Initialized empty Git repository in /"
                        +:+ Str.join "/" (Repository.gitDir path)])).
Proof.
  intros Hd Habsent. unfold Repository.init.
  assert (Hgit : FS.lookup (files w) (Repository.gitDir path) = None).
  { rewrite lookup_gitDir. by apply Habsent. }
  rewrite (bind_ok _ _ _ _ _ (existsSync_false _ _ Hgit)).
  rewrite lookup_gitDir in Hgit.
  assert (Hsub : forall s, files w !! (Repository.gitDir path ++ s) = None).
  { intros s. apply Habsent. by exists s. }
  set (g := Repository.gitDir path) in *.
  (* .git *)
  rewrite (bind_ok _ _ _ _ _
             (ensureDirSync_new g path ".git" w (gitDir_eq path) Hd Hgit)).
  set (w1 := World (<[g := FS.Dir]> (files w)) (console w)).
  assert (Hd1 : dirs_exist (files w1) g).
  { unfold g. rewrite gitDir_eq. by apply dirs_exist_snoc. }
  (* .git/objects *)
  set (w2 := World (<[Repository.objectsDir path := FS.Dir]> (files w1))
               (console w1)).
  assert (E2 : ensureDirSync (Repository.objectsDir path) w1 = (Ok tt, w2)).
  { apply (ensureDirSync_new _ g "objects"); [apply objectsDir_eq|done|].
    cbn [files w1]. rewrite objectsDir_eq.
    rewrite lookup_insert_ne by path_ne. apply Hsub. }
  rewrite (bind_ok _ _ _ _ _ E2).
  assert (Hd2 : dirs_exist (files w2) g).
  { apply dirs_exist_other; [done|]. rewrite objectsDir_eq.
    intros [k Hk]. rewrite <- app_assoc in Hk. by apply gitDir_ne in Hk. }
  (* .git/refs *)
  set (w3 := World (<[Repository.refDir path := FS.Dir]> (files w2))
               (console w2)).
  assert (E3 : ensureDirSync (Repository.refDir path) w2 = (Ok tt, w3)).
  { apply (ensureDirSync_new _ g "refs"); [apply refDir_eq|done|].
    cbn [files w2 w1]. rewrite refDir_eq, objectsDir_eq.
    rewrite lookup_insert_ne
      by path_ne.
    rewrite lookup_insert_ne by path_ne. apply Hsub. }
  rewrite (bind_ok _ _ _ _ _ E3).
  assert (Hd3 : dirs_exist (files w3) (Repository.refDir path)).
  { rewrite refDir_eq. by apply dirs_exist_snoc. }
  (* .git/refs/heads *)
  set (w4 := World (<[Repository.headsDir path := FS.Dir]> (files w3))
               (console w3)).
  assert (E4 : ensureDirSync (Repository.headsDir path) w3 = (Ok tt, w4)).
  { apply (ensureDirSync_new _ (Repository.refDir path) "heads");
      [done|done|].
    cbn [files w3 w2 w1]. rewrite headsDir_eq, refDir_eq, objectsDir_eq.
    rewrite lookup_insert_ne
      by path_ne.
    rewrite lookup_insert_ne
      by path_ne.
    rewrite lookup_insert_ne by path_ne. apply Hsub. }
  rewrite (bind_ok _ _ _ _ _ E4).
  assert (Hgit4 : FS.lookup (files w4) g = Some FS.Dir).
  { unfold g. rewrite lookup_gitDir. cbn [files w4 w3 w2 w1].
    rewrite headsDir_eq, refDir_eq, objectsDir_eq.
    rewrite !lookup_insert_ne by path_ne.
    apply lookup_insert_eq. }
  (* HEAD *)
  set (head := Buf.from ("ref: refs/heads/master" +:+ Str.lf)).
  set (w5 := World (<[Repository.headFile path := FS.File head]> (files w4))
               (console w4)).
  assert (E5 : writeFileSync (Repository.headFile path) head w4 = (Ok tt, w5)).
  { apply (writeFileSync_at _ g "HEAD"); [apply headFile_eq| |done].
    cbn [files w4 w3 w2 w1].
    rewrite headFile_eq, headsDir_eq, refDir_eq, objectsDir_eq.
    fold g.
    rewrite !lookup_insert_ne
      by path_ne.
    by rewrite Hsub. }
  rewrite (bind_ok _ _ _ _ _ E5).
  (* index *)
  unfold Repository.saveIndex.
  set (w6 := World (<[Repository.indexFile path := FS.File (Buf.from "{}")]>
                      (files w5)) (console w5)).
  assert (E6 : writeFileSync (Repository.indexFile path)
                 (Buf.from (JSON.stringify [])) w5 = (Ok tt, w6)).
  { apply (writeFileSync_at _ g "index"); [apply indexFile_eq| |].
    - cbn [files w5 w4 w3 w2 w1].
      rewrite indexFile_eq, headFile_eq, headsDir_eq, refDir_eq,
        objectsDir_eq.
      fold g.
      rewrite !lookup_insert_ne
        by path_ne.
      by rewrite Hsub.
    - cbn [files w5].
      rewrite <- Hgit4. unfold g. rewrite !lookup_gitDir.
      apply lookup_insert_ne. rewrite headFile_eq. intros E.
      symmetry in E. by apply gitDir_ne in E. }
  rewrite (bind_ok _ _ _ _ _ E6).
  unfold bind, log, ret. done.
Qed.

End Init.

(** X7: [init] in a directory that has no .git returns true and prints
    one line; it creates the directories .git, .git/objects, .git/refs
    and .git/refs/heads, the file HEAD that holds
    "ref: refs/heads/master" and a newline, and the file index that holds
    "{}", and touches nothing outside .git. The repository is then on
    branch master, which has no commit, with nothing staged, and a second
    [init] returns false and changes nothing. *)
Theorem X7_init_fresh (path : FS.path) (w : world) :
  dirs_exist (files w) path ->
  (forall p, Repository.gitDir path `prefix_of` p -> files w !! p = None) ->
  exists w',
    Repository.init path w = (Ok true, w')
    /\ (forall p, ~ Repository.gitDir path `prefix_of` p ->
                  files w' !! p = files w !! p)
    /\ files w' !! Repository.gitDir path = Some FS.Dir
    /\ files w' !! Repository.objectsDir path = Some FS.Dir
    /\ files w' !! Repository.refDir path = Some FS.Dir
    /\ files w' !! Repository.headsDir path = Some FS.Dir
    /\ files w' !! Repository.headFile path
       = Some (FS.File (Buf.from ("ref: refs/heads/master" +:+ Str.lf)))
    /\ files w' !! Repository.indexFile path
       = Some (FS.File (Buf.from "{}"))
    /\ console w'
       = console w ++ ["Initialized empty Git repository in /"
                         +:+ Str.join "/" (Repository.gitDir path)]
    /\ Repository.getCurrentBranch path w' = (Ok "master"%string, w')
    /\ Repository.getBranchCommit path "master" w' = (Ok None, w')
    /\ Repository.loadIndex path w' = (Ok [], w')
    /\ Repository.init path w' = (Ok false, w').
Proof.
  intros Hd Habsent. eexists. split; [by apply init_run|].
  set (w' := World _ _).
  assert (Hsub : forall s, files w !! (Repository.gitDir path ++ s) = None).
  { intros s. apply Habsent. by exists s. }
  assert (Hidx : files w' !! Repository.indexFile path
                 = Some (FS.File (Buf.from "{}"))).
  { apply lookup_insert_eq. }
  assert (Hhead : files w' !! Repository.headFile path
                  = Some (FS.File (Buf.from ("ref: refs/heads/master"
                                               +:+ Str.lf)))).
  { cbn [files w']. rewrite indexFile_eq, headFile_eq.
    rewrite lookup_insert_ne by path_ne. apply lookup_insert_eq. }
  assert (Hgit : files w' !! Repository.gitDir path = Some FS.Dir).
  { cbn [files w'].
    rewrite indexFile_eq, headFile_eq, headsDir_eq, refDir_eq, objectsDir_eq.
    rewrite !lookup_insert_ne by path_ne. apply lookup_insert_eq. }
  split; [|split; [exact Hgit|split; [|split; [|split; [|split;
    [exact Hhead|split; [exact Hidx|split; [reflexivity|split;
      [|split; [|split]]]]]]]]]].
  - intros p Hp. cbn [files w'].
    rewrite indexFile_eq, headFile_eq, headsDir_eq, refDir_eq, objectsDir_eq.
    rewrite !lookup_insert_ne; [done|intros <-; apply Hp..].
    + by exists [].
    + by eexists.
    + by eexists.
    + by eexists.
    + by eexists.
    + by eexists.
  - cbn [files w'].
    rewrite indexFile_eq, headFile_eq, headsDir_eq, refDir_eq, objectsDir_eq.
    rewrite !lookup_insert_ne by path_ne. apply lookup_insert_eq.
  - cbn [files w'].
    rewrite indexFile_eq, headFile_eq, headsDir_eq, refDir_eq.
    rewrite !lookup_insert_ne by path_ne. apply lookup_insert_eq.
  - cbn [files w'].
    rewrite indexFile_eq, headFile_eq, headsDir_eq.
    rewrite !lookup_insert_ne by path_ne. apply lookup_insert_eq.
  - apply (getCurrentBranch_ref path "master" w'); [by vm_compute|done].
  - apply getBranchCommit_absent; [by vm_compute|]. cbn [files w'].
    rewrite indexFile_eq, headFile_eq, headsDir_eq, refDir_eq, objectsDir_eq.
    rewrite <- !app_assoc.
    rewrite !lookup_insert_ne by path_ne. apply Hsub.
  - unfold Repository.loadIndex.
    assert (Hlk : FS.lookup (files w') (Repository.indexFile path)
                  = Some (FS.File (Buf.from "{}")))
      by (by rewrite indexFile_eq, lookup_snoc, <- indexFile_eq).
    rewrite (bind_ok _ _ _ _ _ (existsSync_true _ _ _ Hlk)).
    apply try_ok.
    by rewrite (bind_ok _ _ _ _ _ (readFileSync_file _ _ _ Hlk)).
  - unfold Repository.init.
    by rewrite (bind_ok _ _ w' w' true)
      by (apply (existsSync_true _ _ FS.Dir); by rewrite lookup_gitDir).
Qed.

Lemma X7_witness :
  exists w',
    Repository.init sample_path (mkdirSync sample_path empty_disk).2
    = (Ok true, w')
    /\ (forall p, ~ Repository.gitDir sample_path `prefix_of` p ->
                  files w' !! p
                  = files (mkdirSync sample_path empty_disk).2 !! p)
    /\ files w' !! Repository.gitDir sample_path = Some FS.Dir
    /\ files w' !! Repository.objectsDir sample_path = Some FS.Dir
    /\ files w' !! Repository.refDir sample_path = Some FS.Dir
    /\ files w' !! Repository.headsDir sample_path = Some FS.Dir
    /\ files w' !! Repository.headFile sample_path
       = Some (FS.File (Buf.from ("ref: refs/heads/master" +:+ Str.lf)))
    /\ files w' !! Repository.indexFile sample_path
       = Some (FS.File (Buf.from "{}"))
    /\ console w'
       = console (mkdirSync sample_path empty_disk).2
         ++ ["Initialized empty Git repository in /"
               +:+ Str.join "/" (Repository.gitDir sample_path)]
    /\ Repository.getCurrentBranch sample_path w' = (Ok "master"%string, w')
    /\ Repository.getBranchCommit sample_path "master" w' = (Ok None, w')
    /\ Repository.loadIndex sample_path w' = (Ok [], w')
    /\ Repository.init sample_path w' = (Ok false, w').
Proof.
  apply (X7_init_fresh sample_path (mkdirSync sample_path empty_disk).2).
  - intros q Hq [k Hk].
    destruct q as [|a [|b q]]; vm_compute in Hk; simplify_eq/=;
      by vm_compute.
  - intros p [k ->].
    change (files (mkdirSync sample_path empty_disk).2)
      with (<[sample_path := FS.Dir]> (∅ : gmap FS.path FS.node)).
    rewrite lookup_insert_ne by done. apply lookup_empty.
Defined.

(** ** Staging a file *)

Lemma members_NoDup (fuel : nat) :
  forall (s : string) (acc idx : Index) (rest : string),
    JSON.members fuel s acc = Some (idx, rest) ->
    NoDup (JS.keys acc) -> NoDup (JS.keys idx).
Proof.
  induction fuel as [|fuel IH]; intros s acc idx rest E Hnd; [done|].
  simpl in E.
  destruct (JSON.literal s) as [[k s1]|]; [|done]. simpl in E.
  destruct (JSON.skip_ws s1) as [|c s2]; [done|].
  destruct (Ascii.eqb_spec c ":") as [->|Hc].
  2:{ destruct c as [[] [] [] [] [] [] [] []]; done. }
  destruct (JSON.literal s2) as [[v s3]|]; [|done]. simpl in E.
  destruct (JSON.skip_ws s3) as [|d s4]; [done|].
  destruct (Ascii.eqb_spec d ",") as [->|Hd].
  { eapply IH; [exact E|]. by apply set_NoDup. }
  destruct (Ascii.eqb_spec d "}") as [->|Hd'].
  { injection E as <- <-. by apply set_NoDup. }
  destruct d as [[] [] [] [] [] [] [] []]; done.
Qed.

Lemma parse_NoDup (text : string) (idx : Index) :
  JSON.parse text = Some idx -> NoDup (JS.keys idx).
Proof.
  unfold JSON.parse. intros E.
  destruct (JSON.skip_ws text) as [|c s1]; [done|].
  destruct (Ascii.eqb_spec c "{") as [->|Hc].
  2:{ destruct c as [[] [] [] [] [] [] [] []]; done. }
  assert (Hgen : forall r : option (Index * string),
            (forall idx0 rest, r = Some (idx0, rest) -> NoDup (JS.keys idx0)) ->
            (r ≫= fun '(idx, rest) =>
                   match JSON.skip_ws rest with
                   | EmptyString => Some idx
                   | _ => None
                   end) = Some idx -> NoDup (JS.keys idx)).
  { intros [[i r]|] Hr Hi; [|done]. simpl in Hi.
    destruct (JSON.skip_ws r); [|done]. injection Hi as <-. by eapply Hr. }
  eapply Hgen; [|exact E]. intros idx0 rest E0.
  destruct (JSON.skip_ws s1) as [|d s2] eqn:Es.
  { eapply members_NoDup; [exact E0|constructor]. }
  destruct (Ascii.eqb_spec d "}") as [->|Hd].
  { injection E0 as <- _. constructor. }
  assert (E1 : JSON.members (String.length s1) s1 [] = Some (idx0, rest)).
  { destruct d as [[] [] [] [] [] [] [] []]; done. }
  eapply members_NoDup; [exact E1|constructor].
Qed.

Lemma loadIndex_NoDup (path : FS.path) (w w' : world) (idx : Index) :
  Repository.loadIndex path w = (Ok idx, w') -> NoDup (JS.keys idx).
Proof.
  unfold Repository.loadIndex, bind, existsSync, try_catch, readFileSync,
    ret, throw.
  intros E. destruct (bool_decide _); [|injection E as <- _; constructor].
  destruct (FS.lookup (files w) (Repository.indexFile path)) as [[d|]|];
    try (injection E as <- _; constructor).
  destruct (JSON.parse (Buf.toString d)) as [i|] eqn:Ep.
  - injection E as <- _. by eapply parse_NoDup.
  - destruct (JSON.no_value _); [|done]. injection E as <- _. constructor.
Qed.

(** What is read back where a dictionary without double keys was
    saved. *)
Lemma get_parse_stringify (idx : Index) (k : string) :
  NoDup (JS.keys idx) ->
  exists idx', JSON.parse (JSON.stringify idx) = Some idx'
               /\ JS.get k idx' = JS.get k idx.
Proof.
  intros Hnd. eexists. split; [apply parse_stringify|].
  destruct (JS.get k idx) as [v|] eqn:E.
  - by apply fold_set_last.
  - rewrite fold_set_other; [done|]. by apply get_None.
Qed.

Section Staging.
Context `{Zlib} (path : FS.path).

Lemma objectFile_below (h : string) :
  is_hex40 h ->
  below (Repository.objectsDir path) (Repository.objectFile path h).
Proof.
  intros Hh. rewrite (objectFile_eq path h Hh).
  by exists [Str.slice_to 2 h; Str.slice_from 2 h].
Qed.

Lemma lookup_objectFile (fs : gmap FS.path FS.node) (h : string) :
  is_hex40 h ->
  FS.lookup fs (Repository.objectFile path h)
  = fs !! Repository.objectFile path h.
Proof.
  intros Hh. rewrite (objectFile_eq path h Hh).
  change [Str.slice_to 2 h; Str.slice_from 2 h]
    with ([Str.slice_to 2 h] ++ [Str.slice_from 2 h]).
  by rewrite app_assoc, lookup_snoc.
Qed.

Lemma storeObject_ok (o : GitObject.t) (w : world) :
  dirs_exist (files w) (Repository.objectsDir path) ->
  storable path (files w) o ->
  exists w',
    Repository.storeObject path o w = (Ok (GitObject.hash o), w')
    /\ console w' = console w
    /\ files w' !! Repository.objectFile path (GitObject.hash o)
       = Some (FS.File (GitObject.serialize o))
    /\ forall p, ~ below (Repository.objectsDir path) p ->
                 files w' !! p = files w !! p.
Proof.
  intros Hd [[Hfree Hdir]|Hthere].
  - by apply storeObject_stores.
  - exists w. split; [|done].
    apply (storeObject_present path o w (FS.File (GitObject.serialize o))).
    rewrite lookup_objectFile; [done|]. apply hexdigest_hex40.
Qed.

End Staging.

Lemma loadIndex_agree (path : FS.path) (w1 w2 : world) :
  FS.lookup (files w1) (Repository.indexFile path)
  = FS.lookup (files w2) (Repository.indexFile path) ->
  (Repository.loadIndex path w1).1 = (Repository.loadIndex path w2).1.
Proof.
  intros E.
  assert (Hgen : forall w n,
            FS.lookup (files w) (Repository.indexFile path) = n ->
            (Repository.loadIndex path w).1
            = match n with
              | Some (FS.File d) =>
                  match JSON.parse (Buf.toString d) with
                  | Some idx => Ok idx
                  | None =>
                      if JSON.no_value (Buf.toString d) then Ok []
                      else Timeout
                  end
              | _ => Ok []
              end).
  { intros w n Hn. unfold Repository.loadIndex.
    destruct n as [[d|]|].
    - rewrite (bind_ok _ _ _ _ _ (existsSync_true _ _ _ Hn)).
      unfold try_catch.
      rewrite (bind_ok _ _ _ _ _ (readFileSync_file _ _ _ Hn)).
      destruct (JSON.parse (Buf.toString d)); [done|].
      by destruct (JSON.no_value _).
    - rewrite (bind_ok _ _ _ _ _ (existsSync_true _ _ _ Hn)).
      unfold try_catch, bind, readFileSync. by rewrite Hn.
    - by rewrite (bind_ok _ _ _ _ _ (existsSync_false _ _ Hn)). }
  by rewrite (Hgen w1 _ E), (Hgen w2 _ eq_refl).
Qed.

Lemma loadIndex_saved (path : FS.path) (w : world) (idx : Index) :
  files w !! Repository.indexFile path
  = Some (FS.File (Buf.from (JSON.stringify idx))) ->
  Repository.loadIndex path w
  = (Ok (fold_left (fun a e => JS.set e.1 e.2 a) idx []), w).
Proof.
  intros Hf. unfold Repository.loadIndex.
  assert (Hlk : FS.lookup (files w) (Repository.indexFile path)
                = Some (FS.File (Buf.from (JSON.stringify idx))))
    by (by rewrite indexFile_eq, lookup_snoc, <- indexFile_eq).
  rewrite (bind_ok _ _ _ _ _ (existsSync_true _ _ _ Hlk)).
  apply try_ok.
  rewrite (bind_ok _ _ _ _ _ (readFileSync_file _ _ _ Hlk)).
  by rewrite toString_from, parse_stringify.
Qed.

(** What [addFile] leaves: the blob in the store and the path in the
    index. *)
Lemma addFile_run `{Zlib} `{!ZlibLaws H} (path : FS.path)
    (relPath : string) (data : Buffer) (idx : Index) (w : world) :
  relPath <> "__proto__"%string ->
  FS.lookup (files w) (FS.join path relPath) = Some (FS.File data) ->
  dirs_exist (files w) (Repository.objectsDir path) ->
  storable path (files w) (Blob.new data) ->
  files w !! Repository.indexFile path <> Some FS.Dir ->
  Repository.loadIndex path w = (Ok idx, w) ->
  let blobHash := GitObject.hash (Blob.new data) in
  exists w' idx',
    Repository.addFile path relPath w = (Ok tt, w')
    /\ console w' = console w ++ ["Added " +:+ relPath]
    /\ Repository.loadIndex path w' = (Ok idx', w')
    /\ (forall k, JS.get k idx'
                  = if String.eqb k relPath then Some blobHash
                    else JS.get k idx)
    /\ Repository.loadObject path blobHash w' = (Ok (Blob.new data), w')
    /\ forall p, ~ below (Repository.objectsDir path) p ->
                 p <> Repository.indexFile path ->
                 files w' !! p = files w !! p.
Proof.
  intros Hproto Hfile Hd Hst Hidx Hload blobHash.
  destruct (storeObject_ok path (Blob.new data) w Hd Hst)
    as (w1 & Estore & Hc1 & Hobj & Hframe). fold blobHash in Estore, Hobj.
  assert (Hhex : is_hex40 blobHash) by apply hexdigest_hex40.
  assert (Hnb : ~ below (Repository.objectsDir path)
                  (Repository.indexFile path)).
  { rewrite indexFile_eq. by apply not_below_objects. }
  assert (Hload1 : Repository.loadIndex path w1 = (Ok idx, w1)).
  { apply reads_run; [apply reads_loadIndex|].
    rewrite (loadIndex_agree path w1 w); [by rewrite Hload|].
    by rewrite !indexFile_eq, !lookup_snoc, <- !indexFile_eq, Hframe. }
  set (idx1 := JS.set relPath blobHash idx).
  set (w' := World (<[Repository.indexFile path :=
                        FS.File (Buf.from (JSON.stringify idx1))]> (files w1))
               (console w1 ++ ["Added " +:+ relPath])).
  assert (Esave : Repository.saveIndex path idx1 w1
                  = (Ok tt, World (files w') (console w1))).
  { apply (writeFileSync_at _ (Repository.gitDir path) "index");
      [apply indexFile_eq|by rewrite Hframe|].
    rewrite lookup_gitDir, Hframe.
    - apply Hd; [by rewrite gitDir_eq; destruct path|].
      rewrite objectsDir_eq. by eexists.
    - rewrite <- (app_nil_r (Repository.gitDir path)).
      by apply not_below_objects. }
  assert (Hnd : NoDup (JS.keys idx1)).
  { apply set_NoDup. by eapply loadIndex_NoDup. }
  exists w', (fold_left (fun a e => JS.set e.1 e.2 a) idx1 []).
  split; [|split; [|split; [|split; [|split]]]].
  - unfold Repository.addFile. cbv zeta.
    rewrite (bind_ok _ _ _ _ _ (existsSync_true _ _ _ Hfile)).
    rewrite (bind_ok _ _ _ _ _ (readFileSync_file _ _ _ Hfile)).
    rewrite (bind_ok _ _ _ _ _ Estore), (bind_ok _ _ _ _ _ Hload1).
    rewrite set_prim_other by done. fold idx1. by rewrite (bind_ok _ _ _ _ _ Esave).
  - cbn [console w']. by rewrite Hc1.
  - apply loadIndex_saved. apply lookup_insert_eq.
  - intros k. destruct (get_parse_stringify idx1 k Hnd) as (i & Ei & Hi).
    rewrite parse_stringify in Ei. injection Ei as <-.
    rewrite Hi. apply get_set.
  - apply loadObject_stored; [done..|].
    rewrite (lookup_objectFile path _ _ Hhex). cbn [files w'].
    rewrite lookup_insert_ne; [done|].
    intros E. apply Hnb. rewrite E. by apply objectFile_below.
  - intros p Hp Hne. cbn [files w'].
    rewrite lookup_insert_ne by done. by apply Hframe.
Qed.

(** X8: [addFile] of an existing regular file stores its bytes as a blob
    that [loadObject] returns, and maps the path to the id of the blob in
    the index, leaving the other index entries, and every file outside
    the object store and the index, as they were. *)
Theorem X8_addFile_stages `{Zlib} `{!ZlibLaws H} (path : FS.path)
    (relPath : string) (data : Buffer) (idx : Index) (w : world) :
  relPath <> "__proto__"%string ->
  FS.lookup (files w) (FS.join path relPath) = Some (FS.File data) ->
  dirs_exist (files w) (Repository.objectsDir path) ->
  storable path (files w) (Blob.new data) ->
  files w !! Repository.indexFile path <> Some FS.Dir ->
  Repository.loadIndex path w = (Ok idx, w) ->
  let blobHash := GitObject.hash (Blob.new data) in
  exists w' idx',
    Repository.addFile path relPath w = (Ok tt, w')
    /\ console w' = console w ++ ["Added " +:+ relPath]
    /\ Repository.loadIndex path w' = (Ok idx', w')
    /\ (forall k, JS.get k idx'
                  = if String.eqb k relPath then Some blobHash
                    else JS.get k idx)
    /\ Repository.loadObject path blobHash w' = (Ok (Blob.new data), w')
    /\ forall p, ~ below (Repository.objectsDir path) p ->
                 p <> Repository.indexFile path ->
                 files w' !! p = files w !! p.
Proof. apply addFile_run. Qed.

Lemma X8_witness :
  exists w' idx',
    @Repository.addFile sample_zlib sample_path "a" file_a_repo = (Ok tt, w')
    /\ console w' = console file_a_repo ++ ["Added " +:+ "a"]
    /\ Repository.loadIndex sample_path w' = (Ok idx', w')
    /\ (forall k, JS.get k idx'
                  = if String.eqb k "a"
                    then Some (GitObject.hash (Blob.new (Buf.from "A")))
                    else JS.get k [])
    /\ @Repository.loadObject sample_zlib sample_path
         (GitObject.hash (Blob.new (Buf.from "A"))) w'
       = (Ok (Blob.new (Buf.from "A")), w')
    /\ forall p, ~ below (Repository.objectsDir sample_path) p ->
                 p <> Repository.indexFile sample_path ->
                 files w' !! p = files file_a_repo !! p.
Proof.
  apply (X8_addFile_stages (H := sample_zlib) (ZlibLaws0 := sample_zlib_laws)
           sample_path "a" (Buf.from "A") [] file_a_repo).
  - discriminate.
  - by vm_compute.
  - intros q Hq [k Hk].
    destruct q as [|a [|b [|c [|d q]]]]; vm_compute in Hk; simplify_eq/=;
      by vm_compute.
  - left. split; [by vm_compute|]. intros d. vm_compute. discriminate.
  - vm_compute. discriminate.
  - apply reads_run; [apply reads_loadIndex|]. by vm_compute.
Defined.

(** ** The tree of a flat index *)

Lemma insert_index_perm {V} (n : N) (k : string) (v : V) (o : JS.object V) :
  JS.insert_index n k v o ≡ₚ (k, v) :: o.
Proof.
  induction o as [|[k1 v1] o IH]; simpl; [done|].
  destruct (JS.array_index k1) as [n1|]; [destruct (n1 <? n)%N|]; try done.
  rewrite IH. apply perm_swap.
Qed.

Lemma set_new_perm {V} (k : string) (v : V) (o : JS.object V) :
  k ∉ JS.keys o -> JS.set k v o ≡ₚ (k, v) :: o.
Proof.
  intros Hk. apply get_None in Hk. unfold JS.set. rewrite Hk.
  destruct (JS.array_index k); [apply insert_index_perm|].
  by rewrite Permutation_app_comm.
Qed.

Lemma fold_set_perm {V} (l : list (string * V)) :
  forall acc,
    NoDup (JS.keys (acc ++ l)) ->
    fold_left (fun a e => JS.set e.1 e.2 a) l acc ≡ₚ acc ++ l.
Proof.
  induction l as [|[k v] l IH]; intros acc Hnd; simpl.
  - by rewrite app_nil_r.
  - assert (Hk : k ∉ JS.keys acc).
    { unfold JS.keys in *. rewrite map_app in Hnd. simpl in Hnd.
      apply NoDup_app in Hnd as (_ & Hd & _). intros Hin.
      apply (Hd k Hin). by left. }
    rewrite IH.
    + rewrite (set_new_perm k v acc Hk).
      by rewrite (Permutation_middle acc l (k, v)).
    + unfold JS.keys in *. rewrite map_app.
      rewrite (Permutation_map fst (set_new_perm k v acc Hk)).
      rewrite map_app in Hnd. simpl in *.
      by rewrite <- Permutation_middle in Hnd.
Qed.

(** Assignments to [__proto__] leave no trace in an object that is
    filled from [{}]. *)
Lemma fold_set_prim {V} (l : list (string * V)) :
  forall acc,
    "__proto__"%string ∉ JS.keys acc ->
    fold_left (fun a e => JS.set_prim e.1 e.2 a) l acc
    = fold_left (fun a e => JS.set e.1 e.2 a)
        (List.filter (fun kv => negb (String.eqb kv.1 "__proto__")) l) acc.
Proof.
  induction l as [|[k v] l IH]; intros acc Hacc; [done|].
  cbn [fold_left List.filter fst snd].
  destruct (String.eqb_spec k "__proto__") as [->|Hne]; cbn [negb].
  - rewrite set_prim_proto by done. by apply IH.
  - cbn [fold_left fst snd]. rewrite set_prim_other by done. apply IH.
    rewrite elem_of_keys_set. intros [E|E]; [by symmetry in E|done].
Qed.

Lemma group_flat (idx : Index) :
  Forall (fun kv => contains "/" kv.1 = false) idx ->
  forall dirs files,
    Repository.group idx dirs files
    = Ok (dirs, fold_left (fun a e => JS.set_prim e.1 e.2 a) idx files).
Proof.
  induction 1 as [|[k v] idx Hk Hidx IH]; intros dirs files; [done|].
  simpl in *. rewrite (split_none "/" k Hk). apply IH.
Qed.

(** The entry of the root tree for a staged file. *)
Lemma addEntry_new (es : list Tree.entry) (m n h : string) :
  Tree.addEntry (Tree.new es) m n h = Tree.new (es ++ [Tree.Entry m n h]).
Proof. reflexivity. Qed.

Section FlatIndex.
Context `{Zlib} (path : FS.path).

Lemma createTree_loop_files (recur : JS.value -> M string)
    (files : JS.object string) :
  forall (es : list Tree.entry) (w : world),
    Repository.createTree_loop recur
      (map (fun kv => (kv.1, JS.Str kv.2)) files) (Tree.new es) w
    = (Ok (Tree.new (es ++ map file_entry files)), w).
Proof.
  induction files as [|[k v] files IH]; intros es w; simpl.
  - by rewrite app_nil_r.
  - rewrite addEntry_new, IH. by rewrite <- app_assoc.
Qed.

(** For an index without directories, [createTreeFromIndex] stores the
    tree of its entries, but for an entry [__proto__]. *)
Lemma createTreeFromIndex_flat (idx : Index) (w : world) :
  Repository.loadIndex path w = (Ok idx, w) ->
  Forall (fun kv => contains "/" kv.1 = false) idx ->
  Repository.createTreeFromIndex path w
  = Repository.storeObject path
      (Tree.object
         (Tree.new
            (map file_entry
               (List.filter (fun kv => negb (String.eqb kv.1 "__proto__"))
                  idx)))) w.
Proof.
  intros Hload Hflat. unfold Repository.createTreeFromIndex.
  rewrite (bind_ok _ _ _ _ _ Hload).
  destruct idx as [|e idx]; [done|].
  rewrite (group_flat _ Hflat).
  rewrite (fold_set_prim (e :: idx) []) by apply not_elem_of_nil.
  set (kept := List.filter _ (e :: idx)).
  match goal with
  | |- context [fold_left ?f ?l ?a] => set (files := fold_left f l a)
  end.
  unfold Repository.createTreeRecursive.
  change (Repository.rootEntries [] files)
    with (map (fun kv : string * string => (kv.1, JS.Str kv.2)) files).
  cbn [Repository.createTree].
  rewrite (bind_ok _ _ _ _ _ (createTree_loop_files _ files [] w)).
  cbn [app].
  assert (Hnd : NoDup (JS.keys kept)).
  { assert (Hall : NoDup (JS.keys (e :: idx))) by (by eapply loadIndex_NoDup).
    subst kept. revert Hall. generalize (e :: idx). intros l.
    induction l as [|[k v] l IHl]; [done|]. cbn [List.filter fst].
    intros [Hk Hl]%NoDup_cons.
    destruct (negb _); [|by apply IHl].
    cbn [JS.keys map fst]. apply NoDup_cons. split; [|by apply IHl].
    intros Hin. apply Hk. apply list_elem_of_In, in_map_iff in Hin
      as ([k' v'] & <- & Hin). apply filter_In in Hin as [Hin _].
    apply list_elem_of_In, in_map_iff. by exists (k', v'). }
  assert (Hperm : files ≡ₚ kept) by (by apply (fold_set_perm _ [])).
  assert (E : Tree.sort (map file_entry files)
              = Tree.sort (map file_entry kept)).
  { apply sorted_unique; [apply sort_sorted..| |].
    - by rewrite <- !sort_perm, Hperm.
    - rewrite <- sort_perm, Hperm.
      rewrite map_map. cbn [Tree.name file_entry]. exact Hnd. }
  unfold Tree.object. cbn [Tree.new Tree.content].
  unfold Tree._serializeEntries. by rewrite E.
Qed.

End FlatIndex.

(** X9: for an index that holds files of the root directory only, with
    names free of space and zero byte and 40-hex blob ids,
    [createTreeFromIndex] stores one tree object, which [loadObject] and
    [Tree.fromContent] read back as one entry of mode 100644 per staged
    path, sorted by name; a path [__proto__] is dropped from the tree;
    nothing outside the object store changes. *)
Theorem X9_flat_index_tree `{Zlib} `{!ZlibLaws H} (path : FS.path)
    (idx : Index) (w : world) :
  Repository.loadIndex path w = (Ok idx, w) ->
  Forall (fun kv => contains "/" kv.1 = false /\ well_formed (file_entry kv))
    idx ->
  dirs_exist (files w) (Repository.objectsDir path) ->
  let kept :=
    List.filter (fun kv => negb (String.eqb kv.1 "__proto__")) idx in
  let tree := Tree.new (map file_entry kept) in
  storable path (files w) (Tree.object tree) ->
  exists w',
    Repository.createTreeFromIndex path w
    = (Ok (GitObject.hash (Tree.object tree)), w')
    /\ Repository.loadObject path (GitObject.hash (Tree.object tree)) w'
       = (Ok (Tree.object tree), w')
    /\ Tree.fromContent (GitObject.content (Tree.object tree))
       = map parsed_of (Tree.sort (map file_entry kept))
    /\ forall p, ~ below (Repository.objectsDir path) p ->
                 files w' !! p = files w !! p.
Proof.
  intros Hload Hidx Hd kept tree Hst.
  destruct (storeObject_ok path (Tree.object tree) w Hd Hst)
    as (w' & Es & _ & Hobj & Hframe).
  exists w'. split; [|split; [|split; [|done]]].
  - rewrite (createTreeFromIndex_flat path idx w Hload); [done|].
    eapply Forall_impl; [exact Hidx|]. by intros kv [? _].
  - apply loadObject_stored; [done..|].
    rewrite lookup_objectFile; [done|]. apply hexdigest_hex40.
  - apply fromContent_new. apply Forall_forall. intros e He.
    apply list_elem_of_In, in_map_iff in He as (kv & <- & Hkv).
    apply filter_In in Hkv as [Hkv _].
    rewrite Forall_forall in Hidx. apply list_elem_of_In in Hkv.
    by apply Hidx.
Qed.

Lemma X9_witness :
  let idx := [("a"%string, GitObject.hash (Blob.new (Buf.from "A")))] in
  let tree := Tree.new (map file_entry idx) in
  exists w',
    @Repository.createTreeFromIndex sample_zlib sample_path staged_a_repo
    = (Ok (GitObject.hash (Tree.object tree)), w')
    /\ @Repository.loadObject sample_zlib sample_path
         (GitObject.hash (Tree.object tree)) w'
       = (Ok (Tree.object tree), w')
    /\ Tree.fromContent (GitObject.content (Tree.object tree))
       = map parsed_of (Tree.sort (map file_entry idx))
    /\ forall p, ~ below (Repository.objectsDir sample_path) p ->
                 files w' !! p = files staged_a_repo !! p.
Proof.
  intros idx tree.
  apply (X9_flat_index_tree (H := sample_zlib) (ZlibLaws0 := sample_zlib_laws)
           sample_path idx staged_a_repo).
  - apply reads_run; [apply reads_loadIndex|]. by vm_compute.
  - apply Forall_cons. split; [|by apply Forall_nil].
    split; [reflexivity|]. repeat (split; [reflexivity|]).
    by vm_compute.
  - intros q Hq [k Hk].
    destruct q as [|a [|b [|c [|d q]]]]; vm_compute in Hk; simplify_eq/=;
      by vm_compute.
  - left. split; [by vm_compute|]. intros d. vm_compute. discriminate.
Defined.

(** ** More on [createTreeFromIndex] and [checkout] *)

(** X10: whatever the index holds, and whether it succeeds or fails,
    [createTreeFromIndex] changes nothing outside the object store: the
    working tree, the index, HEAD and the refs are as before. *)
Theorem X10_createTreeFromIndex_only_stores `{Zlib} (path : FS.path)
    (w : world) :
  dirs_exist (files w) (Repository.objectsDir path) ->
  let w' := (Repository.createTreeFromIndex path w).2 in
  dirs_exist (files w') (Repository.objectsDir path)
  /\ forall p, ~ below (Repository.objectsDir path) p ->
               files w' !! p = files w !! p.
Proof. intros Hd. by apply stores_only_createTreeFromIndex. Qed.

Lemma X10_witness :
  let w' := (@Repository.createTreeFromIndex sample_zlib sample_path
               conflict_repo).2 in
  dirs_exist (files w') (Repository.objectsDir sample_path)
  /\ forall p, ~ below (Repository.objectsDir sample_path) p ->
               files w' !! p = files conflict_repo !! p.
Proof.
  apply (X10_createTreeFromIndex_only_stores (H := sample_zlib) sample_path
           conflict_repo).
  intros q Hq [k Hk].
  destruct q as [|a [|b [|c [|d q]]]]; vm_compute in Hk; simplify_eq/=;
    by vm_compute.
Defined.





(** ** [branch] *)

Lemma elem_of_children (fs : gmap FS.path FS.node) (p : FS.path) (c : string) :
  c ∈ children fs p <-> is_Some (fs !! (p ++ [c])).
Proof.
  unfold children. rewrite list_elem_of_omap. split.
  - intros ([q n] & Hin & Hc). apply elem_of_map_to_list in Hin. simpl in Hc.
    destruct (reverse q) as [|x r] eqn:Er; [done|].
    case_bool_decide as Hr; [|done]. injection Hc as ->. subst p.
    assert (q = reverse r ++ [c]) as <-; [|by eexists].
    rewrite <- (reverse_involutive q), Er. by rewrite reverse_cons.
  - intros [n Hn]. exists (p ++ [c], n). split.
    + by apply elem_of_map_to_list.
    + simpl. rewrite reverse_app. simpl.
      by rewrite reverse_involutive, bool_decide_eq_true_2.
Qed.

Lemma NoDup_children (fs : gmap FS.path FS.node) (p : FS.path) :
  NoDup (children fs p).
Proof.
  unfold children.
  assert (Hgen : forall l : list (FS.path * FS.node),
            NoDup l.*1 ->
            NoDup (omap (fun kv : FS.path * FS.node =>
                           match reverse kv.1 with
                           | c :: r =>
                               if bool_decide (reverse r = p) then Some c
                               else None
                           | [] => None
                           end) l)).
  { induction l as [|[q n] l IH]; intros Hnd; [constructor|].
    rewrite fmap_cons in Hnd. apply NoDup_cons in Hnd as [Hq Hnd].
    cbn [omap list_omap]. simpl.
    destruct (reverse q) as [|c r] eqn:Er; [by apply IH|].
    case_bool_decide as Hr; [|by apply IH].
    apply NoDup_cons. split; [|by apply IH].
    intros Hin. apply list_elem_of_omap in Hin as ([q' n'] & Hin & Hc).
    simpl in Hc. destruct (reverse q') as [|c' r'] eqn:Er'; [done|].
    case_bool_decide as Hr'; [|done]. injection Hc as ->.
    apply Hq. apply list_elem_of_fmap. exists (q', n'). split; [|done].
    simpl. rewrite <- (reverse_involutive q), <- (reverse_involutive q').
    rewrite Er, Er', !reverse_cons. by rewrite Hr, Hr'. }
  apply Hgen. apply NoDup_fst_map_to_list.
Qed.

Lemma name_insert (e : Tree.entry) (es : list Tree.entry) :
  map Tree.name (Tree.insert e es)
  = Repository.insert_string (Tree.name e) (map Tree.name es).
Proof.
  induction es as [|x es IH]; [done|]. simpl. unfold Tree.name_compare.
  destruct (Buf.compare _ _); simpl; by rewrite ?IH.
Qed.

Lemma sort_strings_as_tree (l : list string) :
  Repository.sort_strings l
  = map Tree.name (Tree.sort (map (fun s => Tree.Entry "" s "") l)).
Proof.
  induction l as [|x l IH]; [done|].
  unfold Repository.sort_strings, Tree.sort in *. simpl.
  by rewrite name_insert, <- IH.
Qed.

Lemma sort_strings_sorted (l : list string) :
  StronglySorted string_le (Repository.sort_strings l).
Proof.
  rewrite sort_strings_as_tree.
  induction (sort_sorted (map (fun s => Tree.Entry "" s "") l))
    as [|e es Hs IH He]; simpl; constructor; [done|].
  apply Forall_forall. intros s Hs'.
  apply list_elem_of_In, in_map_iff in Hs' as (x & <- & Hx).
  rewrite Forall_forall in He. apply He. by apply list_elem_of_In.
Qed.

Lemma sort_strings_perm (l : list string) : Repository.sort_strings l ≡ₚ l.
Proof.
  rewrite sort_strings_as_tree, <- sort_perm, map_map. simpl.
  by rewrite map_id.
Qed.

(** The sorted list does not depend on the order of the names. *)
Lemma sort_strings_order (l1 l2 : list string) :
  l1 ≡ₚ l2 -> NoDup l1 ->
  Repository.sort_strings l1 = Repository.sort_strings l2.
Proof.
  intros Hp Hnd. rewrite !sort_strings_as_tree. f_equal.
  apply sorted_unique; [apply sort_sorted..| |].
  - by rewrite <- !sort_perm, Hp.
  - rewrite <- sort_perm, map_map. simpl. by rewrite map_id.
Qed.

Lemma filter_perm {A} (f : A -> bool) (l1 l2 : list A) :
  l1 ≡ₚ l2 -> List.filter f l1 ≡ₚ List.filter f l2.
Proof.
  induction 1 as [|x l1 l2 Hp IH|x y l|l1 l2 l3 H1 IH1 H2 IH2]; simpl.
  - done.
  - destruct (f x); by rewrite IH.
  - destruct (f x), (f y); try done. apply perm_swap.
  - by rewrite IH1.
Qed.

Lemma getCurrentBranch_agree (path : FS.path) (w1 w2 : world) :
  FS.lookup (files w1) (Repository.headFile path)
  = FS.lookup (files w2) (Repository.headFile path) ->
  (Repository.getCurrentBranch path w1).1
  = (Repository.getCurrentBranch path w2).1.
Proof.
  intros E.
  assert (Hgen : forall w n,
            FS.lookup (files w) (Repository.headFile path) = n ->
            (Repository.getCurrentBranch path w).1
            = (Repository.getCurrentBranch path
                 (World (match n with
                         | Some x => {[ Repository.headFile path := x ]}
                         | None => ∅
                         end) [])).1).
  { intros w n Hn. unfold Repository.getCurrentBranch.
    assert (Hn' : FS.lookup
                    (files (World (match n with
                                   | Some x => {[ Repository.headFile path := x ]}
                                   | None => ∅
                                   end) []))
                    (Repository.headFile path) = n).
    { rewrite headFile_eq, lookup_snoc. cbn [files].
      destruct n; [apply lookup_singleton_eq|apply lookup_empty]. }
    destruct n as [[d|]|].
    - rewrite (bind_ok _ _ _ _ _ (existsSync_true _ _ _ Hn)).
      rewrite (bind_ok _ _ _ _ _ (readFileSync_file _ _ _ Hn)).
      rewrite (bind_ok _ _ _ _ _ (existsSync_true _ _ _ Hn')).
      rewrite (bind_ok _ _ _ _ _ (readFileSync_file _ _ _ Hn')).
      by destruct (Str.startsWith _ _).
    - rewrite (bind_ok _ _ _ _ _ (existsSync_true _ _ _ Hn)).
      rewrite (bind_ok _ _ _ _ _ (existsSync_true _ _ _ Hn')).
      unfold bind, readFileSync. by rewrite Hn, Hn'.
    - rewrite (bind_ok _ _ _ _ _ (existsSync_false _ _ Hn)).
      by rewrite (bind_ok _ _ _ _ _ (existsSync_false _ _ Hn')). }
  by rewrite (Hgen w1 _ E), (Hgen w2 _ eq_refl).
Qed.

Section Branch.
Context `{Readdir} (path : FS.path).

Lemma heads_ne_head (name : string) :
  Repository.headFile path <> Repository.headsDir path ++ [name].
Proof.
  rewrite headFile_eq, headsDir_eq, <- app_assoc.
  intros E%app_inv_head. discriminate.
Qed.

Lemma print_branches (current : string) (l : list string) (w : world) :
  fold_right
    (fun br rest =>
       bind (log ((if String.eqb br current then "* " else "  ") +:+ br))
         (fun _ => rest))
    (ret tt) l w
  = (Ok tt, World (files w) (console w ++ map (branch_line current) l)).
Proof.
  revert w. induction l as [|br l IH]; intros w; simpl.
  - rewrite app_nil_r. by destruct w.
  - unfold bind at 1, log at 1. rewrite IH. cbn [files console].
    by rewrite <- app_assoc.
Qed.

End Branch.

(** X13: [branch(name, true)] deletes the ref of the branch without
    looking at HEAD: when [name] is the current branch, it still is
    afterwards, and it has no commit any more. No other file changes. *)
Theorem X13_branch_delete `{Readdir} (path : FS.path) (name : string)
    (data : Buffer) (w : world) :
  plain name ->
  files w !! (Repository.headsDir path ++ [name]) = Some (FS.File data) ->
  exists w',
    Repository.branch path (Some name) true w = (Ok tt, w')
    /\ files w' = delete (Repository.headsDir path ++ [name]) (files w)
    /\ console w' = console w ++ ["Deleted branch " +:+ name]
    /\ Repository.getBranchCommit path name w' = (Ok None, w')
    /\ (Repository.getCurrentBranch path w').1
       = (Repository.getCurrentBranch path w).1.
Proof.
  intros Hname Href.
  assert (Htruthy : Repository.truthy (Some name) = true).
  { simpl. apply negb_true_iff, String.eqb_neq. by destruct Hname as (_ & ? & _). }
  assert (Hlk : FS.lookup (files w) (Repository.headsDir path ++ [name])
                = Some (FS.File data)) by (by rewrite lookup_snoc).
  eexists. split; [|split; [|split; [|split]]].
  - unfold Repository.branch. rewrite Htruthy. cbn [andb default]. cbv zeta.
    rewrite (join_plain _ _ Hname).
    rewrite (bind_ok _ _ _ _ _ (existsSync_true _ _ _ Hlk)).
    unfold bind, unlinkSync, log. rewrite Hlk. reflexivity.
  - done.
  - done.
  - apply getBranchCommit_absent; [done|]. cbn [files].
    apply lookup_delete_eq.
  - apply getCurrentBranch_agree. cbn [files].
    rewrite !headFile_eq, !lookup_snoc, <- !headFile_eq.
    apply lookup_delete_ne. intros E. symmetry in E.
    by apply heads_ne_head in E.
Qed.


(** X15: where the names in refs/heads that do not start with a dot are
    texts of ASCII characters, [branch()] prints one line per such name,
    in ascending order of the bytes of the names (for ASCII names the
    order of [sort()]) whatever the order in which the directory is
    listed, the current branch marked with a star; it changes no file. *)
Theorem X15_branch_list `{Readdir} `{!ReaddirLaws H} (path : FS.path)
    (del : bool) (current : string) (w : world) :
  Repository.getCurrentBranch path w = (Ok current, w) ->
  FS.lookup (files w) (Repository.headsDir path) = Some FS.Dir ->
  (forall c, is_Some (files w !! (Repository.headsDir path ++ [c])) ->
             Str.startsWith "." c = false -> ascii_text c = true) ->
  exists names,
    Repository.branch path None del w
    = (Ok tt, World (files w)
                (console w ++ map (branch_line current) names))
    /\ StronglySorted string_le names
    /\ NoDup names
    /\ forall c, c ∈ names
                 <-> is_Some (files w !! (Repository.headsDir path ++ [c]))
                     /\ Str.startsWith "." c = false.
Proof.
  intros Hcur Hheads Hasc.
  set (keep := fun f : string => negb (Str.startsWith "." f)).
  set (all := children (files w) (Repository.headsDir path)).
  exists (Repository.sort_strings (List.filter keep all)).
  assert (Hnd : NoDup (List.filter keep all)).
  { apply NoDup_ListNoDup, List.NoDup_filter, NoDup_ListNoDup.
    apply NoDup_children. }
  split; [|split; [|split]].
  - unfold Repository.branch. rewrite andb_false_r.
    rewrite (bind_ok _ _ _ _ _ Hcur). cbn [Repository.truthy].
    rewrite (bind_ok _ _ _ _ _ (existsSync_true _ _ _ Hheads)).
    unfold bind at 1. unfold bind at 1. unfold readdirSync. rewrite Hheads.
    unfold ret at 1. fold all. fold keep.
    assert (Hascii : forallb ascii_text (List.filter keep (arrange all))
                     = true).
    { apply forallb_forall. intros x Hx. apply filter_In in Hx as [Hx Hk].
      apply list_elem_of_In in Hx. rewrite arrange_perm in Hx.
      apply elem_of_children in Hx. apply Hasc; [done|].
      unfold keep in Hk. by apply negb_true_iff. }
    rewrite Hascii.
    rewrite (sort_strings_order (List.filter keep (arrange all))
               (List.filter keep all)).
    + apply print_branches.
    + apply filter_perm, arrange_perm.
    + apply NoDup_ListNoDup, List.NoDup_filter, NoDup_ListNoDup.
      rewrite arrange_perm. apply NoDup_children.
  - apply sort_strings_sorted.
  - by rewrite sort_strings_perm.
  - intros c. rewrite elem_of_sort_strings, list_elem_of_In, filter_In.
    rewrite <- list_elem_of_In. unfold all. rewrite elem_of_children.
    unfold keep. by rewrite negb_true_iff.
Qed.

Lemma sample_readdir_laws : ReaddirLaws sample_readdir.
Proof. intros l. apply reverse_Permutation. Qed.

Lemma X13_witness :
  exists w',
    Repository.branch (H0 := sample_readdir) sample_path (Some "feat"%string) true
      feat_repo = (Ok tt, w')
    /\ files w'
       = delete (Repository.headsDir sample_path ++ ["feat"%string])
           (files feat_repo)
    /\ console w' = console feat_repo ++ ["Deleted branch " +:+ "feat"]
    /\ Repository.getBranchCommit sample_path "feat" w' = (Ok None, w')
    /\ (Repository.getCurrentBranch sample_path w').1
       = (Repository.getCurrentBranch sample_path feat_repo).1.
Proof.
  apply (X13_branch_delete (H := sample_readdir) sample_path "feat"
           (Buf.from (id_commit_two +:+ Str.lf)) feat_repo).
  - by vm_compute.
  - by vm_compute.
Defined.


Lemma X15_witness :
  exists names,
    Repository.branch (H0 := sample_readdir) sample_path None false feat_repo
    = (Ok tt, World (files feat_repo)
                (console feat_repo ++ map (branch_line "feat") names))
    /\ StronglySorted string_le names
    /\ NoDup names
    /\ forall c, c ∈ names
                 <-> is_Some (files feat_repo
                              !! (Repository.headsDir sample_path ++ [c]))
                     /\ Str.startsWith "." c = false.
Proof.
  apply (X15_branch_list (H := sample_readdir)
           (ReaddirLaws0 := sample_readdir_laws) sample_path false "feat"
           feat_repo).
  - apply reads_run; [apply reads_getCurrentBranch|]. by vm_compute.
  - by vm_compute.
  - intros c Hc _. apply elem_of_children in Hc.
    assert (Ech : children (files feat_repo) (Repository.headsDir sample_path)
                  = ["feat"%string; "master"%string]) by (by vm_compute).
    pose proof (eq_ind _ (fun l => c ∈ l) Hc _ Ech) as Hc'. clear Hc Ech.
    cbv beta in Hc'.
    repeat (apply elem_of_cons in Hc' as [->|Hc']; [by vm_compute|]).
    by apply elem_of_nil in Hc'.
Defined.

(** ** [log] *)

Section Log.
Context `{Zlib} `{DateFormat} (path : FS.path) (now : Z).

Lemma history_length (fs : gmap FS.path FS.node) (n : nat)
    (c : option string) (commits : list (string * Commit.t)) :
  history path now fs n c commits -> (length commits <= n)%nat.
Proof. induction 1; simpl; lia. Qed.

Lemma log_loop_history (n : nat) (c : option string)
    (commits : list (string * Commit.t)) (w : world) :
  history path now (files w) n c commits ->
  Repository.log_loop path n c now w
  = (Ok tt, World (files w) (console w ++ concat (map log_lines commits))).
Proof.
  intros Hh. remember (files w) as fs eqn:Efs. revert w Efs.
  induction Hh as [c|n c Hc|n h o cm next rest Hh Ho Hcm Hnext Hrest IH];
    intros w ->.
  - simpl. rewrite app_nil_r. by destruct w.
  - destruct n; simpl; [|rewrite Hc]; rewrite app_nil_r; by destruct w.
  - cbn [Repository.log_loop]. rewrite Hh. cbn [default].
    assert (E : Repository.loadObject path h w = (Ok o, w))
      by (rewrite loadObject_object_at; f_equal; exact Ho).
    rewrite (bind_ok _ _ _ _ _ E).
    cbv zeta. rewrite <- Hcm, <- Hnext.
    unfold bind at 1, log at 1. unfold bind at 1, log at 1.
    unfold bind at 1, log at 1. unfold bind at 1, log at 1.
    cbn [files console]. rewrite IH by reflexivity.
    cbn [files console map concat log_lines fst snd].
    by rewrite <- !app_assoc.
Qed.

End Log.

(** X16: [log(maxCount)] prints, for the commit of the current branch and
    then along the first parents, four lines per commit, for at most
    [maxCount] commits, and changes no file; on a branch without commit
    it prints that there are no commits yet. *)
Theorem X16_log_first_parents `{Zlib} `{DateFormat} (path : FS.path)
    (maxCount now : Z) (current : string) (commitHash : option string)
    (commits : list (string * Commit.t)) (w : world) :
  Repository.getCurrentBranch path w = (Ok current, w) ->
  Repository.getBranchCommit path current w = (Ok commitHash, w) ->
  history path now (files w) (Z.to_nat maxCount) commitHash commits ->
  Repository.log path maxCount now w
  = (Ok tt,
     World (files w)
       (console w ++ (if Repository.truthy commitHash
                      then concat (map log_lines commits)
                      else ["No commits yet!"])))
  /\ (length commits <= Z.to_nat maxCount)%nat.
Proof.
  intros Hcur Hcommit Hh. split; [|by eapply history_length].
  unfold Repository.log.
  rewrite (bind_ok _ _ _ _ _ Hcur), (bind_ok _ _ _ _ _ Hcommit).
  destruct (Repository.truthy commitHash); [|done].
  by apply log_loop_history.
Qed.

Lemma X16_witness :
  exists commits,
    map fst commits = [id_commit_two; id_commit_one]
    /\ Repository.log (H := sample_zlib) (H0 := sample_date) sample_path 10
         1700000400 feat_repo
       = (Ok tt,
          World (files feat_repo)
            (console feat_repo
               ++ (if Repository.truthy (Some id_commit_two)
                   then concat (map (log_lines (H := sample_date)) commits)
                   else ["No commits yet!"])))
    /\ (length commits <= Z.to_nat 10)%nat.
Proof.
  eexists. split; [|
    apply (X16_log_first_parents (H := sample_zlib) (H0 := sample_date)
             sample_path 10 1700000400 "feat" (Some id_commit_two) _
             feat_repo)].
  2:{ apply reads_run; [apply reads_getCurrentBranch|]. by vm_compute. }
  2:{ apply reads_run; [apply reads_getBranchCommit|]. by vm_compute. }
  2:{ change (Z.to_nat 10) with 10%nat.
      eapply history_step;
        [reflexivity|by vm_compute|reflexivity|by vm_compute|].
      eapply history_step;
        [reflexivity|by vm_compute|reflexivity|by vm_compute|].
      apply history_end. reflexivity. }
  reflexivity.
Defined.

(** ** mygit.mjs *)

Lemma mkdirs_done (todo : FS.path) :
  forall (fs fs' : gmap FS.path FS.node) (pre : FS.path),
    FS.mkdirs fs pre todo = Some fs' ->
    FS.mkdirs fs' pre todo = Some fs'
    /\ (forall q, q <> [] -> q `prefix_of` todo -> fs' !! (pre ++ q) = Some FS.Dir)
    /\ (forall p, (forall q, q <> [] -> q `prefix_of` todo -> p <> pre ++ q) ->
                  fs' !! p = fs !! p)
    /\ (forall p n, fs !! p = Some n -> fs' !! p = Some n).
Proof.
  induction todo as [|c todo IH]; intros fs fs' pre E; simpl in E.
  - injection E as <-. split; [done|]. split; [|done].
    intros q Hq [k Hk]. by destruct q.
  - assert (Hstep : exists fs1,
              FS.mkdirs fs1 (pre ++ [c]) todo = Some fs'
              /\ fs1 !! (pre ++ [c]) = Some FS.Dir
              /\ (forall p, p <> pre ++ [c] -> fs1 !! p = fs !! p)
              /\ (forall p n, fs !! p = Some n -> fs1 !! p = Some n)).
    { destruct (fs !! (pre ++ [c])) as [[d|]|] eqn:Ec; [done|..].
      - exists fs. by repeat split.
      - exists (<[pre ++ [c] := FS.Dir]> fs). split; [done|].
        split; [apply lookup_insert_eq|]. split.
        + intros p Hp. by apply lookup_insert_ne.
        + intros p n Hn. rewrite lookup_insert_ne; [done|].
          intros E'. subst p.
          assert (X : Some n = None)
            by (etrans; [symmetry; exact Hn|exact Ec]).
          discriminate. }
    destruct Hstep as (fs1 & E1 & Hc & Hsame & Hkeep).
    destruct (IH _ _ _ E1) as (Hagain & Hdirs & Hframe & Hmono).
    assert (Hc' : fs' !! (pre ++ [c]) = Some FS.Dir) by (by apply Hmono).
    split; [|split; [|split]].
    + simpl. by rewrite Hc'.
    + intros q Hq [k Hk]. destruct q as [|x q]; [done|].
      injection Hk as <- ->. destruct q as [|y q]; [exact Hc'|].
      rewrite (cons_middle c pre), app_assoc. apply Hdirs; [done|].
      by exists k.
    + intros p Hp. rewrite Hframe.
      * apply Hsame. apply (Hp [c]); [done|]. by exists todo.
      * intros q Hq [k Hk]. rewrite <- app_assoc. apply (Hp (c :: q)); [done|].
        exists k. by rewrite Hk.
    + intros p n Hn. by apply Hmono, Hkeep.
Qed.

Lemma mkdirs_app (a : FS.path) :
  forall (fs : gmap FS.path FS.node) (pre b : FS.path),
    FS.mkdirs fs pre (a ++ b)
    = FS.mkdirs fs pre a ≫= fun fs1 => FS.mkdirs fs1 (pre ++ a) b.
Proof.
  induction a as [|c a IH]; intros fs pre b; simpl.
  - by rewrite app_nil_r.
  - destruct (fs !! (pre ++ [c])) as [[d|]|]; [done|..];
      rewrite IH, <- app_assoc; done.
Qed.

Section Mygit.
Context (dir : FS.path).

Lemma repopath_eq : mygit.repopath dir = dir ++ [".mygit"%string].
Proof. by apply join_plain. Qed.

Lemma objectpath_eq :
  mygit.objectpath dir = mygit.repopath dir ++ ["objects"%string].
Proof. by apply join_plain. Qed.

Lemma headpath_eq : mygit.headpath dir = mygit.repopath dir ++ ["HEAD"%string].
Proof. by apply join_plain. Qed.

Lemma indexpath_eq :
  mygit.indexpath dir = mygit.repopath dir ++ ["index"%string].
Proof. by apply join_plain. Qed.

Lemma writeFileExcl_keeps (p : FS.path) (data : Buffer) (w : world)
    (q : FS.path) (n : FS.node) :
  files w !! q = Some n ->
  files (mygit.writeFileExcl p data w).2 !! q = Some n.
Proof.
  intros Hq. unfold mygit.writeFileExcl.
  destruct (FS.lookup (files w) p) as [x|] eqn:Ep; [done|].
  destruct (FS.lookup (files w) (FS.dirname p)) as [[d|]|]; [done| |done].
  cbn [snd files]. rewrite lookup_insert_ne; [done|].
  intros <-. destruct p; [done|]. simpl in Ep.
  assert (X : Some n = None) by (etrans; [symmetry; exact Hq|exact Ep]).
  discriminate.
Qed.

Lemma writeFileExcl_again (p : FS.path) (data data' : Buffer) (w w' : world)
    (r : result unit) :
  mygit.writeFileExcl p data w = (r, w') ->
  (forall q n, files w !! q = Some n -> files w' !! q = Some n)
  /\ (r = Ok tt -> FS.lookup (files w') p = Some (FS.File data)).
Proof.
  intros E. split.
  - intros q n Hq. pose proof (writeFileExcl_keeps p data w q n Hq) as Hk.
    by rewrite E in Hk.
  - intros ->. unfold mygit.writeFileExcl in E.
    destruct (FS.lookup (files w) p) as [x|] eqn:Ep; [done|].
    destruct (FS.lookup (files w) (FS.dirname p)) as [[d|]|]; [done| |done].
    injection E as <-. destruct p; [done|]. apply lookup_insert_eq.
Qed.

Lemma writeFileExcl_throws (p : FS.path) (data : Buffer) (w w' : world)
    (e : exn) :
  mygit.writeFileExcl p data w = (Throw e, w') ->
  w' = w
  /\ forall c, mygit.writeFileExcl p data (World (files w) c)
               = (Throw e, World (files w) c).
Proof.
  unfold mygit.writeFileExcl. cbn [files]. intros E.
  destruct (FS.lookup (files w) p) as [x|];
    [injection E as <- <-; by split|].
  destruct (FS.lookup (files w) (FS.dirname p)) as [[d|]|];
    first [discriminate E|injection E as <- <-; by split].
Qed.

Lemma writeFileExcl_no_timeout (p : FS.path) (data : Buffer) (w w' : world) :
  mygit.writeFileExcl p data w <> (Timeout, w').
Proof.
  unfold mygit.writeFileExcl.
  destruct (FS.lookup (files w) p) as [x|]; [done|].
  by destruct (FS.lookup (files w) (FS.dirname p)) as [[d|]|].
Qed.

End Mygit.

(** Two different places below one directory [r], given that [r] is not
    [r ++ s]. *)
Ltac sub_ne Hne :=
  let E := fresh in
  intros E;
  first [ by apply Hne in E
        | symmetry in E; by apply Hne in E
        | apply app_inv_head in E; discriminate ].

(** X17: [init] of mygit in a directory without .mygit creates
    .mygit/objects, an empty HEAD and the index "[]", reports it and
    touches nothing else. *)
Theorem X17_mygit_init_fresh (dir : FS.path) (w : world) :
  dirs_exist (files w) dir ->
  (forall p, mygit.repopath dir `prefix_of` p -> files w !! p = None) ->
  mygit.init dir w
  = (Ok tt,
     World
       (<[mygit.indexpath dir := FS.File (Buf.from "[]")]>
          (<[mygit.headpath dir := FS.File (Buf.from "")]>
             (<[mygit.objectpath dir := FS.Dir]>
                (<[mygit.repopath dir := FS.Dir]> (files w)))))
       (console w ++ ["Initialized empty mygit repository."])).
Proof.
  intros Hd Habsent. unfold mygit.init.
  set (r := mygit.repopath dir).
  assert (Hsub : forall s, files w !! (r ++ s) = None).
  { intros s. apply Habsent. by exists s. }
  assert (Hr : files w !! r = None).
  { rewrite <- (app_nil_r r). apply Hsub. }
  set (w1 := World (<[mygit.objectpath dir := FS.Dir]>
                      (<[r := FS.Dir]> (files w))) (console w)).
  assert (E1 : mkdirSync (mygit.objectpath dir) w = (Ok tt, w1)).
  { unfold mkdirSync. rewrite objectpath_eq, repopath_eq.
    rewrite (mkdirs_app (dir ++ [".mygit"%string])).
    rewrite (mkdirs_last _ dir [] ".mygit");
      [|done|by rewrite <- repopath_eq]. simpl.
    rewrite <- repopath_eq. fold r.
    rewrite lookup_insert_ne.
    - by rewrite Hsub.
    - intros E. rewrite <- (app_nil_r r) in E at 1.
      by apply app_inv_head in E. }
  rewrite (bind_ok _ _ _ _ _ E1).
  assert (Hne : forall s, s <> [] -> r <> r ++ s).
  { intros s Hs E. rewrite <- (app_nil_r r) in E at 1.
    apply app_inv_head in E. by subst. }
  assert (Hrdir : FS.lookup (files w1) r = Some FS.Dir).
  { unfold r. rewrite repopath_eq, lookup_snoc, <- repopath_eq. fold r.
    cbn [files w1]. rewrite objectpath_eq. fold r.
    rewrite lookup_insert_ne by sub_ne Hne. apply lookup_insert_eq. }
  set (w2 := World (<[mygit.headpath dir := FS.File (Buf.from "")]> (files w1))
               (console w1)).
  assert (E2 : mygit.writeFileExcl (mygit.headpath dir) (Buf.from "") w1
               = (Ok tt, w2)).
  { unfold mygit.writeFileExcl.
    rewrite headpath_eq, lookup_snoc, dirname_snoc. fold r. rewrite Hrdir.
    cbn [files w1]. rewrite objectpath_eq. fold r.
    rewrite !lookup_insert_ne by sub_ne Hne. by rewrite Hsub. }
  set (w3 := World (<[mygit.indexpath dir := FS.File (Buf.from "[]")]>
                      (files w2)) (console w2)).
  assert (E3 : mygit.writeFileExcl (mygit.indexpath dir) (Buf.from "[]") w2
               = (Ok tt, w3)).
  { unfold mygit.writeFileExcl.
    rewrite indexpath_eq, lookup_snoc, dirname_snoc. fold r.
    assert (Hrdir2 : FS.lookup (files w2) r = Some FS.Dir).
    { rewrite <- Hrdir. unfold r.
      rewrite !repopath_eq, !lookup_snoc, <- !repopath_eq. fold r.
      cbn [files w2]. rewrite headpath_eq. fold r.
      apply lookup_insert_ne. intros E. symmetry in E.
      by apply Hne in E. }
    rewrite Hrdir2. cbn [files w2 w1]. rewrite headpath_eq, objectpath_eq.
    fold r.
    rewrite !lookup_insert_ne by sub_ne Hne.
    by rewrite Hsub. }
  apply try_ok.
  rewrite (bind_ok _ _ _ _ _ E2), (bind_ok _ _ _ _ _ E3).
  done.
Qed.

(** X18: whatever the directory holds, [init] of mygit removes and
    replaces nothing (an existing HEAD or index keeps its bytes), and
    after an [init] that returned, a second one changes no file and
    reports that the repository is already initialized. *)
Theorem X18_mygit_init_keeps (dir : FS.path) (w w' : world)
    (r : result unit) :
  mygit.init dir w = (r, w') ->
  (forall p n, files w !! p = Some n -> files w' !! p = Some n)
  /\ (r = Ok tt ->
      mygit.init dir w'
      = (Ok tt, World (files w')
                  (console w' ++ ["Repository already initialized."]))).
Proof.
  unfold mygit.init. intros E.
  unfold bind at 1 in E. unfold mkdirSync at 1 in E.
  destruct (FS.mkdirs (files w) [] (mygit.objectpath dir)) as [fs1|] eqn:Em.
  2:{ injection E as <- <-. split; [done|done]. }
  destruct (mkdirs_done _ _ _ _ Em) as (Hagain & Hdirs & _ & Hmono).
  set (w1 := World fs1 (console w)) in *.
  unfold try_catch in E. unfold bind at 1 in E.
  destruct (mygit.writeFileExcl (mygit.headpath dir) (Buf.from "") w1)
    as [r2 w2] eqn:E2.
  destruct (writeFileExcl_again _ _ (Buf.from "") _ _ _ E2) as [Hk2 Hh2].
  assert (Hcase :
    (forall p n, files w1 !! p = Some n -> files w' !! p = Some n)
    /\ (r = Ok tt ->
        (forall q, q <> [] -> q `prefix_of` mygit.objectpath dir ->
                   files w' !! q = Some FS.Dir)
        /\ exists e, mygit.writeFileExcl (mygit.headpath dir) (Buf.from "")
                       (World (files w') (console w'))
                     = (Throw e, World (files w') (console w')))).
  { destruct r2 as [[]|e|].
    - (* HEAD was written *)
      unfold bind at 1 in E.
      destruct (mygit.writeFileExcl (mygit.indexpath dir) (Buf.from "[]") w2)
        as [r3 w3] eqn:E3.
      destruct (writeFileExcl_again _ _ (Buf.from "") _ _ _ E3) as [Hk3 _].
      assert (Hfiles : files w' = files w3).
      { destruct r3 as [[]|e|]; unfold log in E; simpl in E;
          by injection E as _ <-. }
      rewrite Hfiles. split; [by intros p n Hp; apply Hk3, Hk2|].
      intros _. split.
      + intros q Hq Hpre. apply Hk3, Hk2. by apply (Hdirs q).
      + exists (SystemError "EEXIST"). unfold mygit.writeFileExcl.
        cbn [files]. rewrite <- Hfiles.
        assert (Hh : FS.lookup (files w') (mygit.headpath dir)
                     = Some (FS.File (Buf.from ""))).
        { rewrite Hfiles, headpath_eq, lookup_snoc. apply Hk3.
          rewrite <- lookup_snoc, <- headpath_eq. by apply Hh2. }
        by rewrite Hh.
    - (* HEAD could not be written *)
      destruct (writeFileExcl_throws _ _ _ _ _ E2) as [-> Hthrow].
      unfold log in E. simpl in E. injection E as <- <-. cbn [files console].
      split; [done|]. intros _. split.
      + intros q Hq Hpre. by apply (Hdirs q).
      + exists e. apply Hthrow.
    - by destruct (writeFileExcl_no_timeout _ _ _ _ E2). }
  destruct Hcase as [Hkeep Hsecond]. split.
  - intros p n Hp. by apply Hkeep, Hmono.
  - intros Hr. destruct (Hsecond Hr) as [Hd' [e He]].
    unfold bind at 1. unfold mkdirSync at 1.
    rewrite (mkdirs_exist (files w') (mygit.objectpath dir) []) by done.
    unfold try_catch, bind at 1. rewrite He. done.
Qed.

Lemma X17_witness :
  mygit.init sample_path (mkdirSync sample_path empty_disk).2
  = (Ok tt,
     World
       (<[mygit.indexpath sample_path := FS.File (Buf.from "[]")]>
          (<[mygit.headpath sample_path := FS.File (Buf.from "")]>
             (<[mygit.objectpath sample_path := FS.Dir]>
                (<[mygit.repopath sample_path := FS.Dir]>
                   (files (mkdirSync sample_path empty_disk).2)))))
       (console (mkdirSync sample_path empty_disk).2
          ++ ["Initialized empty mygit repository."])).
Proof.
  apply (X17_mygit_init_fresh sample_path (mkdirSync sample_path empty_disk).2).
  - intros q Hq [k Hk].
    destruct q as [|a [|b q]]; vm_compute in Hk; simplify_eq/=;
      by vm_compute.
  - intros p [k ->].
    change (files (mkdirSync sample_path empty_disk).2)
      with (<[sample_path := FS.Dir]> (∅ : gmap FS.path FS.node)).
    rewrite lookup_insert_ne by done. apply lookup_empty.
Defined.

Lemma X18_witness :
  (forall p n, files fresh_repo !! p = Some n ->
               files (mygit.init sample_path fresh_repo).2 !! p = Some n)
  /\ (Ok tt = Ok tt ->
      mygit.init sample_path (mygit.init sample_path fresh_repo).2
      = (Ok tt, World (files (mygit.init sample_path fresh_repo).2)
                  (console (mygit.init sample_path fresh_repo).2
                     ++ ["Repository already initialized."]))).
Proof.
  apply (X18_mygit_init_keeps sample_path fresh_repo
           (mygit.init sample_path fresh_repo).2 (Ok tt)).
  apply pair_fst. by vm_compute.
Defined.

(** * commit, read back through the repository's own readers *)

(** X19: after a commit that creates a commit object, the current branch
    resolves to the new commit id, the object store returns the commit
    object under that id, and the index reads back empty. *)
Theorem X19_commit_then_read_back `{Zlib} `{!ZlibLaws H} (path : FS.path)
    (message author : string) (now : Z) (w w1 : world) (treeHash br : string)
    (parent : option string) (index : Index) :
  let o := commit_object message author now treeHash parent in
  let ref := Repository.headsDir path ++ [br] in
  dirs_exist (files w) (Repository.objectsDir path) ->
  Repository.createTreeFromIndex path w = (Ok treeHash, w1) ->
  Repository.getCurrentBranch path w1 = (Ok br, w1) ->
  Repository.getBranchCommit path br w1 = (Ok parent, w1) ->
  Repository.loadIndex path w1 = (Ok index, w1) ->
  index <> [] ->
  parent_tree path now (files w1) parent <> Some treeHash ->
  plain br ->
  files w1 !! Repository.objectFile path (GitObject.hash o) = None ->
  (forall d, files w1 !! (Repository.objectsDir path
                            ++ [Str.slice_to 2 (GitObject.hash o)])
             <> Some (FS.File d)) ->
  files w1 !! Repository.headsDir path = Some FS.Dir ->
  files w1 !! ref <> Some FS.Dir ->
  files w1 !! Repository.indexFile path <> Some FS.Dir ->
  exists w',
    Repository.commit path message author now w
    = (Ok (Some (GitObject.hash o)), w')
    /\ Repository.getBranchCommit path br w'
       = (Ok (Some (GitObject.hash o)), w')
    /\ Repository.loadObject path (GitObject.hash o) w' = (Ok o, w')
    /\ Repository.loadIndex path w' = (Ok [], w').
Proof.
  intros o ref Hdirs H1 H2 H3 H4 Hne Hpt Hbr Hobj Hdir Hheads Href Hidx.
  pose proof (stores_only_createTreeFromIndex path w Hdirs) as [Hdirs1 _].
  rewrite H1 in Hdirs1. cbn [snd] in Hdirs1.
  pose proof (commit_cases path message author now w w1 treeHash br parent
                index H1 H2 H3 H4) as Hc.
  rewrite (bool_decide_eq_false_2 (index = [])) in Hc by done.
  rewrite (bool_decide_eq_false_2 (_ = Some treeHash)) in Hc by done.
  cbn [orb] in Hc.
  destruct (commit_writes path w1 o br Hdirs1 Hbr Hobj Hdir Hheads Href Hidx)
    as (w' & Ec & Eo & Er & Ei).
  exists w'. split; [by rewrite Hc|]. split; [|split].
  - apply getBranchCommit_line; [done| |exact Er].
    apply hex40_solid, hexdigest_hex40.
  - apply loadObject_stored; [done..|].
    etrans; [|exact Eo]. apply lookup_objectFile, hexdigest_hex40.
  - exact (loadIndex_saved path w' [] Ei).
Qed.

Lemma X19_witness :
  exists (h : string) (o : GitObject.t) (w' : world),
    @Repository.commit sample_zlib sample_path "two"
      "PyGit user <user@pygit.com>" 1700000300 staged_b_repo
    = (Ok (Some h), w')
    /\ @Repository.getBranchCommit sample_path "master" w' = (Ok (Some h), w')
    /\ @Repository.loadObject sample_zlib sample_path h w' = (Ok o, w')
    /\ Repository.loadIndex sample_path w' = (Ok [], w').
Proof.
  destruct (X19_commit_then_read_back (H := sample_zlib)
              (ZlibLaws0 := sample_zlib_laws) sample_path "two"
              "PyGit user <user@pygit.com>" 1700000300 staged_b_repo
              (@Repository.createTreeFromIndex sample_zlib sample_path
                 staged_b_repo).2
              id_tree_b "master" (Some id_commit_one)
              [("b"%string, id_blob_b)])
    as (w' & Ec & Er & Eo & Ei).
  - intros q Hq [k Hk].
    destruct q as [|a [|b [|c [|d q]]]]; vm_compute in Hk; simplify_eq/=;
      by vm_compute.
  - apply pair_fst. by vm_compute.
  - apply reads_run; [apply reads_getCurrentBranch|]. by vm_compute.
  - apply reads_run; [apply reads_getBranchCommit|]. by vm_compute.
  - apply reads_run; [apply reads_loadIndex|]. by vm_compute.
  - done.
  - intros Hn. vm_compute in Hn. done.
  - by vm_compute.
  - by vm_compute.
  - intros d. vm_compute. done.
  - by vm_compute.
  - vm_compute. done.
  - vm_compute. done.
  - eexists _, _, w'. split; [exact Ec|]. split; [exact Er|].
    split; [exact Eo|exact Ei].
Defined.

(** * What commit leaves alone *)

Lemma mkdirs_frame (fs fs' : gmap FS.path FS.node) (pre todo p : FS.path) :
  FS.mkdirs fs pre todo = Some fs' ->
  fs' !! p = fs !! p
  \/ (fs !! p = None
      /\ exists k, k <> [] /\ k `prefix_of` todo /\ p = pre ++ k).
Proof.
  revert fs pre. induction todo as [|c todo IH]; intros fs pre; simpl.
  - intros [= ->]. by left.
  - assert (Hk : forall k, k <> [] -> k `prefix_of` todo ->
                   exists k', k' <> [] /\ k' `prefix_of` c :: todo
                              /\ (pre ++ [c]) ++ k = pre ++ k').
    { intros k Hk Hp. exists (c :: k). split; [done|]. split.
      - by apply prefix_cons.
      - by rewrite <- app_assoc. }
    destruct (fs !! (pre ++ [c])) as [[d|]|] eqn:E; [done| |].
    + intros Hm. destruct (IH _ _ Hm) as [?|(Hn & k & Hk1 & Hk2 & ->)];
        [by left|right].
      split; [done|]. by apply Hk.
    + intros Hm. destruct (decide (p = pre ++ [c])) as [->|Hp].
      * right. split; [done|]. exists [c]. split; [done|]. split; [|done].
        apply prefix_cons, prefix_nil.
      * assert (Ei : <[pre ++ [c] := FS.Dir]> fs !! p = fs !! p)
          by (by apply lookup_insert_ne).
        destruct (IH _ _ Hm) as [E'|(Hn & k & Hk1 & Hk2 & Ep)].
        { left. etrans; [exact E'|exact Ei]. }
        right. split; [etrans; [symmetry; exact Ei|exact Hn]|].
        destruct (Hk k Hk1 Hk2) as (k' & ? & ? & Ek). exists k'.
        split; [done|]. split; [done|]. etrans; [exact Ep|exact Ek].
Qed.

Lemma prefix_app_cases {A} (k a b : list A) :
  k `prefix_of` a ++ b -> k `prefix_of` a \/ exists q, q <> [] /\ k = a ++ q.
Proof.
  revert k. induction a as [|x a IH]; intros k Hk; simpl in *.
  - destruct k as [|y k]; [left; apply prefix_nil|right].
    exists (y :: k). by split.
  - destruct k as [|y k]; [left; apply prefix_nil|].
    destruct Hk as [r Hr]. injection Hr as <- Hr.
    destruct (IH k) as [Hp|(q & Hq & ->)]; [by exists r| |].
    + left. by apply prefix_cons.
    + right. by exists q.
Qed.

Lemma writeFileSync_dirs (p base : FS.path) (data : Buffer) (w : world) :
  dirs_exist (files w) base ->
  dirs_exist (files (writeFileSync p data w).2) base.
Proof.
  intros Hd. unfold writeFileSync.
  destruct (FS.lookup (files w) p) as [[d|]|] eqn:E; [|done|].
  all: destruct (FS.lookup (files w) (FS.dirname p)) as [[d'|]|]; try done.
  all: cbn [snd files]; intros q Hq Hpre.
  all: rewrite lookup_insert_ne; [by apply Hd|].
  all: intros <-; destruct p; [done|]; simpl in E.
  all: pose proof (Hd _ Hq Hpre) as Hd'.
  all: by assert (X : Some FS.Dir = _) by (etrans; [symmetry; exact Hd'|exact E]).
Qed.

Lemma writeFileSync_frame (p q : FS.path) (data : Buffer) (w : world) :
  q <> p -> files (writeFileSync p data w).2 !! q = files w !! q.
Proof.
  intros Hq. unfold writeFileSync.
  destruct (FS.lookup (files w) p) as [[d|]|]; [|done|].
  all: destruct (FS.lookup (files w) (FS.dirname p)) as [[d'|]|]; try done.
  all: cbn [snd files]; by apply lookup_insert_ne.
Qed.

Section GitOnly.
Context `{Zlib} (path : FS.path).

Lemma git_only_stores {A} (m : M A) : stores_only path m -> git_only path m.
Proof.
  intros Hm w Hd. destruct (Hm w Hd) as [Hd1 Hf]. split; [done|].
  intros p Hp. apply Hf. intros (q & Hq & ->). apply Hp.
  rewrite objectsDir_eq, <- app_assoc. by eexists (_ :: _).
Qed.

Lemma git_only_bind {A B} (m : M A) (k : A -> M B) :
  git_only path m -> (forall a, git_only path (k a)) ->
  git_only path (bind m k).
Proof.
  intros Hm Hk w Hd. unfold bind. destruct (Hm w Hd) as [Hd1 Hf1].
  destruct (m w) as [[a|e|] w1]; simpl in *; try done.
  destruct (Hk a w1 Hd1) as [Hd2 Hf2]. split; [done|].
  intros p Hp. by rewrite Hf2, Hf1.
Qed.

Lemma git_only_reads {A} (m : M A) : reads m -> git_only path m.
Proof. intros Hm w Hd. by rewrite (Hm w). Qed.

Lemma git_only_log (line : string) : git_only path (log line).
Proof. by intros w Hd. Qed.

Lemma git_only_write (s : list string) (data : Buffer) :
  s <> [] -> git_only path (writeFileSync (Repository.gitDir path ++ s) data).
Proof.
  intros Hs w Hd. split; [by apply writeFileSync_dirs|].
  intros p Hp. apply writeFileSync_frame. intros ->. apply Hp. by exists s.
Qed.

Lemma git_only_mkdir (s : list string) :
  git_only path (mkdirSync (Repository.gitDir path ++ s)).
Proof.
  intros w Hd. unfold mkdirSync.
  destruct (FS.mkdirs _ _ _) as [fs|] eqn:E; [|done]. cbn [snd files].
  assert (Hg : forall q, q <> [] -> q `prefix_of` Repository.gitDir path ->
                 files w !! q = Some FS.Dir).
  { intros q Hq Hpre. apply Hd; [done|]. etrans; [exact Hpre|].
    rewrite objectsDir_eq. by eexists. }
  split.
  - intros q Hq Hpre.
    destruct (mkdirs_frame _ _ _ _ q E) as [Es|[Hn _]].
    + etrans; [exact Es|]. by apply Hd.
    + pose proof (Hd q Hq Hpre) as Hd'.
      by assert (X : Some FS.Dir = None)
        by (etrans; [symmetry; exact Hd'|exact Hn]).
  - intros p Hp.
    destruct (mkdirs_frame _ _ _ _ p E) as [Es|(Hn & k & Hk & Hpre & ->)];
      [done|].
    simpl in *. destruct (prefix_app_cases _ _ _ Hpre) as [Hin|(q & Hq & ->)].
    + pose proof (Hg k Hk Hin) as Hd'.
      by assert (X : Some FS.Dir = None)
        by (etrans; [symmetry; exact Hd'|exact Hn]).
    + destruct Hp. by exists q.
Qed.

Lemma git_only_setBranchCommit (b h : string) :
  plain b -> git_only path (Repository.setBranchCommit path b h).
Proof.
  intros Hb. unfold Repository.setBranchCommit. cbv zeta.
  rewrite (join_plain _ _ Hb), dirname_snoc, headsDir_eq.
  apply git_only_bind.
  - unfold ensureDirSync. apply git_only_bind.
    + apply git_only_reads. by intros w.
    + intros [|]; [by intros w|]. apply (git_only_mkdir ["refs"; "heads"]%string).
  - intros _. rewrite <- app_assoc. by apply git_only_write.
Qed.

Lemma git_only_saveIndex (idx : Index) :
  git_only path (Repository.saveIndex path idx).
Proof.
  unfold Repository.saveIndex. rewrite indexFile_eq.
  by apply git_only_write.
Qed.

End GitOnly.

(** X20: in a repository whose directories exist and whose HEAD names a
    branch that is a plain file name, [commit] changes nothing outside
    [.git], whatever it returns or throws: the working tree is left
    alone. *)
Theorem X20_commit_keeps_working_tree `{Zlib} (path : FS.path)
    (message author : string) (now : Z) (w : world) :
  dirs_exist (files w) (Repository.objectsDir path) ->
  (forall b, (Repository.getCurrentBranch path w).1 = Ok b -> plain b) ->
  forall p, ~ below (Repository.gitDir path) p ->
    files (Repository.commit path message author now w).2 !! p = files w !! p.
Proof.
  intros Hd Hb p Hp.
  destruct (stores_only_createTreeFromIndex path w Hd) as [Hd1 Hs1].
  assert (Hf1 : forall q, ~ below (Repository.gitDir path) q ->
                  files (Repository.createTreeFromIndex path w).2 !! q
                  = files w !! q).
  { intros q Hq. apply Hs1. intros (k & Hk & ->). apply Hq.
    rewrite objectsDir_eq, <- app_assoc. by eexists (_ :: _). }
  assert (Eb : (Repository.getCurrentBranch path
                  (Repository.createTreeFromIndex path w).2).1
               = (Repository.getCurrentBranch path w).1).
  { apply getCurrentBranch_agree. rewrite headFile_eq, !lookup_snoc.
    apply Hs1. apply not_below_objects. done. }
  unfold Repository.commit. unfold bind at 1.
  destruct (Repository.createTreeFromIndex path w) as [[t|e|] w1];
    cbn [snd] in *; try by apply Hf1.
  rewrite <- (Hf1 p Hp). unfold bind at 1.
  rewrite (reads_getCurrentBranch path w1).
  rewrite (reads_getCurrentBranch path w1) in Eb. cbn [fst] in Eb.
  destruct (Repository.getCurrentBranch path (World (files w1) [])).1
    as [br|e|]; try done.
  assert (Hbr : plain br) by (by apply Hb).
  match goal with
  | |- files (?m w1).2 !! p = _ => assert (Hg : git_only path m)
  end; [|by apply Hg].
  apply git_only_bind; [apply git_only_reads, reads_getBranchCommit|].
  intros parent. cbv zeta.
  apply git_only_bind; [apply git_only_reads, reads_loadIndex|].
  intros [|e index].
  { apply git_only_bind; [apply git_only_log|]. by intros _ w' Hd'. }
  apply git_only_bind.
  { intros w' Hd'. by rewrite same_tree_check. }
  intros [|].
  { apply git_only_bind; [apply git_only_log|]. by intros _ w' Hd'. }
  apply git_only_bind;
    [apply git_only_stores, stores_only_storeObject|].
  intros h. apply git_only_bind; [by apply git_only_setBranchCommit|].
  intros _. apply git_only_bind; [apply git_only_saveIndex|].
  intros _. apply git_only_bind; [apply git_only_log|]. by intros _ w' Hd'.
Qed.

Lemma X20_witness :
  files (@Repository.commit sample_zlib sample_path "two"
           "PyGit user <user@pygit.com>" 1700000300 staged_b_repo).2
  !! (sample_path ++ ["b"%string])
  = files staged_b_repo !! (sample_path ++ ["b"%string]).
Proof.
  apply (X20_commit_keeps_working_tree (H := sample_zlib)).
  - intros q Hq [k Hk].
    destruct q as [|a [|b [|c [|d q]]]]; vm_compute in Hk; simplify_eq/=;
      by vm_compute.
  - intros b Eb. vm_compute in Eb. injection Eb as <-. by vm_compute.
  - intros (q & Hq & E). vm_compute in E. by destruct q.
Defined.

(** * restoreTree on a tree of files *)

Section RestoreFlat.
Context `{Zlib} `{!ZlibLaws H} (path dir : FS.path).

Lemma loadObject_of_stored (o : GitObject.t) (w : world) :
  contains " " (GitObject.type o) = false ->
  contains Str.NUL (GitObject.type o) = false ->
  stored path (files w) o ->
  Repository.loadObject path (GitObject.hash o) w = (Ok o, w).
Proof.
  intros Hsp Hnul Hst. apply loadObject_stored; [done..|].
  etrans; [|exact Hst]. apply lookup_objectFile, hexdigest_hex40.
Qed.

Lemma stored_frame (o : GitObject.t) (fs fs' : gmap FS.path FS.node) :
  (forall p, below (Repository.objectsDir path) p -> fs' !! p = fs !! p) ->
  stored path fs o -> stored path fs' o.
Proof.
  intros Hf Hst. unfold stored. etrans; [|exact Hst].
  apply Hf, objectFile_below, hexdigest_hex40.
Qed.

Lemma restoreTree_loop_files (recur : string -> FS.path -> M unit)
    (ncs : list (string * Buffer)) (w : world) :
  Forall (fun nc => plain nc.1) ncs ->
  Forall (fun nc => stored path (files w) (Blob.new nc.2)) ncs ->
  Forall (fun nc => files w !! (dir ++ [nc.1]) <> Some FS.Dir) ncs ->
  Forall (fun nc => ~ below (Repository.objectsDir path) (dir ++ [nc.1])) ncs ->
  FS.lookup (files w) dir = Some FS.Dir ->
  exists w',
    Repository.restoreTree_loop path recur dir
      (map parsed_of (map blob_entry ncs)) w = (Ok tt, w')
    /\ console w' = console w
    /\ (forall p, p ∉ map (fun nc => dir ++ [nc.1]) ncs ->
                  files w' !! p = files w !! p)
    /\ (forall p, p ∈ map (fun nc => dir ++ [nc.1]) ncs ->
                  exists nc, nc ∈ ncs /\ p = dir ++ [nc.1]
                             /\ files w' !! p = Some (FS.File nc.2))
    /\ (NoDup (map fst ncs) ->
        forall nc, nc ∈ ncs -> files w' !! (dir ++ [nc.1]) = Some (FS.File nc.2)).
Proof.
  revert w. induction ncs as [|[n c] ncs IH]; intros w Hpl Hst Hnd Hnb Hdir.
  - exists w. split; [done|]. split; [done|]. split; [done|].
    split; [|by intros _ nc Hin%elem_of_nil].
    by intros p Hin%elem_of_nil.
  - apply Forall_cons in Hpl as [Hn Hpl]. apply Forall_cons in Hst as [Hc Hst].
    apply Forall_cons in Hnd as [Hd Hnd]. apply Forall_cons in Hnb as [Hb Hnb].
    simpl in Hn, Hc, Hd, Hb.
    set (w1 := World (<[dir ++ [n] := FS.File c]> (files w)) (console w)).
    assert (Hfr : forall p, p <> dir ++ [n] -> files w1 !! p = files w !! p).
    { intros p Hp. cbn [w1 files]. by apply lookup_insert_ne. }
    destruct (IH w1) as (w' & Er & Hcons & Hout & Hin & Hall).
    + done.
    + eapply Forall_impl; [exact Hst|]. intros nc Hs.
      apply (stored_frame _ (files w)); [|done].
      intros p Hp. apply Hfr. by intros ->.
    + rewrite Forall_forall in Hnd |- *. intros nc Hnc.
      destruct (decide (dir ++ [nc.1] = dir ++ [n])) as [E|Hne].
      * rewrite E. cbn [w1 files]. rewrite lookup_insert_eq. done.
      * rewrite Hfr by done. by apply Hnd.
    + done.
    + destruct dir as [|d0 dir0] eqn:Ed; [done|]. rewrite <- Ed in *.
      assert (Hne : dir <> dir ++ [n]).
      { intros E. apply (f_equal length) in E. rewrite length_app in E.
        simpl in E. lia. }
      rewrite Ed. cbn [FS.lookup]. rewrite <- Ed. rewrite Hfr by done.
      rewrite Ed in Hdir. cbn [FS.lookup] in Hdir. by rewrite <- Ed in Hdir.
    + exists w'. split; [|split; [done|split; [|split]]].
      * cbn [map Repository.restoreTree_loop parsed_of blob_entry
               Tree.p_name Tree.name Tree.mode Tree.p_mode Tree.hashHex
               Tree.p_hashHex fst snd].
        cbv zeta. rewrite (join_plain _ _ Hn).
        change (Str.startsWith "100" "100644") with true. cbv iota.
        rewrite (bind_ok _ _ w w1 tt); [exact Er|].
        rewrite (bind_ok _ _ w w (Blob.new c));
          [|by apply loadObject_of_stored].
        by apply writeFileSync_ok.
      * intros p Hp. rewrite Hout.
        -- apply Hfr. intros ->. apply Hp. simpl. apply elem_of_cons. by left.
        -- intros Hp'. apply Hp. simpl. apply elem_of_cons. by right.
      * intros p Hp. simpl in Hp.
        destruct (decide (p ∈ map (fun nc => dir ++ [nc.1]) ncs)) as [Hp'|Hp'].
        -- destruct (Hin p Hp') as (nc & Hnc & -> & Hf). exists nc.
           split; [apply elem_of_cons; by right|done].
        -- apply elem_of_cons in Hp as [->|Hp]; [|done].
           exists (n, c). split; [apply elem_of_cons; by left|].
           split; [done|]. rewrite Hout by done. cbn [w1 files].
           apply lookup_insert_eq.
      * intros Hnodup nc Hnc. simpl in Hnodup.
        apply NoDup_cons in Hnodup as [Hnot Hnodup].
        apply elem_of_cons in Hnc as [->|Hnc]; [|by apply Hall].
        simpl. rewrite Hout; [cbn [w1 files]; apply lookup_insert_eq|].
        intros Hp. apply list_elem_of_In, in_map_iff in Hp as (nc & E & Hnc).
        apply app_inv_head in E. injection E as E. apply Hnot.
        rewrite <- E. apply list_elem_of_In, in_map. exact Hnc.
Qed.

End RestoreFlat.

(** X21: [restoreTree] on a stored tree of regular files whose blobs are
    stored writes, under the directory given, one file per entry with the
    bytes of its blob, prints nothing and changes nothing else. The names
    are plain file names without space or zero byte, no two the same;
    the directory exists, no entry is a directory there, and the files
    written are not in the object store. *)
Theorem X21_restoreTree_writes_files `{Zlib} `{!ZlibLaws H}
    (path dir : FS.path) (fuel : nat) (ncs : list (string * Buffer))
    (w : world) :
  let tree := Tree.object (Tree.new (map blob_entry ncs)) in
  Forall (fun nc => plain nc.1 /\ contains Str.SP nc.1 = false
                    /\ contains Str.NUL nc.1 = false) ncs ->
  NoDup (map fst ncs) ->
  stored path (files w) tree ->
  Forall (fun nc => stored path (files w) (Blob.new nc.2)) ncs ->
  Forall (fun nc => files w !! (dir ++ [nc.1]) <> Some FS.Dir) ncs ->
  Forall (fun nc => ~ below (Repository.objectsDir path) (dir ++ [nc.1])) ncs ->
  FS.lookup (files w) dir = Some FS.Dir ->
  exists w',
    Repository.restoreTree path (S fuel) (GitObject.hash tree) dir w
    = (Ok tt, w')
    /\ console w' = console w
    /\ (forall nc, nc ∈ ncs -> files w' !! (dir ++ [nc.1]) = Some (FS.File nc.2))
    /\ (forall p, (forall nc, nc ∈ ncs -> p <> dir ++ [nc.1]) ->
                  files w' !! p = files w !! p).
Proof.
  intros tree Hnames Hnodup Htree Hblobs Hnd Hnb Hdir.
  assert (Hwf : Forall well_formed (map blob_entry ncs)).
  { apply Forall_forall. intros e He.
    apply list_elem_of_In, in_map_iff in He as (nc & <- & Hnc).
    rewrite Forall_forall in Hnames. apply list_elem_of_In in Hnc.
    destruct (Hnames nc Hnc) as (_ & Hsp & Hnul).
    split; [done|]. split; [done|]. split; [done|]. split; [done|].
    apply hexdigest_hex40. }
  pose proof (sort_perm (map blob_entry ncs)) as Hperm.
  symmetry in Hperm.
  apply Permutation_map_inv in Hperm as (ncs' & Es & Hp).
  destruct (restoreTree_loop_files path dir (Repository.restoreTree path fuel)
              ncs' w) as (w' & Er & Hcons & Hout & _ & Hall).
  - rewrite <- Hp. eapply Forall_impl; [exact Hnames|]. by intros nc [? _].
  - by rewrite <- Hp.
  - by rewrite <- Hp.
  - by rewrite <- Hp.
  - done.
  - exists w'. split; [|split; [done|split]].
    + cbn [Repository.restoreTree].
      rewrite (bind_ok _ _ w w tree) by (by apply loadObject_of_stored).
      cbv zeta. subst tree. cbn [Tree.object GitObject.content].
      rewrite (fromContent_new _ Hwf), Es. exact Er.
    + intros nc Hnc. apply Hall; [by rewrite <- Hp|by rewrite <- Hp].
    + intros p Hne. apply Hout. intros Hin.
      apply list_elem_of_In, in_map_iff in Hin as (nc & E & Hnc).
      apply (Hne nc); [|done]. rewrite Hp. by apply list_elem_of_In.
Qed.

Lemma X21_witness :
  let ncs := [("a"%string, Buf.from "A")] in
  exists w',
    @Repository.restoreTree sample_zlib sample_path 1
      (GitObject.hash (Tree.object (Tree.new (map blob_entry ncs))))
      sample_path one_commit_repo
    = (Ok tt, w')
    /\ files w' !! (sample_path ++ ["a"%string])
       = Some (FS.File (Buf.from "A")).
Proof.
  intros ncs.
  destruct (X21_restoreTree_writes_files (H := sample_zlib)
              (ZlibLaws0 := sample_zlib_laws) sample_path sample_path 0 ncs
              one_commit_repo) as (w' & Er & _ & Hall & _).
  - apply Forall_cons. split; [|by apply Forall_nil].
    split; [|by vm_compute]. split; [by vm_compute|]. by vm_compute.
  - apply NoDup_cons. split; [|apply NoDup_nil; done].
    by intros Hin%elem_of_nil.
  - by vm_compute.
  - apply Forall_cons. split; [by vm_compute|by apply Forall_nil].
  - apply Forall_cons. split; [by vm_compute|by apply Forall_nil].
  - apply Forall_cons. split; [|by apply Forall_nil].
    intros (q & Hq & E). vm_compute in E. by destruct q.
  - by vm_compute.
  - exists w'. split; [exact Er|]. apply (Hall ("a"%string, Buf.from "A")).
    apply elem_of_cons. by left.
Defined.

(** * buildIndexFromTree and getFilesFromTreeRecursive *)

Lemma elem_of_keys_set_own (k f v : string) (o : Index) :
  f ∈ JS.keys (Repository.set_own k v o)
  <-> (f = k /\ f <> "__proto__"%string) \/ f ∈ JS.keys o.
Proof.
  unfold Repository.set_own, JS.set_prim.
  destruct (String.eqb_spec k "__proto__") as [->|Hne]; cbn [andb].
  - case_bool_decide as Hown; cbn [negb].
    + rewrite elem_of_keys_set. split; [|tauto].
      intros [->|?]; [right|by right].
      apply elem_of_keys_get. by destruct Hown as [x ->].
    + tauto.
  - rewrite elem_of_keys_set. split; [|tauto].
    intros [->|?]; [by left|by right].
Qed.

Lemma elem_of_keys_assign (f : string) (sub : Index) :
  forall index,
    f ∈ JS.keys (Repository.assign index sub)
    <-> (f ∈ JS.keys sub /\ f <> "__proto__"%string) \/ f ∈ JS.keys index.
Proof.
  unfold Repository.assign.
  induction sub as [|[k v] sub IH]; intros index; simpl.
  - rewrite elem_of_nil. tauto.
  - rewrite IH, elem_of_keys_set_own, elem_of_cons. simpl. tauto.
Qed.

Lemma bind_run {A B} (m : M A) (k : A -> M B) (w : world) :
  bind m k w
  = match m w with
    | (Ok a, w') => k a w'
    | (Throw e, w') => (Throw e, w')
    | (Timeout, w') => (Timeout, w')
    end.
Proof. reflexivity. Qed.

Section BuildIndex.
Context `{Zlib} (path : FS.path).

Lemma buildIndex_loop_names
    (recurF : string -> string -> M (list string))
    (recurI : string -> string -> M Index) (prefix : string)
    (entries : list Tree.parsed) :
  (forall h pfx w r w',
     recurF h pfx w = (r, w') ->
     exists ri, recurI h pfx w = (ri, w')
       /\ match r, ri with
          | Ok fs, Ok idx => names_of idx fs
          | Throw e, Throw e' => e = e'
          | Timeout, Timeout => True
          | _, _ => False
          end) ->
  forall files index w r w',
    names_of index files ->
    Repository.getFiles_loop recurF prefix entries files w = (r, w') ->
    exists ri,
      Repository.buildIndex_loop recurI prefix entries index w = (ri, w')
      /\ match r, ri with
         | Ok fs, Ok idx => names_of idx fs
         | Throw e, Throw e' => e = e'
         | Timeout, Timeout => True
         | _, _ => False
         end.
Proof.
  intros Hrec. induction entries as [|e entries IH];
    intros files index w r w' Hn; simpl.
  - intros [= <- <-]. by exists (Ok index).
  - destruct (Str.startsWith "100" (Tree.p_mode e)).
    { apply IH. intros f. rewrite elem_of_keys_set_own, elem_of_set_add.
      rewrite (Hn f). tauto. }
    destruct (Str.startsWith "400" (Tree.p_mode e)); [|by apply IH].
    unfold bind at 1. unfold bind at 1.
    destruct (recurF _ _ w) as [rs w1] eqn:Es.
    destruct (Hrec _ _ _ _ _ Es) as (ri & -> & Hr).
    destruct rs as [sub|ex|], ri as [idx|ex'|]; try done.
    + apply IH. intros f.
      rewrite elem_of_keys_assign, elem_of_fold_set_add, (Hn f), (Hr f). tauto.
    + intros [= <- <-]. exists (Throw ex'). by subst.
    + intros [= <- <-]. by exists Timeout.
Qed.

Lemma buildIndex_names (fuel : nat) :
  forall treeHash prefix w r w',
    Repository.getFilesFromTreeRecursive path fuel treeHash prefix w = (r, w') ->
    exists ri,
      Repository.buildIndexFromTree path fuel treeHash prefix w = (ri, w')
      /\ match r, ri with
         | Ok fs, Ok idx => names_of idx fs
         | Throw e, Throw e' => e = e'
         | Timeout, Timeout => True
         | _, _ => False
         end.
Proof.
  induction fuel as [|fuel IH]; intros treeHash prefix w r w'.
  - intros [= <- <-]. by exists Timeout.
  - cbn [Repository.getFilesFromTreeRecursive Repository.buildIndexFromTree].
    unfold try_catch.
    rewrite !(bind_run (Repository.loadObject path treeHash)).
    rewrite (loadObject_object_at path treeHash w).
    destruct (object_at path (files w) treeHash) as [o|ex|].
    + destruct (Repository.getFiles_loop _ _ _ _ w) as [rl wl] eqn:El.
      destruct (buildIndex_loop_names _ _ prefix
                  (Tree.fromContent (GitObject.content o)) IH [] [] w rl wl)
        as (ri & Ei & Hr); [|exact El|].
      { intros f. simpl. rewrite !elem_of_nil. tauto. }
      rewrite Ei.
      destruct rl as [fs|e|], ri as [idx|e'|]; try done.
      * intros [= <- <-]. by exists (Ok idx).
      * subst e'. unfold bind, log, ret. intros [= <- <-]. exists (Ok []).
        split; [done|]. intros f. simpl. rewrite !elem_of_nil. tauto.
      * intros [= <- <-]. by exists Timeout.
    + unfold bind, log, ret. intros [= <- <-]. exists (Ok []).
      split; [done|]. intros f. simpl. rewrite !elem_of_nil. tauto.
    + intros [= <- <-]. by exists Timeout.
Qed.

End BuildIndex.

(** X22: on the same tree and prefix, [buildIndexFromTree] succeeds
    where [getFilesFromTreeRecursive] does, prints the same warnings, and
    the keys of its index are the names that
    [getFilesFromTreeRecursive] returns, but for the name [__proto__],
    which is never a key of the index. *)
Theorem X22_buildIndexFromTree_names `{Zlib} (path : FS.path) (fuel : nat)
    (treeHash prefix : string) (w : world) (fs : list string) :
  (Repository.getFilesFromTreeRecursive path fuel treeHash prefix w).1
  = Ok fs ->
  exists idx,
    Repository.buildIndexFromTree path fuel treeHash prefix w
    = (Ok idx,
       (Repository.getFilesFromTreeRecursive path fuel treeHash prefix w).2)
    /\ forall f, f ∈ JS.keys idx <-> f ∈ fs /\ f <> "__proto__"%string.
Proof.
  intros Hf. apply pair_fst in Hf.
  destruct (buildIndex_names path fuel _ _ _ _ _ Hf)
    as ([idx|e|] & Ei & Hr); [|done..].
  by exists idx.
Qed.

Lemma X22_witness :
  exists idx,
    @Repository.buildIndexFromTree sample_zlib sample_path 1 id_tree_b ""
      feat_repo
    = (Ok idx,
       (@Repository.getFilesFromTreeRecursive sample_zlib sample_path 1
          id_tree_b "" feat_repo).2)
    /\ forall f, f ∈ JS.keys idx
                 <-> f ∈ ["b"%string] /\ f <> "__proto__"%string.
Proof.
  apply (X22_buildIndexFromTree_names (H := sample_zlib)). by vm_compute.
Defined.

(** * The message of a commit that is read back *)

Lemma scan_to_empty (pre post : list string) :
  ""%string ∉ pre ->
  forall i h,
    Commit.h_messageStart (Commit.scan (pre ++ ""%string :: post) i h)
    = S (i + length pre).
Proof.
  induction pre as [|line pre IH]; intros Hpre i h.
  - simpl. f_equal. lia.
  - apply not_elem_of_cons in Hpre as [Hne Hpre].
    rewrite <- app_comm_cons. cbn [Commit.scan length].
    replace (S (i + S (length pre))) with (S (S i + length pre)) by lia.
    destruct (Str.startsWith "tree " line); [by apply IH|].
    destruct (Str.startsWith "parent " line); [by apply IH|].
    destruct (Str.startsWith "author " line); [by apply IH|].
    destruct (Str.startsWith "committer " line); [by apply IH|].
    destruct (String.eqb_spec line EmptyString) as [->|_]; [done|].
    by apply IH.
Qed.

Lemma scan_no_empty (lines : list string) :
  ""%string ∉ lines ->
  forall i h,
    Commit.h_messageStart (Commit.scan lines i h) = Commit.h_messageStart h.
Proof.
  induction lines as [|line lines IH]; intros Hl i h; [done|].
  apply not_elem_of_cons in Hl as [Hne Hl]. cbn [Commit.scan].
  destruct (Str.startsWith "tree " line); [by rewrite IH|].
  destruct (Str.startsWith "parent " line); [by rewrite IH|].
  destruct (Str.startsWith "author " line); [by rewrite IH|].
  destruct (Str.startsWith "committer " line); [by rewrite IH|].
  destruct (String.eqb_spec line EmptyString) as [->|_]; [done|].
  by apply IH.
Qed.

(** X23: the message that [Commit.fromContent] reads is the text after
    the first empty line of the payload, with its own newlines and empty
    lines kept. *)
Theorem X23_message_after_first_empty_line (content : Buffer) (now : Z)
    (pre post : list string) :
  Str.split Str.LF (Buf.toString content) = pre ++ ""%string :: post ->
  ""%string ∉ pre ->
  Commit.message (Commit.fromContent content now) = Str.join Str.lf post.
Proof.
  intros Hl Hpre. unfold Commit.fromContent. cbv zeta.
  cbn [Commit.new Commit.message]. rewrite Hl, scan_to_empty by done.
  f_equal.
  replace (S (0 + length pre)) with (length (pre ++ [""%string]))
    by (rewrite length_app; simpl; lia).
  by rewrite (cons_middle ""%string pre post), app_assoc, drop_app_length.
Qed.

Lemma X23_witness :
  Commit.message
    (Commit.fromContent
       (Buf.from ("tree abc" +:+ Str.lf +:+ Str.lf +:+ "first" +:+ Str.lf
                    +:+ Str.lf +:+ "tree xyz")) 0)
  = Str.join Str.lf ["first"%string; ""%string; "tree xyz"%string].
Proof.
  apply (X23_message_after_first_empty_line _ 0 ["tree abc"%string]).
  - by vm_compute.
  - intros Hin. apply list_elem_of_singleton in Hin. discriminate.
Defined.

(** X24: a payload with no empty line has no header as far as the
    message goes: the message that [Commit.fromContent] reads is the whole
    text, header lines included. *)
Theorem X24_message_without_empty_line (content : Buffer) (now : Z) :
  ""%string ∉ Str.split Str.LF (Buf.toString content) ->
  Commit.message (Commit.fromContent content now) = Buf.toString content.
Proof.
  intros Hl. unfold Commit.fromContent. cbv zeta.
  cbn [Commit.new Commit.message]. rewrite scan_no_empty by done.
  cbn [Commit.h_messageStart drop]. apply join_split.
Qed.

Lemma X24_witness :
  Commit.message
    (Commit.fromContent (Buf.from ("tree abc" +:+ Str.lf +:+ "hello")) 0)
  = Buf.toString (Buf.from ("tree abc" +:+ Str.lf +:+ "hello")).
Proof.
  apply X24_message_without_empty_line. vm_compute.
  intros Hin. apply elem_of_cons in Hin as [Hin|Hin]; [discriminate|].
  apply list_elem_of_singleton in Hin. discriminate.
Defined.

(** * What restoreTree never does *)

Lemma keeps_paths_refl (fs : gmap FS.path FS.node) : keeps_paths fs fs.
Proof. intros p. split; [done|]. intros d Hd. by exists d. Qed.

Lemma keeps_paths_trans (fs1 fs2 fs3 : gmap FS.path FS.node) :
  keeps_paths fs1 fs2 -> keeps_paths fs2 fs3 -> keeps_paths fs1 fs3.
Proof.
  intros H12 H23 p. destruct (H12 p) as [Hd Hf], (H23 p) as [Hd' Hf'].
  split; [by intros ?%Hd%Hd'|].
  intros d [d' E]%Hf. by apply (Hf' d').
Qed.

Lemma growing_ret {A} (a : A) : growing (ret a).
Proof. intros w. apply keeps_paths_refl. Qed.

Lemma growing_throw {A} (e : exn) : growing (@throw A e).
Proof. intros w. apply keeps_paths_refl. Qed.

Lemma growing_reads {A} (m : M A) : reads m -> growing m.
Proof. intros Hm w. rewrite (Hm w). apply keeps_paths_refl. Qed.

Lemma growing_bind {A B} (m : M A) (k : A -> M B) :
  growing m -> (forall a, growing (k a)) -> growing (bind m k).
Proof.
  intros Hm Hk w. unfold bind. pose proof (Hm w) as H1.
  destruct (m w) as [[a|e|] w1]; simpl in *; try done.
  eapply keeps_paths_trans; [exact H1|apply Hk].
Qed.

Lemma growing_writeFileSync (p : FS.path) (data : Buffer) :
  growing (writeFileSync p data).
Proof.
  intros w. unfold writeFileSync.
  destruct (FS.lookup (files w) p) as [[d|]|] eqn:E;
    [|apply keeps_paths_refl|].
  all: destruct (FS.lookup (files w) (FS.dirname p)) as [[d'|]|];
    try apply keeps_paths_refl.
  all: cbn [snd files]; intros q.
  all: destruct (decide (q = p)) as [->|Hne];
    [|rewrite lookup_insert_ne by done; split; [done|]; intros d0 Hd0;
      by exists d0].
  all: destruct p as [|c p]; [done|]; cbn [FS.lookup] in E.
  all: rewrite lookup_insert_eq; split;
    [intros Hd|intros d0 Hd0; by eexists].
  all: by assert (X : Some FS.Dir = _) by (etrans; [symmetry; exact Hd|exact E]).
Qed.

Lemma growing_mkdirSync (p : FS.path) : growing (mkdirSync p).
Proof.
  intros w. unfold mkdirSync.
  destruct (FS.mkdirs _ _ _) as [fs|] eqn:E; [|apply keeps_paths_refl].
  cbn [snd files]. intros q.
  destruct (mkdirs_frame _ _ _ _ q E) as [Es|[Hn _]].
  - split.
    + intros Hd. etrans; [exact Es|exact Hd].
    + intros d Hd. exists d. etrans; [exact Es|exact Hd].
  - split.
    + intros Hd.
      by assert (X : Some FS.Dir = None)
        by (etrans; [symmetry; exact Hd|exact Hn]).
    + intros d Hd.
      by assert (X : Some (FS.File d) = None)
        by (etrans; [symmetry; exact Hd|exact Hn]).
Qed.

Lemma growing_ensureDirSync (p : FS.path) : growing (ensureDirSync p).
Proof.
  unfold ensureDirSync. apply growing_bind.
  - apply growing_reads, reads_existsSync.
  - intros [|]; [apply growing_ret|apply growing_mkdirSync].
Qed.

Section Grow.
Context `{Zlib} (path : FS.path).

Lemma growing_restoreTree_loop (recur : string -> FS.path -> M unit)
    (dirPath : FS.path) (entries : list Tree.parsed) :
  (forall h d, growing (recur h d)) ->
  growing (Repository.restoreTree_loop path recur dirPath entries).
Proof.
  intros Hrec. induction entries as [|e entries IH]; simpl.
  - apply growing_ret.
  - destruct (Tree.p_name e) as [name|]; [|apply growing_throw].
    apply growing_bind; [|by intros _].
    destruct (Str.startsWith "100" (Tree.p_mode e)).
    { apply growing_bind; [apply growing_reads, reads_loadObject|].
      intros o. apply growing_writeFileSync. }
    destruct (Str.startsWith "400" (Tree.p_mode e)); [|apply growing_ret].
    apply growing_bind; [apply growing_ensureDirSync|]. intros _. apply Hrec.
Qed.

Lemma growing_restoreTree (fuel : nat) :
  forall treeHash dirPath,
    growing (Repository.restoreTree path fuel treeHash dirPath).
Proof.
  induction fuel as [|fuel IH]; intros treeHash dirPath; simpl.
  - intros w. apply keeps_paths_refl.
  - apply growing_bind; [apply growing_reads, reads_loadObject|].
    intros o. by apply growing_restoreTree_loop.
Qed.

End Grow.

(** X25: [restoreTree] removes nothing: whatever the tree holds and
    whether it returns or throws, every path that was there before is
    there after, a directory still a directory and a regular file still a
    regular file. *)
Theorem X25_restoreTree_keeps_paths `{Zlib} (path : FS.path) (fuel : nat)
    (treeHash : string) (dirPath : FS.path) (w : world) :
  keeps_paths (files w)
    (files (Repository.restoreTree path fuel treeHash dirPath w).2).
Proof. apply growing_restoreTree. Qed.

(** * What add leaves alone *)

Lemma unchanged_git_only {A} `{Zlib} (path : FS.path) (m : M A) :
  (forall w, (m w).2 = w) -> git_only path m.
Proof. intros Hm w Hd. by rewrite Hm. Qed.

Lemma statSync_world (p : FS.path) (w : world) : (statSync p w).2 = w.
Proof. unfold statSync. by destruct (FS.lookup _ _). Qed.

Lemma readdirSync_world `{Readdir} (p : FS.path) (w : world) :
  (readdirSync p w).2 = w.
Proof. unfold readdirSync. by destruct (FS.lookup _ _) as [[?|]|]. Qed.

Section AddOnlyGit.
Context `{Zlib} `{Readdir} (path : FS.path).

Lemma git_only_throw {A} (e : exn) : git_only path (@throw A e).
Proof. by intros w Hd. Qed.

Lemma git_only_ret {A} (a : A) : git_only path (ret a).
Proof. by intros w Hd. Qed.

Lemma git_only_addFile (relPath : string) :
  git_only path (Repository.addFile path relPath).
Proof.
  unfold Repository.addFile. cbv zeta.
  apply git_only_bind; [apply git_only_reads, reads_existsSync|].
  intros [|]; [|apply git_only_throw].
  apply git_only_bind; [apply git_only_reads, reads_readFileSync|].
  intros content.
  apply git_only_bind; [apply git_only_stores, stores_only_storeObject|].
  intros h. apply git_only_bind; [apply git_only_reads, reads_loadIndex|].
  intros index. apply git_only_bind; [apply git_only_saveIndex|].
  intros _. apply git_only_log.
Qed.

Lemma git_only_items (recur : FS.path -> Index * Z -> M (Index * Z))
    (d : FS.path) (items : list string) :
  (forall p st, git_only path (recur p st)) ->
  forall st, git_only path (Repository.addDirectory_items path recur d items st).
Proof.
  intros Hrec. induction items as [|item items IH]; intros st; simpl.
  - apply git_only_ret.
  - destruct (Repository.inGit _); [apply IH|].
    apply git_only_bind;
      [apply unchanged_git_only, statSync_world|].
    intros stat. destruct (is_file stat).
    { apply git_only_bind; [apply git_only_reads, reads_readFileSync|].
      intros content.
      apply git_only_bind; [apply git_only_stores, stores_only_storeObject|].
      intros h. apply IH. }
    destruct (is_directory stat); [|apply IH].
    apply git_only_bind; [apply Hrec|]. intros st'. apply IH.
Qed.

Lemma git_only_walk (fuel : nat) :
  forall d st, git_only path (Repository.addDirectory_walk path fuel d st).
Proof.
  induction fuel as [|fuel IH]; intros d st; simpl.
  - by intros w Hd.
  - apply git_only_bind; [apply unchanged_git_only, readdirSync_world|].
    intros items. by apply git_only_items.
Qed.

Lemma git_only_addDirectory (fuel : nat) (relDir : string) :
  git_only path (Repository.addDirectory path fuel relDir).
Proof.
  unfold Repository.addDirectory. cbv zeta.
  apply git_only_bind; [apply git_only_reads, reads_existsSync|].
  intros [|]; [|apply git_only_throw].
  apply git_only_bind; [apply unchanged_git_only, statSync_world|].
  intros stat. destruct (is_directory stat); [|apply git_only_throw].
  apply git_only_bind; [apply git_only_reads, reads_loadIndex|].
  intros index. apply git_only_bind; [apply git_only_walk|].
  intros st. apply git_only_bind; [apply git_only_saveIndex|].
  intros _. destruct (0 <? st.2)%Z; apply git_only_log.
Qed.

Lemma git_only_addPath (fuel : nat) (p : string) :
  git_only path (Repository.addPath path fuel p).
Proof.
  unfold Repository.addPath. cbv zeta.
  apply git_only_bind; [apply git_only_reads, reads_existsSync|].
  intros [|]; [|apply git_only_throw].
  apply git_only_bind; [apply unchanged_git_only, statSync_world|].
  intros stat. destruct (is_file stat); [apply git_only_addFile|].
  apply git_only_bind; [apply unchanged_git_only, statSync_world|].
  intros stat'. destruct (is_directory stat');
    [apply git_only_addDirectory|apply git_only_throw].
Qed.

End AddOnlyGit.

(** X26: in a repository whose directories exist, [addPath] of any
    path, file or directory, changes nothing outside [.git], whatever it
    returns or throws: it writes blobs to the object store and the index,
    and leaves the working tree alone. *)
Theorem X26_addPath_keeps_working_tree `{Zlib} `{Readdir} (path : FS.path)
    (fuel : nat) (p : string) (w : world) :
  dirs_exist (files w) (Repository.objectsDir path) ->
  forall q, ~ below (Repository.gitDir path) q ->
    files (Repository.addPath path fuel p w).2 !! q = files w !! q.
Proof. intros Hd. by apply git_only_addPath. Qed.

Lemma X26_witness :
  files (@Repository.addPath sample_zlib sample_path sample_readdir 3 "."
           file_a_repo).2
  !! (sample_path ++ ["a"%string])
  = files file_a_repo !! (sample_path ++ ["a"%string]).
Proof.
  apply (X26_addPath_keeps_working_tree (H := sample_zlib)).
  - intros q Hq [k Hk].
    destruct q as [|a [|b [|c [|d q]]]]; vm_compute in Hk; simplify_eq/=;
      by vm_compute.
  - intros (q & Hq & E). vm_compute in E. by destruct q.
Defined.

(** * Staging a directory of files *)

Lemma strip_common_app (p t : FS.path) : strip_common p (p ++ t) = ([], t).
Proof.
  induction p as [|x p IH]; simpl; [by destruct t|].
  by rewrite String.eqb_refl.
Qed.

Lemma relative_below (p t : FS.path) : relative p (p ++ t) = Str.join "/" t.
Proof. unfold relative. by rewrite strip_common_app. Qed.

Lemma plain_no_slash (s : string) : plain s -> contains "/" s = false.
Proof. by intros [? _]. Qed.

Section Child.
Context (path : FS.path) (q : list string) (c : string).
Hypothesis Hq : Forall plain q.
Hypothesis Hc : plain c.

Lemma join_child : FS.join (path ++ q) c = path ++ q ++ [c].
Proof. rewrite (join_plain _ _ Hc). by rewrite <- app_assoc. Qed.

Lemma relName_child :
  Repository.relName path (FS.join (path ++ q) c) = rel_key q c.
Proof.
  unfold Repository.relName. rewrite join_child, relative_below.
  apply join_split.
Qed.

Lemma inGit_child :
  ".git"%string ∉ q ->
  Repository.inGit (rel_key q c) = String.eqb c ".git".
Proof.
  intros Hg. unfold Repository.inGit, rel_key.
  rewrite (split_join "/" (q ++ [c])).
  - rewrite existsb_app. cbn [existsb]. rewrite orb_false_r.
    replace (existsb (String.eqb ".git") q) with false.
    + cbn [orb]. apply String.eqb_sym.
    + symmetry. apply not_true_iff_false. intros Hex.
      apply existsb_exists in Hex as (x & Hx & E).
      apply String.eqb_eq in E. subst x. by apply Hg, list_elem_of_In.
  - by destruct q.
  - apply Forall_app. split.
    + eapply Forall_impl; [exact Hq|]. apply plain_no_slash.
    + apply Forall_cons. split; [by apply plain_no_slash|by apply Forall_nil].
Qed.

Lemma child_not_in_store :
  ".git"%string ∉ q -> c <> ".git"%string ->
  ~ below (Repository.objectsDir path) (path ++ q ++ [c]).
Proof.
  intros Hg Hne (k & Hk & E). rewrite objectsDir_eq, gitDir_eq in E.
  rewrite <- !app_assoc in E. apply app_inv_head in E. simpl in E.
  destruct q as [|x q']; simpl in E.
  - injection E as E _. done.
  - injection E as E _. apply Hg. rewrite E. apply elem_of_cons. by left.
Qed.

End Child.

Lemma rel_key_inj (q : list string) (c c' : string) :
  rel_key q c = rel_key q c' -> c = c'.
Proof.
  unfold rel_key. induction q as [|x q IH].
  - simpl. done.
  - rewrite <- !app_comm_cons, !join_cons by (by destruct q). intros E.
    apply IH. revert E. generalize (Str.join "/" (q ++ [c])).
    generalize (Str.join "/" (q ++ [c'])). intros a b.
    induction x as [|ch x IHx]; simpl; [by intros [= ->]|].
    intros [= E]. by apply IHx.
Qed.

Lemma get_set_own (k v k' : string) (o : Index) :
  k <> "__proto__"%string ->
  JS.get k' (Repository.set_own k v o)
  = if String.eqb k' k then Some v else JS.get k' o.
Proof.
  intros Hk. unfold Repository.set_own, JS.set_prim.
  destruct (String.eqb_spec k "__proto__") as [->|_]; [done|].
  apply get_set.
Qed.

Lemma get_set_own_other (k v k' : string) (o : Index) :
  k' <> k -> JS.get k' (Repository.set_own k v o) = JS.get k' o.
Proof.
  intros Hk. unfold Repository.set_own, JS.set_prim.
  destruct (_ && _); [done|]. rewrite get_set.
  by destruct (String.eqb_spec k' k).
Qed.

Lemma set_own_NoDup (k v : string) (o : Index) :
  NoDup (JS.keys o) -> NoDup (JS.keys (Repository.set_own k v o)).
Proof.
  intros Hnd. unfold Repository.set_own, JS.set_prim.
  destruct (_ && _); [done|]. by apply set_NoDup.
Qed.

Section Fold.
Context (fs : gmap FS.path FS.node) (path : FS.path) (q : list string).

Lemma fold_stage_other (items : list string) (k : string) :
  forall st,
    (forall c, c ∈ items -> c = ".git"%string \/ k <> rel_key q c) ->
    JS.get k (fold_left (stage_step fs path q) items st).1 = JS.get k st.1.
Proof.
  induction items as [|c items IH]; intros st Hk; simpl; [done|].
  rewrite IH by (intros c' Hc'; apply Hk; by right).
  unfold stage_step. destruct (String.eqb_spec c ".git") as [->|Hne]; [done|].
  cbn [fst]. apply get_set_own_other.
  destruct (Hk c) as [?|?]; [by left|done..].
Qed.

Lemma fold_stage_count (items : list string) :
  forall st,
    (fold_left (stage_step fs path q) items st).2
    = (st.2 + Z.of_nat (length (List.filter
                                  (fun c => negb (String.eqb c ".git"))
                                  items)))%Z.
Proof.
  induction items as [|c items IH]; intros st; simpl; [lia|].
  rewrite IH. unfold stage_step.
  destruct (String.eqb c ".git"); simpl; lia.
Qed.

Lemma fold_stage_NoDup (items : list string) :
  forall st,
    NoDup (JS.keys st.1) ->
    NoDup (JS.keys (fold_left (stage_step fs path q) items st).1).
Proof.
  induction items as [|c items IH]; intros st Hnd; simpl; [done|].
  apply IH. unfold stage_step. destruct (String.eqb c ".git"); [done|].
  by apply set_own_NoDup.
Qed.

Lemma fold_stage_staged (items : list string) (c : string) :
  forall st,
    NoDup items -> c ∈ items -> c <> ".git"%string ->
    rel_key q c <> "__proto__"%string ->
    JS.get (rel_key q c) (fold_left (stage_step fs path q) items st).1
    = Some (blob_id fs (path ++ q ++ [c])).
Proof.
  induction items as [|x items IH]; intros st Hnd Hin Hne Hp; simpl.
  - by apply elem_of_nil in Hin.
  - apply NoDup_cons in Hnd as [Hx Hnd].
    apply elem_of_cons in Hin as [<-|Hin]; [|by apply IH].
    rewrite fold_stage_other.
    + unfold stage_step. destruct (String.eqb_spec c ".git"); [done|].
      cbn [fst]. rewrite get_set_own by done. by rewrite String.eqb_refl.
    + intros c' Hc'. right. intros E. apply rel_key_inj in E. by subst.
Qed.

End Fold.

Section StageDir.
Context `{Zlib} `{Readdir} (path : FS.path).

(** Storing an object always works where the directories of the store
    exist and no regular file is in the way. *)
Lemma storeObject_total (o : GitObject.t) (w : world) :
  dirs_exist (files w) (Repository.objectsDir path) ->
  fanout_free path (files w) ->
  exists w',
    Repository.storeObject path o w = (Ok (GitObject.hash o), w')
    /\ console w' = console w
    /\ (forall p, ~ below (Repository.objectsDir path) p ->
                  files w' !! p = files w !! p)
    /\ dirs_exist (files w') (Repository.objectsDir path)
    /\ fanout_free path (files w').
Proof.
  intros Hd Hff. pose proof (stores_only_storeObject path o w Hd) as [Hd' Hfr].
  pose proof (storeObject_run path o w Hd) as Hrun. cbv zeta in Hrun.
  set (dir := Repository.objectsDir path
                ++ [Str.slice_to 2 (GitObject.hash o)]) in *.
  set (file := dir ++ [Str.slice_from 2 (GitObject.hash o)]) in *.
  assert (Hlen : forall c, Repository.objectsDir path ++ [c] <> file).
  { intros c E. apply (f_equal length) in E. subst file dir.
    rewrite !length_app in E. simpl in E. lia. }
  destruct (files w !! file) as [n|] eqn:Efile.
  { exists w. by rewrite Hrun. }
  destruct (files w !! dir) as [[d|]|] eqn:Edir.
  - by destruct (Hff _ _ Edir).
  - eexists. split; [exact Hrun|]. rewrite Hrun in Hd', Hfr.
    split; [done|]. split; [done|]. split; [done|].
    intros c data. cbn [files]. rewrite lookup_insert_ne by (by apply not_eq_sym).
    apply Hff.
  - eexists. split; [exact Hrun|]. rewrite Hrun in Hd', Hfr.
    split; [done|]. split; [done|]. split; [done|].
    intros c data. cbn [files]. rewrite lookup_insert_ne by (by apply not_eq_sym).
    destruct (decide (dir = Repository.objectsDir path ++ [c])) as [E|Hne].
    + rewrite <- E, lookup_insert_eq. done.
    + rewrite lookup_insert_ne by done. apply Hff.
Qed.

Context (q : list string) (w0 : world).
Hypothesis Hq : Forall plain q.
Hypothesis Hg : ".git"%string ∉ q.

Lemma addDirectory_items_flat
    (recur : FS.path -> Index * Z -> M (Index * Z)) (items : list string) :
  Forall (fun c => plain c
                   /\ (c = ".git"%string
                       \/ exists data,
                            files w0 !! (path ++ q ++ [c])
                            = Some (FS.File data))) items ->
  forall st w, store_kept path w0 w ->
    exists w',
      Repository.addDirectory_items path recur (path ++ q) items st w
      = (Ok (fold_left (stage_step (files w0) path q) items st), w')
      /\ store_kept path w0 w'.
Proof.
  induction 1 as [|c items [Hc Hfile] Hitems IH]; intros st w Hinv.
  - exists w. by split.
  - cbn [Repository.addDirectory_items fold_left]. cbv zeta.
    rewrite (relName_child path q c Hc), (inGit_child q c Hq Hc Hg).
    unfold stage_step at 2.
    destruct (String.eqb_spec c ".git") as [->|Hne]; [by apply IH|].
    destruct Hfile as [?|[data Hdata]]; [done|].
    destruct Hinv as (Hd & Hff & Hcon & Hfr).
    assert (Hlook : FS.lookup (files w) (FS.join (path ++ q) c)
                    = Some (FS.File data)).
    { rewrite (join_child path q c Hc).
      replace (path ++ q ++ [c]) with ((path ++ q) ++ [c])
        by (by rewrite <- app_assoc).
      rewrite lookup_snoc, <- app_assoc.
      rewrite Hfr by (by apply child_not_in_store). exact Hdata. }
    rewrite (bind_ok _ _ w w (FS.File data))
      by (unfold statSync; by rewrite Hlook).
    cbn [is_file].
    rewrite (bind_ok _ _ _ _ _ (readFileSync_file _ _ _ Hlook)).
    destruct (storeObject_total (Blob.new data) w Hd Hff)
      as (w1 & Es & Hc1 & Hf1 & Hd1 & Hff1).
    rewrite (bind_ok _ _ _ _ _ Es).
    unfold blob_id. 
    replace (files w0 !! (path ++ q ++ [c])) with (Some (FS.File data))
      by (symmetry; exact Hdata).
    apply IH. split; [done|]. split; [done|]. split; [congruence|].
    intros p Hp. rewrite Hf1 by done. by apply Hfr.
Qed.

End StageDir.

(** X27: [addDirectory] on a directory of the working tree that holds
    regular files only (and maybe [.git]) stages every one of them: the
    index read back maps the path of each file, relative to the working
    tree, to the id of the blob of its bytes, and keeps its other
    entries; nothing changes outside the object store and the index. The
    report counts every file of the directory, changed or not, and says
    "already up to date" only for a directory without files. *)
Theorem X27_addDirectory_flat `{Zlib} `{Readdir} `{!ReaddirLaws H0}
    (path : FS.path) (fuel : nat) (relDir : string) (q : list string)
    (idx : Index) (w : world) :
  let d := path ++ q in
  let n := Z.of_nat (length (staged_names (files w) d)) in
  FS.join path relDir = d ->
  Forall plain q -> ".git"%string ∉ q ->
  FS.lookup (files w) d = Some FS.Dir ->
  (forall c, c ∈ children (files w) d ->
     plain c
     /\ (c = ".git"%string
         \/ exists data, files w !! (path ++ q ++ [c]) = Some (FS.File data))) ->
  dirs_exist (files w) (Repository.objectsDir path) ->
  fanout_free path (files w) ->
  files w !! Repository.indexFile path <> Some FS.Dir ->
  Repository.loadIndex path w = (Ok idx, w) ->
  exists w' idx',
    Repository.addDirectory path (S fuel) relDir w = (Ok tt, w')
    /\ console w'
       = console w
         ++ [if (0 <? n)%Z
             then "Added " +:+ Num.toString n +:+ " files from directory "
                    +:+ relDir
             else "Directory " +:+ relDir +:+ " already up to date"]
    /\ Repository.loadIndex path w' = (Ok idx', w')
    /\ (forall c data,
          files w !! (path ++ q ++ [c]) = Some (FS.File data) ->
          c <> ".git"%string -> rel_key q c <> "__proto__"%string ->
          JS.get (rel_key q c) idx' = Some (GitObject.hash (Blob.new data)))
    /\ (forall k,
          (forall c, c ∈ children (files w) d ->
                     c = ".git"%string \/ k <> rel_key q c) ->
          JS.get k idx' = JS.get k idx)
    /\ (forall p, ~ below (Repository.objectsDir path) p ->
                  p <> Repository.indexFile path ->
                  files w' !! p = files w !! p).
Proof.
  intros d n Hjoin Hq Hg Hdir Hflat Hd Hff Hidx Hload.
  set (items := arrange (children (files w) d)).
  assert (Hperm : items ≡ₚ children (files w) d) by apply arrange_perm.
  assert (Hitems : Forall (fun c => plain c
                     /\ (c = ".git"%string
                         \/ exists data, files w !! (path ++ q ++ [c])
                                         = Some (FS.File data))) items).
  { apply Forall_forall. intros c Hc. apply Hflat. by rewrite <- Hperm. }
  destruct (addDirectory_items_flat path q w Hq Hg
              (Repository.addDirectory_walk path fuel) items Hitems
              (idx, 0%Z) w) as (w1 & Ewalk & Hd1 & Hff1 & Hc1 & Hf1).
  { split; [done|]. split; [done|]. by split. }
  set (st := fold_left (stage_step (files w) path q) items (idx, 0%Z)) in *.
  assert (Hn : st.2 = n).
  { subst st n. rewrite fold_stage_count. cbn [snd]. rewrite Z.add_0_l.
    unfold staged_names. f_equal.
    apply Permutation_length.
    assert (Hgen : forall l1 l2 : list string, l1 ≡ₚ l2 ->
              List.filter (fun c => negb (String.eqb c ".git")) l1
              ≡ₚ List.filter (fun c => negb (String.eqb c ".git")) l2).
    { induction 1 as [|x l1 l2 _ IH|x y l|l1 l2 l3 _ IH1 _ IH2]; simpl.
      - done.
      - destruct (negb _); by rewrite IH.
      - destruct (negb (x =? ".git")%string), (negb (y =? ".git")%string);
          try done. apply perm_swap.
      - by rewrite IH1. }
    by apply Hgen. }
  assert (Hnb : ~ below (Repository.objectsDir path)
                  (Repository.indexFile path)).
  { rewrite indexFile_eq. by apply not_below_objects. }
  set (line := if (0 <? st.2)%Z
               then "Added " +:+ Num.toString st.2
                      +:+ " files from directory " +:+ relDir
               else "Directory " +:+ relDir +:+ " already up to date").
  set (w' := World (<[Repository.indexFile path :=
                        FS.File (Buf.from (JSON.stringify st.1))]> (files w1))
               (console w1 ++ [line])).
  assert (Esave : Repository.saveIndex path st.1 w1
                  = (Ok tt, World (files w') (console w1))).
  { apply (writeFileSync_at _ (Repository.gitDir path) "index");
      [apply indexFile_eq|by rewrite Hf1|].
    rewrite lookup_gitDir, Hf1.
    - apply Hd; [by rewrite gitDir_eq; destruct path|].
      rewrite objectsDir_eq. by eexists.
    - rewrite <- (app_nil_r (Repository.gitDir path)).
      by apply not_below_objects. }
  assert (Hnd : NoDup (JS.keys st.1)).
  { apply fold_stage_NoDup. cbn [fst]. by eapply loadIndex_NoDup. }
  assert (Hnodup : NoDup items).
  { rewrite Hperm. apply NoDup_children. }
  assert (Hget : forall k,
            JS.get k (fold_left (fun a e => JS.set e.1 e.2 a) st.1 [])
            = JS.get k st.1).
  { intros k. destruct (get_parse_stringify st.1 k Hnd) as (i & Ei & Hi).
    rewrite parse_stringify in Ei. by injection Ei as <-. }
  exists w', (fold_left (fun a e => JS.set e.1 e.2 a) st.1 []).
  split; [|split; [|split; [|split; [|split]]]].
  - unfold Repository.addDirectory. cbv zeta. rewrite Hjoin.
    rewrite (bind_ok _ _ _ _ _ (existsSync_true _ _ _ Hdir)).
    rewrite (bind_ok _ _ w w FS.Dir) by (unfold statSync; by rewrite Hdir).
    cbn [is_directory]. rewrite (bind_ok _ _ _ _ _ Hload).
    rewrite (bind_ok _ _ w w1 st).
    + rewrite (bind_ok _ _ _ _ _ Esave). by destruct (0 <? st.2)%Z.
    + cbn [Repository.addDirectory_walk].
      rewrite (bind_ok _ _ w w items); [exact Ewalk|].
      unfold readdirSync. by rewrite Hdir.
  - cbn [console w']. rewrite Hc1. subst line. by rewrite Hn.
  - apply loadIndex_saved. apply lookup_insert_eq.
  - intros c data Hdata Hne Hp. rewrite Hget. subst st.
    rewrite fold_stage_staged; try done.
    + unfold blob_id.
      by replace (files w !! (path ++ q ++ [c])) with (Some (FS.File data))
        by (symmetry; exact Hdata).
    + rewrite Hperm. apply elem_of_children. subst d.
      rewrite <- app_assoc. by eexists.
  - intros k Hk. rewrite Hget. subst st. rewrite fold_stage_other; [done|].
    intros c Hc. apply Hk. by rewrite <- Hperm.
  - intros p Hp Hne. cbn [files w'].
    rewrite lookup_insert_ne by done. by apply Hf1.
Qed.

Lemma X27_witness :
  exists w' idx',
    @Repository.addDirectory sample_zlib sample_path sample_readdir 1 "."
      file_a_repo = (Ok tt, w')
    /\ Repository.loadIndex sample_path w' = (Ok idx', w')
    /\ JS.get "a" idx' = Some (GitObject.hash (Blob.new (Buf.from "A"))).
Proof.
  destruct (X27_addDirectory_flat (H := sample_zlib) (H0 := sample_readdir)
              (ReaddirLaws0 := sample_readdir_laws) sample_path 0 "." []
              [] file_a_repo)
    as (w' & idx' & Ea & _ & El & Hst & _).
  - reflexivity.
  - by apply Forall_nil.
  - by intros Hin%elem_of_nil.
  - by vm_compute.
  - intros c Hc.
    assert (Ech : children (files file_a_repo) (sample_path ++ [])
                  = [".git"%string; "a"%string]) by (by vm_compute).
    pose proof (eq_ind _ (fun l => c ∈ l) Hc _ Ech) as Hc'. clear Hc Ech.
    simpl in Hc'. apply elem_of_cons in Hc' as [->|Hc].
    { split; [by vm_compute|by left]. }
    apply list_elem_of_singleton in Hc as ->.
    split; [by vm_compute|]. right. exists (Buf.from "A"). by vm_compute.
  - intros q Hq [k Hk].
    destruct q as [|a [|b [|c [|d q]]]]; vm_compute in Hk; simplify_eq/=;
      by vm_compute.
  - intros c data Hc.
    assert (Hin : c ∈ children (files file_a_repo)
                    (Repository.objectsDir sample_path))
      by (apply elem_of_children; by eexists).
    assert (Ech : children (files file_a_repo)
                    (Repository.objectsDir sample_path) = [])
      by (by vm_compute).
    pose proof (eq_ind _ (fun l => c ∈ l) Hin _ Ech) as Hin'.
    by apply elem_of_nil in Hin'.
  - by vm_compute.
  - apply reads_run; [apply reads_loadIndex|]. by vm_compute.
  - exists w', idx'. split; [exact Ea|]. split; [exact El|].
    apply (Hst "a"%string (Buf.from "A")); [by vm_compute|done|done].
Defined.

(** * The files of the working tree *)

Section AllFiles.
Context `{Readdir} `{!ReaddirLaws H} (path : FS.path) (w : world).
Hypothesis Hnames : names_plain (files w).

Lemma getAllFiles_items_spec
    (recur : FS.path -> list FS.path -> M (list FS.path)) (q : list string)
    (items : list string) :
  Forall plain q -> ".git"%string ∉ q ->
  Forall plain items ->
  (forall c acc, plain c -> c <> ".git"%string ->
     walk_spec path w (q ++ [c]) acc (recur (path ++ q ++ [c]) acc w).1
       (recur (path ++ q ++ [c]) acc w).2) ->
  forall acc,
    (Repository.getAllFiles_items path recur (path ++ q) items acc w).2 = w
    /\ forall fs,
         (Repository.getAllFiles_items path recur (path ++ q) items acc w).1
         = Ok fs ->
         forall f, f ∈ fs
                   <-> f ∈ acc
                       \/ exists c comps,
                            c ∈ items /\ f = path ++ q ++ c :: comps
                            /\ walked (files w) path q (c :: comps).
Proof.
  intros Hq Hg Hitems Hrec.
  induction Hitems as [|c items Hc Hitems IH]; intros acc.
  - split; [done|]. simpl. intros fs [= <-] f. split; [by left|].
    intros [?|(c & comps & Hin & _)]; [done|]. by apply elem_of_nil in Hin.
  - cbn [Repository.getAllFiles_items]. cbv zeta.
    rewrite (relName_child path q c Hc), (inGit_child q c Hq Hc Hg).
    rewrite (join_child path q c Hc).
    assert (Hskip : forall (f : FS.path) (acc' : list FS.path),
                (f ∈ acc' <-> f ∈ acc \/ (exists comps,
                   f = path ++ q ++ c :: comps
                   /\ walked (files w) path q (c :: comps))) ->
                forall fs : list FS.path,
                (f ∈ fs <-> f ∈ acc' \/ exists c0 comps,
                     c0 ∈ items /\ f = path ++ q ++ c0 :: comps
                     /\ walked (files w) path q (c0 :: comps)) ->
                (f ∈ fs <-> f ∈ acc \/ exists c0 comps,
                     c0 ∈ c :: items /\ f = path ++ q ++ c0 :: comps
                     /\ walked (files w) path q (c0 :: comps))).
    { intros f acc' Hacc fs Hfs. rewrite Hfs, Hacc. split.
      - intros [[?|(comps & -> & Hw)]|(c0 & comps & Hin & -> & Hw)].
        + by left.
        + right. exists c, comps. split; [by left|done].
        + right. exists c0, comps. split; [by right|done].
      - intros [?|(c0 & comps & Hin & -> & Hw)]; [by left; left|].
        apply elem_of_cons in Hin as [->|Hin].
        + left. right. by exists comps.
        + right. by exists c0, comps. }
    destruct (String.eqb_spec c ".git") as [->|Hne].
    { destruct (IH acc) as [Hw Hfs]. split; [done|]. intros fs Hr f.
      apply (Hskip f acc); [|by apply Hfs].
      split; [by left|]. intros [?|(comps & _ & Hwk)]; [done|].
      inversion Hwk; done. }
    assert (Hl : FS.lookup (files w) (path ++ q ++ [c])
                 = files w !! (path ++ q ++ [c])).
    { rewrite (app_assoc path q [c]). apply lookup_snoc. }
    unfold bind at 1 3, statSync. rewrite Hl.
    destruct (files w !! (path ++ q ++ [c])) as [[data|]|] eqn:En;
      cbn [is_file is_directory].
    + destruct (IH (acc ++ [path ++ q ++ [c]])) as [Hw Hfs].
      split; [done|]. intros fs Hr f.
      apply (Hskip f (acc ++ [path ++ q ++ [c]])); [|by apply Hfs].
      rewrite elem_of_app, list_elem_of_singleton. split.
      * intros [?| ->]; [by left|]. right. exists []. split; [done|].
        by apply (walked_file _ _ _ _ data).
      * intros [?|(comps & -> & Hwk)]; [by left|]. right.
        inversion Hwk as [? ? d' ? Hd'|? ? ? ? Hd' ?]; subst; [done|].
        exfalso.
        by assert (X : Some (FS.File data) = Some FS.Dir)
          by (etrans; [symmetry; exact En|exact Hd']).
    + pose proof (Hrec c acc Hc Hne) as [Hw1 Hr1].
      unfold bind at 1 2.
      destruct (recur (path ++ q ++ [c]) acc w) as [[acc'|e|] w1];
        cbn [fst snd] in *; subst w1; [|done..].
      destruct (IH acc') as [Hw Hfs]. split; [done|]. intros fs Hr f.
      apply (Hskip f acc'); [|by apply Hfs].
      rewrite (Hr1 acc' eq_refl f). split.
      * intros [?|(comps & -> & Hwk)]; [by left|]. right. exists comps.
        split; [by rewrite <- !app_assoc|]. by apply walked_dir.
      * intros [?|(comps & -> & Hwk)]; [by left|]. right.
        inversion Hwk as [? ? d' ? Hd'|? ? ? ? Hd' Hsub]; subst.
        -- exfalso.
           by assert (X : Some FS.Dir = Some (FS.File d'))
             by (etrans; [symmetry; exact En|exact Hd']).
        -- exists comps. split; [by rewrite <- !app_assoc|done].
    + done.
Qed.

Lemma getAllFiles_walk_spec (fuel : nat) :
  forall q acc,
    Forall plain q -> ".git"%string ∉ q ->
    walk_spec path w q acc
      (Repository.getAllFiles_walk path fuel (path ++ q) acc w).1
      (Repository.getAllFiles_walk path fuel (path ++ q) acc w).2.
Proof.
  induction fuel as [|fuel IH]; intros q acc Hq Hg; [done|].
  cbn [Repository.getAllFiles_walk]. unfold bind at 1 2, readdirSync.
  destruct (FS.lookup (files w) (path ++ q)) as [[d|]|] eqn:Ed; [done| |done].
  set (items := arrange (children (files w) (path ++ q))).
  assert (Hperm : items ≡ₚ children (files w) (path ++ q))
    by apply arrange_perm.
  destruct (getAllFiles_items_spec
              (Repository.getAllFiles_walk path fuel) q items Hq Hg)
    with (acc := acc) as [Hw Hfs].
  - apply Forall_forall. intros c Hc. rewrite Hperm in Hc.
    apply elem_of_children in Hc. by apply (Hnames (path ++ q)).
  - intros c acc' Hc Hne.
    apply IH.
    + apply Forall_app. split; [done|]. by apply Forall_singleton.
    + rewrite elem_of_app, list_elem_of_singleton. intros [?|?]; done.
  - split; [done|]. intros fs Hr f. rewrite (Hfs fs Hr f). split.
    + intros [?|(c & comps & Hin & -> & Hwk)]; [by left|]. right.
      by exists (c :: comps).
    + intros [?|(comps & -> & Hwk)]; [by left|]. right.
      inversion Hwk as [? c d' ? Hd'|? c comps' ? Hd' Hsub]; subst.
      * exists c, []. split; [|done]. rewrite Hperm.
        apply elem_of_children. rewrite <- app_assoc. by eexists.
      * exists c, comps'. split; [|done]. rewrite Hperm.
        apply elem_of_children. rewrite <- app_assoc. by eexists.
Qed.

End AllFiles.

Section AllFilesReturn.
Context `{Readdir} `{!ReaddirLaws H} (path : FS.path) (w : world).
Hypothesis Hnames : names_plain (files w).

Lemma getAllFiles_items_returns
    (recur : FS.path -> list FS.path -> M (list FS.path)) (q : list string)
    (items : list string) :
  Forall plain q -> ".git"%string ∉ q ->
  Forall (fun c => plain c /\ is_Some (files w !! (path ++ q ++ [c])))
    items ->
  (forall c acc, c <> ".git"%string ->
     files w !! (path ++ q ++ [c]) = Some FS.Dir ->
     exists fs, recur (path ++ q ++ [c]) acc w = (Ok fs, w)) ->
  forall acc,
    exists fs,
      Repository.getAllFiles_items path recur (path ++ q) items acc w
      = (Ok fs, w).
Proof.
  intros Hq Hg Hitems Hrec.
  induction Hitems as [|c items [Hc [n Hn]] Hitems IH]; intros acc.
  - by exists acc.
  - cbn [Repository.getAllFiles_items]. cbv zeta.
    rewrite (relName_child path q c Hc), (inGit_child q c Hq Hc Hg).
    rewrite (join_child path q c Hc).
    destruct (String.eqb_spec c ".git") as [->|Hne]; [apply IH|].
    assert (Hl : FS.lookup (files w) (path ++ q ++ [c])
                 = files w !! (path ++ q ++ [c])).
    { rewrite (app_assoc path q [c]). apply lookup_snoc. }
    unfold bind at 1, statSync. rewrite Hl.
    destruct (files w !! (path ++ q ++ [c])) as [[data|]|] eqn:En;
      cbn [is_file is_directory]; [apply IH| |done].
    destruct (Hrec c acc Hne En) as [acc' Er].
    rewrite (bind_ok _ _ _ _ _ Er). apply IH.
Qed.

(** With fuel for the depth of the working tree, the walk returns. *)
Lemma getAllFiles_walk_returns (fuel : nat) :
  forall q acc,
    Forall plain q -> ".git"%string ∉ q ->
    shallow (files w) path fuel q ->
    exists fs,
      Repository.getAllFiles_walk path fuel (path ++ q) acc w = (Ok fs, w).
Proof.
  induction fuel as [|fuel IH]; intros q acc Hq Hg Hsh;
    inversion Hsh as [n q' Hdir Hsub]; subst.
  cbn [Repository.getAllFiles_walk]. unfold bind at 1, readdirSync.
  rewrite Hdir.
  apply getAllFiles_items_returns; [done|done| |].
  - apply Forall_forall. intros c Hc. rewrite arrange_perm in Hc.
    apply elem_of_children in Hc. rewrite <- app_assoc in Hc.
    split; [|done]. apply (Hnames (path ++ q)). by rewrite <- app_assoc.
  - intros c acc' Hne Hd. apply IH.
    + apply Forall_app. split; [done|]. apply Forall_singleton.
      apply (Hnames (path ++ q)). rewrite <- app_assoc. by eexists.
    + rewrite elem_of_app, list_elem_of_singleton. intros [?|?]; done.
    + by apply Hsub.
Qed.

End AllFilesReturn.

Lemma shallow_mono (fs : gmap FS.path FS.node) (path : FS.path) (n : nat) :
  forall m q, shallow fs path n q -> (n <= m)%nat -> shallow fs path m q.
Proof.
  induction n as [|n IH]; intros m q Hsh Hle;
    inversion Hsh as [n' q' Hdir Hsub]; subst.
  destruct m as [|m]; [lia|]. apply shallow_dir; [done|].
  intros c Hc Hd. apply IH; [by apply Hsub|lia].
Qed.

(** A file system is finite: its directories are shallow. *)
Lemma shallow_exists (fs : gmap FS.path FS.node) (path : FS.path) :
  FS.lookup fs path = Some FS.Dir -> exists n, shallow fs path n [].
Proof.
  intros Hdir.
  set (bound := max_list (length <$> (map_to_list fs).*1)).
  assert (Hb : forall p, is_Some (fs !! p) -> (length p <= bound)%nat).
  { intros p [x Hp]. apply max_list_elem_of_le.
    apply list_elem_of_fmap. exists p. split; [done|].
    apply list_elem_of_fmap. exists (p, x). split; [done|].
    by apply elem_of_map_to_list. }
  assert (Hall : forall m q,
             (bound <= m + length (path ++ q))%nat ->
             FS.lookup fs (path ++ q) = Some FS.Dir ->
             shallow fs path (S m) q).
  { induction m as [|m IH]; intros q Hm Hq; apply shallow_dir; try done.
    - intros c _ Hc. exfalso.
      assert (Hlen : (length (path ++ q ++ [c]) <= bound)%nat)
        by (apply Hb; by rewrite Hc).
      rewrite !length_app in *. simpl in Hlen. lia.
    - intros c _ Hc. apply IH.
      + rewrite !length_app in *. simpl. lia.
      + rewrite (app_assoc path q [c]), lookup_snoc, <- app_assoc.
        exact Hc. }
  exists (S bound). apply Hall; [lia|]. by rewrite app_nil_r.
Qed.

(** X28: in a working directory that exists, [getAllFiles] returns and
    changes nothing, once the recursion budget of the model covers the
    depth of the directories; it returns exactly the regular files that
    the walk from the working directory reaches through directories,
    those behind a name [.git] left out. (Every name in a directory is a
    plain file name.) *)
Theorem X28_getAllFiles_lists `{Readdir} `{!ReaddirLaws H} (path : FS.path)
    (w : world) :
  names_plain (files w) ->
  FS.lookup (files w) path = Some FS.Dir ->
  exists depth,
    forall fuel, (depth <= fuel)%nat ->
      exists fs,
        Repository.getAllFiles path fuel w = (Ok fs, w)
        /\ forall f, f ∈ fs
                     <-> exists comps, f = path ++ comps
                                       /\ walked (files w) path [] comps.
Proof.
  intros Hnames Hdir. destruct (shallow_exists _ _ Hdir) as [depth Hsh].
  exists depth. intros fuel Hfuel.
  apply (shallow_mono _ _ _ fuel) in Hsh; [|done].
  unfold Repository.getAllFiles.
  destruct (getAllFiles_walk_returns path w Hnames fuel [] [])
    as [fs Er]; [by apply Forall_nil|by intros ?%elem_of_nil|done|].
  destruct (getAllFiles_walk_spec path w Hnames fuel [] [])
    as [_ Hfs]; [by apply Forall_nil|by intros ?%elem_of_nil|].
  rewrite app_nil_r in Er, Hfs. exists fs. split; [done|].
  intros f. rewrite (Hfs fs (f_equal fst Er) f). split.
  - intros [?%elem_of_nil|?]; done.
  - intros ?. by right.
Qed.

Lemma X28_witness :
  exists depth,
    forall fuel, (depth <= fuel)%nat ->
      exists fs,
        @Repository.getAllFiles sample_path sample_readdir fuel file_a_repo
        = (Ok fs, file_a_repo)
        /\ forall f, f ∈ fs
                     <-> exists comps,
                           f = sample_path ++ comps
                           /\ walked (files file_a_repo) sample_path []
                                comps.
Proof.
  apply (X28_getAllFiles_lists (H := sample_readdir)
           (ReaddirLaws0 := sample_readdir_laws)).
  - intros d c [n Hn]. apply elem_of_map_to_list in Hn.
    pose proof (list_elem_of_fmap_2 fst _ _ Hn) as Hin. clear Hn.
    assert (Ek : (map_to_list (files file_a_repo)).*1
                 = [["repo"; ".git"; "index"]; ["repo"; ".git"];
                    ["repo"; ".git"; "objects"]; ["repo"; ".git"; "refs"];
                    ["repo"; ".git"; "refs"; "heads"]; ["repo"];
                    ["repo"; "a"]; ["repo"; ".git"; "HEAD"]]%string)
      by (vm_compute; reflexivity).
    pose proof (eq_ind _ (fun l => (d ++ [c], n).1 ∈ l) Hin _ Ek) as Hin'.
    clear Hin Ek. cbv beta in Hin'. cbn [fst] in Hin'.
    assert (Hlast : forall k, d ++ [c] = k -> last k = Some c).
    { intros k <-. apply last_snoc. }
    repeat (apply elem_of_cons in Hin' as [E|Hin'];
            [apply Hlast in E; injection E as <-; clear; by vm_compute|]).
    by apply elem_of_nil in Hin'.
  - by vm_compute.
Defined.

(** * ensureDirSync and loadIndex on their own *)

Lemma mkdirs_creates (todo : FS.path) :
  forall (fs : gmap FS.path FS.node) (pre : FS.path),
    (forall k d, k <> [] -> k `prefix_of` todo ->
                 fs !! (pre ++ k) <> Some (FS.File d)) ->
    exists fs',
      FS.mkdirs fs pre todo = Some fs'
      /\ forall k, k <> [] -> k `prefix_of` todo ->
                   fs' !! (pre ++ k) = Some FS.Dir.
Proof.
  induction todo as [|c todo IH]; intros fs pre Hfree.
  - exists fs. split; [done|]. intros k Hk Hpre.
    apply prefix_nil_inv in Hpre. done.
  - cbn [FS.mkdirs]. cbv zeta.
    assert (Hstep : forall fs1 : gmap FS.path FS.node,
              fs1 !! (pre ++ [c]) = Some FS.Dir ->
              (forall p, p <> pre ++ [c] -> fs1 !! p = fs !! p) ->
              exists fs',
                FS.mkdirs fs1 (pre ++ [c]) todo = Some fs'
                /\ forall k, k <> [] -> k `prefix_of` c :: todo ->
                             fs' !! (pre ++ k) = Some FS.Dir).
    { intros fs1 Hdir Hsame.
      destruct (IH fs1 (pre ++ [c])) as (fs' & Em & Hpost).
      - intros k d Hk Hpre. rewrite Hsame.
        + rewrite <- app_assoc. apply Hfree; [done|]. by apply prefix_cons.
        + intros E. apply (f_equal length) in E. rewrite !length_app in E.
          destruct k; [done|]. simpl in E. lia.
      - exists fs'. split; [done|]. intros k Hk Hpre.
        destruct k as [|x k]; [done|].
        apply prefix_cons_inv_1 in Hpre as Hx. subst x.
        apply prefix_cons_inv_2 in Hpre.
        destruct k as [|y k].
        + destruct (mkdirs_frame _ _ _ _ (pre ++ [c]) Em) as [Es|[Hn _]].
          * etrans; [exact Es|exact Hdir].
          * by assert (X : Some FS.Dir = None)
              by (etrans; [symmetry; exact Hdir|exact Hn]).
        + replace (pre ++ c :: y :: k) with ((pre ++ [c]) ++ y :: k)
            by (by rewrite <- app_assoc).
          by apply Hpost. }
    destruct (fs !! (pre ++ [c])) as [[d|]|] eqn:E.
    + destruct (Hfree [c] d); [done|apply prefix_cons, prefix_nil|done].
    + by apply Hstep.
    + apply Hstep; [apply lookup_insert_eq|].
      intros p Hp. by apply lookup_insert_ne.
Qed.

(** X29: where no directory above [p] is a regular file,
    [ensureDirSync p] returns; it prints nothing, removes nothing, and
    changes nothing but [p] and the directories above it. A [p] that is
    there already, a regular file included, is left as it is; a [p] that
    is missing is created with all the directories above it. *)
Theorem X29_ensureDirSync_creates (p : FS.path) (w : world) :
  (forall q d, q `prefix_of` p -> q <> p ->
               files w !! q <> Some (FS.File d)) ->
  exists w',
    ensureDirSync p w = (Ok tt, w')
    /\ console w' = console w
    /\ keeps_paths (files w) (files w')
    /\ (forall r, ~ r `prefix_of` p -> files w' !! r = files w !! r)
    /\ (is_Some (FS.lookup (files w) p) -> w' = w)
    /\ (FS.lookup (files w) p = None -> dirs_exist (files w') p).
Proof.
  intros Hfree. unfold ensureDirSync.
  destruct (FS.lookup (files w) p) as [n|] eqn:El.
  { exists w. rewrite (bind_ok _ _ _ _ _ (existsSync_true _ _ _ El)).
    split; [done|]. split; [done|]. split; [apply keeps_paths_refl|].
    split; [done|]. by split. }
  rewrite (bind_ok _ _ _ _ _ (existsSync_false _ _ El)).
  assert (Hp : p <> []) by (by intros ->).
  assert (Enone : files w !! p = None) by (by destruct p).
  destruct (mkdirs_creates p (files w) []) as (fs' & Em & Hpost).
  { intros k d Hk Hpre. simpl. destruct (decide (k = p)) as [->|Hne].
    - intros E.
      by assert (X : Some (FS.File d) = None)
        by (etrans; [symmetry; exact E|exact Enone]).
    - by apply Hfree. }
  exists (World fs' (console w)). unfold mkdirSync. rewrite Em.
  split; [done|]. split; [done|]. split; [|split; [|split]].
  - pose proof (growing_mkdirSync p w) as Hg. unfold mkdirSync in Hg.
    by rewrite Em in Hg.
  - intros r Hr. cbn [files].
    destruct (mkdirs_frame _ _ _ _ r Em) as [Es|(_ & k & _ & Hk & ->)];
      [done|]. by destruct Hr.
  - by intros [? ?].
  - intros _ q Hq Hpre. by apply (Hpost q).
Qed.

Lemma X29_witness :
  exists w',
    ensureDirSync (sample_path ++ ["src"; "lib"]%string) file_a_repo
    = (Ok tt, w')
    /\ dirs_exist (files w') (sample_path ++ ["src"; "lib"]%string).
Proof.
  destruct (X29_ensureDirSync_creates (sample_path ++ ["src"; "lib"]%string)
              file_a_repo) as (w' & Ee & _ & _ & _ & _ & Hd).
  - intros q d [k Hk] Hne.
    destruct q as [|a [|b [|c [|e q]]]]; vm_compute in Hk; simplify_eq/=;
      first [by vm_compute|by destruct Hne].
  - exists w'. split; [exact Ee|]. apply Hd. by vm_compute.
Defined.

Lemma no_value_parse (text : string) :
  JSON.no_value text = true -> JSON.parse text = None.
Proof.
  unfold JSON.no_value, JSON.parse.
  destruct (JSON.skip_ws text) as [|c rest]; [done|].
  destruct (Ascii.eqb_spec c "{") as [->|Hne]; [done|].
  intros _. by destruct c as [[] [] [] [] [] [] [] []].
Qed.

(** X30: [loadIndex] throws nothing and changes nothing. An index file
    that is missing or is a directory reads as the empty index, and so
    does one whose text is empty but for white space or starts with a
    character that begins no JSON value: the SyntaxError of [JSON.parse]
    is caught. *)
Theorem X30_loadIndex_never_throws (path : FS.path) (w : world) :
  (Repository.loadIndex path w).2 = w
  /\ (forall e, (Repository.loadIndex path w).1 <> Throw e)
  /\ ((forall data, FS.lookup (files w) (Repository.indexFile path)
                    <> Some (FS.File data)) ->
      Repository.loadIndex path w = (Ok [], w))
  /\ (forall data,
        FS.lookup (files w) (Repository.indexFile path)
        = Some (FS.File data) ->
        JSON.no_value (Buf.toString data) = true ->
        Repository.loadIndex path w = (Ok [], w)).
Proof.
  unfold Repository.loadIndex.
  destruct (FS.lookup (files w) (Repository.indexFile path)) as [[d|]|] eqn:El.
  - rewrite (bind_ok _ _ _ _ _ (existsSync_true _ _ _ El)).
    unfold try_catch.
    rewrite (bind_ok _ _ _ _ _ (readFileSync_file _ _ _ El)).
    destruct (JSON.parse (Buf.toString d)) as [i|] eqn:Ep.
    + split; [done|]. split; [done|]. split.
      * intros Hn. by destruct (Hn d).
      * intros data [= <-] Hnv. by rewrite (no_value_parse _ Hnv) in Ep.
    + destruct (JSON.no_value (Buf.toString d)) eqn:Env.
      * by repeat split.
      * split; [done|]. split; [done|]. split.
        -- intros Hn. by destruct (Hn d).
        -- intros data [= <-] Hnv. by rewrite Hnv in Env.
  - rewrite (bind_ok _ _ _ _ _ (existsSync_true _ _ _ El)).
    unfold try_catch, bind, readFileSync. rewrite El. by repeat split.
  - rewrite (bind_ok _ _ _ _ _ (existsSync_false _ _ El)). by repeat split.
Qed.

(** ** C4: the tree that is built for a name that is a file and a directory *)

Section BuildTree.
Context `{Zlib} (path : FS.path) (w0 : world).

Lemma createTree_loop_builds (recur : JS.value -> M string)
    (entries : list (string * JS.value)) :
  Forall (fun kv =>
            match kv.2 with
            | JS.Str _ => True
            | JS.Obj _ =>
                forall w, store_kept path w0 w ->
                  exists sub w',
                    recur kv.2 w
                    = (Ok (GitObject.hash (Tree.object (Tree.new sub))), w')
                    /\ store_kept path w0 w'
            end) entries ->
  forall es w, store_kept path w0 w ->
    exists es' w',
      Repository.createTree_loop recur entries (Tree.new es) w
      = (Ok (Tree.new (es ++ es')), w')
      /\ store_kept path w0 w'
      /\ Forall2 entry_built entries es'.
Proof.
  induction 1 as [|[name v] entries Hv Hrest IH]; intros es w Hw.
  - exists [], w. rewrite app_nil_r. split; [done|]. split; [done|].
    constructor.
  - cbn [Repository.createTree_loop]. destruct v as [h|props].
    + destruct (IH (es ++ [Tree.Entry "100644" name h]) w Hw)
        as (es' & w' & E & Hw' & Hes).
      exists (Tree.Entry "100644" name h :: es'), w'.
      split; [|split; [done|]].
      * rewrite addEntry_new, E. by rewrite <- app_assoc.
      * constructor; [by split|done].
    + destruct (Hv w Hw) as (sub & w1 & Er & Hw1).
      rewrite (bind_ok _ _ _ _ _ Er).
      set (h := GitObject.hash (Tree.object (Tree.new sub))).
      destruct (IH (es ++ [Tree.Entry "40000" name h]) w1 Hw1)
        as (es' & w' & E & Hw' & Hes).
      exists (Tree.Entry "40000" name h :: es'), w'.
      split; [|split; [done|]].
      * rewrite addEntry_new, E. by rewrite <- app_assoc.
      * constructor; [|done]. split; [done|]. split; [done|]. by exists sub.
Qed.

(** In a store whose directories exist and where no regular file is in
    the way, [createTreeRecursive] returns the id of a tree with one entry
    per entry of the dictionary, and leaves the object of that id in the
    store. *)
Lemma createTree_builds (v : JS.value) :
  match v with
  | JS.Str _ => True
  | JS.Obj props =>
      forall w, store_kept path w0 w ->
        exists es w',
          Repository.createTree path v w
          = (Ok (GitObject.hash (Tree.object (Tree.new es))), w')
          /\ store_kept path w0 w'
          /\ Forall2 entry_built props es
          /\ is_Some (files w' !! (Repository.objectsDir path
                        ++ [Str.slice_to 2 (GitObject.hash
                                              (Tree.object (Tree.new es)));
                            Str.slice_from 2 (GitObject.hash
                                                (Tree.object (Tree.new es)))]))
  end.
Proof.
  revert v. fix IH 1. intros [s|props]; [done|]. intros w Hw.
  cbn [Repository.createTree].
  destruct (createTree_loop_builds (Repository.createTree path) props)
    with (es := @nil Tree.entry) (w := w) as (es & w1 & E & Hw1 & Hes);
    [|done|].
  { induction props as [|[k v] props IHp]; constructor; [|exact IHp].
    cbn [snd]. pose proof (IH v) as Hv. destruct v as [s|sub]; [done|].
    intros w2 Hw2. destruct (Hv w2 Hw2) as (es2 & w3 & E3 & Hw3 & _).
    by eauto. }
  rewrite (bind_ok _ _ _ _ _ E). cbn [app].
  destruct Hw1 as (Hd & Hff & Hc & Hf).
  destruct (storeObject_total path (Tree.object (Tree.new es)) w1 Hd Hff)
    as (w' & Es & Hc' & Hf' & Hd' & Hff').
  exists es, w'. split; [done|]. split; [|split; [done|]].
  - split; [done|]. split; [done|]. split; [congruence|].
    intros p Hp. rewrite Hf' by done. by apply Hf.
  - pose proof (storeObject_run path (Tree.object (Tree.new es)) w1 Hd)
      as Hrun. cbv zeta in Hrun.
    set (h := GitObject.hash (Tree.object (Tree.new es))) in *.
    replace (Repository.objectsDir path
               ++ [Str.slice_to 2 h; Str.slice_from 2 h])
      with ((Repository.objectsDir path ++ [Str.slice_to 2 h])
              ++ [Str.slice_from 2 h]) by (by rewrite <- app_assoc).
    set (dir := Repository.objectsDir path ++ [Str.slice_to 2 h]) in *.
    set (file := dir ++ [Str.slice_from 2 h]) in *.
    rewrite Es in Hrun. clear Es E IH.
    destruct (files w1 !! file) as [n|] eqn:Efile.
    + exists n. injection Hrun as <-. exact Efile.
    + destruct (files w1 !! dir) as [[d|]|] eqn:Edir.
      * discriminate Hrun.
      * injection Hrun as ->. cbn [files]. rewrite lookup_insert_eq.
        by eexists.
      * injection Hrun as ->. cbn [files]. rewrite lookup_insert_eq.
        by eexists.
Qed.

End BuildTree.

Lemma entry_built_name (props : JS.object JS.value)
    (es : list Tree.entry) (e : Tree.entry) :
  Forall2 entry_built props es -> e ∈ es -> Tree.name e ∈ JS.keys props.
Proof.
  induction 1 as [|kv e1 props es [Hn1 _] _ IH]; intros He;
    [by apply elem_of_nil in He|].
  cbn [JS.keys map]. apply elem_of_cons in He as [->|He].
  - rewrite Hn1. by left.
  - right. by apply IH.
Qed.

(** The entry of a name in the tree that is built from a dictionary
    without a repeated key. *)
Lemma entry_built_unique (props : JS.object JS.value)
    (es : list Tree.entry) (name : string) (sub : JS.object JS.value) :
  Forall2 entry_built props es -> NoDup (JS.keys props) ->
  JS.get name props = Some (JS.Obj sub) ->
  exists t,
    Tree.Entry "40000" name (GitObject.hash (Tree.object (Tree.new t))) ∈ es
    /\ forall e, e ∈ es -> Tree.name e = name ->
         e = Tree.Entry "40000" name
               (GitObject.hash (Tree.object (Tree.new t))).
Proof.
  induction 1 as [|[k v] e props es [Hn Hv] Hrest IH]; intros Hnd Hget;
    [done|].
  cbn [JS.keys map fst] in Hnd. apply NoDup_cons in Hnd as [Hk Hnd].
  cbn [JS.get] in Hget. cbn [fst snd] in Hn, Hv.
  destruct (String.eqb_spec name k) as [->|Hne].
  - injection Hget as ->. destruct Hv as [Hm [t Ht]].
    assert (Ee : e = Tree.Entry "40000" k
                       (GitObject.hash (Tree.object (Tree.new t)))).
    { destruct e as [m n h]. cbn in Hn, Hm, Ht. by subst. }
    exists t. split; [rewrite <- Ee; by left|].
    intros e' He' Hn'. apply elem_of_cons in He' as [->|He']; [done|].
    exfalso. apply Hk. rewrite <- Hn'. by eapply entry_built_name.
  - destruct (IH Hnd Hget) as (t & Hin & Huniq). exists t.
    split; [by right|]. intros e' He' Hn'.
    apply elem_of_cons in He' as [->|He']; [congruence|]. by apply Huniq.
Qed.

Lemma fold_set_NoDup {V} (l : list (string * V)) (o : JS.object V) :
  NoDup (JS.keys o) ->
  NoDup (JS.keys (fold_left (fun acc kv => JS.set kv.1 kv.2 acc) l o)).
Proof.
  revert o. induction l as [|[k v] l IH]; intros o Hnd; [done|].
  cbn [fold_left]. by apply IH, set_NoDup.
Qed.

(** C4 (amended): building the tree reports no malformed-index error for a
    name that is both a file and a directory at the root level. When the
    index holds a path below [name], the store has its directories and no
    regular file is in the way of a directory of objects,
    [createTreeFromIndex] returns the id of a root tree that is then in
    the store; that tree has one entry of the name [name], the directory
    of mode 40000 under the id of a tree, whatever file of that name is
    staged. Nothing outside the object store changes and nothing is
    printed. *)
Theorem C4_root_directory_replaces_file `{Zlib} (path : FS.path) (w : world)
    (index : Index) (dirs : JS.object JS.value) (files_ : JS.object string)
    (key h name : string) (tail : list string) :
  Repository.loadIndex path w = (Ok index, w) ->
  Repository.group index [] [] = Ok (dirs, files_) ->
  (key, h) ∈ index -> Str.split "/" key = name :: tail -> tail <> [] ->
  dirs_exist (files w) (Repository.objectsDir path) ->
  fanout_free path (files w) ->
  exists (root sub : list Tree.entry) (w' : world),
    let rootHash := GitObject.hash (Tree.object (Tree.new root)) in
    let dirEntry :=
      Tree.Entry "40000" name (GitObject.hash (Tree.object (Tree.new sub))) in
    Repository.createTreeFromIndex path w = (Ok rootHash, w')
    /\ dirEntry ∈ root
    /\ (forall e, e ∈ root -> Tree.name e = name -> e = dirEntry)
    /\ is_Some (files w' !! (Repository.objectsDir path
                               ++ [Str.slice_to 2 rootHash;
                                   Str.slice_from 2 rootHash]))
    /\ console w' = console w
    /\ forall p, ~ below (Repository.objectsDir path) p ->
                 files w' !! p = files w !! p.
Proof.
  intros Hload Hgroup Hin Hsplit Htail Hd Hff.
  destruct (group_inv _ _ _ _ _ Hgroup) as (_ & Hnd & Hnf & _); [done|].
  destruct (group_dir _ _ _ _ _ _ _ _ _ Hgroup (fun _ _ => ltac:(done))
              Hin Hsplit Htail) as [s Hs].
  assert (Hget : JS.get name (Repository.rootEntries dirs files_)
                 = Some (JS.Obj s)).
  { apply fold_set_last; [|done]. apply Hnd. constructor. }
  assert (Hkeys : NoDup (JS.keys (Repository.rootEntries dirs files_))).
  { apply fold_set_NoDup. unfold JS.keys. rewrite map_map. cbn [fst].
    apply Hnf. constructor. }
  destruct (createTree_builds path w
              (JS.Obj (Repository.rootEntries dirs files_)) w)
    as (root & w' & E & (_ & _ & Hc & Hf) & Hes & Hfile); [done|].
  destruct (entry_built_unique _ _ _ _ Hes Hkeys Hget) as (sub & Hsub & Hu).
  exists root, sub, w'. cbv zeta. split; [|done].
  unfold Repository.createTreeFromIndex.
  rewrite (bind_ok _ _ _ _ _ Hload).
  destruct index as [|e index]; [by apply elem_of_nil in Hin|].
  rewrite Hgroup. exact E.
Qed.

Lemma C4_witness :
  exists (root sub : list Tree.entry) (w' : world),
    let rootHash := GitObject.hash (Tree.object (Tree.new root)) in
    let dirEntry :=
      Tree.Entry "40000" "a" (GitObject.hash (Tree.object (Tree.new sub))) in
    @Repository.createTreeFromIndex sample_zlib sample_path conflict_repo
    = (Ok rootHash, w')
    /\ dirEntry ∈ root
    /\ (forall e, e ∈ root -> Tree.name e = "a"%string -> e = dirEntry)
    /\ is_Some (files w' !! (Repository.objectsDir sample_path
                               ++ [Str.slice_to 2 rootHash;
                                   Str.slice_from 2 rootHash]))
    /\ console w' = console conflict_repo
    /\ forall p, ~ below (Repository.objectsDir sample_path) p ->
                 files w' !! p = files conflict_repo !! p.
Proof.
  apply (C4_root_directory_replaces_file (H := sample_zlib) sample_path
           conflict_repo conflict_index
           [("a"%string, JS.Obj [("b"%string, JS.Str id2)])]
           [("a"%string, id1)] "a/b" id2 "a" ["b"%string]).
  - apply reads_run; [apply reads_loadIndex|]. by vm_compute.
  - by vm_compute.
  - apply list_elem_of_In. right. by left.
  - reflexivity.
  - discriminate.
  - intros q Hq [k Hk].
    destruct q as [|a [|b [|c [|d q]]]]; vm_compute in Hk; simplify_eq/=;
      by vm_compute.
  - intros c data.
    assert (Ech : children (files conflict_repo)
                    (Repository.objectsDir sample_path) = [])
      by (by vm_compute).
    intros Hc.
    assert (Hin : c ∈ children (files conflict_repo)
                        (Repository.objectsDir sample_path)).
    { apply elem_of_children. by rewrite Hc. }
    pose proof (eq_ind _ (fun l => c ∈ l) Hin _ Ech) as Hnil.
    by apply elem_of_nil in Hnil.
Defined.
